(* ===== verification/_CoqProject ===== *)
-Q . S2P
Prelude.v
Error.v
Fees.v
State.v
PoolMath.v
Borsh.v
Layout.v
BigVec.v
Entries.v
Runtime.v
Checks.v
Concrete.v
Admin.v
Funds.v
ListAccess.v
DepositStake.v
WithdrawStake.v
Validators.v
Rebalance.v
UpdateList.v
UpdatePool.v
Initialize.v
Metadata.v
Instruction.v
Processor.v
Entrypoint.v
Keeps.v
Invariants.v
Books.v
Balanced.v
Builders.v
Built.v
Live.v
LiveStake.v
LiveCreate.v
Client.v
ConcreteClient.v
Plan.v
Output.v
Commands.v
Traced.v
Sends.v
Grammar.v
Arguments.v
Parsed.v
