(* ===== verification/Prelude.v ===== *)
(** * Verification of the stake pool program

    The program under src/program/src is an on-chain program that holds the stake of
    many users with many validators and issues a token for shares of it. This library
    translates it function by function and proves what its instructions do. The
    comment of every file names the source files it models; definitions carry the
    names of the Rust functions where these are not reserved words.

    ** The program and how its parts interact

    A pool is two accounts owned by the program. The pool account holds a [StakePool]
    (state.rs): addresses of its other accounts, the totals the exchange rate is
    computed from, the fees, some of them with delayed changes. The validator list
    account holds a header and a vector of fixed-size entries [ValidatorStakeInfo],
    read and written in place through [BigVec] (big_vec.rs) without decoding the whole
    account. The lamports are in stake accounts at addresses derived from the pool: a
    reserve, and for each validator an active and a transient account. An instruction
    (instruction.rs) is decoded by [Processor::process] (processor.rs), which runs its
    handler: the handler reads the accounts, checks them against the pool, invokes
    system, stake, token and metadata programs, and writes pool and list back.

    ** The files, in the order they are built

    - Prelude: machine integers (an unsigned integer is a [Z] in range, [checked_*] and
      [saturating_*] operations as Rust has them), slices, the tactics and hint
      databases all files share.
    - Error (error.rs): the error codes, and [outcome]: a value, an error, or a panic.
    - Fees (state.rs, lib.rs): [Fee], [FutureEpoch], [FeeType].
    - State (state.rs): [StakePool] with its exchange-rate and fee computations, the
      status byte of entries, [ValidatorStakeInfo], [ValidatorListHeader].
    - PoolMath: what the exchange rate guarantees, on the definitions of State.
    - Borsh, Layout: the wire format. A [Codec] is an encoder, a decoder and the values
      of the right type; the class [CodecOk] states that they are inverse in both
      directions, and every component that reads or writes bytes is proved against it.
    - BigVec, Entries (big_vec.rs): the vector on bytes with its [memmove] bookkeeping,
      and its refinement to operations on lists of entries; the accounts byte by byte.
    - Runtime: the ledger (a finite map from addresses to accounts), the data borrows
      of a handler, its state and error monad [M], and the class [Runtime] whose fields
      are the code outside the repository.
    - Checks (processor.rs, state.rs, lib.rs): derived addresses, account checks, and
      the wrappers around invocations.
    - Concrete: one executable instance of [Runtime] and a pool in it, at which every
      theorem with hypotheses is applied; its invocations fail unless the accounts they
      work on are passed and whoever has to sign did.
    - Admin, Funds, ListAccess, DepositStake, WithdrawStake, Validators, Rebalance,
      UpdateList, UpdatePool, Initialize, Metadata (processor.rs,
      inline_mpl_token_metadata.rs): the handlers, each a whole function of the source
      with its checks in their order. Long handlers are cut where the source has a
      block of its own; the pieces are composed as the block was.
    - Instruction (instruction.rs): the instruction enum and its encoding.
    - Processor (processor.rs): the dispatch. Entrypoint (entrypoint.rs, processor.rs):
      process_instruction and the message it logs for each error.
    - Keeps, Invariants: what every handler keeps of the ledger and of a pool, by one
      lemma per handler, and the life of a pool under any sequence of calls. Books: the
      lamports held for a pool and what each invocation of a handler does to them.
      Balanced: the recorded total against the lamports held, call by call.
    - Builders (instruction.rs): the functions clients build instructions with. Built:
      what they build against what the handlers demand. Live, LiveStake, LiveCreate:
      calls that cannot be blocked (deposits and withdrawals of SOL, withdrawals of
      stake, the creation of a pool).
    - Client (clients/cli/src/client.rs, main.rs): requests, transactions and the state
      of the command line client; ConcreteClient: an instance of its parameters.
    - Output (clients/cli/src/output.rs): the records the listings print, how they are
      made of a pool and its list, and their texts.
    - Plan, Commands (clients/cli/src/main.rs): the plan of a stake withdrawal, and every
      command from parsed arguments; the two listings return the record they print.
      Traced, Sends: what commands hand over.
    - Grammar, Arguments (clients/cli/src/main.rs): the arguments main declares, as data
      in the order of the source, and what main makes of the matches clap returns, down
      to the run of a command. Parsed: what that can come to.

    ** How code is modelled

    A handler is a function [M unit], that is [RState -> outcome (unit * RState)], where
    [RState] is the ledger, the set of accounts whose data the handler has borrowed
    mutably, and the log of invocations that succeeded. Two [AccountInfo] with the same
    key share the account, so aliasing of accounts is part of every theorem. A borrow
    of borrowed data panics as [RefCell] does; an error or a panic rolls the
    transaction back, so it carries no state. Logging ([msg!]) is left out. Integers
    are [Z] with the width at every operation that can leave it. No handler needs
    fuel: the loops are structural recursions over lists of accounts or entries, and the loop
    of [BigVec::retain] over offsets recurses on the number of entries.

    Code outside the repository is a parameter: the class [Runtime] holds the sysvars,
    address derivation, the account formats of the stake and token programs, and
    [cpi_exec], the effect of an invocation on the ledger. The class [RuntimeLaws]
    states what the proofs rely on: an account whose data the caller has borrowed
    mutably comes back unchanged from an invocation, values read from accounts have
    their Rust types, lamports stay [u64]. No theorem assumes what an invoked program
    does beyond that; theorems that speak of lamports moved or tokens minted state the
    sequence of invocations made ([invokes], [cpi_log]). The derived serializers are
    written out from the field order of the types, as the derive macros define them.
    Invariants adds the class [ProgramLaws]: an invoked program leaves alone the accounts
    the stake pool program owns. The builders take the class [Sysvars], addresses of
    sysvars and the stake program's builder of authorize instructions.

    A command of the client is a function from [CState] to a [reply] and a [CState]:
    unlike a transaction it keeps what it has done when it fails, so the state comes
    back with every reply. [CState] counts the requests and the generated keypairs and
    lists the transactions handed over. The class [RpcClient] answers a request by its
    number, so that nothing is assumed of the chain between two requests; the class
    [Sdk] holds number conversions, account layouts, the builders of other programs,
    what can be signed, and the overflow setting of the build, on which plain
    arithmetic depends. The arguments take the class [ClapUtils]: the texts the
    validators of solana-clap-utils accept, the keys and signers texts stand for, and
    the configuration files; that the matches fit the declared grammar is a condition on
    them ([respects]), and the class [ClapLaws] says that a text the validators let
    through can be read. The class [Texts] holds the texts of keys, SOL amounts and
    floats. The one unbounded loop, the search of command_vsa_add, takes
    fuel: Sends shows that one round is enough whenever the reserve exists, and that
    2^32 rounds are not enough otherwise.

    ** What the theorems show

    - Value: deposits and withdrawals of SOL and of stake never lower the value of a
      share, the tokens minted and burnt and the lamports paid are those the pool
      records (Funds, DepositStake, WithdrawStake, PoolMath); the pool's total after
      UpdateStakePoolBalance is the reserve above its minimum plus all recorded stake
      (UpdatePool).
    - Authority: a successful call ran exactly one decoded instruction with the
      signature the pool demands (Processor, Admin); instructions anyone may call only
      move stake between the pool's own accounts (UpdateList).
    - Bookkeeping: each instruction on the list changes the entries it names and no
      other, keeps vote accounts distinct, and follows the status machine of removal
      (Validators, Rebalance, UpdateList, UpdatePool, State).
    - Limits: minimum balances, stake limits, withdrawal order, fee limits and delays.
    - Life: a pool Initialize made stays sound (fees at most one, its list, reserve and
      mint unchanged) through any sequence of calls and of other events (Invariants).
    - Backing: the lamports held for a pool are those of its reserve and of its derived
      stake accounts. No call raises the recorded total by more than it brings in or
      lowers the lamports held by more than it takes off the total, but
      UpdateStakePoolBalance, which sets the total within the lamports held when the
      entries record no more than their accounts hold; so a pool whose total is covered
      stays covered through any sequence of such calls (Balanced).
    - Progress: for a pool that is up to date, the deposits and withdrawals of SOL and
      the withdrawals of stake a client builds succeed when the amounts exist and the
      invoked programs accept the exact calls made ([willing]: each instruction with the
      accounts and the signer seeds the handler passes) (Live, LiveStake), and Initialize
      succeeds on the accounts create-pool prepares (LiveCreate).
    - Clients: the built instructions decode, are addressed and signed as the handlers
      demand; those of an update cover the list and bring it up to date (Built). The
      commands hand over only what they stand for, nothing under --dry-run, and the
      update in its order; a stake withdrawal follows the greedy plan and approves what
      it withdraws (Traced, Sends, Plan). From arguments of the declared grammar main
      runs the command of the subcommand, each part and each setting read from its own
      argument ([expressed], [configured]), and panics before it in one case only
      (Parsed).
    - Errors: a failed call logs the message of its error and no other (Entrypoint).
    - Representation: the accounts at fixed bytes and offsets (Entries), round trips of
      instructions, [BigVec] as a list, derived addresses never sharing their seeds.
    - Deviations, as concrete runs or theorems: a list account initialized as a pool when
      its capacity is a multiple of 256 (and refused otherwise, Initialize), the
      fee limit passed by overflow, slippage not checked again for whole accounts, the
      stake limit exceeded by the rent; in the client the search that asks for the wrong
      account, a comparison of lamports with tokens, a division by a zero fee, a token
      account created though another was given, and a panic on a missing new staker.

    ** What is not modelled

    The entrypoint macro, the security text and the texts of the error enum; clap itself,
    which turns a command line into matches, and the JSON forms serde derives for the
    listings; println!, and the progress messages of the commands; the clients in other
    languages. Compute limits and the loader's checks of a transaction are the
    runtime's.

    ** Next

    Progress of the stake deposits, of the moves of the staker and of the updates; the
    transactions of the client run by the program (the commands composed with Built),
    create-pool with the accounts LiveCreate asks for, and arguments for every command. *)
From Stdlib Require Export ZArith Lia Bool.
From stdpp Require Export base numbers list gmap tactics.
#[export] Set Default Goal Selector "!".
Open Scope Z_scope.

(** ** Scope and hint databases of the development *)
Declare Scope sp_scope.
Delimit Scope sp_scope with sp.

(** [sp_math] closes side conditions about machine integers, [sp_wp] holds the
    weakest-precondition rules of the handler primitives. *)
Create HintDb sp_math discriminated.
Create HintDb sp_wp discriminated.

(** ** Machine integers
    An unsigned integer of width [w] is a [Z] between 0 and [2^w - 1]; the
    arithmetic below is that of Rust's [checked_*], [saturating_*] and
    [try_from] on unsigned integers. *)
Definition in_range (w v : Z) : Prop := 0 <= v < 2 ^ w.

#[export] Instance in_range_dec w v : Decision (in_range w v) := _.

(** [uN::try_from] of a wider integer, and the test every checked operation makes. *)
Definition fit (w v : Z) : option Z :=
  if (0 <=? v) && (v <? 2 ^ w) then Some v else None.

Definition checked_add (w a b : Z) : option Z := fit w (a + b).
Definition checked_sub (w a b : Z) : option Z := fit w (a - b).
Definition checked_mul (w a b : Z) : option Z := fit w (a * b).
Definition checked_div (a b : Z) : option Z := if b =? 0 then None else Some (a / b).
Definition checked_rem (a b : Z) : option Z := if b =? 0 then None else Some (a mod b).
Definition saturating_add (w a b : Z) : Z := Z.min (a + b) (2 ^ w - 1).
Definition saturating_sub (a b : Z) : Z := Z.max (a - b) 0.
Definition saturating_mul (w a b : Z) : Z := Z.min (a * b) (2 ^ w - 1).
Definition saturating_div (a b : Z) : Z := a / b.

Definition u64_max : Z := 2 ^ 64 - 1.

(** The derived order on [Option<u128>]: [None] is below every [Some]. *)
Definition option_ltb (a b : option Z) : bool :=
  match a, b with
  | None, Some _ => true
  | Some x, Some y => x <? y
  | _, None => false
  end.

Lemma fit_Some w v r : fit w v = Some r <-> r = v /\ in_range w v.
Proof.
  unfold fit, in_range. destruct (0 <=? v) eqn:E1; destruct (v <? 2 ^ w) eqn:E2; simpl;
  (split; [intros H; try discriminate H; injection H as <-; lia | intros [-> H]; try reflexivity; lia]).
Qed.

Lemma fit_None w v : fit w v = None <-> ~ in_range w v.
Proof.
  unfold fit, in_range. destruct (0 <=? v) eqn:E1; destruct (v <? 2 ^ w) eqn:E2; simpl;
  (split; [intros H; try discriminate H; lia | intros H; try reflexivity; exfalso; lia]).
Qed.

Lemma fit_in_range w v : in_range w v -> fit w v = Some v.
Proof. intros H. apply fit_Some. auto. Qed.

Lemma checked_add_Some w a b r : checked_add w a b = Some r <-> r = a + b /\ in_range w (a + b).
Proof. apply fit_Some. Qed.
Lemma checked_sub_Some w a b r : checked_sub w a b = Some r <-> r = a - b /\ in_range w (a - b).
Proof. apply fit_Some. Qed.
Lemma checked_mul_Some w a b r : checked_mul w a b = Some r <-> r = a * b /\ in_range w (a * b).
Proof. apply fit_Some. Qed.
Lemma checked_div_Some a b r : checked_div a b = Some r <-> b <> 0 /\ r = a / b.
Proof.
  unfold checked_div. destruct (Z.eqb_spec b 0); split; intros H;
  [discriminate | lia | injection H as <-; auto | destruct H as [_ ->]; auto].
Qed.

(** The product and the sum of 64-bit operands always fit in 128 bits. *)
Lemma mul_64_128 a b : in_range 64 a -> in_range 64 b -> in_range 128 (a * b).
Proof. unfold in_range. change (2 ^ 128) with (2 ^ 64 * 2 ^ 64). nia. Qed.

Lemma add_64_128 a b : in_range 64 a -> in_range 64 b -> in_range 128 (a + b).
Proof. unfold in_range. change (2 ^ 128) with (2 ^ 64 * 2 ^ 64). lia. Qed.

#[export] Hint Resolve mul_64_128 add_64_128 fit_in_range : sp_math.

(** Opens every checked operation found to be [Some] or [None] in the context. *)
Ltac checked_inv :=
  repeat match goal with
  | H : checked_add _ _ _ = Some _ |- _ => apply checked_add_Some in H as [? ?]; subst
  | H : checked_sub _ _ _ = Some _ |- _ => apply checked_sub_Some in H as [? ?]; subst
  | H : checked_mul _ _ _ = Some _ |- _ => apply checked_mul_Some in H as [? ?]; subst
  | H : checked_div _ _ = Some _ |- _ => apply checked_div_Some in H as [? ?]; subst
  | H : fit _ _ = Some _ |- _ => apply fit_Some in H as [? ?]; subst
  | H : fit _ _ = None |- _ => apply fit_None in H
  | H : checked_add _ _ _ = None |- _ => unfold checked_add in H
  | H : checked_sub _ _ _ = None |- _ => unfold checked_sub in H
  | H : checked_mul _ _ _ = None |- _ => unfold checked_mul in H
  end.

(** Opens existentials and conjunctions; [skip n H] drops the first [n] conjuncts. *)
Ltac deex :=
  repeat match goal with
  | D : _ /\ _ |- _ => destruct D
  | D : ex _ |- _ => let y := fresh "y" in destruct D as [y D]
  end.
Tactic Notation "skip" integer(n) ident(H) := do n (apply proj2 in H).

(** The early return of Rust's [?] on an [Option]. *)
Notation "'let?' x := o 'in' k" := (match o with Some x => k | None => None end)
  (at level 10, x name, o at level 100, k at level 200) : sp_scope.
Open Scope sp_scope.

(** ** List facts shared by the byte-level components *)
Section ListFacts.
Context {A : Type}.
Implicit Types (l : list A).

(** A slice [l[i..j]]; [None] stands for the out-of-range panic. *)
Definition slice (i j : nat) l : option (list A) :=
  if (i <=? j)%nat && (j <=? length l)%nat then Some (take (j - i) (drop i l)) else None.

(** Overwrites [l] from index [i] with [new]. *)
Definition splice (i : nat) (new : list A) l : list A :=
  take i l ++ new ++ drop (i + length new) l.

Lemma slice_Some i j l r :
  slice i j l = Some r <-> (i <= j <= length l)%nat /\ r = take (j - i) (drop i l).
Proof.
  unfold slice. destruct (i <=? j)%nat eqn:E1; destruct (j <=? length l)%nat eqn:E2; simpl;
  (split; [intros H; try discriminate H; injection H as <- | intros [H ->]; try reflexivity]); try split;
  rewrite ?Nat.leb_le, ?Nat.leb_gt in *; try reflexivity; try lia.
Qed.

Lemma length_slice i j l r : slice i j l = Some r -> length r = (j - i)%nat.
Proof. intros [H ->]%slice_Some. rewrite length_take, length_drop. lia. Qed.

Lemma length_splice i new l :
  (i + length new <= length l)%nat -> length (splice i new l) = length l.
Proof. intros H. unfold splice. rewrite !length_app, length_take, length_drop. lia. Qed.

Lemma splice_app pre old new post :
  length old = length new -> splice (length pre) new (pre ++ old ++ post) = pre ++ new ++ post.
Proof.
  intros H. unfold splice. rewrite take_app_length. f_equal. f_equal.
  rewrite (app_assoc pre). rewrite drop_app_length'; [done|]. rewrite length_app. lia.
Qed.
End ListFacts.
