(* ===== verification/Error.v ===== *)
(** * Errors (program/src/error.rs)
    [StakePoolError] with the discriminants the [as u32] conversion gives, the
    [ProgramError] values the program returns, and the three-way [outcome] of
    a Rust call: a value, an error that rolls the transaction back, or a panic. *)
From S2P Require Import Prelude.

Inductive StakePoolError : Type :=
| AlreadyInUse
| InvalidProgramAddress
| InvalidState
| CalculationFailure
| FeeTooHigh
| WrongAccountMint
| WrongManager
| SignatureMissing
| InvalidValidatorStakeList
| InvalidFeeAccount
| WrongPoolMint
| WrongStakeStake
| UserStakeNotActive
| ValidatorAlreadyAdded
| ValidatorNotFound
| InvalidStakeAccountAddress
| StakeListOutOfDate
| StakeListAndPoolOutOfDate
| UnknownValidatorStakeAccount
| WrongMintingAuthority
| UnexpectedValidatorListAccountSize
| WrongStaker
| NonZeroPoolTokenSupply
| StakeLamportsNotEqualToMinimum
| IncorrectDepositVoteAddress
| IncorrectWithdrawVoteAddress
| InvalidMintFreezeAuthority
| FeeIncreaseTooHigh
| WithdrawalTooSmall
| DepositTooSmall
| InvalidStakeDepositAuthority
| InvalidSolDepositAuthority
| InvalidPreferredValidator
| TransientAccountInUse
| InvalidSolWithdrawAuthority
| SolWithdrawalTooLarge
| InvalidMetadataAccount
| UnsupportedMintExtension
| UnsupportedFeeAccountExtension
| ExceededSlippage
| IncorrectMintDecimals
| ReserveDepleted
| MissingRequiredSysvar
| EpochRewardDistributionInProgress
| TooManyValidatorsInPool
| ExceedsMaxValidatorStake.

#[export] Instance StakePoolError_eq_dec : EqDecision StakePoolError.
Proof. solve_decision. Defined.

(** [e as u32]: the position of the variant in the enum. *)
Definition discriminant (e : StakePoolError) : Z :=
  match e with
  | AlreadyInUse => 0
  | InvalidProgramAddress => 1
  | InvalidState => 2
  | CalculationFailure => 3
  | FeeTooHigh => 4
  | WrongAccountMint => 5
  | WrongManager => 6
  | SignatureMissing => 7
  | InvalidValidatorStakeList => 8
  | InvalidFeeAccount => 9
  | WrongPoolMint => 10
  | WrongStakeStake => 11
  | UserStakeNotActive => 12
  | ValidatorAlreadyAdded => 13
  | ValidatorNotFound => 14
  | InvalidStakeAccountAddress => 15
  | StakeListOutOfDate => 16
  | StakeListAndPoolOutOfDate => 17
  | UnknownValidatorStakeAccount => 18
  | WrongMintingAuthority => 19
  | UnexpectedValidatorListAccountSize => 20
  | WrongStaker => 21
  | NonZeroPoolTokenSupply => 22
  | StakeLamportsNotEqualToMinimum => 23
  | IncorrectDepositVoteAddress => 24
  | IncorrectWithdrawVoteAddress => 25
  | InvalidMintFreezeAuthority => 26
  | FeeIncreaseTooHigh => 27
  | WithdrawalTooSmall => 28
  | DepositTooSmall => 29
  | InvalidStakeDepositAuthority => 30
  | InvalidSolDepositAuthority => 31
  | InvalidPreferredValidator => 32
  | TransientAccountInUse => 33
  | InvalidSolWithdrawAuthority => 34
  | SolWithdrawalTooLarge => 35
  | InvalidMetadataAccount => 36
  | UnsupportedMintExtension => 37
  | UnsupportedFeeAccountExtension => 38
  | ExceededSlippage => 39
  | IncorrectMintDecimals => 40
  | ReserveDepleted => 41
  | MissingRequiredSysvar => 42
  | EpochRewardDistributionInProgress => 43
  | TooManyValidatorsInPool => 44
  | ExceedsMaxValidatorStake => 45
  end.

(** All variants in declaration order. *)
Definition all_errors : list StakePoolError :=
  [ AlreadyInUse; InvalidProgramAddress; InvalidState; CalculationFailure; FeeTooHigh; WrongAccountMint; WrongManager; SignatureMissing; InvalidValidatorStakeList; InvalidFeeAccount; WrongPoolMint; WrongStakeStake; UserStakeNotActive; ValidatorAlreadyAdded; ValidatorNotFound; InvalidStakeAccountAddress; StakeListOutOfDate; StakeListAndPoolOutOfDate; UnknownValidatorStakeAccount; WrongMintingAuthority; UnexpectedValidatorListAccountSize; WrongStaker; NonZeroPoolTokenSupply; StakeLamportsNotEqualToMinimum; IncorrectDepositVoteAddress; IncorrectWithdrawVoteAddress; InvalidMintFreezeAuthority; FeeIncreaseTooHigh; WithdrawalTooSmall; DepositTooSmall; InvalidStakeDepositAuthority; InvalidSolDepositAuthority; InvalidPreferredValidator; TransientAccountInUse; InvalidSolWithdrawAuthority; SolWithdrawalTooLarge; InvalidMetadataAccount; UnsupportedMintExtension; UnsupportedFeeAccountExtension; ExceededSlippage; IncorrectMintDecimals; ReserveDepleted; MissingRequiredSysvar; EpochRewardDistributionInProgress; TooManyValidatorsInPool; ExceedsMaxValidatorStake ].

(** [FromPrimitive::from_u32], derived on the enum. *)
Definition error_from_u32 (n : Z) : option StakePoolError :=
  if n <? 0 then None else all_errors !! Z.to_nat n.

(** The values of [ProgramError] the program names, [Custom] among them;
    [OtherProgramError] stands for those only called programs return. *)
Inductive ProgramError : Type :=
| Custom (code : Z)
| InvalidArgument
| InvalidInstructionData
| InvalidAccountData
| AccountDataTooSmall
| InsufficientFunds
| IncorrectProgramId
| NotEnoughAccountKeys
| AccountBorrowFailed
| AccountNotRentExempt
| InvalidSeeds
| BorshIoError
| OtherProgramError (code : Z).

#[export] Instance ProgramError_eq_dec : EqDecision ProgramError.
Proof. solve_decision. Defined.

(** [impl From<StakePoolError> for ProgramError]. *)
Definition into_program_error (e : StakePoolError) : ProgramError := Custom (discriminant e).

(** ** The outcome of a Rust call *)
Inductive outcome (A : Type) : Type :=
| Ok (a : A)
| Err (e : ProgramError)
| Panic.
Arguments Ok {A} a.
Arguments Err {A} e.
Arguments Panic {A}.

#[export] Instance outcome_eq_dec A `{EqDecision A} : EqDecision (outcome A).
Proof. solve_decision. Defined.

(** [Err(StakePoolError::X.into())]. *)
Definition fail_with {A} (e : StakePoolError) : outcome A := Err (into_program_error e).

(** [opt.ok_or(e)?] with either kind of error. *)
Definition ok_or {A} (o : option A) (e : ProgramError) : outcome A :=
  match o with Some a => Ok a | None => Err e end.
Definition ok_or_sp {A} (o : option A) (e : StakePoolError) : outcome A :=
  ok_or o (into_program_error e).

Definition obind {A B} (o : outcome A) (k : A -> outcome B) : outcome B :=
  match o with Ok a => k a | Err e => Err e | Panic => Panic end.

Notation "'let*' p := o 'in' k" := (obind o (fun p => k))
  (at level 10, p pattern, o at level 100, k at level 200) : sp_scope.

Definition is_ok {A} (o : outcome A) : bool := match o with Ok _ => true | _ => false end.
Definition is_err {A} (o : outcome A) : bool := match o with Err _ => true | _ => false end.

Lemma Ok_inj {A} (a b : A) : Ok a = Ok b -> a = b.
Proof. congruence. Qed.

Lemma obind_Ok {A B} (o : outcome A) (k : A -> outcome B) b :
  obind o k = Ok b <-> exists a, o = Ok a /\ k a = Ok b.
Proof.
  destruct o; simpl; split.
  - eauto.
  - intros (x & [= <-] & H). exact H.
  - discriminate.
  - intros (x & H & _). discriminate.
  - discriminate.
  - intros (x & H & _). discriminate.
Qed.

Lemma ok_or_Ok {A} (o : option A) e a : ok_or o e = Ok a <-> o = Some a.
Proof. destruct o; simpl; split; congruence. Qed.

Lemma ok_or_sp_Ok {A} (o : option A) e a : ok_or_sp o e = Ok a <-> o = Some a.
Proof. apply ok_or_Ok. Qed.

Lemma all_errors_lookup e : error_from_u32 (discriminant e) = Some e.
Proof. destruct e; reflexivity. Qed.

Lemma discriminant_nonneg e : 0 <= discriminant e < 46.
Proof. destruct e; simpl; lia. Qed.

#[export] Instance discriminant_inj : Inj (=) (=) discriminant.
Proof.
  intros e1 e2 H. apply (f_equal error_from_u32) in H.
  rewrite !all_errors_lookup in H. congruence.
Qed.
