(* ===== verification/Fees.v ===== *)
(** * Fees and epoch-delayed values (program/src/state.rs)
    [Fee], [FutureEpoch] and [FeeType] with their operations, the rounding and
    bound lemmas of [Fee::apply], and what [Fee::check_withdrawal] accepts. *)
From S2P Require Import Prelude Error.

(** ** [Fee] *)
Record Fee := mkFee { denominator : Z; numerator : Z }.

#[export] Instance Fee_eq_dec : EqDecision Fee.
Proof. solve_decision. Defined.

Definition Fee_default : Fee := mkFee 0 0.

Definition wf_Fee (f : Fee) : Prop := in_range 64 (denominator f) /\ in_range 64 (numerator f).

(** lib.rs: the withdrawal fee limits. *)
Definition MAX_WITHDRAWAL_FEE_INCREASE : Fee := {| numerator := 3; denominator := 2 |}.
Definition WITHDRAWAL_BASELINE_FEE : Fee := {| numerator := 1; denominator := 1000 |}.

Definition Fee_apply (self : Fee) (amt : Z) : option Z :=
  if denominator self =? 0 then Some 0 else
  let? num := checked_mul 128 amt (numerator self) in
  let denom := denominator self in
  let? x := checked_add 128 num denom in
  let? y := checked_sub 128 x 1 in
  checked_div y denom.

(** The comparison is between [Option<u128>] values: the second [checked_mul]
    of each side sits under [map], so its overflow does not reach [ok_or]. *)
Definition Fee_check_withdrawal (self old_withdrawal_fee : Fee) : outcome unit :=
  let '(old_num, old_denom) :=
    if (denominator old_withdrawal_fee =? 0) || (numerator old_withdrawal_fee =? 0)
    then (numerator WITHDRAWAL_BASELINE_FEE, denominator WITHDRAWAL_BASELINE_FEE)
    else (numerator old_withdrawal_fee, denominator old_withdrawal_fee) in
  let* lhs := ok_or_sp
    (option_map (fun x => checked_mul 128 x (numerator MAX_WITHDRAWAL_FEE_INCREASE))
       (checked_mul 128 old_num (denominator self))) CalculationFailure in
  let* rhs := ok_or_sp
    (option_map (fun x => checked_mul 128 x (denominator MAX_WITHDRAWAL_FEE_INCREASE))
       (checked_mul 128 (numerator self) old_denom)) CalculationFailure in
  if option_ltb lhs rhs then fail_with FeeIncreaseTooHigh else Ok tt.

(** ** [FutureEpoch] *)
Inductive FutureEpoch (T : Type) : Type :=
| FutureNone
| One (v : T)
| Two (v : T).
Arguments FutureNone {T}.
Arguments One {T} v.
Arguments Two {T} v.

#[export] Instance FutureEpoch_eq_dec T `{EqDecision T} : EqDecision (FutureEpoch T).
Proof. solve_decision. Defined.

Definition FutureEpoch_new {T} (value : T) : FutureEpoch T := Two value.

Definition update_epoch {T} (self : FutureEpoch T) : FutureEpoch T :=
  match self with
  | FutureNone => FutureNone
  | One _ => FutureNone
  | Two v => One v
  end.

Definition FutureEpoch_get {T} (self : FutureEpoch T) : option T :=
  match self with
  | FutureNone | Two _ => None
  | One v => Some v
  end.

(** [impl From<FutureEpoch<T>> for Option<T>]. *)
Definition FutureEpoch_into_option {T} (v : FutureEpoch T) : option T :=
  match v with
  | FutureNone => None
  | One inner | Two inner => Some inner
  end.

(** ** [FeeType] *)
Inductive FeeType : Type :=
| SolReferral (pct : Z)
| StakeReferral (pct : Z)
| EpochFee (fee : Fee)
| StakeWithdrawal (fee : Fee)
| SolDeposit (fee : Fee)
| StakeDeposit (fee : Fee)
| SolWithdrawal (fee : Fee).

#[export] Instance FeeType_eq_dec : EqDecision FeeType.
Proof. solve_decision. Defined.

Definition check_too_high (self : FeeType) : outcome unit :=
  let too_high :=
    match self with
    | SolReferral pct => 100 <? pct
    | StakeReferral pct => 100 <? pct
    | EpochFee fee => denominator fee <? numerator fee
    | StakeWithdrawal fee => denominator fee <? numerator fee
    | SolWithdrawal fee => denominator fee <? numerator fee
    | SolDeposit fee => denominator fee <? numerator fee
    | StakeDeposit fee => denominator fee <? numerator fee
    end in
  if too_high then fail_with FeeTooHigh else Ok tt.

Definition can_only_change_next_epoch (self : FeeType) : bool :=
  match self with
  | StakeWithdrawal _ | SolWithdrawal _ | EpochFee _ => true
  | _ => false
  end.

(** ** Rounding of [Fee::apply] *)

(** A fee of at most one, the condition [check_too_high] and [Initialize] enforce. *)
Definition fee_le_one (f : Fee) : Prop := numerator f <= denominator f.

(** The rational ceiling of [amt * numerator / denominator], 0 for a zero denominator. *)
Definition ceil_div (a b : Z) : Z := (a + b - 1) / b.

Lemma ceil_div_bounds a b : 0 < b -> a <= b * ceil_div a b < a + b.
Proof. intros Hb. unfold ceil_div. Z.div_mod_to_equations. nia. Qed.

Lemma ceil_div_le a b c : 0 < b -> a <= b * c -> ceil_div a b <= c.
Proof. intros Hb H. pose proof (ceil_div_bounds a b Hb). nia. Qed.

Lemma ceil_div_nonneg a b : 0 < b -> 0 <= a -> 0 <= ceil_div a b.
Proof. intros Hb H. pose proof (ceil_div_bounds a b Hb). nia. Qed.

(** The value [Fee::apply] computes, without the 128-bit guards. *)
Definition fee_of (f : Fee) (amt : Z) : Z :=
  if denominator f =? 0 then 0 else ceil_div (amt * numerator f) (denominator f).

Lemma Fee_apply_total f amt :
  wf_Fee f -> in_range 64 amt -> Fee_apply f amt = Some (fee_of f amt).
Proof.
  intros [Hd Hn] Ha. unfold Fee_apply, fee_of.
  destruct (Z.eqb_spec (denominator f) 0) as [|Hd0]; [done|].
  pose proof (mul_64_128 _ _ Ha Hn) as Hm.
  unfold checked_mul. rewrite (fit_in_range _ _ Hm).
  assert (Hs : in_range 128 (amt * numerator f + denominator f)).
  { unfold in_range in *. change (2 ^ 128) with (2 ^ 64 * 2 ^ 64). nia. }
  unfold checked_add. rewrite (fit_in_range _ _ Hs).
  unfold checked_sub. rewrite (fit_in_range 128 (amt * numerator f + denominator f - 1)).
  2:{ unfold in_range in *. nia. }
  unfold checked_div, ceil_div. destruct (Z.eqb_spec (denominator f) 0); done.
Qed.

Lemma fee_of_nonneg f amt : wf_Fee f -> 0 <= amt -> 0 <= fee_of f amt.
Proof.
  intros [Hd Hn] Ha. unfold fee_of, in_range in *.
  destruct (Z.eqb_spec (denominator f) 0); [lia|].
  apply ceil_div_nonneg; [lia|]. apply Z.mul_nonneg_nonneg; lia.
Qed.

Lemma fee_of_le f amt : wf_Fee f -> fee_le_one f -> 0 <= amt -> fee_of f amt <= amt.
Proof.
  intros [Hd Hn] H1 Ha. unfold fee_of, in_range, fee_le_one in *.
  destruct (Z.eqb_spec (denominator f) 0); [lia|]. apply ceil_div_le; [lia|].
  rewrite (Z.mul_comm (denominator f)). apply Z.mul_le_mono_nonneg_l; lia.
Qed.

#[export] Hint Resolve fee_of_nonneg fee_of_le : sp_math.

(** ** What [check_withdrawal] accepts when nothing overflows *)
Definition effective_old_fee (old : Fee) : Fee :=
  if (denominator old =? 0) || (numerator old =? 0) then WITHDRAWAL_BASELINE_FEE else old.

(** The ratio the comment of [check_withdrawal] states: new / old <= 3 / 2. *)
Definition fee_increase_ok (new old : Fee) : Prop :=
  let o := effective_old_fee old in
  numerator new * denominator o * 2 <= numerator o * denominator new * 3.

Lemma effective_old_fee_wf old : wf_Fee old -> wf_Fee (effective_old_fee old).
Proof.
  unfold effective_old_fee. intros H. destruct (_ || _); [|exact H].
  split; unfold in_range; simpl; lia.
Qed.

Lemma check_withdrawal_unfold new old :
  Fee_check_withdrawal new old =
  let o := effective_old_fee old in
  let* lhs := ok_or_sp (option_map (fun x => checked_mul 128 x 3)
                 (checked_mul 128 (numerator o) (denominator new))) CalculationFailure in
  let* rhs := ok_or_sp (option_map (fun x => checked_mul 128 x 2)
                 (checked_mul 128 (numerator new) (denominator o))) CalculationFailure in
  if option_ltb lhs rhs then fail_with FeeIncreaseTooHigh else Ok tt.
Proof.
  unfold Fee_check_withdrawal, effective_old_fee.
  destruct ((denominator old =? 0) || (numerator old =? 0)); reflexivity.
Qed.

Lemma check_withdrawal_value new old :
  wf_Fee new -> wf_Fee old ->
  Fee_check_withdrawal new old =
  if option_ltb (checked_mul 128 (numerator (effective_old_fee old) * denominator new) 3)
                (checked_mul 128 (numerator new * denominator (effective_old_fee old)) 2)
  then fail_with FeeIncreaseTooHigh else Ok tt.
Proof.
  intros [Hnd Hnn] Ho. apply effective_old_fee_wf in Ho as [Hod Hon].
  rewrite check_withdrawal_unfold. cbv zeta.
  assert (E1 : checked_mul 128 (numerator (effective_old_fee old)) (denominator new) =
               Some (numerator (effective_old_fee old) * denominator new))
    by (apply fit_in_range; auto with sp_math).
  assert (E2 : checked_mul 128 (numerator new) (denominator (effective_old_fee old)) =
               Some (numerator new * denominator (effective_old_fee old)))
    by (apply fit_in_range; auto with sp_math).
  rewrite E1, E2. reflexivity.
Qed.

(** ** Properties *)

(** A fee of at most one never overflows, charges between nothing and the
    whole amount, and is the exact ceiling of [amt * numerator / denominator]. *)
Theorem fee_apply_spec f amt :
  wf_Fee f -> fee_le_one f -> in_range 64 amt ->
  exists r, Fee_apply f amt = Some r /\ 0 <= r <= amt /\
    (denominator f <> 0 ->
     amt * numerator f <= r * denominator f < amt * numerator f + denominator f) /\
    (denominator f = 0 -> r = 0).
Proof.
  intros Hf H1 Ha. exists (fee_of f amt). split; [by apply Fee_apply_total|].
  assert (0 <= amt) by (unfold in_range in Ha; lia).
  split; [split; [apply fee_of_nonneg | apply fee_of_le]; done|].
  unfold fee_of. destruct (Z.eqb_spec (denominator f) 0) as [E|E]; [done|].
  split; [intros _ | done].
  destruct Hf as [Hd _]. unfold in_range in Hd.
  pose proof (ceil_div_bounds (amt * numerator f) (denominator f)). lia.
Qed.

Lemma fee_apply_spec_witness :
  exists r, Fee_apply (mkFee 7 2) 10 = Some r /\ 0 <= r <= 10 /\
    (7 <> 0 -> 10 * 2 <= r * 7 < 10 * 2 + 7) /\ (7 = 0 -> r = 0).
Proof. apply (fee_apply_spec (mkFee 7 2) 10); [split | |]; unfold in_range, fee_le_one; simpl; lia. Defined.

(** Exactly what [Fee::check_withdrawal] accepts: a new fee within 3/2 of the
    old one (or of the baseline), provided the left product fits in 128 bits, and
    also every new fee whose own cross product overflows 128 bits. *)
Theorem check_withdrawal_exact new old :
  wf_Fee new -> wf_Fee old ->
  (Fee_check_withdrawal new old = Ok tt <->
   2 ^ 128 <= numerator new * denominator (effective_old_fee old) * 2 \/
   (numerator (effective_old_fee old) * denominator new * 3 < 2 ^ 128 /\ fee_increase_ok new old)) /\
  (Fee_check_withdrawal new old <> Ok tt ->
   Fee_check_withdrawal new old = fail_with FeeIncreaseTooHigh).
Proof.
  intros Hn Ho. rewrite check_withdrawal_value by done.
  destruct Hn as [Hnd Hnn]. apply effective_old_fee_wf in Ho as [Hod Hon].
  unfold fee_increase_ok, checked_mul, fit, option_ltb. cbv zeta.
  set (o := effective_old_fee old) in *.
  assert (0 <= numerator o * denominator new /\ 0 <= numerator new * denominator o).
  { unfold in_range in *. nia. }
  generalize dependent (numerator o * denominator new). intros a.
  generalize (numerator new * denominator o). intros b Hab.
  rewrite (proj2 (Z.leb_le 0 (a * 3))), (proj2 (Z.leb_le 0 (b * 2))) by lia. simpl.
  destruct (Z.ltb_spec (a * 3) (2 ^ 128)); destruct (Z.ltb_spec (b * 2) (2 ^ 128)); simpl;
    try destruct (Z.ltb_spec (a * 3) (b * 2));
    (split; [split; intros Hx | try done]); try done; lia.
Qed.

Lemma check_withdrawal_exact_witness :
  (Fee_check_withdrawal (mkFee 1000 1) (mkFee 0 0) = Ok tt <->
   2 ^ 128 <= 1 * 1000 * 2 \/ (1 * 1000 * 3 < 2 ^ 128 /\ fee_increase_ok (mkFee 1000 1) (mkFee 0 0))) /\
  (Fee_check_withdrawal (mkFee 1000 1) (mkFee 0 0) <> Ok tt ->
   Fee_check_withdrawal (mkFee 1000 1) (mkFee 0 0) = fail_with FeeIncreaseTooHigh).
Proof. apply (check_withdrawal_exact (mkFee 1000 1) (mkFee 0 0)); split; unfold in_range; simpl; lia. Defined.

(** The overflow the comment of [check_withdrawal] says makes the program fail
    is accepted instead: a withdrawal fee of 1/(2^64 - 1) can go to 100% at once. *)
Theorem check_withdrawal_overflow_accepted :
  exists new old : Fee,
    wf_Fee new /\ wf_Fee old /\ check_too_high (StakeWithdrawal new) = Ok tt /\
    numerator old * denominator new < numerator new * denominator old /\
    Fee_check_withdrawal new old = Ok tt /\ ~ fee_increase_ok new old.
Proof.
  exists (mkFee u64_max u64_max), (mkFee u64_max 1).
  split; [split; unfold in_range, u64_max; simpl; lia|].
  split; [split; unfold in_range, u64_max; simpl; lia|].
  split; [reflexivity|]. split; [reflexivity|]. split; [reflexivity|].
  unfold fee_increase_ok. vm_compute. intros H. exact (H eq_refl).
Qed.

(** A value scheduled with [FutureEpoch::new] is not readable in the epoch it
    was set in, is readable after one boundary, and is gone after the second. *)
Theorem future_epoch_schedule {T} (v : T) :
  FutureEpoch_get (FutureEpoch_new v) = None /\
  FutureEpoch_get (update_epoch (FutureEpoch_new v)) = Some v /\
  update_epoch (update_epoch (FutureEpoch_new v)) = FutureNone /\
  (forall f : FutureEpoch T, update_epoch (update_epoch f) = FutureNone) /\
  (forall f : FutureEpoch T, FutureEpoch_get f = Some v <-> f = One v).
Proof.
  repeat split; try done.
  - intros [| |]; done.
  - intros H. destruct f; simpl in H; try done. congruence.
  - by intros ->.
Qed.
