(* ===== verification/State.v ===== *)
(** * Pool state and its arithmetic (program/src/state.rs)
    The [StakePool] and [ValidatorList] data, the conversions between lamports
    and pool tokens, the validator status machine, and their bounds. *)
From S2P Require Import Prelude Error Fees.

(** A 32-byte address, as the 256-bit integer its bytes spell little-endian. *)
Definition Pubkey := Z.
#[export] Instance Pubkey_eq_dec : EqDecision Pubkey := Z.eq_dec.
#[export] Instance Pubkey_countable : Countable Pubkey := Z_countable.

Definition key_eqb (a b : Pubkey) : bool := Z.eqb a b.

Lemma key_eqb_eq a b : key_eqb a b = true <-> a = b.
Proof. apply Z.eqb_eq. Qed.
Lemma key_eqb_refl a : key_eqb a a = true.
Proof. apply Z.eqb_refl. Qed.

(** [Option<Pubkey> == Some(key)]. *)
Definition opt_key_eqb (a : option Pubkey) (b : Pubkey) : bool :=
  match a with Some x => key_eqb x b | None => false end.

Inductive AccountType : Type := Uninitialized | AccStakePool | AccValidatorList.
#[export] Instance AccountType_eq_dec : EqDecision AccountType.
Proof. solve_decision. Defined.

(** [stake::state::Lockup]; the client layouts under src/clients give its fields. *)
Record Lockup := mkLockup { unix_timestamp : Z; lockup_epoch : Z; custodian : Pubkey }.
#[export] Instance Lockup_eq_dec : EqDecision Lockup.
Proof. solve_decision. Defined.
Definition Lockup_default : Lockup := mkLockup 0 0 0.

Record StakePool := mkStakePool {
  version : Z;
  account_type : AccountType;
  manager : Pubkey;
  staker : Pubkey;
  stake_deposit_authority : Pubkey;
  stake_withdraw_bump_seed : Z;
  validator_list : Pubkey;
  reserve_stake : Pubkey;
  pool_mint : Pubkey;
  manager_fee_account : Pubkey;
  token_program_id : Pubkey;
  total_lamports : Z;
  pool_token_supply : Z;
  last_update_epoch : Z;
  lockup : Lockup;
  epoch_fee : Fee;
  next_epoch_fee : FutureEpoch Fee;
  preferred_deposit_validator_vote_address : option Pubkey;
  preferred_withdraw_validator_vote_address : option Pubkey;
  stake_deposit_fee : Fee;
  stake_withdrawal_fee : Fee;
  next_stake_withdrawal_fee : FutureEpoch Fee;
  stake_referral_fee : Z;
  sol_deposit_authority : option Pubkey;
  sol_deposit_fee : Fee;
  sol_referral_fee : Z;
  sol_withdraw_authority : option Pubkey;
  sol_withdrawal_fee : Fee;
  next_sol_withdrawal_fee : FutureEpoch Fee;
  last_epoch_pool_token_supply : Z;
  last_epoch_total_lamports : Z;
  max_validator_stake : option Z;
  reserved : list Z
}.

#[export] Instance StakePool_eq_dec : EqDecision StakePool.
Proof. solve_decision. Defined.

(** [impl Default for StakePool]. *)
Definition StakePool_default : StakePool := {|
  version := 1;
  account_type := AccStakePool;
  manager := 0;
  staker := 0;
  stake_deposit_authority := 0;
  stake_withdraw_bump_seed := 0;
  validator_list := 0;
  reserve_stake := 0;
  pool_mint := 0;
  manager_fee_account := 0;
  token_program_id := 0;
  total_lamports := 0;
  pool_token_supply := 0;
  last_update_epoch := 0;
  lockup := Lockup_default;
  epoch_fee := Fee_default;
  next_epoch_fee := FutureNone;
  preferred_deposit_validator_vote_address := None;
  preferred_withdraw_validator_vote_address := None;
  stake_deposit_fee := Fee_default;
  stake_withdrawal_fee := Fee_default;
  next_stake_withdrawal_fee := FutureNone;
  stake_referral_fee := 0;
  sol_deposit_authority := None;
  sol_deposit_fee := Fee_default;
  sol_referral_fee := 0;
  sol_withdraw_authority := None;
  sol_withdrawal_fee := Fee_default;
  next_sol_withdrawal_fee := FutureNone;
  last_epoch_pool_token_supply := 0;
  last_epoch_total_lamports := 0;
  max_validator_stake := None;
  reserved := replicate 256 0
|}.

(** Assignments to one field, [stake_pool.<field> = v]. *)
Definition set_version (v : Z) (p : StakePool) : StakePool :=
    mkStakePool v (account_type p) (manager p) (staker p) (stake_deposit_authority p)
    (stake_withdraw_bump_seed p) (validator_list p) (reserve_stake p) (pool_mint p)
    (manager_fee_account p) (token_program_id p) (total_lamports p) (pool_token_supply p)
    (last_update_epoch p) (lockup p) (epoch_fee p) (next_epoch_fee p)
    (preferred_deposit_validator_vote_address p) (preferred_withdraw_validator_vote_address p)
    (stake_deposit_fee p) (stake_withdrawal_fee p) (next_stake_withdrawal_fee p) (stake_referral_fee
    p) (sol_deposit_authority p) (sol_deposit_fee p) (sol_referral_fee p) (sol_withdraw_authority p)
    (sol_withdrawal_fee p) (next_sol_withdrawal_fee p) (last_epoch_pool_token_supply p)
    (last_epoch_total_lamports p) (max_validator_stake p) (reserved p).
Definition set_account_type (v : AccountType) (p : StakePool) : StakePool :=
    mkStakePool (version p) v (manager p) (staker p) (stake_deposit_authority p)
    (stake_withdraw_bump_seed p) (validator_list p) (reserve_stake p) (pool_mint p)
    (manager_fee_account p) (token_program_id p) (total_lamports p) (pool_token_supply p)
    (last_update_epoch p) (lockup p) (epoch_fee p) (next_epoch_fee p)
    (preferred_deposit_validator_vote_address p) (preferred_withdraw_validator_vote_address p)
    (stake_deposit_fee p) (stake_withdrawal_fee p) (next_stake_withdrawal_fee p) (stake_referral_fee
    p) (sol_deposit_authority p) (sol_deposit_fee p) (sol_referral_fee p) (sol_withdraw_authority p)
    (sol_withdrawal_fee p) (next_sol_withdrawal_fee p) (last_epoch_pool_token_supply p)
    (last_epoch_total_lamports p) (max_validator_stake p) (reserved p).
Definition set_manager (v : Pubkey) (p : StakePool) : StakePool :=
    mkStakePool (version p) (account_type p) v (staker p) (stake_deposit_authority p)
    (stake_withdraw_bump_seed p) (validator_list p) (reserve_stake p) (pool_mint p)
    (manager_fee_account p) (token_program_id p) (total_lamports p) (pool_token_supply p)
    (last_update_epoch p) (lockup p) (epoch_fee p) (next_epoch_fee p)
    (preferred_deposit_validator_vote_address p) (preferred_withdraw_validator_vote_address p)
    (stake_deposit_fee p) (stake_withdrawal_fee p) (next_stake_withdrawal_fee p) (stake_referral_fee
    p) (sol_deposit_authority p) (sol_deposit_fee p) (sol_referral_fee p) (sol_withdraw_authority p)
    (sol_withdrawal_fee p) (next_sol_withdrawal_fee p) (last_epoch_pool_token_supply p)
    (last_epoch_total_lamports p) (max_validator_stake p) (reserved p).
Definition set_staker (v : Pubkey) (p : StakePool) : StakePool :=
    mkStakePool (version p) (account_type p) (manager p) v (stake_deposit_authority p)
    (stake_withdraw_bump_seed p) (validator_list p) (reserve_stake p) (pool_mint p)
    (manager_fee_account p) (token_program_id p) (total_lamports p) (pool_token_supply p)
    (last_update_epoch p) (lockup p) (epoch_fee p) (next_epoch_fee p)
    (preferred_deposit_validator_vote_address p) (preferred_withdraw_validator_vote_address p)
    (stake_deposit_fee p) (stake_withdrawal_fee p) (next_stake_withdrawal_fee p) (stake_referral_fee
    p) (sol_deposit_authority p) (sol_deposit_fee p) (sol_referral_fee p) (sol_withdraw_authority p)
    (sol_withdrawal_fee p) (next_sol_withdrawal_fee p) (last_epoch_pool_token_supply p)
    (last_epoch_total_lamports p) (max_validator_stake p) (reserved p).
Definition set_stake_deposit_authority (v : Pubkey) (p : StakePool) : StakePool :=
    mkStakePool (version p) (account_type p) (manager p) (staker p) v (stake_withdraw_bump_seed p)
    (validator_list p) (reserve_stake p) (pool_mint p) (manager_fee_account p) (token_program_id p)
    (total_lamports p) (pool_token_supply p) (last_update_epoch p) (lockup p) (epoch_fee p)
    (next_epoch_fee p) (preferred_deposit_validator_vote_address p)
    (preferred_withdraw_validator_vote_address p) (stake_deposit_fee p) (stake_withdrawal_fee p)
    (next_stake_withdrawal_fee p) (stake_referral_fee p) (sol_deposit_authority p) (sol_deposit_fee
    p) (sol_referral_fee p) (sol_withdraw_authority p) (sol_withdrawal_fee p)
    (next_sol_withdrawal_fee p) (last_epoch_pool_token_supply p) (last_epoch_total_lamports p)
    (max_validator_stake p) (reserved p).
Definition set_stake_withdraw_bump_seed (v : Z) (p : StakePool) : StakePool :=
    mkStakePool (version p) (account_type p) (manager p) (staker p) (stake_deposit_authority p) v
    (validator_list p) (reserve_stake p) (pool_mint p) (manager_fee_account p) (token_program_id p)
    (total_lamports p) (pool_token_supply p) (last_update_epoch p) (lockup p) (epoch_fee p)
    (next_epoch_fee p) (preferred_deposit_validator_vote_address p)
    (preferred_withdraw_validator_vote_address p) (stake_deposit_fee p) (stake_withdrawal_fee p)
    (next_stake_withdrawal_fee p) (stake_referral_fee p) (sol_deposit_authority p) (sol_deposit_fee
    p) (sol_referral_fee p) (sol_withdraw_authority p) (sol_withdrawal_fee p)
    (next_sol_withdrawal_fee p) (last_epoch_pool_token_supply p) (last_epoch_total_lamports p)
    (max_validator_stake p) (reserved p).
Definition set_validator_list (v : Pubkey) (p : StakePool) : StakePool :=
    mkStakePool (version p) (account_type p) (manager p) (staker p) (stake_deposit_authority p)
    (stake_withdraw_bump_seed p) v (reserve_stake p) (pool_mint p) (manager_fee_account p)
    (token_program_id p) (total_lamports p) (pool_token_supply p) (last_update_epoch p) (lockup p)
    (epoch_fee p) (next_epoch_fee p) (preferred_deposit_validator_vote_address p)
    (preferred_withdraw_validator_vote_address p) (stake_deposit_fee p) (stake_withdrawal_fee p)
    (next_stake_withdrawal_fee p) (stake_referral_fee p) (sol_deposit_authority p) (sol_deposit_fee
    p) (sol_referral_fee p) (sol_withdraw_authority p) (sol_withdrawal_fee p)
    (next_sol_withdrawal_fee p) (last_epoch_pool_token_supply p) (last_epoch_total_lamports p)
    (max_validator_stake p) (reserved p).
Definition set_reserve_stake (v : Pubkey) (p : StakePool) : StakePool :=
    mkStakePool (version p) (account_type p) (manager p) (staker p) (stake_deposit_authority p)
    (stake_withdraw_bump_seed p) (validator_list p) v (pool_mint p) (manager_fee_account p)
    (token_program_id p) (total_lamports p) (pool_token_supply p) (last_update_epoch p) (lockup p)
    (epoch_fee p) (next_epoch_fee p) (preferred_deposit_validator_vote_address p)
    (preferred_withdraw_validator_vote_address p) (stake_deposit_fee p) (stake_withdrawal_fee p)
    (next_stake_withdrawal_fee p) (stake_referral_fee p) (sol_deposit_authority p) (sol_deposit_fee
    p) (sol_referral_fee p) (sol_withdraw_authority p) (sol_withdrawal_fee p)
    (next_sol_withdrawal_fee p) (last_epoch_pool_token_supply p) (last_epoch_total_lamports p)
    (max_validator_stake p) (reserved p).
Definition set_pool_mint (v : Pubkey) (p : StakePool) : StakePool :=
    mkStakePool (version p) (account_type p) (manager p) (staker p) (stake_deposit_authority p)
    (stake_withdraw_bump_seed p) (validator_list p) (reserve_stake p) v (manager_fee_account p)
    (token_program_id p) (total_lamports p) (pool_token_supply p) (last_update_epoch p) (lockup p)
    (epoch_fee p) (next_epoch_fee p) (preferred_deposit_validator_vote_address p)
    (preferred_withdraw_validator_vote_address p) (stake_deposit_fee p) (stake_withdrawal_fee p)
    (next_stake_withdrawal_fee p) (stake_referral_fee p) (sol_deposit_authority p) (sol_deposit_fee
    p) (sol_referral_fee p) (sol_withdraw_authority p) (sol_withdrawal_fee p)
    (next_sol_withdrawal_fee p) (last_epoch_pool_token_supply p) (last_epoch_total_lamports p)
    (max_validator_stake p) (reserved p).
Definition set_manager_fee_account (v : Pubkey) (p : StakePool) : StakePool :=
    mkStakePool (version p) (account_type p) (manager p) (staker p) (stake_deposit_authority p)
    (stake_withdraw_bump_seed p) (validator_list p) (reserve_stake p) (pool_mint p) v
    (token_program_id p) (total_lamports p) (pool_token_supply p) (last_update_epoch p) (lockup p)
    (epoch_fee p) (next_epoch_fee p) (preferred_deposit_validator_vote_address p)
    (preferred_withdraw_validator_vote_address p) (stake_deposit_fee p) (stake_withdrawal_fee p)
    (next_stake_withdrawal_fee p) (stake_referral_fee p) (sol_deposit_authority p) (sol_deposit_fee
    p) (sol_referral_fee p) (sol_withdraw_authority p) (sol_withdrawal_fee p)
    (next_sol_withdrawal_fee p) (last_epoch_pool_token_supply p) (last_epoch_total_lamports p)
    (max_validator_stake p) (reserved p).
Definition set_token_program_id (v : Pubkey) (p : StakePool) : StakePool :=
    mkStakePool (version p) (account_type p) (manager p) (staker p) (stake_deposit_authority p)
    (stake_withdraw_bump_seed p) (validator_list p) (reserve_stake p) (pool_mint p)
    (manager_fee_account p) v (total_lamports p) (pool_token_supply p) (last_update_epoch p) (lockup
    p) (epoch_fee p) (next_epoch_fee p) (preferred_deposit_validator_vote_address p)
    (preferred_withdraw_validator_vote_address p) (stake_deposit_fee p) (stake_withdrawal_fee p)
    (next_stake_withdrawal_fee p) (stake_referral_fee p) (sol_deposit_authority p) (sol_deposit_fee
    p) (sol_referral_fee p) (sol_withdraw_authority p) (sol_withdrawal_fee p)
    (next_sol_withdrawal_fee p) (last_epoch_pool_token_supply p) (last_epoch_total_lamports p)
    (max_validator_stake p) (reserved p).
Definition set_total_lamports (v : Z) (p : StakePool) : StakePool :=
    mkStakePool (version p) (account_type p) (manager p) (staker p) (stake_deposit_authority p)
    (stake_withdraw_bump_seed p) (validator_list p) (reserve_stake p) (pool_mint p)
    (manager_fee_account p) (token_program_id p) v (pool_token_supply p) (last_update_epoch p)
    (lockup p) (epoch_fee p) (next_epoch_fee p) (preferred_deposit_validator_vote_address p)
    (preferred_withdraw_validator_vote_address p) (stake_deposit_fee p) (stake_withdrawal_fee p)
    (next_stake_withdrawal_fee p) (stake_referral_fee p) (sol_deposit_authority p) (sol_deposit_fee
    p) (sol_referral_fee p) (sol_withdraw_authority p) (sol_withdrawal_fee p)
    (next_sol_withdrawal_fee p) (last_epoch_pool_token_supply p) (last_epoch_total_lamports p)
    (max_validator_stake p) (reserved p).
Definition set_pool_token_supply (v : Z) (p : StakePool) : StakePool :=
    mkStakePool (version p) (account_type p) (manager p) (staker p) (stake_deposit_authority p)
    (stake_withdraw_bump_seed p) (validator_list p) (reserve_stake p) (pool_mint p)
    (manager_fee_account p) (token_program_id p) (total_lamports p) v (last_update_epoch p) (lockup
    p) (epoch_fee p) (next_epoch_fee p) (preferred_deposit_validator_vote_address p)
    (preferred_withdraw_validator_vote_address p) (stake_deposit_fee p) (stake_withdrawal_fee p)
    (next_stake_withdrawal_fee p) (stake_referral_fee p) (sol_deposit_authority p) (sol_deposit_fee
    p) (sol_referral_fee p) (sol_withdraw_authority p) (sol_withdrawal_fee p)
    (next_sol_withdrawal_fee p) (last_epoch_pool_token_supply p) (last_epoch_total_lamports p)
    (max_validator_stake p) (reserved p).
Definition set_last_update_epoch (v : Z) (p : StakePool) : StakePool :=
    mkStakePool (version p) (account_type p) (manager p) (staker p) (stake_deposit_authority p)
    (stake_withdraw_bump_seed p) (validator_list p) (reserve_stake p) (pool_mint p)
    (manager_fee_account p) (token_program_id p) (total_lamports p) (pool_token_supply p) v (lockup
    p) (epoch_fee p) (next_epoch_fee p) (preferred_deposit_validator_vote_address p)
    (preferred_withdraw_validator_vote_address p) (stake_deposit_fee p) (stake_withdrawal_fee p)
    (next_stake_withdrawal_fee p) (stake_referral_fee p) (sol_deposit_authority p) (sol_deposit_fee
    p) (sol_referral_fee p) (sol_withdraw_authority p) (sol_withdrawal_fee p)
    (next_sol_withdrawal_fee p) (last_epoch_pool_token_supply p) (last_epoch_total_lamports p)
    (max_validator_stake p) (reserved p).
Definition set_lockup (v : Lockup) (p : StakePool) : StakePool :=
    mkStakePool (version p) (account_type p) (manager p) (staker p) (stake_deposit_authority p)
    (stake_withdraw_bump_seed p) (validator_list p) (reserve_stake p) (pool_mint p)
    (manager_fee_account p) (token_program_id p) (total_lamports p) (pool_token_supply p)
    (last_update_epoch p) v (epoch_fee p) (next_epoch_fee p)
    (preferred_deposit_validator_vote_address p) (preferred_withdraw_validator_vote_address p)
    (stake_deposit_fee p) (stake_withdrawal_fee p) (next_stake_withdrawal_fee p) (stake_referral_fee
    p) (sol_deposit_authority p) (sol_deposit_fee p) (sol_referral_fee p) (sol_withdraw_authority p)
    (sol_withdrawal_fee p) (next_sol_withdrawal_fee p) (last_epoch_pool_token_supply p)
    (last_epoch_total_lamports p) (max_validator_stake p) (reserved p).
Definition set_epoch_fee (v : Fee) (p : StakePool) : StakePool :=
    mkStakePool (version p) (account_type p) (manager p) (staker p) (stake_deposit_authority p)
    (stake_withdraw_bump_seed p) (validator_list p) (reserve_stake p) (pool_mint p)
    (manager_fee_account p) (token_program_id p) (total_lamports p) (pool_token_supply p)
    (last_update_epoch p) (lockup p) v (next_epoch_fee p) (preferred_deposit_validator_vote_address
    p) (preferred_withdraw_validator_vote_address p) (stake_deposit_fee p) (stake_withdrawal_fee p)
    (next_stake_withdrawal_fee p) (stake_referral_fee p) (sol_deposit_authority p) (sol_deposit_fee
    p) (sol_referral_fee p) (sol_withdraw_authority p) (sol_withdrawal_fee p)
    (next_sol_withdrawal_fee p) (last_epoch_pool_token_supply p) (last_epoch_total_lamports p)
    (max_validator_stake p) (reserved p).
Definition set_next_epoch_fee (v : FutureEpoch Fee) (p : StakePool) : StakePool :=
    mkStakePool (version p) (account_type p) (manager p) (staker p) (stake_deposit_authority p)
    (stake_withdraw_bump_seed p) (validator_list p) (reserve_stake p) (pool_mint p)
    (manager_fee_account p) (token_program_id p) (total_lamports p) (pool_token_supply p)
    (last_update_epoch p) (lockup p) (epoch_fee p) v (preferred_deposit_validator_vote_address p)
    (preferred_withdraw_validator_vote_address p) (stake_deposit_fee p) (stake_withdrawal_fee p)
    (next_stake_withdrawal_fee p) (stake_referral_fee p) (sol_deposit_authority p) (sol_deposit_fee
    p) (sol_referral_fee p) (sol_withdraw_authority p) (sol_withdrawal_fee p)
    (next_sol_withdrawal_fee p) (last_epoch_pool_token_supply p) (last_epoch_total_lamports p)
    (max_validator_stake p) (reserved p).
Definition set_preferred_deposit_validator_vote_address (v : option Pubkey) (p : StakePool) : StakePool :=
    mkStakePool (version p) (account_type p) (manager p) (staker p) (stake_deposit_authority p)
    (stake_withdraw_bump_seed p) (validator_list p) (reserve_stake p) (pool_mint p)
    (manager_fee_account p) (token_program_id p) (total_lamports p) (pool_token_supply p)
    (last_update_epoch p) (lockup p) (epoch_fee p) (next_epoch_fee p) v
    (preferred_withdraw_validator_vote_address p) (stake_deposit_fee p) (stake_withdrawal_fee p)
    (next_stake_withdrawal_fee p) (stake_referral_fee p) (sol_deposit_authority p) (sol_deposit_fee
    p) (sol_referral_fee p) (sol_withdraw_authority p) (sol_withdrawal_fee p)
    (next_sol_withdrawal_fee p) (last_epoch_pool_token_supply p) (last_epoch_total_lamports p)
    (max_validator_stake p) (reserved p).
Definition set_preferred_withdraw_validator_vote_address (v : option Pubkey) (p : StakePool) : StakePool :=
    mkStakePool (version p) (account_type p) (manager p) (staker p) (stake_deposit_authority p)
    (stake_withdraw_bump_seed p) (validator_list p) (reserve_stake p) (pool_mint p)
    (manager_fee_account p) (token_program_id p) (total_lamports p) (pool_token_supply p)
    (last_update_epoch p) (lockup p) (epoch_fee p) (next_epoch_fee p)
    (preferred_deposit_validator_vote_address p) v (stake_deposit_fee p) (stake_withdrawal_fee p)
    (next_stake_withdrawal_fee p) (stake_referral_fee p) (sol_deposit_authority p) (sol_deposit_fee
    p) (sol_referral_fee p) (sol_withdraw_authority p) (sol_withdrawal_fee p)
    (next_sol_withdrawal_fee p) (last_epoch_pool_token_supply p) (last_epoch_total_lamports p)
    (max_validator_stake p) (reserved p).
Definition set_stake_deposit_fee (v : Fee) (p : StakePool) : StakePool :=
    mkStakePool (version p) (account_type p) (manager p) (staker p) (stake_deposit_authority p)
    (stake_withdraw_bump_seed p) (validator_list p) (reserve_stake p) (pool_mint p)
    (manager_fee_account p) (token_program_id p) (total_lamports p) (pool_token_supply p)
    (last_update_epoch p) (lockup p) (epoch_fee p) (next_epoch_fee p)
    (preferred_deposit_validator_vote_address p) (preferred_withdraw_validator_vote_address p) v
    (stake_withdrawal_fee p) (next_stake_withdrawal_fee p) (stake_referral_fee p)
    (sol_deposit_authority p) (sol_deposit_fee p) (sol_referral_fee p) (sol_withdraw_authority p)
    (sol_withdrawal_fee p) (next_sol_withdrawal_fee p) (last_epoch_pool_token_supply p)
    (last_epoch_total_lamports p) (max_validator_stake p) (reserved p).
Definition set_stake_withdrawal_fee (v : Fee) (p : StakePool) : StakePool :=
    mkStakePool (version p) (account_type p) (manager p) (staker p) (stake_deposit_authority p)
    (stake_withdraw_bump_seed p) (validator_list p) (reserve_stake p) (pool_mint p)
    (manager_fee_account p) (token_program_id p) (total_lamports p) (pool_token_supply p)
    (last_update_epoch p) (lockup p) (epoch_fee p) (next_epoch_fee p)
    (preferred_deposit_validator_vote_address p) (preferred_withdraw_validator_vote_address p)
    (stake_deposit_fee p) v (next_stake_withdrawal_fee p) (stake_referral_fee p)
    (sol_deposit_authority p) (sol_deposit_fee p) (sol_referral_fee p) (sol_withdraw_authority p)
    (sol_withdrawal_fee p) (next_sol_withdrawal_fee p) (last_epoch_pool_token_supply p)
    (last_epoch_total_lamports p) (max_validator_stake p) (reserved p).
Definition set_next_stake_withdrawal_fee (v : FutureEpoch Fee) (p : StakePool) : StakePool :=
    mkStakePool (version p) (account_type p) (manager p) (staker p) (stake_deposit_authority p)
    (stake_withdraw_bump_seed p) (validator_list p) (reserve_stake p) (pool_mint p)
    (manager_fee_account p) (token_program_id p) (total_lamports p) (pool_token_supply p)
    (last_update_epoch p) (lockup p) (epoch_fee p) (next_epoch_fee p)
    (preferred_deposit_validator_vote_address p) (preferred_withdraw_validator_vote_address p)
    (stake_deposit_fee p) (stake_withdrawal_fee p) v (stake_referral_fee p) (sol_deposit_authority
    p) (sol_deposit_fee p) (sol_referral_fee p) (sol_withdraw_authority p) (sol_withdrawal_fee p)
    (next_sol_withdrawal_fee p) (last_epoch_pool_token_supply p) (last_epoch_total_lamports p)
    (max_validator_stake p) (reserved p).
Definition set_stake_referral_fee (v : Z) (p : StakePool) : StakePool :=
    mkStakePool (version p) (account_type p) (manager p) (staker p) (stake_deposit_authority p)
    (stake_withdraw_bump_seed p) (validator_list p) (reserve_stake p) (pool_mint p)
    (manager_fee_account p) (token_program_id p) (total_lamports p) (pool_token_supply p)
    (last_update_epoch p) (lockup p) (epoch_fee p) (next_epoch_fee p)
    (preferred_deposit_validator_vote_address p) (preferred_withdraw_validator_vote_address p)
    (stake_deposit_fee p) (stake_withdrawal_fee p) (next_stake_withdrawal_fee p) v
    (sol_deposit_authority p) (sol_deposit_fee p) (sol_referral_fee p) (sol_withdraw_authority p)
    (sol_withdrawal_fee p) (next_sol_withdrawal_fee p) (last_epoch_pool_token_supply p)
    (last_epoch_total_lamports p) (max_validator_stake p) (reserved p).
Definition set_sol_deposit_authority (v : option Pubkey) (p : StakePool) : StakePool :=
    mkStakePool (version p) (account_type p) (manager p) (staker p) (stake_deposit_authority p)
    (stake_withdraw_bump_seed p) (validator_list p) (reserve_stake p) (pool_mint p)
    (manager_fee_account p) (token_program_id p) (total_lamports p) (pool_token_supply p)
    (last_update_epoch p) (lockup p) (epoch_fee p) (next_epoch_fee p)
    (preferred_deposit_validator_vote_address p) (preferred_withdraw_validator_vote_address p)
    (stake_deposit_fee p) (stake_withdrawal_fee p) (next_stake_withdrawal_fee p) (stake_referral_fee
    p) v (sol_deposit_fee p) (sol_referral_fee p) (sol_withdraw_authority p) (sol_withdrawal_fee p)
    (next_sol_withdrawal_fee p) (last_epoch_pool_token_supply p) (last_epoch_total_lamports p)
    (max_validator_stake p) (reserved p).
Definition set_sol_deposit_fee (v : Fee) (p : StakePool) : StakePool :=
    mkStakePool (version p) (account_type p) (manager p) (staker p) (stake_deposit_authority p)
    (stake_withdraw_bump_seed p) (validator_list p) (reserve_stake p) (pool_mint p)
    (manager_fee_account p) (token_program_id p) (total_lamports p) (pool_token_supply p)
    (last_update_epoch p) (lockup p) (epoch_fee p) (next_epoch_fee p)
    (preferred_deposit_validator_vote_address p) (preferred_withdraw_validator_vote_address p)
    (stake_deposit_fee p) (stake_withdrawal_fee p) (next_stake_withdrawal_fee p) (stake_referral_fee
    p) (sol_deposit_authority p) v (sol_referral_fee p) (sol_withdraw_authority p)
    (sol_withdrawal_fee p) (next_sol_withdrawal_fee p) (last_epoch_pool_token_supply p)
    (last_epoch_total_lamports p) (max_validator_stake p) (reserved p).
Definition set_sol_referral_fee (v : Z) (p : StakePool) : StakePool :=
    mkStakePool (version p) (account_type p) (manager p) (staker p) (stake_deposit_authority p)
    (stake_withdraw_bump_seed p) (validator_list p) (reserve_stake p) (pool_mint p)
    (manager_fee_account p) (token_program_id p) (total_lamports p) (pool_token_supply p)
    (last_update_epoch p) (lockup p) (epoch_fee p) (next_epoch_fee p)
    (preferred_deposit_validator_vote_address p) (preferred_withdraw_validator_vote_address p)
    (stake_deposit_fee p) (stake_withdrawal_fee p) (next_stake_withdrawal_fee p) (stake_referral_fee
    p) (sol_deposit_authority p) (sol_deposit_fee p) v (sol_withdraw_authority p)
    (sol_withdrawal_fee p) (next_sol_withdrawal_fee p) (last_epoch_pool_token_supply p)
    (last_epoch_total_lamports p) (max_validator_stake p) (reserved p).
Definition set_sol_withdraw_authority (v : option Pubkey) (p : StakePool) : StakePool :=
    mkStakePool (version p) (account_type p) (manager p) (staker p) (stake_deposit_authority p)
    (stake_withdraw_bump_seed p) (validator_list p) (reserve_stake p) (pool_mint p)
    (manager_fee_account p) (token_program_id p) (total_lamports p) (pool_token_supply p)
    (last_update_epoch p) (lockup p) (epoch_fee p) (next_epoch_fee p)
    (preferred_deposit_validator_vote_address p) (preferred_withdraw_validator_vote_address p)
    (stake_deposit_fee p) (stake_withdrawal_fee p) (next_stake_withdrawal_fee p) (stake_referral_fee
    p) (sol_deposit_authority p) (sol_deposit_fee p) (sol_referral_fee p) v (sol_withdrawal_fee p)
    (next_sol_withdrawal_fee p) (last_epoch_pool_token_supply p) (last_epoch_total_lamports p)
    (max_validator_stake p) (reserved p).
Definition set_sol_withdrawal_fee (v : Fee) (p : StakePool) : StakePool :=
    mkStakePool (version p) (account_type p) (manager p) (staker p) (stake_deposit_authority p)
    (stake_withdraw_bump_seed p) (validator_list p) (reserve_stake p) (pool_mint p)
    (manager_fee_account p) (token_program_id p) (total_lamports p) (pool_token_supply p)
    (last_update_epoch p) (lockup p) (epoch_fee p) (next_epoch_fee p)
    (preferred_deposit_validator_vote_address p) (preferred_withdraw_validator_vote_address p)
    (stake_deposit_fee p) (stake_withdrawal_fee p) (next_stake_withdrawal_fee p) (stake_referral_fee
    p) (sol_deposit_authority p) (sol_deposit_fee p) (sol_referral_fee p) (sol_withdraw_authority p)
    v (next_sol_withdrawal_fee p) (last_epoch_pool_token_supply p) (last_epoch_total_lamports p)
    (max_validator_stake p) (reserved p).
Definition set_next_sol_withdrawal_fee (v : FutureEpoch Fee) (p : StakePool) : StakePool :=
    mkStakePool (version p) (account_type p) (manager p) (staker p) (stake_deposit_authority p)
    (stake_withdraw_bump_seed p) (validator_list p) (reserve_stake p) (pool_mint p)
    (manager_fee_account p) (token_program_id p) (total_lamports p) (pool_token_supply p)
    (last_update_epoch p) (lockup p) (epoch_fee p) (next_epoch_fee p)
    (preferred_deposit_validator_vote_address p) (preferred_withdraw_validator_vote_address p)
    (stake_deposit_fee p) (stake_withdrawal_fee p) (next_stake_withdrawal_fee p) (stake_referral_fee
    p) (sol_deposit_authority p) (sol_deposit_fee p) (sol_referral_fee p) (sol_withdraw_authority p)
    (sol_withdrawal_fee p) v (last_epoch_pool_token_supply p) (last_epoch_total_lamports p)
    (max_validator_stake p) (reserved p).
Definition set_last_epoch_pool_token_supply (v : Z) (p : StakePool) : StakePool :=
    mkStakePool (version p) (account_type p) (manager p) (staker p) (stake_deposit_authority p)
    (stake_withdraw_bump_seed p) (validator_list p) (reserve_stake p) (pool_mint p)
    (manager_fee_account p) (token_program_id p) (total_lamports p) (pool_token_supply p)
    (last_update_epoch p) (lockup p) (epoch_fee p) (next_epoch_fee p)
    (preferred_deposit_validator_vote_address p) (preferred_withdraw_validator_vote_address p)
    (stake_deposit_fee p) (stake_withdrawal_fee p) (next_stake_withdrawal_fee p) (stake_referral_fee
    p) (sol_deposit_authority p) (sol_deposit_fee p) (sol_referral_fee p) (sol_withdraw_authority p)
    (sol_withdrawal_fee p) (next_sol_withdrawal_fee p) v (last_epoch_total_lamports p)
    (max_validator_stake p) (reserved p).
Definition set_last_epoch_total_lamports (v : Z) (p : StakePool) : StakePool :=
    mkStakePool (version p) (account_type p) (manager p) (staker p) (stake_deposit_authority p)
    (stake_withdraw_bump_seed p) (validator_list p) (reserve_stake p) (pool_mint p)
    (manager_fee_account p) (token_program_id p) (total_lamports p) (pool_token_supply p)
    (last_update_epoch p) (lockup p) (epoch_fee p) (next_epoch_fee p)
    (preferred_deposit_validator_vote_address p) (preferred_withdraw_validator_vote_address p)
    (stake_deposit_fee p) (stake_withdrawal_fee p) (next_stake_withdrawal_fee p) (stake_referral_fee
    p) (sol_deposit_authority p) (sol_deposit_fee p) (sol_referral_fee p) (sol_withdraw_authority p)
    (sol_withdrawal_fee p) (next_sol_withdrawal_fee p) (last_epoch_pool_token_supply p) v
    (max_validator_stake p) (reserved p).
Definition set_max_validator_stake (v : option Z) (p : StakePool) : StakePool :=
    mkStakePool (version p) (account_type p) (manager p) (staker p) (stake_deposit_authority p)
    (stake_withdraw_bump_seed p) (validator_list p) (reserve_stake p) (pool_mint p)
    (manager_fee_account p) (token_program_id p) (total_lamports p) (pool_token_supply p)
    (last_update_epoch p) (lockup p) (epoch_fee p) (next_epoch_fee p)
    (preferred_deposit_validator_vote_address p) (preferred_withdraw_validator_vote_address p)
    (stake_deposit_fee p) (stake_withdrawal_fee p) (next_stake_withdrawal_fee p) (stake_referral_fee
    p) (sol_deposit_authority p) (sol_deposit_fee p) (sol_referral_fee p) (sol_withdraw_authority p)
    (sol_withdrawal_fee p) (next_sol_withdrawal_fee p) (last_epoch_pool_token_supply p)
    (last_epoch_total_lamports p) v (reserved p).
Definition set_reserved (v : list Z) (p : StakePool) : StakePool :=
    mkStakePool (version p) (account_type p) (manager p) (staker p) (stake_deposit_authority p)
    (stake_withdraw_bump_seed p) (validator_list p) (reserve_stake p) (pool_mint p)
    (manager_fee_account p) (token_program_id p) (total_lamports p) (pool_token_supply p)
    (last_update_epoch p) (lockup p) (epoch_fee p) (next_epoch_fee p)
    (preferred_deposit_validator_vote_address p) (preferred_withdraw_validator_vote_address p)
    (stake_deposit_fee p) (stake_withdrawal_fee p) (next_stake_withdrawal_fee p) (stake_referral_fee
    p) (sol_deposit_authority p) (sol_deposit_fee p) (sol_referral_fee p) (sol_withdraw_authority p)
    (sol_withdrawal_fee p) (next_sol_withdrawal_fee p) (last_epoch_pool_token_supply p)
    (last_epoch_total_lamports p) (max_validator_stake p) v.

(** ** Pool tokens and lamports *)
Definition calc_pool_tokens_for_deposit (self : StakePool) (stake_lamports : Z) : option Z :=
  if (total_lamports self =? 0) || (pool_token_supply self =? 0) then Some stake_lamports else
  let? m := checked_mul 128 stake_lamports (pool_token_supply self) in
  let? d := checked_div m (total_lamports self) in
  fit 64 d.

Definition calc_lamports_withdraw_amount (self : StakePool) (pool_tokens : Z) : option Z :=
  let? num := checked_mul 128 pool_tokens (total_lamports self) in
  let denom := pool_token_supply self in
  if (num <? denom) || (denom =? 0) then Some 0 else
  let? q := checked_div num denom in
  fit 64 q.

Definition calc_pool_tokens_stake_withdrawal_fee (self : StakePool) (pool_tokens : Z) : option Z :=
  let? a := Fee_apply (stake_withdrawal_fee self) pool_tokens in fit 64 a.

Definition calc_pool_tokens_sol_withdrawal_fee (self : StakePool) (pool_tokens : Z) : option Z :=
  let? a := Fee_apply (sol_withdrawal_fee self) pool_tokens in fit 64 a.

Definition calc_pool_tokens_stake_deposit_fee (self : StakePool) (pool_tokens_minted : Z) : option Z :=
  let? a := Fee_apply (stake_deposit_fee self) pool_tokens_minted in fit 64 a.

Definition calc_pool_tokens_stake_referral_fee (self : StakePool) (deposit_fee : Z) : option Z :=
  let? m := checked_mul 128 deposit_fee (stake_referral_fee self) in
  let? d := checked_div m 100 in
  fit 64 d.

Definition calc_pool_tokens_sol_deposit_fee (self : StakePool) (pool_tokens_minted : Z) : option Z :=
  let? a := Fee_apply (sol_deposit_fee self) pool_tokens_minted in fit 64 a.

Definition calc_pool_tokens_sol_referral_fee (self : StakePool) (deposit_fee : Z) : option Z :=
  let? m := checked_mul 128 deposit_fee (sol_referral_fee self) in
  let? d := checked_div m 100 in
  fit 64 d.

Definition calc_epoch_fee_amount (self : StakePool) (reward_lamports : Z) : option Z :=
  if reward_lamports =? 0 then Some 0 else
  let? total := checked_add 128 (total_lamports self) reward_lamports in
  let? fee_lamports := Fee_apply (epoch_fee self) reward_lamports in
  if (total =? fee_lamports) || (pool_token_supply self =? 0) then Some reward_lamports else
  let? m := checked_mul 128 (pool_token_supply self) fee_lamports in
  let? s := checked_sub 128 total fee_lamports in
  let? d := checked_div m s in
  fit 64 d.

Definition get_lamports_per_pool_token (self : StakePool) : option Z :=
  let? a := checked_add 64 (total_lamports self) (pool_token_supply self) in
  let? b := checked_sub 64 a 1 in
  checked_div b (pool_token_supply self).

Definition StakePool_is_valid (self : StakePool) : bool :=
  match account_type self with AccStakePool => true | _ => false end.

Definition StakePool_is_uninitialized (self : StakePool) : bool :=
  match account_type self with Uninitialized => true | _ => false end.

Definition update_fee (self : StakePool) (fee : FeeType) : outcome StakePool :=
  match fee with
  | SolReferral new_fee => Ok (set_sol_referral_fee new_fee self)
  | StakeReferral new_fee => Ok (set_stake_referral_fee new_fee self)
  | EpochFee new_fee => Ok (set_next_epoch_fee (FutureEpoch_new new_fee) self)
  | StakeWithdrawal new_fee =>
      let* _ := Fee_check_withdrawal new_fee (stake_withdrawal_fee self) in
      Ok (set_next_stake_withdrawal_fee (FutureEpoch_new new_fee) self)
  | SolWithdrawal new_fee =>
      let* _ := Fee_check_withdrawal new_fee (sol_withdrawal_fee self) in
      Ok (set_next_sol_withdrawal_fee (FutureEpoch_new new_fee) self)
  | SolDeposit new_fee => Ok (set_sol_deposit_fee new_fee self)
  | StakeDeposit new_fee => Ok (set_stake_deposit_fee new_fee self)
  end.

(** ** Validator entries *)
Inductive StakeStatus : Type :=
| Active
| DeactivatingTransient
| ReadyForRemoval
| DeactivatingValidator
| DeactivatingAll.
#[export] Instance StakeStatus_eq_dec : EqDecision StakeStatus.
Proof. solve_decision. Defined.

(** [StakeStatus::to_u8] and [StakeStatus::from_u8]; a [PodStakeStatus] is the byte. *)
Definition status_byte (s : StakeStatus) : Z :=
  match s with
  | Active => 0 | DeactivatingTransient => 1 | ReadyForRemoval => 2
  | DeactivatingValidator => 3 | DeactivatingAll => 4
  end.
Definition status_from_u8 (b : Z) : option StakeStatus :=
  if b =? 0 then Some Active else if b =? 1 then Some DeactivatingTransient
  else if b =? 2 then Some ReadyForRemoval else if b =? 3 then Some DeactivatingValidator
  else if b =? 4 then Some DeactivatingAll else None.

(** [StakeStatus::try_from(PodStakeStatus)]. *)
Definition status_try_from (pod : Z) : outcome StakeStatus :=
  ok_or (status_from_u8 pod) InvalidAccountData.

Definition remove_validator_stake (pod : Z) : outcome Z :=
  let* status := status_try_from pod in
  let new_self :=
    match status with
    | Active | DeactivatingTransient | ReadyForRemoval => status
    | DeactivatingAll => DeactivatingTransient
    | DeactivatingValidator => ReadyForRemoval
    end in
  Ok (status_byte new_self).

Definition remove_transient_stake (pod : Z) : outcome Z :=
  let* status := status_try_from pod in
  let new_self :=
    match status with
    | Active | DeactivatingValidator | ReadyForRemoval => status
    | DeactivatingAll => DeactivatingValidator
    | DeactivatingTransient => ReadyForRemoval
    end in
  Ok (status_byte new_self).

Inductive StakeWithdrawSource : Type :=
| SourceActive
| SourceTransient
| SourceValidatorRemoval.

Record ValidatorStakeInfo := mkVSI {
  active_stake_lamports : Z;
  transient_stake_lamports : Z;
  vsi_last_update_epoch : Z;
  transient_seed_suffix : Z;
  unused : Z;
  validator_seed_suffix : Z;
  status : Z;
  vote_account_address : Pubkey
}.
#[export] Instance ValidatorStakeInfo_eq_dec : EqDecision ValidatorStakeInfo.
Proof. solve_decision. Defined.

Definition VSI_default : ValidatorStakeInfo := mkVSI 0 0 0 0 0 0 0 0.

(** Assignments to one field of an entry. *)
Definition set_active_stake_lamports (x : Z) (v : ValidatorStakeInfo) : ValidatorStakeInfo :=
  mkVSI x (transient_stake_lamports v) (vsi_last_update_epoch v) (transient_seed_suffix v)
    (unused v) (validator_seed_suffix v) (status v) (vote_account_address v).
Definition set_transient_stake_lamports (x : Z) (v : ValidatorStakeInfo) : ValidatorStakeInfo :=
  mkVSI (active_stake_lamports v) x (vsi_last_update_epoch v) (transient_seed_suffix v)
    (unused v) (validator_seed_suffix v) (status v) (vote_account_address v).
Definition set_vsi_last_update_epoch (x : Z) (v : ValidatorStakeInfo) : ValidatorStakeInfo :=
  mkVSI (active_stake_lamports v) (transient_stake_lamports v) x (transient_seed_suffix v)
    (unused v) (validator_seed_suffix v) (status v) (vote_account_address v).
Definition set_transient_seed_suffix (x : Z) (v : ValidatorStakeInfo) : ValidatorStakeInfo :=
  mkVSI (active_stake_lamports v) (transient_stake_lamports v) (vsi_last_update_epoch v) x
    (unused v) (validator_seed_suffix v) (status v) (vote_account_address v).
Definition set_status (x : Z) (v : ValidatorStakeInfo) : ValidatorStakeInfo :=
  mkVSI (active_stake_lamports v) (transient_stake_lamports v) (vsi_last_update_epoch v)
    (transient_seed_suffix v) (unused v) (validator_seed_suffix v) x (vote_account_address v).

Definition stake_lamports (self : ValidatorStakeInfo) : outcome Z :=
  ok_or_sp (checked_add 64 (active_stake_lamports self) (transient_stake_lamports self))
    CalculationFailure.

Record ValidatorListHeader := mkHeader { header_account_type : AccountType; max_validators : Z }.
#[export] Instance ValidatorListHeader_eq_dec : EqDecision ValidatorListHeader.
Proof. solve_decision. Defined.

Record ValidatorList := mkValidatorList { header : ValidatorListHeader; validators : list ValidatorStakeInfo }.

Definition ValidatorList_new (max : Z) : ValidatorList :=
  mkValidatorList (mkHeader AccValidatorList max) (replicate (Z.to_nat max) VSI_default).

(** [ValidatorListHeader::LEN] and [ValidatorStakeInfo::LEN]. *)
Definition HEADER_LEN : Z := 1 + 4.
Definition VSI_LEN : Z := 73.

Definition calculate_max_validators (buffer_length : Z) : Z :=
  let header_size := saturating_add 64 HEADER_LEN 4 in
  saturating_div (saturating_sub buffer_length header_size) VSI_LEN.

Definition ValidatorList_contains (self : ValidatorList) (vote : Pubkey) : bool :=
  existsb (fun x => key_eqb (vote_account_address x) vote) (validators self).

Definition ValidatorList_find (self : ValidatorList) (vote : Pubkey) : option ValidatorStakeInfo :=
  List.find (fun x => key_eqb (vote_account_address x) vote) (validators self).

Definition has_active_stake (self : ValidatorList) : bool :=
  existsb (fun x => 0 <? active_stake_lamports x) (validators self).

Definition header_is_valid (h : ValidatorListHeader) : bool :=
  match header_account_type h with AccValidatorList => true | _ => false end.

Definition header_is_uninitialized (h : ValidatorListHeader) : bool :=
  match header_account_type h with Uninitialized => true | _ => false end.

Lemma status_from_u8_byte b s : status_from_u8 b = Some s <-> b = status_byte s.
Proof.
  unfold status_from_u8.
  repeat (case Z.eqb_spec; [intros ->; destruct s; simpl; split; try done; lia | intros ?]).
  split; [done|]. destruct s; simpl; lia.
Qed.

(** The status machine of a validator being removed: the two halves of a removal
    commute, both together take [DeactivatingAll] to [ReadyForRemoval], one alone
    never does, [Active] and [ReadyForRemoval] are fixed, and a byte that is no
    status is refused. *)
Theorem removal_status_machine :
  (forall b, (let* x := remove_validator_stake b in remove_transient_stake x) =
             (let* x := remove_transient_stake b in remove_validator_stake x)) /\
  (let* x := remove_validator_stake (status_byte DeactivatingAll) in remove_transient_stake x) =
    Ok (status_byte ReadyForRemoval) /\
  (forall s b, remove_validator_stake (status_byte s) = Ok b ->
     (b = status_byte ReadyForRemoval <-> s = ReadyForRemoval \/ s = DeactivatingValidator)) /\
  (forall s b, remove_transient_stake (status_byte s) = Ok b ->
     (b = status_byte ReadyForRemoval <-> s = ReadyForRemoval \/ s = DeactivatingTransient)) /\
  (forall s, s = Active \/ s = ReadyForRemoval ->
     remove_validator_stake (status_byte s) = Ok (status_byte s) /\
     remove_transient_stake (status_byte s) = Ok (status_byte s)) /\
  (forall b, 4 < b -> remove_validator_stake b = Err InvalidAccountData /\
                      remove_transient_stake b = Err InvalidAccountData).
Proof.
  assert (Hs : forall b, status_from_u8 b = None \/ exists s, b = status_byte s).
  { intros b. destruct (status_from_u8 b) as [s|] eqn:E; [right; exists s | by left].
    by apply status_from_u8_byte. }
  split. { intros b. destruct (Hs b) as [E|[[] ->]]; [|reflexivity..].
           unfold remove_validator_stake, remove_transient_stake, status_try_from. by rewrite E. }
  split; [reflexivity|].
  split. { intros [] b [= <-]; simpl; split; try tauto; intros; try done; destruct H; done. }
  split. { intros [] b [= <-]; simpl; split; try tauto; intros; try done; destruct H; done. }
  split. { intros s [-> | ->]; done. }
  intros b Hb. destruct (Hs b) as [E|[[] ->]]; simpl in *; try lia.
  unfold remove_validator_stake, remove_transient_stake, status_try_from. by rewrite E.
Qed.
