(* ===== verification/PoolMath.v ===== *)
(** * Share accounting
    What the conversions of [State] between lamports and pool tokens, and the
    epoch fee, do to the value of a pool token: no operation lowers the ratio
    of lamports to tokens, and every amount stays in 64 bits. *)
From S2P Require Import Prelude Error Fees State.

(** The two totals a conversion reads are 64-bit integers. *)
Definition wf_amounts (p : StakePool) : Prop :=
  in_range 64 (total_lamports p) /\ in_range 64 (pool_token_supply p).

(** The pool after [lamports] came in for [tokens], and after they left. *)
Definition credited (p : StakePool) (lamports tokens : Z) : StakePool :=
  set_total_lamports (total_lamports p + lamports)
    (set_pool_token_supply (pool_token_supply p + tokens) p).
Definition debited (p : StakePool) (lamports tokens : Z) : StakePool :=
  set_total_lamports (total_lamports p - lamports)
    (set_pool_token_supply (pool_token_supply p - tokens) p).

(** [p'] is worth at least as many lamports per token as [p]. *)
Definition share_value_le (p p' : StakePool) : Prop :=
  total_lamports p * pool_token_supply p' <= total_lamports p' * pool_token_supply p.

(** ** Rounding of the conversions *)
Lemma div_floor_bounds a b : 0 < b -> b * (a / b) <= a < b * (a / b) + b.
Proof. intros H. Z.div_mod_to_equations. nia. Qed.

Lemma calc_deposit_Some p x t :
  calc_pool_tokens_for_deposit p x = Some t -> total_lamports p <> 0 -> pool_token_supply p <> 0 ->
  t = x * pool_token_supply p / total_lamports p /\ in_range 64 t.
Proof.
  unfold calc_pool_tokens_for_deposit. intros H Ht Hs.
  destruct (Z.eqb_spec (total_lamports p) 0); [done|].
  destruct (Z.eqb_spec (pool_token_supply p) 0); [done|]. simpl in H.
  destruct (checked_mul 128 x _) eqn:E1; [|done].
  destruct (checked_div _ _) eqn:E2; [|done]. checked_inv. auto.
Qed.

Lemma calc_deposit_empty p x :
  total_lamports p = 0 \/ pool_token_supply p = 0 -> calc_pool_tokens_for_deposit p x = Some x.
Proof.
  unfold calc_pool_tokens_for_deposit. intros [-> | ->]; simpl; [done|].
  by rewrite orb_true_r.
Qed.

Lemma calc_deposit_le p x t :
  wf_amounts p -> 0 <= x -> calc_pool_tokens_for_deposit p x = Some t ->
  total_lamports p <> 0 -> pool_token_supply p <> 0 ->
  0 <= t /\ t * total_lamports p <= x * pool_token_supply p.
Proof.
  intros [HT HS] Hx H Ht Hs. apply calc_deposit_Some in H as [-> [Hr _]]; try done.
  unfold in_range in *. split; [exact Hr|].
  pose proof (div_floor_bounds (x * pool_token_supply p) (total_lamports p)). lia.
Qed.

Lemma calc_withdraw_Some p t l :
  calc_lamports_withdraw_amount p t = Some l -> wf_amounts p -> 0 <= t -> pool_token_supply p <> 0 ->
  l = t * total_lamports p / pool_token_supply p /\ in_range 64 l.
Proof.
  unfold calc_lamports_withdraw_amount. intros H [HT HS] Ht Hs.
  destruct (checked_mul 128 t _) eqn:E1; [|done]. checked_inv.
  destruct (Z.eqb_spec (pool_token_supply p) 0); [done|].
  destruct (Z.ltb_spec (t * total_lamports p) (pool_token_supply p)); simpl in H.
  - injection H as <-. rewrite Z.div_small; [unfold in_range; lia|]. unfold in_range in *. nia.
  - destruct (checked_div _ _) eqn:E2; [|done]. checked_inv. auto.
Qed.

Lemma calc_withdraw_le p t l :
  calc_lamports_withdraw_amount p t = Some l -> wf_amounts p -> 0 <= t -> pool_token_supply p <> 0 ->
  0 <= l /\ l * pool_token_supply p <= t * total_lamports p.
Proof.
  intros H Hw Ht Hs. apply calc_withdraw_Some in H as [-> [Hr _]]; try done.
  destruct Hw as [HT HS]. unfold in_range in *. split; [exact Hr|].
  pose proof (div_floor_bounds (t * total_lamports p) (pool_token_supply p)). lia.
Qed.

Lemma calc_withdraw_no_supply p t :
  pool_token_supply p = 0 -> in_range 128 (t * total_lamports p) ->
  calc_lamports_withdraw_amount p t = Some 0.
Proof.
  intros Hs Hr. unfold calc_lamports_withdraw_amount, checked_mul.
  rewrite (fit_in_range _ _ Hr), Hs. simpl. by rewrite orb_true_r.
Qed.

(** A withdrawal of at most the supply never overflows. *)
Lemma calc_withdraw_total p t :
  wf_amounts p -> 0 <= t <= pool_token_supply p ->
  exists l, calc_lamports_withdraw_amount p t = Some l /\ 0 <= l <= total_lamports p.
Proof.
  intros [HT HS] Ht. assert (Hr : in_range 128 (t * total_lamports p)).
  { apply mul_64_128; [unfold in_range in *; lia | exact HT]. }
  destruct (Z.eqb_spec (pool_token_supply p) 0) as [E|E].
  { exists 0. split; [by apply calc_withdraw_no_supply | unfold in_range in *; lia]. }
  unfold calc_lamports_withdraw_amount, checked_mul. rewrite (fit_in_range _ _ Hr).
  destruct (Z.ltb_spec (t * total_lamports p) (pool_token_supply p)); simpl.
  { exists 0. split; [done|]. unfold in_range in *; lia. }
  rewrite (proj2 (Z.eqb_neq _ _) E). unfold checked_div. rewrite (proj2 (Z.eqb_neq _ _) E).
  pose proof (div_floor_bounds (t * total_lamports p) (pool_token_supply p)) as Hb.
  assert (0 <= t * total_lamports p / pool_token_supply p <= total_lamports p).
  { unfold in_range in *. nia. }
  exists (t * total_lamports p / pool_token_supply p). split; [|done].
  apply fit_in_range. unfold in_range in *. lia.
Qed.

(** ** The fee parts of an amount *)
Lemma apply_fit f amt :
  wf_Fee f -> fee_le_one f -> in_range 64 amt ->
  (let? a := Fee_apply f amt in fit 64 a) = Some (fee_of f amt) /\ 0 <= fee_of f amt <= amt.
Proof.
  intros Hf H1 Ha. rewrite (Fee_apply_total _ _ Hf Ha).
  assert (0 <= fee_of f amt <= amt).
  { unfold in_range in Ha. split; [apply fee_of_nonneg | apply fee_of_le]; auto; lia. }
  split; [|done]. apply fit_in_range. unfold in_range in *. lia.
Qed.

Lemma referral_fit fee pct :
  in_range 64 fee -> 0 <= pct <= 100 ->
  (let? m := checked_mul 128 fee pct in let? d := checked_div m 100 in fit 64 d)
    = Some (fee * pct / 100) /\ 0 <= fee * pct / 100 <= fee.
Proof.
  intros Hf Hp. assert (in_range 128 (fee * pct)).
  { apply mul_64_128; [done|]. unfold in_range; lia. }
  unfold checked_mul. rewrite fit_in_range by done. unfold checked_div. simpl.
  assert (0 <= fee * pct / 100 <= fee).
  { unfold in_range in *. Z.div_mod_to_equations. nia. }
  split; [|done]. apply fit_in_range. unfold in_range in *; lia.
Qed.

Lemma calc_epoch_fee_Some p r f :
  wf_amounts p -> wf_Fee (epoch_fee p) -> in_range 64 r -> r <> 0 ->
  total_lamports p + r <> fee_of (epoch_fee p) r -> pool_token_supply p <> 0 ->
  fee_of (epoch_fee p) r <= total_lamports p + r ->
  calc_epoch_fee_amount p r = Some f ->
  f = pool_token_supply p * fee_of (epoch_fee p) r / (total_lamports p + r - fee_of (epoch_fee p) r).
Proof.
  intros [HT HS] Hf Hr Hr0 Hne Hs0 Hle H. unfold calc_epoch_fee_amount in H.
  rewrite (proj2 (Z.eqb_neq r 0) Hr0) in H.
  unfold checked_add in H. rewrite (fit_in_range 128 _ (add_64_128 _ _ HT Hr)) in H.
  rewrite (Fee_apply_total _ _ Hf Hr) in H.
  rewrite (proj2 (Z.eqb_neq _ _) Hne), (proj2 (Z.eqb_neq _ _) Hs0) in H. simpl in H.
  destruct (checked_mul _ _ _) eqn:E1; [|done]. destruct (checked_sub _ _ _) eqn:E2; [|done].
  destruct (checked_div _ _) eqn:E3; [|done]. checked_inv. done.
Qed.

(** The value of a token across a credit and a debit, at any pool that is empty of
    tokens only when it is empty of lamports. *)
Lemma credited_share_le p x t :
  wf_amounts p -> 0 <= x -> (pool_token_supply p = 0 -> total_lamports p = 0) ->
  calc_pool_tokens_for_deposit p x = Some t -> share_value_le p (credited p x t).
Proof.
  intros Hw Hx He H. unfold share_value_le, credited. simpl.
  destruct (Z.eq_dec (total_lamports p) 0) as [E|HT].
  { rewrite E. destruct Hw. unfold in_range in *. nia. }
  assert (HS : pool_token_supply p <> 0) by tauto.
  pose proof (calc_deposit_le _ _ _ Hw Hx H HT HS). nia.
Qed.

Lemma debited_share_le p t l :
  wf_amounts p -> 0 <= t -> pool_token_supply p <> 0 ->
  calc_lamports_withdraw_amount p t = Some l -> share_value_le p (debited p l t).
Proof.
  intros Hw Ht HS H. pose proof (calc_withdraw_le _ _ _ H Hw Ht HS).
  unfold share_value_le, debited. simpl. nia.
Qed.

(** ** Properties *)

(** A deposit never lowers the value of a token: the tokens
    [calc_pool_tokens_for_deposit] grants are worth at most the lamports paid in,
    and the ratio of lamports to tokens does not drop. *)
Theorem deposit_keeps_share_value p x t :
  wf_amounts p -> 0 <= x -> total_lamports p <> 0 -> pool_token_supply p <> 0 ->
  calc_pool_tokens_for_deposit p x = Some t ->
  0 <= t /\ t * total_lamports p <= x * pool_token_supply p < (t + 1) * total_lamports p /\
  share_value_le p (credited p x t).
Proof.
  intros Hw Hx HT HS H. pose proof (calc_deposit_le _ _ _ Hw Hx H HT HS) as [H0 Hle].
  apply calc_deposit_Some in H as [Ht _]; try done.
  assert (0 < total_lamports p) by (destruct Hw; unfold in_range in *; lia).
  pose proof (div_floor_bounds (x * pool_token_supply p) (total_lamports p)).
  rewrite <- Ht in *. split; [done|]. split; [lia|].
  unfold share_value_le, credited. simpl. nia.
Qed.

Lemma deposit_keeps_share_value_witness :
  let p := set_total_lamports 10 (set_pool_token_supply 3 StakePool_default) in
  calc_pool_tokens_for_deposit p 8 = Some 2 /\
  0 <= 2 /\ 2 * 10 <= 8 * 3 < (2 + 1) * 10 /\ share_value_le p (credited p 8 2).
Proof.
  split; [reflexivity|].
  apply (deposit_keeps_share_value
    (set_total_lamports 10 (set_pool_token_supply 3 StakePool_default)) 8 2);
    [split; unfold in_range; simpl; lia | lia | discriminate | discriminate | reflexivity].
Defined.

(** A withdrawal never lowers the value of the remaining tokens: it always
    computes, pays at most the value of the burnt tokens rounded down, and burning
    the whole supply pays exactly the whole pool. *)
Theorem withdraw_keeps_share_value p t :
  wf_amounts p -> 0 <= t <= pool_token_supply p -> pool_token_supply p <> 0 ->
  exists l, calc_lamports_withdraw_amount p t = Some l /\
    0 <= l <= total_lamports p /\ l * pool_token_supply p <= t * total_lamports p /\
    share_value_le p (debited p l t) /\
    (t = pool_token_supply p -> l = total_lamports p).
Proof.
  intros Hw Ht HS. destruct (calc_withdraw_total p t Hw Ht) as (l & H & Hl).
  exists l. pose proof (calc_withdraw_le _ _ _ H Hw (proj1 Ht) HS) as [_ Hle].
  repeat split; try done; try lia.
  - unfold share_value_le, debited. simpl. nia.
  - intros ->. apply calc_withdraw_Some in H as [-> _]; try done; [|lia].
    rewrite Z.mul_comm. by apply Z.div_mul.
Qed.

Lemma withdraw_keeps_share_value_witness :
  let p := set_total_lamports 10 (set_pool_token_supply 3 StakePool_default) in
  exists l, calc_lamports_withdraw_amount p 2 = Some l /\
    0 <= l <= 10 /\ l * 3 <= 2 * 10 /\ share_value_le p (debited p l 2) /\ (2 = 3 -> l = 10).
Proof.
  apply (withdraw_keeps_share_value
    (set_total_lamports 10 (set_pool_token_supply 3 StakePool_default)) 2);
    [split; unfold in_range; simpl; lia | simpl; lia | discriminate].
Defined.

(** Depositing and immediately withdrawing the granted tokens never pays out
    more than was put in, unless the pool has lamports but no tokens outstanding. *)
Theorem deposit_withdraw_no_profit p x t l :
  wf_amounts p -> wf_amounts (credited p x t) -> 0 <= x ->
  ~ (pool_token_supply p = 0 /\ total_lamports p <> 0) ->
  calc_pool_tokens_for_deposit p x = Some t ->
  calc_lamports_withdraw_amount (credited p x t) t = Some l ->
  l <= x.
Proof.
  intros Hw Hw' Hx Hdust Hd Hl.
  destruct (Z.eqb_spec (total_lamports p) 0) as [ET|ET].
  - rewrite calc_deposit_empty in Hd by auto. injection Hd as <-.
    destruct (Z.eqb_spec (pool_token_supply (credited p x x)) 0) as [E|E].
    + rewrite calc_withdraw_no_supply in Hl; [injection Hl as <-; lia | done |].
      destruct Hw' as [H1 H2]. apply mul_64_128; [|done].
      simpl in *. unfold in_range in *. destruct Hw as [_ Hw]. unfold in_range in Hw. lia.
    + apply calc_withdraw_le in Hl; try done.
      simpl in *. destruct Hw as [_ Hw]. unfold in_range in Hw. nia.
  - assert (ES : pool_token_supply p <> 0) by (intros E; apply Hdust; auto).
    pose proof (calc_deposit_le _ _ _ Hw Hx Hd ET ES) as [H0 Hle].
    destruct Hw as [HT HS]. unfold in_range in HT, HS.
    apply calc_withdraw_le in Hl; [|done|done|simpl; lia]. simpl in Hl.
    apply Z.lt_succ_r, Z.nle_gt. intros Hc. nia.
Qed.

Lemma deposit_withdraw_no_profit_witness :
  let p := set_total_lamports 10 (set_pool_token_supply 3 StakePool_default) in
  calc_lamports_withdraw_amount (credited p 8 2) 2 = Some 7 /\ 7 <= 8.
Proof.
  split; [reflexivity|].
  apply (deposit_withdraw_no_profit
    (set_total_lamports 10 (set_pool_token_supply 3 StakePool_default)) 8 2);
    [split; unfold in_range; simpl; lia | split; unfold in_range; simpl; lia | lia
    | simpl; lia | reflexivity | reflexivity].
Defined.

(** C31: the tokens minted as the epoch fee are worth, at the new ratio, at most the
    fee share of the reward, and the value of every other token does not drop. *)
Theorem epoch_fee_bounded p r f :
  wf_amounts p -> wf_Fee (epoch_fee p) -> fee_le_one (epoch_fee p) -> in_range 64 r ->
  total_lamports p <> 0 -> pool_token_supply p <> 0 ->
  calc_epoch_fee_amount p r = Some f ->
  0 <= f /\
  f * (total_lamports p + r) <= fee_of (epoch_fee p) r * (pool_token_supply p + f) /\
  share_value_le p (credited p r f).
Proof.
  intros Hw Hf H1 Hr HT HS H. destruct (Z.eqb_spec r 0) as [->|Hr0].
  { unfold calc_epoch_fee_amount in H. simpl in H. injection H as <-.
    destruct Hw as [? ?]. unfold in_range in *.
    pose proof (fee_of_nonneg (epoch_fee p) 0 Hf). split; [lia|].
    split; [nia|]. unfold share_value_le. simpl. nia. }
  pose proof (fee_of_nonneg (epoch_fee p) r Hf) as Hp.
  pose proof (fee_of_le (epoch_fee p) r Hf H1) as Hle.
  assert (0 < total_lamports p /\ 0 < pool_token_supply p /\ 0 < r) as (HT0 & HS0 & Hr1).
  { destruct Hw as [? ?]. unfold in_range in *. lia. }
  apply calc_epoch_fee_Some in H; try done; try lia.
  pose proof (div_floor_bounds (pool_token_supply p * fee_of (epoch_fee p) r)
    (total_lamports p + r - fee_of (epoch_fee p) r)) as Hb. rewrite <- H in Hb.
  assert (0 <= f) by (rewrite H; apply Z.div_pos; nia).
  unfold share_value_le, credited. simpl. repeat split; nia.
Qed.

Lemma epoch_fee_bounded_witness :
  let p := set_epoch_fee (mkFee 10 1)
             (set_total_lamports 1000 (set_pool_token_supply 900 StakePool_default)) in
  calc_epoch_fee_amount p 100 = Some 8 /\
  0 <= 8 /\ 8 * (1000 + 100) <= fee_of (mkFee 10 1) 100 * (900 + 8) /\
  share_value_le p (credited p 100 8).
Proof.
  split; [reflexivity|].
  apply (epoch_fee_bounded (set_epoch_fee (mkFee 10 1)
    (set_total_lamports 1000 (set_pool_token_supply 900 StakePool_default))) 100 8);
    [split; unfold in_range; simpl; lia | split; unfold in_range; simpl; lia
    | unfold fee_le_one; simpl; lia | unfold in_range; lia | discriminate | discriminate | reflexivity].
Defined.

(** The tolerance [get_lamports_per_pool_token] is enough to take out a whole
    account: for every balance of at most the pool's there is an amount of tokens,
    within the supply, whose value lies between the balance and the balance plus it. *)
Theorem whole_account_withdrawable p balance m :
  wf_amounts p -> 0 < balance <= total_lamports p -> pool_token_supply p <> 0 ->
  get_lamports_per_pool_token p = Some m ->
  exists t l, 0 <= t <= pool_token_supply p /\
    calc_lamports_withdraw_amount p t = Some l /\ balance <= l <= balance + m.
Proof.
  intros Hw Hb HS Hm. assert (Hw' := Hw). destruct Hw' as [HT HSr]. unfold in_range in HT, HSr.
  set (T := total_lamports p) in *. set (S := pool_token_supply p) in *.
  assert (Hm' : m = ceil_div T S).
  { unfold get_lamports_per_pool_token in Hm. fold T S in Hm.
    destruct (checked_add _ _ _) eqn:E1; [|done]. destruct (checked_sub _ _ _) eqn:E2; [|done].
    apply checked_div_Some in Hm as [_ ->]. checked_inv. done. }
  pose proof (ceil_div_bounds T S ltac:(lia)) as HmB. rewrite <- Hm' in HmB.
  pose proof (ceil_div_bounds (balance * S) T ltac:(lia)) as HtB.
  set (t := ceil_div (balance * S) T) in *.
  assert (Ht : 0 <= t <= S).
  { split; [apply ceil_div_nonneg; nia | apply ceil_div_le; nia]. }
  destruct (calc_withdraw_total p t Hw Ht) as (l & Hl & Hlr).
  exists t, l. split; [done|]. split; [done|].
  apply calc_withdraw_Some in Hl as [-> _]; try done; [|lia]. fold T S.
  pose proof (div_floor_bounds (t * T) S ltac:(lia)) as HlB.
  set (q := t * T / S) in *. clear Hm Hm' Hlr. nia.
Qed.

Lemma whole_account_withdrawable_witness :
  let p := set_total_lamports 1000 (set_pool_token_supply 7 StakePool_default) in
  exists t l, 0 <= t <= 7 /\ calc_lamports_withdraw_amount p t = Some l /\ 300 <= l <= 300 + 143.
Proof.
  apply (whole_account_withdrawable
    (set_total_lamports 1000 (set_pool_token_supply 7 StakePool_default)) 300 143);
    [split; unfold in_range; simpl; lia | simpl; lia | discriminate | reflexivity].
Defined.
