(* ===== verification/Borsh.v ===== *)
(** * Borsh codecs
    The wire format of the [BorshSerialize]/[BorshDeserialize] derives the state
    and instruction types carry: little-endian integers, one-byte tags for enums
    and options, a [u32] length before vectors. A codec is a pair of functions; the
    class [CodecOk] states that they are inverse to each other in both directions. *)
From S2P Require Import Prelude.

Definition is_byte (b : Z) : Prop := 0 <= b < 256.
Definition bytes (l : list Z) : Prop := Forall is_byte l.

Lemma bytes_app l k : bytes (l ++ k) <-> bytes l /\ bytes k.
Proof. apply Forall_app. Qed.
Lemma bytes_take n l : bytes l -> bytes (take n l).
Proof. apply Forall_take. Qed.
Lemma bytes_drop n l : bytes l -> bytes (drop n l).
Proof. apply Forall_drop. Qed.
Lemma bytes_cons b l : is_byte b -> bytes l -> bytes (b :: l).
Proof. by constructor. Qed.
Lemma bytes_tail b l : bytes (b :: l) -> bytes l.
Proof. by inversion 1. Qed.
Create HintDb sp_bytes discriminated.
#[export] Hint Resolve bytes_take bytes_drop : sp_bytes.

Record Codec (A : Type) := mkCodec {
  enc : A -> list Z;
  dec : list Z -> option (A * list Z);
  wf : A -> Prop
}.
Arguments mkCodec {A} enc dec wf.
Arguments enc {A} c x : rename.
Arguments dec {A} c l : rename.
Arguments wf {A} c x : rename.

(** [dec_enc]: reading back what was written. [enc_dec]: what is read from bytes is
    well formed and was spelled exactly as [enc] spells it. *)
Class CodecOk {A} (c : Codec A) : Prop := {
  dec_enc x rest : wf c x -> dec c (enc c x ++ rest) = Some (x, rest);
  enc_dec l x rest : bytes l -> dec c l = Some (x, rest) -> l = enc c x ++ rest /\ wf c x;
  enc_bytes x : wf c x -> bytes (enc c x)
}.

(** Reads one value and names it and the remaining input. *)
Notation "'rd' x , r '<-' c 'of' l 'in' k" :=
  (match dec c l with Some (x, r) => k | None => None end)
  (at level 10, x name, r name, c at level 9, l at level 9, k at level 200) : sp_scope.

Lemma enc_dec_rest {A} (c : Codec A) `{!CodecOk c} l x rest :
  bytes l -> dec c l = Some (x, rest) -> bytes rest.
Proof.
  intros Hl H. apply (enc_dec _ _ _ Hl) in H as [-> _]. by apply bytes_app in Hl as [_ ?].
Qed.

(** ** Integers *)
Fixpoint le_enc (n : nat) (v : Z) : list Z :=
  match n with O => [] | S n => v mod 256 :: le_enc n (v / 256) end.

Fixpoint le_dec (n : nat) (l : list Z) : option (Z * list Z) :=
  match n with
  | O => Some (0, l)
  | S n => match l with
           | [] => None
           | b :: l => match le_dec n l with Some (v, r) => Some (b + 256 * v, r) | None => None end
           end
  end.

Definition uint (n : nat) : Codec Z :=
  mkCodec (le_enc n) (le_dec n) (in_range (8 * Z.of_nat n)).

Definition u8 := uint 1.
Definition u32 := uint 4.
Definition u64 := uint 8.
Definition pubkey := uint 32.

Lemma length_le_enc n v : length (le_enc n v) = n.
Proof. revert v; induction n; intros; simpl; auto. Qed.

Lemma bytes_le_enc n v : bytes (le_enc n v).
Proof.
  revert v; induction n; intros v; simpl; constructor; [|apply IHn].
  unfold is_byte. apply Z.mod_pos_bound. lia.
Qed.

Lemma pow_succ_8 n : 2 ^ (8 * Z.of_nat (S n)) = 256 * 2 ^ (8 * Z.of_nat n).
Proof.
  replace (8 * Z.of_nat (S n)) with (8 + 8 * Z.of_nat n) by lia.
  rewrite Z.pow_add_r by lia. reflexivity.
Qed.

Lemma le_dec_enc n v rest :
  in_range (8 * Z.of_nat n) v -> le_dec n (le_enc n v ++ rest) = Some (v, rest).
Proof.
  revert v; induction n as [|n IH]; intros v Hv; unfold in_range in *.
  { simpl in *. f_equal. f_equal. lia. }
  rewrite pow_succ_8 in Hv. cbn [le_enc le_dec app]. rewrite IH.
  - f_equal. f_equal. Z.div_mod_to_equations. lia.
  - unfold in_range. split; [apply Z.div_pos; lia | apply Z.div_lt_upper_bound; lia].
Qed.

Lemma le_enc_dec n l v rest :
  bytes l -> le_dec n l = Some (v, rest) ->
  l = le_enc n v ++ rest /\ in_range (8 * Z.of_nat n) v.
Proof.
  revert l v; induction n as [|n IH]; intros l v Hl H; simpl in H.
  { injection H as <- <-. split; [done|]. unfold in_range. simpl. lia. }
  destruct l as [|b l]; [done|]. destruct (le_dec n l) as [[u r]|] eqn:E; [|done].
  injection H as <- <-. inversion Hl as [|? ? Hb Hl']; subst.
  apply (IH _ _ Hl') in E as [-> Hu]. unfold is_byte in Hb. cbn [le_enc app].
  replace ((b + 256 * u) mod 256) with b by (Z.div_mod_to_equations; lia).
  replace ((b + 256 * u) / 256) with u by (Z.div_mod_to_equations; lia).
  split; [done|]. unfold in_range in *. rewrite pow_succ_8. lia.
Qed.

#[export] Instance uint_ok n : CodecOk (uint n).
Proof.
  split; [apply le_dec_enc | apply le_enc_dec | intros x _; apply bytes_le_enc].
Qed.

(** ** Enums, options, vectors *)
(** A fieldless enum: the tag byte is the position in [all]. *)
Section EnumCodec.
Context {A : Type} (tag : A -> Z) (untag : Z -> option A).
Definition enum : Codec A :=
  mkCodec (fun x => [tag x])
    (fun l => match l with
              | [] => None
              | b :: r => match untag b with Some x => Some (x, r) | None => None end
              end)
    (fun _ => True).
Lemma enum_ok :
  (forall x, untag (tag x) = Some x) -> (forall b x, untag b = Some x -> tag x = b) ->
  (forall x, is_byte (tag x)) -> CodecOk enum.
Proof.
  intros H1 H2 H3. split.
  - intros x rest _. simpl. by rewrite H1.
  - intros l x rest _ H. simpl in H. destruct l as [|b r]; [done|].
    destruct (untag b) as [y|] eqn:E; [|done]. injection H as -> ->. apply H2 in E as <-. done.
  - intros x _. simpl. repeat constructor; apply H3.
Qed.
End EnumCodec.

Definition opt {A} (c : Codec A) : Codec (option A) :=
  mkCodec (fun o => match o with None => [0] | Some x => 1 :: enc c x end)
    (fun l => match l with
              | [] => None
              | b :: r => if b =? 0 then Some (None, r)
                          else if b =? 1 then rd x, r <- c of r in Some (Some x, r)
                          else None
              end)
    (fun o => match o with None => True | Some x => wf c x end).

#[export] Instance opt_ok {A} (c : Codec A) `{!CodecOk c} : CodecOk (opt c).
Proof.
  split.
  - intros [x|] rest Hx; simpl; [|done]. by rewrite dec_enc.
  - intros l x rest Hl H. simpl in H. destruct l as [|b r]; [done|].
    destruct (Z.eqb_spec b 0) as [->|]; [injection H as <- <-; done|].
    destruct (Z.eqb_spec b 1) as [->|]; [|done].
    destruct (dec c r) as [[y r']|] eqn:E; [|done]. injection H as <- <-.
    inversion Hl; subst. apply enc_dec in E as [-> ?]; done.
  - intros [x|] Hx; simpl; constructor; try (unfold is_byte; lia); [by apply enc_bytes | constructor].
Qed.

Section VecCodec.
Context {A : Type} (c : Codec A).
Definition enc_list (xs : list A) : list Z := flat_map (enc c) xs.
Fixpoint dec_list (n : nat) (l : list Z) : option (list A * list Z) :=
  match n with
  | O => Some ([], l)
  | S n => rd x, r <- c of l in
           match dec_list n r with Some (xs, r) => Some (x :: xs, r) | None => None end
  end.

Context `{!CodecOk c}.
Lemma dec_list_enc xs rest :
  Forall (wf c) xs -> dec_list (length xs) (enc_list xs ++ rest) = Some (xs, rest).
Proof.
  induction 1 as [|x xs Hx _ IH]; [done|]. cbn [length dec_list enc_list flat_map].
  rewrite <- app_assoc, dec_enc by done. unfold enc_list in IH. by rewrite IH.
Qed.
Lemma enc_list_dec n l xs rest :
  bytes l -> dec_list n l = Some (xs, rest) ->
  l = enc_list xs ++ rest /\ length xs = n /\ Forall (wf c) xs.
Proof.
  revert l xs; induction n as [|n IH]; intros l xs Hl H; simpl in H.
  { by injection H as <- <-. }
  destruct (dec c l) as [[x r]|] eqn:E; [|done].
  pose proof (enc_dec_rest _ _ _ _ Hl E) as Hr. apply enc_dec in E as [-> Hx]; [|done].
  destruct (dec_list n r) as [[ys r']|] eqn:E'; [|done]. injection H as <- <-.
  apply IH in E' as (-> & <- & ?); [|done]. simpl. rewrite app_assoc. auto.
Qed.
Lemma bytes_enc_list xs : Forall (wf c) xs -> bytes (enc_list xs).
Proof.
  induction 1; simpl; [constructor|]. apply bytes_app. split; [by apply enc_bytes | done].
Qed.
End VecCodec.

Definition vec {A} (c : Codec A) : Codec (list A) :=
  mkCodec (fun xs => enc u32 (Z.of_nat (length xs)) ++ enc_list c xs)
    (fun l => rd n, r <- u32 of l in dec_list c (Z.to_nat n) r)
    (fun xs => Forall (wf c) xs /\ in_range 32 (Z.of_nat (length xs))).

#[export] Instance vec_ok {A} (c : Codec A) `{!CodecOk c} : CodecOk (vec c).
Proof.
  split.
  - intros xs rest [Hxs Hn]. cbn [vec enc dec]. rewrite <- app_assoc, dec_enc by done.
    rewrite Nat2Z.id. by apply dec_list_enc.
  - intros l xs rest Hl H. cbn [vec enc dec] in *.
    destruct (dec u32 l) as [[n r]|] eqn:E; [|done].
    pose proof (enc_dec_rest _ _ _ _ Hl E) as Hr. apply enc_dec in E as [-> Hn]; [|done].
    apply enc_list_dec in H as (-> & Hlen & Hxs); [|done|done].
    assert (n = Z.of_nat (length xs)) as ->.
    { rewrite Hlen. unfold wf in Hn; simpl in Hn. unfold in_range in Hn. lia. }
    rewrite <- app_assoc. done.
  - intros xs [Hxs Hn]. cbn [vec enc]. apply bytes_app.
    split; [by apply enc_bytes | by apply bytes_enc_list].
Qed.

(** A fixed-size byte array [[u8; n]]. *)
Definition byte_array (n : nat) : Codec (list Z) :=
  mkCodec (fun xs => xs)
    (fun l => if (n <=? length l)%nat then Some (take n l, drop n l) else None)
    (fun xs => length xs = n /\ bytes xs).

#[export] Instance byte_array_ok n : CodecOk (byte_array n).
Proof.
  split.
  - intros x rest [Hx _]. simpl. rewrite length_app.
    destruct (Nat.leb_spec n (length x + length rest)); [|lia].
    rewrite take_app_length', drop_app_length' by done. done.
  - intros l x rest Hl H. simpl in *. destruct (Nat.leb_spec n (length l)); [|done].
    injection H as <- <-. rewrite take_drop. split; [done|].
    split; [rewrite length_take; lia | by apply bytes_take].
  - intros x [_ Hx]. done.
Qed.

(** ** Booleans and strings *)
Definition u16 := uint 2.

(** A [bool] is a byte 0 or 1; any other byte is refused. *)
Definition boolean : Codec bool :=
  enum (fun b : bool => if b then 1 else 0)
    (fun n => if n =? 0 then Some false else if n =? 1 then Some true else None).

#[export] Instance boolean_ok : CodecOk boolean.
Proof.
  apply enum_ok.
  - by intros [].
  - intros n x. destruct (Z.eqb_spec n 0) as [->|]; [by intros [= <-]|].
    destruct (Z.eqb_spec n 1) as [->|]; [by intros [= <-] | done].
  - intros []; unfold is_byte; lia.
Qed.

(** [String::from_utf8] accepts exactly the well-formed UTF-8 sequences: no
    overlong forms, no surrogates, nothing above U+10FFFF. *)
Definition byte_in (lo hi b : Z) : bool := (lo <=? b) && (b <=? hi).
Definition utf8_cont (b : Z) : bool := byte_in 128 191 b.
Definition utf8_second (b0 b1 : Z) : bool :=
  if b0 =? 224 then byte_in 160 191 b1 else if b0 =? 237 then byte_in 128 159 b1 else
  if b0 =? 240 then byte_in 144 191 b1 else if b0 =? 244 then byte_in 128 143 b1 else utf8_cont b1.
Fixpoint utf8_valid (l : list Z) : bool :=
  match l with
  | [] => true
  | b0 :: l =>
      if byte_in 0 127 b0 then utf8_valid l
      else if byte_in 194 223 b0 then
        match l with b1 :: l => utf8_second b0 b1 && utf8_valid l | _ => false end
      else if byte_in 224 239 b0 then
        match l with b1 :: b2 :: l => utf8_second b0 b1 && utf8_cont b2 && utf8_valid l | _ => false end
      else if byte_in 240 244 b0 then
        match l with
        | b1 :: b2 :: b3 :: l => utf8_second b0 b1 && utf8_cont b2 && utf8_cont b3 && utf8_valid l
        | _ => false
        end
      else false
  end.

(** A [String]: its bytes behind a [u32] length, checked to be UTF-8 when read. *)
Definition string_codec : Codec (list Z) :=
  mkCodec (fun xs => enc u32 (Z.of_nat (length xs)) ++ xs)
    (fun l => rd n, r <- u32 of l in
       match dec (byte_array (Z.to_nat n)) r with
       | Some (xs, r) => if utf8_valid xs then Some (xs, r) else None
       | None => None
       end)
    (fun xs => bytes xs /\ utf8_valid xs = true /\ in_range 32 (Z.of_nat (length xs))).

#[export] Instance string_ok : CodecOk string_codec.
Proof.
  split.
  - intros xs rest (Hb & Hu & Hn). cbn [string_codec enc dec]. rewrite <- app_assoc, dec_enc by done.
    rewrite Nat2Z.id. change (xs ++ rest) with (enc (byte_array (length xs)) xs ++ rest).
    rewrite dec_enc by done. by rewrite Hu.
  - intros l xs rest Hl H. cbn [string_codec enc dec wf] in *.
    destruct (dec u32 l) as [[n r]|] eqn:E; [|done].
    pose proof (enc_dec_rest _ _ _ _ Hl E) as Hr. apply enc_dec in E as [-> Hn]; [|done].
    destruct (dec (byte_array (Z.to_nat n)) r) as [[ys r']|] eqn:E'; [|done].
    destruct (utf8_valid ys) eqn:Hu; [|done]. injection H as -> ->.
    apply enc_dec in E' as [-> [Hlen Hb]]; [|done].
    cbn [u32 uint wf] in Hn. unfold in_range in Hn.
    assert (n = Z.of_nat (length xs)) as -> by lia.
    cbn [byte_array enc]. rewrite <- app_assoc. done.
  - intros xs (Hb & _ & Hn). cbn [string_codec enc]. apply bytes_app. split; [by apply enc_bytes | done].
Qed.

(** [T::try_from_slice]: nothing may follow the value. *)
Definition dec_all {A} (c : Codec A) (l : list Z) : option A :=
  match dec c l with Some (x, []) => Some x | _ => None end.

Lemma dec_all_enc {A} (c : Codec A) `{!CodecOk c} x : wf c x -> dec_all c (enc c x) = Some x.
Proof. intros Hx. unfold dec_all. pose proof (dec_enc x [] Hx) as E. rewrite app_nil_r in E. by rewrite E. Qed.
Lemma dec_all_Some {A} (c : Codec A) `{!CodecOk c} l x :
  bytes l -> dec_all c l = Some x -> l = enc c x /\ wf c x.
Proof.
  unfold dec_all. intros Hl H. destruct (dec c l) as [[y [|]]|] eqn:E; [|done|done]. injection H as ->.
  apply enc_dec in E as [-> Hx]; [|done]. by rewrite app_nil_r.
Qed.

(** ** Records
    [codec_record] proves [CodecOk] for a record whose codec chains the codecs of
    its fields in declaration order, from the instances of the fields. *)
Ltac dec_fields :=
  repeat match goal with
  | |- context [dec ?c (enc ?c ?x ++ ?r)] => rewrite (dec_enc (c := c) x r) by assumption
  end.

Ltac open_fields :=
  repeat match goal with
  | Hl : bytes ?l, H : context [match dec ?c ?l with Some _ => _ | None => None end] |- _ =>
      let x := fresh "x" in let r := fresh "r" in let E := fresh "E" in let W := fresh "W" in
      destruct (dec c l) as [[x r]|] eqn:E; [|discriminate H];
      let Hr := fresh "Hr" in
      pose proof (enc_dec_rest c l x r Hl E) as Hr;
      apply (enc_dec (c := c) l x r Hl) in E as [E W]; clear Hl; subst l
  end.

Ltac codec_record c :=
  split;
  [ intros x rest Hwf; unfold c in *; cbn [enc dec wf] in *; rewrite <- ?app_assoc; deex; dec_fields;
    destruct x; reflexivity
  | intros l x rest Hl H; unfold c in *; cbn [enc dec wf] in *; open_fields;
    injection H as <- <-; rewrite <- ?app_assoc; split;
    [reflexivity | repeat match goal with |- _ /\ _ => split end; assumption]
  | intros x Hwf; unfold c in *; cbn [enc wf] in *;
    deex; repeat match goal with |- bytes (_ ++ _) => apply bytes_app; split end;
    apply enc_bytes; assumption ].
