(* ===== verification/Layout.v ===== *)
(** * Wire layout of the program's accounts
    The codecs the Borsh derives of program/src/state.rs produce for the account
    data of a pool and of a validator list, field by field in declaration order,
    and the fixed offsets the program reads without decoding. *)
From S2P Require Import Prelude Error Fees State Borsh.

(** [AccountType] tags. *)
Definition account_type_tag (t : AccountType) : Z :=
  match t with Uninitialized => 0 | AccStakePool => 1 | AccValidatorList => 2 end.
Definition account_type_untag (b : Z) : option AccountType :=
  if b =? 0 then Some Uninitialized else if b =? 1 then Some AccStakePool
  else if b =? 2 then Some AccValidatorList else None.
Definition account_type_codec : Codec AccountType := enum account_type_tag account_type_untag.

#[export] Instance account_type_codec_ok : CodecOk account_type_codec.
Proof.
  apply enum_ok; [intros []; reflexivity | | intros []; unfold is_byte; simpl; lia].
  intros b x. unfold account_type_untag.
  repeat (case Z.eqb_spec; [intros -> [= <-]; reflexivity | intros _]). done.
Qed.

(** [FutureEpoch<T>]: tag 0, 1 or 2, then the value if there is one. *)
Definition future {A} (c : Codec A) : Codec (FutureEpoch A) :=
  mkCodec (fun f => match f with
                    | FutureNone => [0] | One x => 1 :: enc c x | Two x => 2 :: enc c x
                    end)
    (fun l => match l with
              | [] => None
              | b :: r => if b =? 0 then Some (FutureNone, r)
                          else if b =? 1 then rd x, r <- c of r in Some (One x, r)
                          else if b =? 2 then rd x, r <- c of r in Some (Two x, r)
                          else None
              end)
    (fun f => match f with FutureNone => True | One x | Two x => wf c x end).

#[export] Instance future_ok {A} (c : Codec A) `{!CodecOk c} : CodecOk (future c).
Proof.
  split.
  - intros [|x|x] rest Hx; simpl; [done| |]; by rewrite dec_enc.
  - intros l x rest Hl H. simpl in H. destruct l as [|b r]; [done|].
    destruct (Z.eqb_spec b 0) as [->|]; [injection H as <- <-; done|].
    inversion Hl; subst.
    destruct (Z.eqb_spec b 1) as [->|]; [|destruct (Z.eqb_spec b 2) as [->|]; [|done]];
      (destruct (dec c r) as [[y r']|] eqn:E; [|done]; injection H as <- <-;
       apply enc_dec in E as [-> ?]; done).
  - intros [|x|x] Hx; simpl; constructor; try (unfold is_byte; lia);
      try (by apply enc_bytes); constructor.
Qed.

(** [Fee]: the denominator first, as declared. *)
Definition fee_codec : Codec Fee :=
  mkCodec
    (fun p =>
       enc u64 (denominator p) ++
       enc u64 (numerator p))
    (fun l =>
       rd x0, l <- u64 of l in
       rd x1, l <- u64 of l in
       Some (mkFee x0 x1, l))
    (fun p =>
       wf u64 (denominator p) /\
       wf u64 (numerator p)).

#[export] Instance fee_codec_ok : CodecOk fee_codec.
Proof. codec_record fee_codec. Qed.

(** [Lockup]: as the client layouts under src/clients give it. *)
Definition lockup_codec : Codec Lockup :=
  mkCodec
    (fun p =>
       enc u64 (unix_timestamp p) ++
       enc u64 (lockup_epoch p) ++
       enc pubkey (custodian p))
    (fun l =>
       rd x0, l <- u64 of l in
       rd x1, l <- u64 of l in
       rd x2, l <- pubkey of l in
       Some (mkLockup x0 x1 x2, l))
    (fun p =>
       wf u64 (unix_timestamp p) /\
       wf u64 (lockup_epoch p) /\
       wf pubkey (custodian p)).

#[export] Instance lockup_codec_ok : CodecOk lockup_codec.
Proof. codec_record lockup_codec. Qed.

(** [StakePool]. *)
Definition stake_pool_codec : Codec StakePool :=
  mkCodec
    (fun p =>
       enc u8 (version p) ++
       enc account_type_codec (account_type p) ++
       enc pubkey (manager p) ++
       enc pubkey (staker p) ++
       enc pubkey (stake_deposit_authority p) ++
       enc u8 (stake_withdraw_bump_seed p) ++
       enc pubkey (validator_list p) ++
       enc pubkey (reserve_stake p) ++
       enc pubkey (pool_mint p) ++
       enc pubkey (manager_fee_account p) ++
       enc pubkey (token_program_id p) ++
       enc u64 (total_lamports p) ++
       enc u64 (pool_token_supply p) ++
       enc u64 (last_update_epoch p) ++
       enc lockup_codec (lockup p) ++
       enc fee_codec (epoch_fee p) ++
       enc (future fee_codec) (next_epoch_fee p) ++
       enc (opt pubkey) (preferred_deposit_validator_vote_address p) ++
       enc (opt pubkey) (preferred_withdraw_validator_vote_address p) ++
       enc fee_codec (stake_deposit_fee p) ++
       enc fee_codec (stake_withdrawal_fee p) ++
       enc (future fee_codec) (next_stake_withdrawal_fee p) ++
       enc u8 (stake_referral_fee p) ++
       enc (opt pubkey) (sol_deposit_authority p) ++
       enc fee_codec (sol_deposit_fee p) ++
       enc u8 (sol_referral_fee p) ++
       enc (opt pubkey) (sol_withdraw_authority p) ++
       enc fee_codec (sol_withdrawal_fee p) ++
       enc (future fee_codec) (next_sol_withdrawal_fee p) ++
       enc u64 (last_epoch_pool_token_supply p) ++
       enc u64 (last_epoch_total_lamports p) ++
       enc (opt u64) (max_validator_stake p) ++
       enc (byte_array 256) (reserved p))
    (fun l =>
       rd x0, l <- u8 of l in
       rd x1, l <- account_type_codec of l in
       rd x2, l <- pubkey of l in
       rd x3, l <- pubkey of l in
       rd x4, l <- pubkey of l in
       rd x5, l <- u8 of l in
       rd x6, l <- pubkey of l in
       rd x7, l <- pubkey of l in
       rd x8, l <- pubkey of l in
       rd x9, l <- pubkey of l in
       rd x10, l <- pubkey of l in
       rd x11, l <- u64 of l in
       rd x12, l <- u64 of l in
       rd x13, l <- u64 of l in
       rd x14, l <- lockup_codec of l in
       rd x15, l <- fee_codec of l in
       rd x16, l <- (future fee_codec) of l in
       rd x17, l <- (opt pubkey) of l in
       rd x18, l <- (opt pubkey) of l in
       rd x19, l <- fee_codec of l in
       rd x20, l <- fee_codec of l in
       rd x21, l <- (future fee_codec) of l in
       rd x22, l <- u8 of l in
       rd x23, l <- (opt pubkey) of l in
       rd x24, l <- fee_codec of l in
       rd x25, l <- u8 of l in
       rd x26, l <- (opt pubkey) of l in
       rd x27, l <- fee_codec of l in
       rd x28, l <- (future fee_codec) of l in
       rd x29, l <- u64 of l in
       rd x30, l <- u64 of l in
       rd x31, l <- (opt u64) of l in
       rd x32, l <- (byte_array 256) of l in
       Some (mkStakePool x0 x1 x2 x3 x4 x5 x6 x7 x8 x9 x10 x11 x12 x13 x14 x15 x16 x17 x18
         x19 x20 x21 x22 x23 x24 x25 x26 x27 x28 x29 x30 x31 x32, l))
    (fun p =>
       wf u8 (version p) /\
       wf account_type_codec (account_type p) /\
       wf pubkey (manager p) /\
       wf pubkey (staker p) /\
       wf pubkey (stake_deposit_authority p) /\
       wf u8 (stake_withdraw_bump_seed p) /\
       wf pubkey (validator_list p) /\
       wf pubkey (reserve_stake p) /\
       wf pubkey (pool_mint p) /\
       wf pubkey (manager_fee_account p) /\
       wf pubkey (token_program_id p) /\
       wf u64 (total_lamports p) /\
       wf u64 (pool_token_supply p) /\
       wf u64 (last_update_epoch p) /\
       wf lockup_codec (lockup p) /\
       wf fee_codec (epoch_fee p) /\
       wf (future fee_codec) (next_epoch_fee p) /\
       wf (opt pubkey) (preferred_deposit_validator_vote_address p) /\
       wf (opt pubkey) (preferred_withdraw_validator_vote_address p) /\
       wf fee_codec (stake_deposit_fee p) /\
       wf fee_codec (stake_withdrawal_fee p) /\
       wf (future fee_codec) (next_stake_withdrawal_fee p) /\
       wf u8 (stake_referral_fee p) /\
       wf (opt pubkey) (sol_deposit_authority p) /\
       wf fee_codec (sol_deposit_fee p) /\
       wf u8 (sol_referral_fee p) /\
       wf (opt pubkey) (sol_withdraw_authority p) /\
       wf fee_codec (sol_withdrawal_fee p) /\
       wf (future fee_codec) (next_sol_withdrawal_fee p) /\
       wf u64 (last_epoch_pool_token_supply p) /\
       wf u64 (last_epoch_total_lamports p) /\
       wf (opt u64) (max_validator_stake p) /\
       wf (byte_array 256) (reserved p)).

#[export] Instance stake_pool_codec_ok : CodecOk stake_pool_codec.
Proof. codec_record stake_pool_codec. Qed.

(** [ValidatorStakeInfo]: 73 bytes, also the in-memory layout [bytemuck] casts to. *)
Definition vsi_codec : Codec ValidatorStakeInfo :=
  mkCodec
    (fun p =>
       enc u64 (active_stake_lamports p) ++
       enc u64 (transient_stake_lamports p) ++
       enc u64 (vsi_last_update_epoch p) ++
       enc u64 (transient_seed_suffix p) ++
       enc u32 (unused p) ++
       enc u32 (validator_seed_suffix p) ++
       enc u8 (status p) ++
       enc pubkey (vote_account_address p))
    (fun l =>
       rd x0, l <- u64 of l in
       rd x1, l <- u64 of l in
       rd x2, l <- u64 of l in
       rd x3, l <- u64 of l in
       rd x4, l <- u32 of l in
       rd x5, l <- u32 of l in
       rd x6, l <- u8 of l in
       rd x7, l <- pubkey of l in
       Some (mkVSI x0 x1 x2 x3 x4 x5 x6 x7, l))
    (fun p =>
       wf u64 (active_stake_lamports p) /\
       wf u64 (transient_stake_lamports p) /\
       wf u64 (vsi_last_update_epoch p) /\
       wf u64 (transient_seed_suffix p) /\
       wf u32 (unused p) /\
       wf u32 (validator_seed_suffix p) /\
       wf u8 (status p) /\
       wf pubkey (vote_account_address p)).

#[export] Instance vsi_codec_ok : CodecOk vsi_codec.
Proof. codec_record vsi_codec. Qed.

(** [ValidatorListHeader]. *)
Definition header_codec : Codec ValidatorListHeader :=
  mkCodec
    (fun p =>
       enc account_type_codec (header_account_type p) ++
       enc u32 (max_validators p))
    (fun l =>
       rd x0, l <- account_type_codec of l in
       rd x1, l <- u32 of l in
       Some (mkHeader x0 x1, l))
    (fun p =>
       wf account_type_codec (header_account_type p) /\
       wf u32 (max_validators p)).

#[export] Instance header_codec_ok : CodecOk header_codec.
Proof. codec_record header_codec. Qed.

(** [ValidatorList]. *)
Definition validator_list_codec : Codec ValidatorList :=
  mkCodec
    (fun p =>
       enc header_codec (header p) ++
       enc (vec vsi_codec) (validators p))
    (fun l =>
       rd x0, l <- header_codec of l in
       rd x1, l <- (vec vsi_codec) of l in
       Some (mkValidatorList x0 x1, l))
    (fun p =>
       wf header_codec (header p) /\
       wf (vec vsi_codec) (validators p)).

#[export] Instance validator_list_codec_ok : CodecOk validator_list_codec.
Proof. codec_record validator_list_codec. Qed.

(** ** Decoding account data *)

(** [try_from_slice_unchecked::<T>(data)]: trailing bytes are ignored. *)
Definition try_from_slice_unchecked {A} (c : Codec A) (data : list Z) : outcome A :=
  match dec c data with Some (x, _) => Ok x | None => Err BorshIoError end.

(** [T::try_from_slice(data)]: trailing bytes are an error. *)
Definition try_from_slice {A} (c : Codec A) (data : list Z) : outcome A :=
  match dec c data with Some (x, []) => Ok x | _ => Err BorshIoError end.

(** [borsh::to_writer(&mut data[..], x)]: overwrites a prefix, or fails when the
    buffer is too short. *)
Definition to_writer {A} (c : Codec A) (x : A) (data : list Z) : outcome (list Z) :=
  let e := enc c x in
  if (length e <=? length data)%nat then Ok (e ++ drop (length e) data) else Err BorshIoError.

Lemma to_writer_Ok {A} (c : Codec A) x data data' :
  to_writer c x data = Ok data' <->
  (length (enc c x) <= length data)%nat /\ data' = enc c x ++ drop (length (enc c x)) data.
Proof.
  unfold to_writer. destruct (Nat.leb_spec (length (enc c x)) (length data)); split.
  - intros [= <-]. auto.
  - intros [_ ->]. auto.
  - done.
  - intros [? _]. lia.
Qed.

Lemma to_writer_length {A} (c : Codec A) x data data' :
  to_writer c x data = Ok data' -> length data' = length data.
Proof. intros [H ->]%to_writer_Ok. rewrite length_app, length_drop. lia. Qed.

(** What was written is what the next instruction reads. *)
Lemma read_after_write {A} (c : Codec A) `{!CodecOk c} x data data' :
  wf c x -> to_writer c x data = Ok data' -> try_from_slice_unchecked c data' = Ok x.
Proof.
  intros Hwf [_ ->]%to_writer_Ok. unfold try_from_slice_unchecked. by rewrite dec_enc.
Qed.

Lemma try_from_slice_unchecked_wf {A} (c : Codec A) `{!CodecOk c} data x :
  bytes data -> try_from_slice_unchecked c data = Ok x -> wf c x.
Proof.
  unfold try_from_slice_unchecked. intros Hb H.
  destruct (dec c data) as [[y r]|] eqn:E; [|done]. injection H as ->.
  by apply enc_dec in E as [_ ?].
Qed.

(** [ValidatorListHeader::deserialize_vec]: the header and the bytes of the [BigVec]. *)
Definition deserialize_vec (data : list Z) : outcome (ValidatorListHeader * list Z) :=
  match dec header_codec data with
  | Some (h, _) => Ok (h, drop (length (enc header_codec h)) data)
  | None => Err BorshIoError
  end.

(** ** The entry layout the program reads by offset *)
Definition memcmp_pubkey (data : list Z) (vote_address : Pubkey) : outcome bool :=
  match slice 41 (41 + 32) data with
  | Some s => Ok (bool_decide (s = enc pubkey vote_address))
  | None => Panic
  end.

Definition read_u64 (data : list Z) : outcome Z :=
  match try_from_slice u64 data with Ok v => Ok v | _ => Panic end.

Definition active_lamports_greater_than (data : list Z) (lamports : Z) : outcome bool :=
  match slice 0 8 data with
  | Some s => let* v := read_u64 s in Ok (lamports <? v)
  | None => Panic
  end.

Definition transient_lamports_greater_than (data : list Z) (lamports : Z) : outcome bool :=
  match slice 8 16 data with
  | Some s => let* v := read_u64 s in Ok (lamports <? v)
  | None => Panic
  end.

Definition is_removed (data : list Z) : outcome bool :=
  match data !! 40%nat, slice 0 16 data with
  | Some b, Some s =>
      Ok (bool_decide (status_from_u8 b = Some ReadyForRemoval) && bool_decide (s = replicate 16 0))
  | Some b, None => if bool_decide (status_from_u8 b = Some ReadyForRemoval) then Panic else Ok false
  | None, _ => Panic
  end.

Definition is_active (data : list Z) : outcome bool :=
  match data !! 40%nat with
  | Some b => Ok (bool_decide (status_from_u8 b = Some Active))
  | None => Panic
  end.
