(* ===== verification/BigVec.v ===== *)
(** * BigVec (program/src/big_vec.rs)
    The vector of fixed-size entries that lives inside the account bytes: a [u32]
    length, then the entries, then spare room. The operations work on the bytes as
    the code does; [repr] relates the bytes to a list of entries, and the
    refinement lemmas say each operation is the list operation it stands for. *)
From S2P Require Import Prelude Error State Borsh Layout.

Definition VEC_SIZE_BYTES : nat := 4.

(** [sol_memmove] between the two bounds-checked slices of one buffer. *)
Definition memmove (data : list Z) (dst dst_end src src_end n : nat) : outcome (list Z) :=
  match slice dst dst_end data, slice src src_end data with
  | Some _, Some _ => Ok (splice dst (take n (drop src data)) data)
  | _, _ => Panic
  end.

Section BigVec.
(** The entry type [T : Pod]: its layout and [size_of::<T>()]. *)
Context {T : Type} (c : Codec T) (size : nat).

Definition len (data : list Z) : outcome Z :=
  match slice 0 VEC_SIZE_BYTES data with
  | Some b => match try_from_slice u32 b with Ok n => Ok n | _ => Panic end
  | None => Panic
  end.

Definition is_empty (data : list Z) : outcome bool :=
  let* n := len data in Ok (n =? 0).

(** [borsh::to_writer(&mut data[0..4], &vec_len)]. *)
Definition write_len (n : Z) (data : list Z) : outcome (list Z) :=
  match slice 0 VEC_SIZE_BYTES data with
  | Some b => let* b' := to_writer u32 n b in Ok (splice 0 b' data)
  | None => Panic
  end.

(** The loop variables of [retain]: the buffer, [removals_found],
    [dst_start_index] and [vec_len]. *)
Definition retain_vars : Type := list Z * nat * nat * Z.

Definition retain_step (predicate : list Z -> outcome bool) (st : retain_vars)
    (start_index : nat) : outcome retain_vars :=
  let '(data, removals_found, dst_start_index, vec_len) := st in
  let end_index := (start_index + size)%nat in
  match slice start_index end_index data with
  | None => Panic
  | Some s =>
      let* keep := predicate s in
      if keep then Ok st else
      let gap := (removals_found * size)%nat in
      let* data :=
        if (0 <? removals_found)%nat then
          memmove data dst_start_index (start_index - gap)
            (dst_start_index + gap) start_index (start_index - gap - dst_start_index)
        else Ok data in
      Ok (data, S removals_found, (start_index - gap)%nat, vec_len - 1)
  end.

Fixpoint retain_loop (predicate : list Z -> outcome bool) (idxs : list nat)
    (st : retain_vars) : outcome retain_vars :=
  match idxs with
  | [] => Ok st
  | i :: idxs => let* st := retain_step predicate st i in retain_loop predicate idxs st
  end.

(** [(data_start_index..data_end_index).step_by(size)]. *)
Definition entry_indices (n : nat) : list nat :=
  (fun i => VEC_SIZE_BYTES + i * size)%nat <$> seq 0 n.

Definition retain (predicate : list Z -> outcome bool) (data : list Z) : outcome (list Z) :=
  let* vec_len := len data in
  let data_start_index := VEC_SIZE_BYTES in
  let data_end_index := (data_start_index + Z.to_nat vec_len * size)%nat in
  let* st := retain_loop predicate (entry_indices (Z.to_nat vec_len)) (data, 0%nat, 0%nat, vec_len) in
  let '(data, removals_found, dst_start_index, vec_len) := st in
  let* data :=
    if (0 <? removals_found)%nat then
      let gap := (removals_found * size)%nat in
      memmove data dst_start_index (data_end_index - gap)
        (dst_start_index + gap) data_end_index (data_end_index - gap - dst_start_index)
    else Ok data in
  write_len vec_len data.

(** The cast of [k] consecutive entries, and the place of the entry at [i]. *)
Definition cast_slice (k : nat) (s : list Z) : outcome (list T) :=
  match dec_list c k s with
  | Some (xs, _) => Ok xs
  | None => Err InvalidAccountData
  end.

Definition deserialize_slice (skip n : Z) (data : list Z) : outcome (list T) :=
  let* vec_len := len data in
  let* last_item_index := ok_or (checked_add 64 skip n) AccountDataTooSmall in
  if vec_len <? last_item_index then Err AccountDataTooSmall else
  let start_index := (VEC_SIZE_BYTES + Z.to_nat skip * size)%nat in
  let end_index := (start_index + Z.to_nat n * size)%nat in
  match slice start_index end_index data with
  | None => Panic
  | Some s => cast_slice (Z.to_nat n) s
  end.

(** Storing through the reference [find_mut] or [deserialize_mut_slice] returned. *)
Definition write_entry (offset : nat) (x : T) (data : list Z) : list Z :=
  splice offset (enc c x) data.

(** The pair is the result and the buffer: the length is stored before the
    capacity is checked. *)
Definition push (element : T) (data : list Z) : outcome unit * list Z :=
  match slice 0 VEC_SIZE_BYTES data with
  | None => (Panic, data)
  | Some b =>
      match try_from_slice u32 b with
      | Err e => (Err e, data)
      | Panic => (Panic, data)
      | Ok vec_len =>
          let start_index := (VEC_SIZE_BYTES + Z.to_nat vec_len * size)%nat in
          let end_index := (start_index + size)%nat in
          let vec_len := (vec_len + 1) mod 2 ^ 32 in
          match write_len vec_len data with
          | Err e => (Err e, data)
          | Panic => (Panic, data)
          | Ok data =>
              if (length data <? end_index)%nat then (Err AccountDataTooSmall, data)
              else (Ok tt, write_entry start_index element data)
          end
      end
  end.

(** The offset of the first entry the predicate accepts. *)
Fixpoint find_from (predicate : list Z -> outcome bool) (data : list Z) (n current_index : nat)
    : outcome (option nat) :=
  match n with
  | O => Ok None
  | S n =>
      let end_index := (current_index + size)%nat in
      match slice current_index end_index data with
      | None => Panic
      | Some s =>
          let* b := predicate s in
          if b then Ok (Some current_index) else find_from predicate data n end_index
      end
  end.

Definition entry_at (offset : nat) (data : list Z) : outcome T :=
  match slice offset (offset + size) data with
  | Some s => match dec c s with Some (x, _) => Ok x | None => Panic end
  | None => Panic
  end.

Definition find (predicate : list Z -> outcome bool) (data : list Z) : outcome (option T) :=
  let* n := len data in
  let* o := find_from predicate data (Z.to_nat n) VEC_SIZE_BYTES in
  match o with
  | None => Ok None
  | Some offset => let* x := entry_at offset data in Ok (Some x)
  end.

(** [find_mut]: also the offset the mutable reference points at. *)
Definition find_mut (predicate : list Z -> outcome bool) (data : list Z)
    : outcome (option (nat * T)) :=
  let* n := len data in
  let* o := find_from predicate data (Z.to_nat n) VEC_SIZE_BYTES in
  match o with
  | None => Ok None
  | Some offset => let* x := entry_at offset data in Ok (Some (offset, x))
  end.

(** ** The list a buffer represents *)
Definition repr (data : list Z) (xs : list T) (spare : list Z) : Prop :=
  data = enc u32 (Z.of_nat (length xs)) ++ enc_list c xs ++ spare.

Class EntryLayout : Prop := {
  entry_codec :: CodecOk c;
  entry_size x : wf c x -> length (enc c x) = size
}.

Context {entry_layout : EntryLayout}.

(** The entries and the count are in range. *)
Definition wf_entries (xs : list T) : Prop :=
  Forall (wf c) xs /\ in_range 32 (Z.of_nat (length xs)).

Lemma length_enc_list xs : Forall (wf c) xs -> length (enc_list c xs) = (length xs * size)%nat.
Proof.
  induction 1 as [|x xs Hx _ IH]; [done|]. simpl. rewrite length_app, IH, entry_size by done. lia.
Qed.

Lemma enc_list_app xs ys : enc_list c (xs ++ ys) = enc_list c xs ++ enc_list c ys.
Proof. unfold enc_list. apply flat_map_app. Qed.

Lemma length_u32 n : length (enc u32 n) = VEC_SIZE_BYTES.
Proof. apply length_le_enc. Qed.

Lemma len_prefix n rest : in_range 32 n -> len (enc u32 n ++ rest) = Ok n.
Proof.
  intros Hn. unfold len.
  assert (E : slice 0 VEC_SIZE_BYTES (enc u32 n ++ rest) = Some (enc u32 n)).
  { apply slice_Some. rewrite length_app. split; [rewrite length_u32; unfold VEC_SIZE_BYTES; lia|]. reflexivity. }
  rewrite E. unfold try_from_slice.
  pose proof (dec_enc (c := u32) n [] Hn) as Hd. rewrite app_nil_r in Hd. by rewrite Hd.
Qed.

Lemma repr_len data xs spare : repr data xs spare -> wf_entries xs -> len data = Ok (Z.of_nat (length xs)).
Proof. intros -> [_ Hn]. by apply len_prefix. Qed.

Lemma write_len_prefix n m rest : write_len m (enc u32 n ++ rest) = Ok (enc u32 m ++ rest).
Proof.
  unfold write_len.
  assert (E : slice 0 VEC_SIZE_BYTES (enc u32 n ++ rest) = Some (enc u32 n)).
  { apply slice_Some. rewrite length_app. split; [rewrite length_u32; unfold VEC_SIZE_BYTES; lia|]. reflexivity. }
  rewrite E. reflexivity.
Qed.

(** The entry that starts after [pre] in an encoded list. *)
Lemma slice_entry A x B : wf c x -> slice (length A) (length A + size) (A ++ enc c x ++ B) = Some (enc c x).
Proof.
  intros Hx. apply slice_Some. rewrite !length_app, entry_size by done. split; [lia|].
  rewrite drop_app_length. replace (length A + size - length A)%nat with (length (enc c x))
    by (rewrite entry_size by done; lia). by rewrite take_app_length.
Qed.

Lemma entry_at_spec A x B : wf c x -> entry_at (length A) (A ++ enc c x ++ B) = Ok x.
Proof.
  intros Hx. unfold entry_at. rewrite slice_entry by done.
  pose proof (dec_enc (c := c) x [] Hx) as Hd. rewrite app_nil_r in Hd. by rewrite Hd.
Qed.

Lemma write_entry_spec A x y B :
  wf c x -> wf c y -> write_entry (length A) y (A ++ enc c x ++ B) = A ++ enc c y ++ B.
Proof. intros Hx Hy. apply splice_app. by rewrite !entry_size. Qed.

(** ** Search *)
(** A byte predicate that decides [p] on encoded entries. *)
Definition decides (predicate : list Z -> outcome bool) (p : T -> bool) : Prop :=
  forall x, wf c x -> predicate (enc c x) = Ok (p x).

Lemma find_from_spec predicate p A xs B :
  decides predicate p -> Forall (wf c) xs ->
  match find_from predicate (A ++ enc_list c xs ++ B) (length xs) (length A) with
  | Ok (Some i) => exists ys x zs, xs = ys ++ x :: zs /\ i = length (A ++ enc_list c ys) /\
                     p x = true /\ Forall (fun y => p y = false) ys
  | Ok None => Forall (fun y => p y = false) xs
  | _ => False
  end.
Proof.
  intros Hp Hxs. revert A; induction Hxs as [|x xs Hx Hxs IH]; intros A; [constructor|].
  cbn [find_from length enc_list flat_map]. fold (enc_list c xs).
  rewrite <- app_assoc, slice_entry, Hp by done. simpl. destruct (p x) eqn:Epx.
  { exists [], x, xs. simpl. rewrite app_nil_r. auto. }
  specialize (IH (A ++ enc c x)). rewrite length_app, entry_size in IH by done.
  rewrite <- app_assoc in IH.
  destruct (find_from _ _ _ _) as [[i|]| |]; [| by constructor | done | done].
  destruct IH as (ys & z & zs & -> & -> & Hz & Hys).
  exists (x :: ys), z, zs. simpl. rewrite <- app_assoc. repeat split; try done. by constructor.
Qed.

(** [find_mut] points at the first entry that satisfies the predicate. *)
Lemma find_mut_spec data xs spare predicate p :
  repr data xs spare -> wf_entries xs -> decides predicate p ->
  match find_mut predicate data with
  | Ok (Some (i, x)) =>
      exists ys zs, xs = ys ++ x :: zs /\ p x = true /\ Forall (fun y => p y = false) ys /\
        wf c x /\
        forall y, wf c y -> repr (write_entry i y data) (ys ++ y :: zs) spare
  | Ok None => Forall (fun y => p y = false) xs
  | _ => False
  end.
Proof.
  intros Hr Hw Hp. unfold find_mut. rewrite (repr_len _ _ _ Hr Hw). cbn [obind].
  rewrite Nat2Z.id. destruct Hw as [Hxs Hn]. unfold repr in Hr. subst data.
  pose proof (find_from_spec predicate p (enc u32 (Z.of_nat (length xs))) xs spare Hp Hxs) as H.
  change (length (enc u32 (Z.of_nat (length xs)))) with VEC_SIZE_BYTES in H.
  destruct (find_from _ _ _ _) as [[i|]| |]; [| done | done | done].
  destruct H as (ys & x & zs & -> & -> & Hx & Hys). cbn [obind].
  apply Forall_app in Hxs as [? Hxs]. inversion Hxs; subst.
  replace (enc u32 (Z.of_nat (length (ys ++ x :: zs))) ++ enc_list c (ys ++ x :: zs) ++ spare)
    with ((enc u32 (Z.of_nat (length (ys ++ x :: zs))) ++ enc_list c ys) ++ enc c x ++ enc_list c zs ++ spare)
    by (rewrite enc_list_app; simpl; rewrite <- !app_assoc; done).
  rewrite entry_at_spec by done. cbn [obind]. exists ys, zs. repeat split; try done.
  intros y Hy. rewrite write_entry_spec by done. unfold repr.
  rewrite enc_list_app, !length_app. simpl. rewrite <- !app_assoc. done.
Qed.

(** [find] is [find_mut] without the place. *)
Lemma find_find_mut predicate data :
  find predicate data = let* o := find_mut predicate data in Ok (option_map snd o).
Proof.
  unfold find, find_mut. destruct (len data) as [n| |]; cbn [obind]; try done.
  destruct (find_from _ _ _ _) as [[off|]| |]; cbn [obind]; try done. by destruct (entry_at _ _).
Qed.

(** ** [retain] *)
(** Closing the gap [G] in front of the block [B]. *)
Lemma memmove_close A G B R a b g :
  a = length A -> b = length B -> g = length G ->
  memmove (A ++ G ++ B ++ R) a (a + b) (a + g) (a + g + b) b
  = Ok (A ++ B ++ drop b (G ++ B) ++ R).
Proof.
  intros -> -> ->. unfold memmove.
  assert (E : forall i j, (i <= j <= length A + length G + length B)%nat ->
    exists s, slice i j (A ++ G ++ B ++ R) = Some s).
  { intros i j Hij. eexists. apply slice_Some. rewrite !length_app. split; [lia | done]. }
  destruct (E (length A) (length A + length B)%nat) as [s1 ->]; [lia|].
  destruct (E (length A + length G)%nat (length A + length G + length B)%nat) as [s2 ->]; [lia|].
  f_equal. unfold splice.
  assert (Es : take (length B) (drop (length A + length G) (A ++ G ++ B ++ R)) = B).
  { rewrite !app_assoc, <- (app_assoc (A ++ G)).
    rewrite drop_app_length' by (rewrite length_app; lia). by rewrite take_app_length. }
  rewrite Es, take_app_length. f_equal. f_equal.
  rewrite <- drop_drop, drop_app_length. rewrite !app_assoc.
  by rewrite drop_app_le by (rewrite length_app; lia).
Qed.

(** The loop invariant: [ls] has been scanned and [rs] has not. The kept entries
    before the last removal ([K]) are in place, those after it ([P]) still sit
    behind a gap of one entry per removal. *)
Definition retain_inv (p : T -> bool) (L : list Z) (N : Z) (spare : list Z)
    (ls rs : list T) (st : retain_vars) : Prop :=
  let '(data, r, dst, n) := st in
  exists K G P,
    data = L ++ enc_list c K ++ G ++ enc_list c P ++ enc_list c rs ++ spare /\
    length G = (r * size)%nat /\ List.filter p ls = K ++ P /\
    (r = 0%nat -> K = []) /\ ((0 < r)%nat -> dst = (VEC_SIZE_BYTES + length K * size)%nat) /\
    n = N - Z.of_nat r /\ length ls = (length K + length P + r)%nat /\
    Forall (wf c) K /\ Forall (wf c) P.

Lemma retain_step_inv predicate p L N spare ls x rs st :
  decides predicate p -> length L = VEC_SIZE_BYTES -> wf c x ->
  retain_inv p L N spare ls (x :: rs) st ->
  exists st', retain_step predicate st (VEC_SIZE_BYTES + length ls * size)%nat = Ok st' /\
    retain_inv p L N spare (ls ++ [x]) rs st'.
Proof.
  intros Hp HL Hx. destruct st as [[[data r] dst] n].
  intros (K & G & P & -> & HG & Hf & HK & Hdst & -> & Hls & HwK & HwP).
  pose proof (length_enc_list _ HwK) as EK. pose proof (length_enc_list _ HwP) as EP.
  unfold retain_step. cbn [enc_list flat_map]. fold (enc_list c rs).
  set (A := L ++ enc_list c K ++ G ++ enc_list c P).
  assert (EA : (VEC_SIZE_BYTES + length ls * size)%nat = length A).
  { unfold A. rewrite !length_app. rewrite Hls, HL, EK, EP, HG. lia. }
  replace (L ++ enc_list c K ++ G ++ enc_list c P ++ (enc c x ++ enc_list c rs) ++ spare)
    with (A ++ enc c x ++ enc_list c rs ++ spare) by (unfold A; rewrite <- !app_assoc; done).
  rewrite EA, slice_entry, Hp by done. cbn [obind].
  destruct (p x) eqn:Epx.
  - eexists; split; [reflexivity|]. exists K, G, (P ++ [x]). unfold A.
    rewrite enc_list_app, List.filter_app, Hf. simpl. rewrite Epx, app_nil_r, !length_app.
    rewrite <- !app_assoc. simpl. repeat split; try done; try lia.
    apply Forall_app; auto.
  - assert (Hgoal : exists G', length G' = (S r * size)%nat /\
      (if (0 <? r)%nat then
         memmove (A ++ enc c x ++ enc_list c rs ++ spare) dst (length A - r * size)
           (dst + r * size) (length A) (length A - r * size - dst)
       else Ok (A ++ enc c x ++ enc_list c rs ++ spare)) =
      Ok (L ++ enc_list c (K ++ P) ++ G' ++ enc_list c rs ++ spare)).
    { destruct (Nat.ltb_spec 0 r) as [Hr|Hr].
      - exists (drop (length (enc_list c P)) (G ++ enc_list c P) ++ enc c x). split.
        { rewrite length_app, length_drop, length_app, HG, entry_size by done. lia. }
        specialize (Hdst Hr).
        pose proof (memmove_close (L ++ enc_list c K) G (enc_list c P)
          (enc c x ++ enc_list c rs ++ spare) dst (length (enc_list c P)) (r * size)) as Hm.
        rewrite <- !app_assoc in Hm. unfold A. rewrite <- !app_assoc.
        rewrite enc_list_app, <- !app_assoc. rewrite <- Hm; clear Hm.
        + f_equal; rewrite !length_app, ?Hdst, ?HL, ?EK, ?EP, ?HG; lia.
        + rewrite Hdst, length_app, HL, EK. done.
        + done.
        + done.
      - assert (r = 0%nat) as -> by lia. exists (enc c x). split; [rewrite entry_size by done; lia|].
        assert (K = []) by auto. subst K. destruct G; [|simpl in HG; lia]. unfold A. simpl.
        rewrite <- !app_assoc. done. }
    destruct Hgoal as (G' & HG' & ->). cbn [obind]. eexists; split; [reflexivity|].
    exists (K ++ P), G', []. simpl. rewrite List.filter_app, Hf. simpl. rewrite Epx, !app_nil_r.
    rewrite !length_app. unfold A. rewrite !length_app, HL, EK, EP, HG. simpl.
    repeat split; try done; try lia. by apply Forall_app.
Qed.

Lemma retain_loop_inv predicate p L N spare rs : forall ls st,
  decides predicate p -> length L = VEC_SIZE_BYTES -> Forall (wf c) rs ->
  retain_inv p L N spare ls rs st ->
  exists st', retain_loop predicate
      ((fun i => VEC_SIZE_BYTES + i * size)%nat <$> seq (length ls) (length rs)) st = Ok st' /\
    retain_inv p L N spare (ls ++ rs) [] st'.
Proof.
  induction rs as [|x rs IH]; intros ls st Hp HL Hrs Hinv.
  { exists st. rewrite app_nil_r. auto. }
  inversion Hrs; subst.
  destruct (retain_step_inv _ _ _ _ _ _ _ _ _ Hp HL H1 Hinv) as (st1 & E1 & Hinv1).
  destruct (IH (ls ++ [x]) st1) as (st2 & E2 & Hinv2); try done.
  exists st2. rewrite <- app_assoc in Hinv2. split; [|done].
  cbn [length seq fmap list_fmap retain_loop]. rewrite E1. cbn [obind].
  rewrite length_app in E2. simpl in E2. rewrite Nat.add_1_r in E2. exact E2.
Qed.

(** On bytes, [retain] is [filter] on the list they represent; the length of the
    buffer does not change. *)
Lemma retain_spec predicate p data xs spare :
  decides predicate p -> repr data xs spare -> wf_entries xs ->
  exists data' spare', retain predicate data = Ok data' /\
    repr data' (List.filter p xs) spare' /\ length data' = length data.
Proof.
  intros Hp Hr Hw. pose proof (repr_len _ _ _ Hr Hw) as Hlen.
  destruct Hw as [Hxs Hn]. unfold retain. rewrite Hlen. cbn [obind]. rewrite Nat2Z.id.
  set (L := enc u32 (Z.of_nat (length xs))) in *.
  assert (HL : length L = VEC_SIZE_BYTES) by apply length_u32.
  destruct (retain_loop_inv predicate p L (Z.of_nat (length xs)) spare xs [] (data, 0%nat, 0%nat, Z.of_nat (length xs)))
    as ([[[data1 r] dst] n] & E & K & G & P & -> & HG & Hf & HK & Hdst & -> & Hls & HwK & HwP); try done.
  { exists [], [], []. unfold repr in Hr. subst data L. simpl. repeat split; try done; lia. }
  unfold entry_indices. simpl length in E. rewrite E. cbn [obind]. simpl in Hf, Hls.
  pose proof (length_enc_list _ HwK) as EK. pose proof (length_enc_list _ HwP) as EP.
  cbn [enc_list flat_map app]. fold (enc_list c P).
  assert (Hgoal : exists G', length G' = (r * size)%nat /\
    (if (0 <? r)%nat then
       memmove (L ++ enc_list c K ++ G ++ enc_list c P ++ spare) dst
         (VEC_SIZE_BYTES + length xs * size - r * size) (dst + r * size)
         (VEC_SIZE_BYTES + length xs * size)
         (VEC_SIZE_BYTES + length xs * size - r * size - dst)
     else Ok (L ++ enc_list c K ++ G ++ enc_list c P ++ spare)) =
    Ok (L ++ enc_list c (K ++ P) ++ G' ++ spare)).
  { destruct (Nat.ltb_spec 0 r) as [Hr0|Hr0].
    - exists (drop (length (enc_list c P)) (G ++ enc_list c P)). split.
      { rewrite length_drop, length_app. lia. }
      specialize (Hdst Hr0).
      pose proof (memmove_close (L ++ enc_list c K) G (enc_list c P) spare dst
        (length (enc_list c P)) (r * size)) as Hm.
      rewrite <- !app_assoc in Hm. rewrite enc_list_app, <- !app_assoc, <- Hm; clear Hm.
      + rewrite Hls. f_equal; rewrite ?Hdst, ?EP; lia.
      + rewrite Hdst, length_app, HL, EK. done.
      + done.
      + done.
    - assert (r = 0%nat) as -> by lia. exists []. assert (K = []) by auto. subst K.
      destruct G; [|simpl in HG; lia]. done. }
  destruct Hgoal as (G' & HG' & ->). cbn [obind]. subst L. rewrite write_len_prefix.
  eexists _, (G' ++ spare). split; [reflexivity|]. rewrite Hf. split.
  - unfold repr. f_equal. f_equal. rewrite length_app. lia.
  - unfold repr in Hr. subst data. rewrite !length_app, !length_u32, HG'.
    rewrite !length_enc_list by (try apply Forall_app; done). rewrite length_app. lia.
Qed.

(** ** [push] and the slices *)
Lemma push_spec x data xs spare :
  wf c x -> repr data xs spare -> wf_entries (xs ++ [x]) -> (size <= length spare)%nat ->
  exists data', push x data = (Ok tt, data') /\
    repr data' (xs ++ [x]) (drop size spare) /\ length data' = length data.
Proof.
  intros Hx -> [Hxs Hn] Hsp. apply Forall_app in Hxs as [Hxs _]. rewrite length_app in Hn. simpl in Hn.
  assert (Hn' : in_range 32 (Z.of_nat (length xs))) by (unfold in_range in *; lia).
  pose proof (len_prefix _ (enc_list c xs ++ spare) Hn') as Hlen. unfold len in Hlen. unfold push.
  destruct (slice _ _ _) as [b|]; [|done]. destruct (try_from_slice u32 b); try done.
  injection Hlen as ->. rewrite write_len_prefix, Z.mod_small by (unfold in_range in *; lia).
  rewrite Nat2Z.id. pose proof (length_enc_list _ Hxs) as E.
  destruct (Nat.ltb_spec (length (enc u32 (Z.of_nat (length xs) + 1) ++ enc_list c xs ++ spare))
    (VEC_SIZE_BYTES + length xs * size + size)) as [Hl|Hl].
  { rewrite !length_app, length_u32, E in Hl. lia. }
  eexists; split; [reflexivity|].
  assert (Ew : write_entry (VEC_SIZE_BYTES + length xs * size) x
                 (enc u32 (Z.of_nat (length xs) + 1) ++ enc_list c xs ++ spare)
             = enc u32 (Z.of_nat (length xs) + 1) ++ enc_list c xs ++ enc c x ++ drop size spare).
  { rewrite <- E. rewrite <- (length_u32 (Z.of_nat (length xs) + 1)) at 1.
    rewrite <- length_app. rewrite <- (take_drop size spare) at 1. unfold write_entry.
    rewrite !(app_assoc (enc u32 _)). apply splice_app.
    rewrite length_take, entry_size by done. lia. }
  rewrite Ew. split.
  - unfold repr. rewrite enc_list_app, length_app. simpl. rewrite app_nil_r, <- app_assoc.
    replace (Z.of_nat (length xs + 1)) with (Z.of_nat (length xs) + 1) by lia. done.
  - rewrite !length_app, length_drop, entry_size, !length_u32 by done. lia.
Qed.

(** Without room, [push] fails after it has stored the incremented length. *)
Lemma push_full x data xs spare :
  repr data xs spare -> wf_entries (xs ++ [x]) -> (length spare < size)%nat ->
  exists data', push x data = (Err AccountDataTooSmall, data') /\ length data' = length data /\ len data' = Ok (Z.of_nat (length xs) + 1).
Proof.
  intros -> [Hxs Hn] Hsp. apply Forall_app in Hxs as [Hxs _]. rewrite length_app in Hn. simpl in Hn.
  assert (Hn' : in_range 32 (Z.of_nat (length xs))) by (unfold in_range in *; lia).
  pose proof (len_prefix _ (enc_list c xs ++ spare) Hn') as Hlen. unfold len in Hlen. unfold push.
  destruct (slice _ _ _) as [b|]; [|done]. destruct (try_from_slice u32 b); try done.
  injection Hlen as ->. rewrite write_len_prefix, Z.mod_small by (unfold in_range in *; lia).
  rewrite Nat2Z.id. pose proof (length_enc_list _ Hxs) as E.
  eexists. destruct (Nat.ltb_spec (length (enc u32 (Z.of_nat (length xs) + 1) ++ enc_list c xs ++ spare))
    (VEC_SIZE_BYTES + length xs * size + size)) as [Hl|Hl].
  - split; [reflexivity|]. split; [by rewrite !length_app, !length_u32|].
    apply len_prefix. unfold in_range in *. lia.
  - rewrite !length_app, length_u32, E in Hl. lia.
Qed.

Lemma deserialize_slice_spec data ys xs zs spare :
  repr data (ys ++ xs ++ zs) spare -> wf_entries (ys ++ xs ++ zs) ->
  deserialize_slice (Z.of_nat (length ys)) (Z.of_nat (length xs)) data = Ok xs.
Proof.
  intros Hr Hw. unfold deserialize_slice. rewrite (repr_len _ _ _ Hr Hw). cbn [obind].
  destruct Hw as [Hxs Hn]. rewrite !length_app in *. unfold checked_add.
  rewrite fit_in_range by (unfold in_range in *; lia). cbn [obind ok_or].
  destruct (Z.ltb_spec (Z.of_nat (length ys + (length xs + length zs)))
    (Z.of_nat (length ys) + Z.of_nat (length xs))); [lia|].
  rewrite !Nat2Z.id. apply Forall_app in Hxs as [Hys Hxs]. apply Forall_app in Hxs as [Hxs Hzs].
  pose proof (length_enc_list _ Hys) as Ey. pose proof (length_enc_list _ Hxs) as Ex.
  unfold repr in Hr. subst data. rewrite !length_app, !enc_list_app.
  set (L := enc u32 _). assert (HL : length L = VEC_SIZE_BYTES) by apply length_u32.
  assert (Es : slice (VEC_SIZE_BYTES + length ys * size)
      (VEC_SIZE_BYTES + length ys * size + length xs * size)
      (L ++ (enc_list c ys ++ enc_list c xs ++ enc_list c zs) ++ spare) = Some (enc_list c xs)).
  { apply slice_Some. rewrite !length_app. split; [lia|].
    rewrite <- !app_assoc, (app_assoc L).
    rewrite drop_app_length' by (rewrite length_app; lia).
    rewrite take_app_length' by lia. done. }
  rewrite Es. unfold cast_slice.
  pose proof (dec_list_enc c xs [] Hxs) as Hd. rewrite app_nil_r in Hd. by rewrite Hd.
Qed.
End BigVec.
