(* ===== verification/Entries.v ===== *)
(** * Entries of the validator list
    The bytes of a [ValidatorStakeInfo] and the predicates the program evaluates on
    them without decoding, related to the fields; the bytes of a whole list account; and
    the layout of the pool and the list account, written out without codecs. *)
From S2P Require Import Prelude Error Fees State Borsh Layout BigVec.

(** [size_of::<ValidatorStakeInfo>()]. *)
Definition VSI_SIZE : nat := 73.

#[export] Instance vsi_layout : EntryLayout vsi_codec VSI_SIZE.
Proof.
  split; [apply _|]. intros v _. unfold vsi_codec, u64, u32, u8, pubkey, uint. cbn [enc].
  by rewrite !length_app, !length_le_enc.
Qed.

(** What the byte predicates decide. *)
Definition votes_for (vote : Pubkey) (v : ValidatorStakeInfo) : bool :=
  key_eqb (vote_account_address v) vote.
Definition entry_removed (v : ValidatorStakeInfo) : bool :=
  (status v =? status_byte ReadyForRemoval) &&
  ((active_stake_lamports v =? 0) && (transient_stake_lamports v =? 0)).
Definition entry_active (v : ValidatorStakeInfo) : bool := status v =? status_byte Active.

(** The encoding, split where the predicates look. *)
Lemma enc_vsi_split v :
  enc vsi_codec v =
  (enc u64 (active_stake_lamports v) ++ enc u64 (transient_stake_lamports v)) ++
  (enc u64 (vsi_last_update_epoch v) ++ enc u64 (transient_seed_suffix v) ++
   enc u32 (unused v) ++ enc u32 (validator_seed_suffix v)) ++
  enc u8 (status v) ++ enc pubkey (vote_account_address v).
Proof. unfold vsi_codec. cbn [enc]. by rewrite <- !app_assoc. Qed.

Lemma slice_here {A} (pre mid post : list A) i j :
  i = length pre -> j = (i + length mid)%nat -> slice i j (pre ++ mid ++ post) = Some mid.
Proof.
  intros -> ->. apply slice_Some. rewrite !length_app. split; [lia|].
  rewrite drop_app_length, take_app_length' by lia. done.
Qed.

Lemma slice_front {A} (mid post : list A) j : j = length mid -> slice 0 j (mid ++ post) = Some mid.
Proof. intros ->. exact (slice_here [] mid post 0 _ eq_refl eq_refl). Qed.

Lemma enc_uint_inj n a b :
  in_range (8 * Z.of_nat n) a -> in_range (8 * Z.of_nat n) b -> enc (uint n) a = enc (uint n) b -> a = b.
Proof.
  intros Ha Hb H. pose proof (dec_enc (c := uint n) a [] Ha) as Ea.
  pose proof (dec_enc (c := uint n) b [] Hb) as Eb. rewrite H in Ea. congruence.
Qed.

Lemma memcmp_decides vote :
  in_range 256 vote -> decides vsi_codec (fun d => memcmp_pubkey d vote) (votes_for vote).
Proof.
  intros Hv v Hw. unfold memcmp_pubkey. rewrite enc_vsi_split.
  assert (E : slice 41 (41 + 32) (((enc u64 (active_stake_lamports v) ++ enc u64 (transient_stake_lamports v)) ++
    (enc u64 (vsi_last_update_epoch v) ++ enc u64 (transient_seed_suffix v) ++
     enc u32 (unused v) ++ enc u32 (validator_seed_suffix v)) ++ enc u8 (status v)) ++
    enc pubkey (vote_account_address v) ++ []) = Some (enc pubkey (vote_account_address v))).
  { apply slice_here; unfold u64, u32, u8, pubkey, uint; cbn [enc]; by rewrite ?length_app, ?length_le_enc. }
  rewrite app_nil_r, <- !app_assoc in E. rewrite <- !app_assoc. rewrite E. f_equal.
  unfold votes_for. apply eq_true_iff_eq. rewrite bool_decide_eq_true, key_eqb_eq. split; [|by intros ->].
  unfold vsi_codec in Hw. cbn [wf] in Hw. intros H. eapply (enc_uint_inj 32); [tauto | exact Hv | exact H].
Qed.

Lemma read_u64_enc n : in_range 64 n -> read_u64 (enc u64 n) = Ok n.
Proof.
  intros Hn. unfold read_u64, try_from_slice.
  pose proof (dec_enc (c := u64) n [] Hn) as E. rewrite app_nil_r in E. by rewrite E.
Qed.

Lemma active_gt_decides n :
  decides vsi_codec (fun d => active_lamports_greater_than d n) (fun v => n <? active_stake_lamports v).
Proof.
  intros v Hw. unfold active_lamports_greater_than. rewrite enc_vsi_split, <- !app_assoc.
  rewrite slice_front by (unfold u64, uint; cbn [enc]; by rewrite length_le_enc).
  unfold vsi_codec in Hw. cbn [wf] in Hw. by rewrite read_u64_enc by tauto.
Qed.

Lemma transient_gt_decides n :
  decides vsi_codec (fun d => transient_lamports_greater_than d n) (fun v => n <? transient_stake_lamports v).
Proof.
  intros v Hw. unfold transient_lamports_greater_than. rewrite enc_vsi_split, <- !app_assoc.
  rewrite slice_here by (unfold u64, uint; cbn [enc]; by rewrite length_le_enc).
  unfold vsi_codec in Hw. cbn [wf] in Hw. by rewrite read_u64_enc by tauto.
Qed.

Lemma entry_status_byte v : wf vsi_codec v -> enc vsi_codec v !! 40%nat = Some (status v).
Proof.
  intros Hw. rewrite enc_vsi_split, !app_assoc, <- (app_assoc _ (enc u8 (status v))).
  rewrite lookup_app_r; unfold u64, u32, uint; cbn [enc]; rewrite !length_app, !length_le_enc; [|lia].
  unfold vsi_codec in Hw. cbn [wf] in Hw. unfold u8, uint. cbn [enc le_enc app Nat.sub Nat.add lookup list_lookup].
  f_equal. apply Z.mod_small. unfold u8, uint in Hw. cbn [wf] in Hw. unfold in_range in Hw. simpl in Hw. lia.
Qed.

Lemma entry_zero_lamports v :
  wf vsi_codec v ->
  slice 0 16 (enc vsi_codec v) =
  Some (enc u64 (active_stake_lamports v) ++ enc u64 (transient_stake_lamports v)).
Proof.
  intros _. rewrite enc_vsi_split. apply slice_front. unfold u64, uint. cbn [enc].
  by rewrite length_app, !length_le_enc.
Qed.

Lemma is_active_decides : decides vsi_codec is_active entry_active.
Proof.
  intros v Hw. unfold is_active. rewrite entry_status_byte by done. f_equal. unfold entry_active.
  apply eq_true_iff_eq. by rewrite bool_decide_eq_true, status_from_u8_byte, Z.eqb_eq.
Qed.

Lemma is_removed_decides : decides vsi_codec is_removed entry_removed.
Proof.
  intros v Hw. unfold is_removed. rewrite entry_status_byte, entry_zero_lamports by done. f_equal.
  unfold entry_removed. apply eq_true_iff_eq.
  rewrite !andb_true_iff, !bool_decide_eq_true, status_from_u8_byte, !Z.eqb_eq.
  unfold vsi_codec in Hw. cbn [wf] in Hw. destruct Hw as (Ha & Ht & _).
  assert (H0 : in_range 64 0) by (unfold in_range; lia).
  change (replicate 16 0) with (enc u64 0 ++ enc u64 0). split.
  - intros [Hs He]. split; [done|]. apply app_inj_1 in He as [H1 H2]; [|unfold u64, uint; cbn [enc]; by rewrite !length_le_enc].
    split; [exact (enc_uint_inj 8 _ _ Ha H0 H1) | exact (enc_uint_inj 8 _ _ Ht H0 H2)].
  - by intros (-> & -> & ->).
Qed.

Lemma not_removed_decides :
  decides vsi_codec (fun d => let* b := is_removed d in Ok (negb b)) (fun v => negb (entry_removed v)).
Proof. intros v Hw. by rewrite is_removed_decides. Qed.

(** ** The validator list account *)
(** The bytes of a validator list account that holds the header [h] and [xs]. *)
Definition list_account (data : list Z) (h : ValidatorListHeader) (xs : list ValidatorStakeInfo)
    (spare : list Z) : Prop :=
  exists vec_data, data = enc header_codec h ++ vec_data /\ repr vsi_codec vec_data xs spare.

Lemma length_enc_header h : length (enc header_codec h) = 5%nat.
Proof.
  unfold header_codec. cbn [enc]. rewrite length_app.
  unfold u32, uint, account_type_codec, enum. cbn [enc]. by rewrite length_le_enc.
Qed.

Lemma deserialize_vec_app h d :
  wf header_codec h -> deserialize_vec (enc header_codec h ++ d) = Ok (h, d).
Proof.
  intros Hh. unfold deserialize_vec. rewrite dec_enc by done. by rewrite drop_app_length.
Qed.

(** Decoding the account as a whole [ValidatorList] finds the same entries. *)
Lemma list_account_decode data h xs spare :
  wf header_codec h -> wf_entries vsi_codec xs -> list_account data h xs spare ->
  try_from_slice_unchecked validator_list_codec data = Ok (mkValidatorList h xs).
Proof.
  intros Hh Hw (d & -> & ->). unfold try_from_slice_unchecked.
  replace (enc header_codec h ++ enc u32 (Z.of_nat (length xs)) ++ enc_list vsi_codec xs ++ spare)
    with (enc validator_list_codec (mkValidatorList h xs) ++ spare).
  - rewrite dec_enc; [done|]. unfold validator_list_codec. cbn [wf]. split; done.
  - unfold validator_list_codec, vec. cbn [enc]. by rewrite <- !app_assoc.
Qed.

(** ** The layout of the accounts, byte by byte *)
(** A number in [n] bytes, the lowest byte first. *)
Definition le (n : nat) (v : Z) : list Z := map (fun i => v / 256 ^ Z.of_nat i mod 256) (seq 0 n).
Definition le_option (n : nat) (o : option Z) : list Z := match o with None => [0] | Some v => 1 :: le n v end.
Definition le_fee (f : Fee) : list Z := le 8 (denominator f) ++ le 8 (numerator f).
Definition le_future (f : FutureEpoch Fee) : list Z :=
  match f with FutureNone => [0] | One x => 1 :: le_fee x | Two x => 2 :: le_fee x end.
Definition type_byte (t : AccountType) : Z :=
  match t with Uninitialized => 0 | AccStakePool => 1 | AccValidatorList => 2 end.

(** The fields of a pool that have a fixed place: how many bytes, and the value. *)
Definition fixed_fields (p : StakePool) : list (nat * Z) :=
  [(1, version p); (1, type_byte (account_type p)); (32, manager p); (32, staker p);
   (32, stake_deposit_authority p); (1, stake_withdraw_bump_seed p); (32, validator_list p);
   (32, reserve_stake p); (32, pool_mint p); (32, manager_fee_account p); (32, token_program_id p);
   (8, total_lamports p); (8, pool_token_supply p); (8, last_update_epoch p); (8, unix_timestamp (lockup p));
   (8, lockup_epoch (lockup p)); (32, custodian (lockup p)); (8, denominator (epoch_fee p));
   (8, numerator (epoch_fee p))]%nat.
(** Those behind them, whose place depends on the tags before. *)
Definition loose_fields (p : StakePool) : list (list Z) :=
  [le_future (next_epoch_fee p); le_option 32 (preferred_deposit_validator_vote_address p);
   le_option 32 (preferred_withdraw_validator_vote_address p); le_fee (stake_deposit_fee p);
   le_fee (stake_withdrawal_fee p); le_future (next_stake_withdrawal_fee p); le 1 (stake_referral_fee p);
   le_option 32 (sol_deposit_authority p); le_fee (sol_deposit_fee p); le 1 (sol_referral_fee p);
   le_option 32 (sol_withdraw_authority p); le_fee (sol_withdrawal_fee p);
   le_future (next_sol_withdrawal_fee p); le 8 (last_epoch_pool_token_supply p);
   le 8 (last_epoch_total_lamports p); le_option 8 (max_validator_stake p); reserved p].
Definition fields_bytes (fs : list (nat * Z)) : list Z := concat (map (fun f => le (fst f) (snd f)) fs).
Definition pool_layout (p : StakePool) : list Z := fields_bytes (fixed_fields p) ++ concat (loose_fields p).

(** The offsets: [(offset, size, value)]. *)
Definition pool_offsets (p : StakePool) : list (nat * nat * Z) :=
  [(0, 1, version p); (1, 1, type_byte (account_type p)); (2, 32, manager p); (34, 32, staker p);
   (66, 32, stake_deposit_authority p); (98, 1, stake_withdraw_bump_seed p); (99, 32, validator_list p);
   (131, 32, reserve_stake p); (163, 32, pool_mint p); (195, 32, manager_fee_account p);
   (227, 32, token_program_id p); (259, 8, total_lamports p); (267, 8, pool_token_supply p);
   (275, 8, last_update_epoch p); (283, 8, unix_timestamp (lockup p)); (291, 8, lockup_epoch (lockup p));
   (299, 32, custodian (lockup p)); (331, 8, denominator (epoch_fee p)); (339, 8, numerator (epoch_fee p))]%nat.
Definition entry_offsets (v : ValidatorStakeInfo) : list (nat * nat * Z) :=
  [(0, 8, active_stake_lamports v); (8, 8, transient_stake_lamports v); (16, 8, vsi_last_update_epoch v);
   (24, 8, transient_seed_suffix v); (32, 4, unused v); (36, 4, validator_seed_suffix v); (40, 1, status v);
   (41, 32, vote_account_address v)]%nat.
Definition entry_layout (v : ValidatorStakeInfo) : list Z :=
  concat (map (fun '(_, n, x) => le n x) (entry_offsets v)).
Definition list_layout (h : ValidatorListHeader) (xs : list ValidatorStakeInfo) : list Z :=
  type_byte (header_account_type h) :: le 4 (max_validators h) ++ le 4 (Z.of_nat (length xs)) ++
  concat (map entry_layout xs).

(** [holds data base fs]: each of the fields is at its offset from [base]. *)
Definition holds (data : list Z) (base : nat) (fs : list (nat * nat * Z)) : Prop :=
  Forall (fun '(off, n, v) => slice (base + off) (base + off + n) data = Some (le n v)) fs.

Lemma le_enc_le n v : le_enc n v = le n v.
Proof.
  revert v. induction n as [|n IH]; intros v; [done|]. unfold le in *. cbn [le_enc seq map]. f_equal.
  - by rewrite Z.div_1_r.
  - rewrite IH, <- seq_shift, map_map. apply map_ext. intros i. rewrite Nat2Z.inj_succ, Z.pow_succ_r by lia.
    by rewrite Z.div_div by lia.
Qed.
Lemma length_le n v : length (le n v) = n.
Proof. by rewrite <- le_enc_le, length_le_enc. Qed.

(** Fields one after another are where the sizes before them put them. *)
Fixpoint placed (off : nat) (fs : list (nat * Z)) : list (nat * nat * Z) :=
  match fs with [] => [] | (n, v) :: fs => (off, n, v) :: placed (off + n) fs end.
Lemma placed_holds pre fs rest :
  Forall (fun '(off, n, v) => slice off (off + n) (pre ++ fields_bytes fs ++ rest) = Some (le n v))
    (placed (length pre) fs).
Proof.
  revert pre. induction fs as [|[n v] fs IH]; intros pre; [constructor|]. cbn [placed]. constructor.
  - unfold fields_bytes. cbn [map concat fst snd]. rewrite <- app_assoc.
    apply slice_here; [done|]. by rewrite length_le.
  - specialize (IH (pre ++ le n v)). rewrite length_app, length_le in IH.
    unfold fields_bytes in *. cbn [map concat fst snd]. rewrite <- !app_assoc in *. exact IH.
Qed.

Lemma enc_u n v : enc (uint n) v = le n v.
Proof. apply le_enc_le. Qed.
Lemma enc_fee f : enc fee_codec f = le_fee f.
Proof. unfold fee_codec, le_fee, u64. cbn [enc]. by rewrite <- !enc_u. Qed.
Lemma enc_future f : enc (future fee_codec) f = le_future f.
Proof. destruct f; cbn [future enc le_future]; by rewrite ?enc_fee. Qed.
Lemma enc_option n o : enc (opt (uint n)) o = le_option n o.
Proof. destruct o; cbn [opt enc le_option]; by rewrite ?enc_u. Qed.
Lemma enc_type t : enc account_type_codec t = le 1 (type_byte t).
Proof. by destruct t. Qed.
Lemma le_type t : le 1 (type_byte t) = [type_byte t].
Proof. by destruct t. Qed.

Lemma enc_pool p : enc stake_pool_codec p = pool_layout p.
Proof.
  unfold stake_pool_codec, lockup_codec, pool_layout, fields_bytes, fixed_fields, loose_fields. cbn [enc].
  unfold pubkey, u64, u8. rewrite !enc_type, !enc_fee, !enc_future, !enc_option, !enc_u.
  cbn [map concat fst snd byte_array enc]. unfold le_fee. by rewrite ?app_nil_r, <- ?app_assoc.
Qed.
Lemma enc_entry v : enc vsi_codec v = entry_layout v.
Proof.
  unfold vsi_codec, entry_layout, entry_offsets. cbn [enc map concat]. unfold pubkey, u64, u32, u8.
  by rewrite !enc_u, ?app_nil_r.
Qed.
Lemma enc_validator_list h xs : enc validator_list_codec (mkValidatorList h xs) = list_layout h xs.
Proof.
  unfold validator_list_codec, header_codec, vec, list_layout, u32. cbn [enc header validators].
  rewrite enc_type, le_type, !enc_u, <- app_assoc. cbn [app]. do 3 f_equal. unfold enc_list. rewrite flat_map_concat_map.
  f_equal. apply map_ext, enc_entry.
Qed.

(** The size of each part. *)
Lemma length_le_fee f : length (le_fee f) = 16%nat.
Proof. unfold le_fee. by rewrite length_app, !length_le. Qed.
Lemma length_le_option n o : (length (le_option n o) <= S n)%nat.
Proof. destruct o; cbn [le_option length]; rewrite ?length_le; lia. Qed.
Lemma length_le_future f : (length (le_future f) <= 17)%nat.
Proof. destruct f; cbn [le_future length]; rewrite ?length_le_fee; lia. Qed.
Lemma length_pool_layout p : length (reserved p) = 256%nat -> (length (pool_layout p) <= 877)%nat.
Proof.
  intros Hr. unfold pool_layout, fields_bytes, fixed_fields, loose_fields. cbn [map concat fst snd].
  rewrite !length_app, !length_le, !length_le_fee, Hr. cbn [length].
  pose proof (length_le_future (next_epoch_fee p)). pose proof (length_le_future (next_stake_withdrawal_fee p)).
  pose proof (length_le_future (next_sol_withdrawal_fee p)).
  pose proof (length_le_option 32 (preferred_deposit_validator_vote_address p)).
  pose proof (length_le_option 32 (preferred_withdraw_validator_vote_address p)).
  pose proof (length_le_option 32 (sol_deposit_authority p)).
  pose proof (length_le_option 32 (sol_withdraw_authority p)).
  pose proof (length_le_option 8 (max_validator_stake p)). lia.
Qed.
Lemma length_entry_layout v : length (entry_layout v) = VSI_SIZE.
Proof. unfold entry_layout, entry_offsets. cbn [map concat]. by rewrite !length_app, !length_le. Qed.
Lemma length_entries xs : length (concat (map entry_layout xs)) = (VSI_SIZE * length xs)%nat.
Proof.
  induction xs as [|v xs IH]; [by rewrite Nat.mul_0_r|]. cbn [map concat length].
  rewrite length_app, IH, length_entry_layout. lia.
Qed.
Lemma length_list_layout h xs : length (list_layout h xs) = (9 + VSI_SIZE * length xs)%nat.
Proof. unfold list_layout. cbn [length]. rewrite !length_app, !length_le, length_entries. lia. Qed.

(** The capacity an account of a size has. *)
Lemma capacity_of_size n : 0 <= n < 2 ^ 32 -> calculate_max_validators (9 + 73 * n) = n.
Proof.
  intros Hn. unfold calculate_max_validators, saturating_sub, saturating_div.
  change (saturating_add 64 HEADER_LEN 4) with 9. change VSI_LEN with 73.
  replace (Z.max (9 + 73 * n - 9) 0) with (n * 73) by lia. apply Z.div_mul. lia.
Qed.

Lemma entry_offsets_placed v : entry_offsets v = placed 0 (map (fun '(_, n, x) => (n, x)) (entry_offsets v)).
Proof. reflexivity. Qed.
Lemma pool_offsets_placed p : pool_offsets p = placed 0 (fixed_fields p).
Proof. reflexivity. Qed.

Lemma pool_layout_holds p rest : holds (pool_layout p ++ rest) 0 (pool_offsets p).
Proof.
  unfold holds, pool_layout. rewrite pool_offsets_placed, <- app_assoc.
  exact (placed_holds [] (fixed_fields p) (concat (loose_fields p) ++ rest)).
Qed.

Lemma placed_shift base off fs :
  placed (base + off) fs = map (fun '(o, n, v) => (base + o, n, v)%nat) (placed off fs).
Proof. revert off. induction fs as [|[n v] fs IH]; intros off; [done|]. cbn. by rewrite <- IH, Nat.add_assoc. Qed.
Lemma entry_holds h ys v zs rest :
  holds (list_layout h (ys ++ v :: zs) ++ rest) (9 + VSI_SIZE * length ys) (entry_offsets v).
Proof.
  pose (pre := type_byte (header_account_type h) :: le 4 (max_validators h) ++
    le 4 (Z.of_nat (length (ys ++ v :: zs))) ++ concat (map entry_layout ys)).
  assert (Hp : length pre = (9 + VSI_SIZE * length ys)%nat).
  { unfold pre. cbn [length]. rewrite !length_app, !length_le, length_entries. lia. }
  assert (E : list_layout h (ys ++ v :: zs) ++ rest = pre ++ entry_layout v ++ concat (map entry_layout zs) ++ rest).
  { unfold pre, list_layout. rewrite map_app, concat_app. cbn [map concat app]. by rewrite <- !app_assoc. }
  pose proof (placed_holds pre (map (fun '(_, n, x) => (n, x)) (entry_offsets v)) (concat (map entry_layout zs) ++ rest)) as H.
  replace (length pre) with (length pre + 0)%nat in H by lia.
  rewrite placed_shift, <- entry_offsets_placed, Hp in H. unfold holds. rewrite E.
  apply List.Forall_map in H. refine (list.Forall_impl _ _ _ H _). by intros [[off n] x].
Qed.

(** Decoding is exactly having the layout in front. *)
Lemma decodes_iff {A} (c : Codec A) `{!CodecOk c} data x :
  bytes data -> try_from_slice_unchecked c data = Ok x <-> wf c x /\ exists rest, data = enc c x ++ rest.
Proof.
  intros Hb. split.
  - unfold try_from_slice_unchecked. intros H. destruct (dec c data) as [[y r]|] eqn:E; [|done].
    injection H as ->. apply enc_dec in E as [-> ?]; eauto.
  - intros [Hw [rest ->]]. unfold try_from_slice_unchecked. by rewrite dec_enc.
Qed.

(** ** Properties *)

(** C40: the layout of the two accounts. Data decodes to a pool exactly when it starts
    with that pool's bytes in the declared order ([pool_layout]; fees with the
    denominator first), its version is at byte 0, its account type at byte 1 and the
    keys and amounts at the offsets of [pool_offsets]; an account of 877 bytes has room for
    every pool, which is written over its front. Data decodes to a validator list
    exactly when it starts with the header, the count and the entries ([list_layout]);
    entry [i] is the 73 bytes from [9 + 73 * i] with its fields at [entry_offsets], and
    an account of that size is one of that capacity. *)
Theorem account_layout data :
  bytes data ->
  (forall p, try_from_slice_unchecked stake_pool_codec data = Ok p <->
     wf stake_pool_codec p /\ exists rest, data = pool_layout p ++ rest) /\
  (forall p, try_from_slice_unchecked stake_pool_codec data = Ok p -> holds data 0 (pool_offsets p)) /\
  (forall p, wf stake_pool_codec p -> (877 <= length data)%nat ->
     to_writer stake_pool_codec p data = Ok (pool_layout p ++ drop (length (pool_layout p)) data)) /\
  (forall h xs, try_from_slice_unchecked validator_list_codec data = Ok (mkValidatorList h xs) <->
     wf validator_list_codec (mkValidatorList h xs) /\ exists rest, data = list_layout h xs ++ rest) /\
  (forall h xs i v, try_from_slice_unchecked validator_list_codec data = Ok (mkValidatorList h xs) ->
     xs !! i = Some v -> holds data (9 + 73 * i) (entry_offsets v)) /\
  (forall h xs, Z.of_nat (length xs) < 2 ^ 32 ->
     calculate_max_validators (Z.of_nat (length (list_layout h xs))) = Z.of_nat (length xs)).
Proof.
  intros Hb.
  assert (Hp : forall p, try_from_slice_unchecked stake_pool_codec data = Ok p <->
     wf stake_pool_codec p /\ exists rest, data = pool_layout p ++ rest).
  { intros p. rewrite <- enc_pool. by apply (decodes_iff stake_pool_codec). }
  assert (Hl : forall h xs, try_from_slice_unchecked validator_list_codec data = Ok (mkValidatorList h xs) <->
     wf validator_list_codec (mkValidatorList h xs) /\ exists rest, data = list_layout h xs ++ rest).
  { intros h xs. rewrite <- enc_validator_list. by apply (decodes_iff validator_list_codec). }
  split; [exact Hp|]. split; [|split; [|split; [exact Hl|split]]].
  - intros p [_ [rest ->]]%Hp. apply pool_layout_holds.
  - intros p Hw Hn. apply to_writer_Ok. rewrite enc_pool. split; [|done].
    pose proof (length_pool_layout p) as Hle. unfold stake_pool_codec in Hw. cbn [wf byte_array] in Hw. deex. lia.
  - intros h xs i v [_ [rest ->]]%Hl Hi. apply list_elem_of_split_length in Hi as (ys & zs & -> & ->).
    apply entry_holds.
  - intros h xs Hn. rewrite length_list_layout, <- (capacity_of_size (Z.of_nat (length xs))) by lia.
    f_equal. unfold VSI_SIZE. lia.
Qed.

Lemma account_layout_witness :
  bytes (pool_layout StakePool_default ++ [7]) /\
  try_from_slice_unchecked stake_pool_codec (pool_layout StakePool_default ++ [7]) = Ok StakePool_default /\
  holds (pool_layout StakePool_default ++ [7]) 0 (pool_offsets StakePool_default).
Proof.
  assert (Hw : wf stake_pool_codec StakePool_default).
  { unfold stake_pool_codec. cbn [wf StakePool_default reserved].
    repeat split; try (vm_compute; congruence). by apply Forall_replicate. }
  assert (Hb : bytes (pool_layout StakePool_default ++ [7])).
  { rewrite <- enc_pool. apply bytes_app. split; [by apply enc_bytes|]. repeat constructor; unfold is_byte; lia. }
  split; [exact Hb|]. destruct (account_layout _ Hb) as (H1 & H2 & _).
  assert (Hd : try_from_slice_unchecked stake_pool_codec (pool_layout StakePool_default ++ [7]) = Ok StakePool_default).
  { apply H1. split; [exact Hw|]. by exists [7]. }
  split; [exact Hd | by apply H2].
Defined.

(** C33: [BigVec::retain] with the predicate of [CleanupRemovedValidatorEntries] works
    in place on the account bytes exactly as [filter] does on the list of entries:
    the entries kept stay in order, no entry is torn, and the buffer keeps its size. *)
Theorem cleanup_refines_filter data xs spare :
  repr vsi_codec data xs spare -> wf_entries vsi_codec xs ->
  exists data' spare',
    retain VSI_SIZE (fun d => let* b := is_removed d in Ok (negb b)) data = Ok data' /\
    repr vsi_codec data' (List.filter (fun v => negb (entry_removed v)) xs) spare' /\
    length data' = length data.
Proof. intros Hr Hw. eapply (retain_spec vsi_codec); [apply _ | apply not_removed_decides | exact Hr | exact Hw]. Qed.

(** Three entries, the second one removed, as the witnesses use them. *)
Definition demo_entry (active st vote : Z) : ValidatorStakeInfo := mkVSI active 0 3 0 0 0 st vote.
Definition demo_entries : list ValidatorStakeInfo :=
  [demo_entry 500 0 11; demo_entry 0 2 12; demo_entry 700 0 13].
Definition demo_bytes : list Z := enc u32 3 ++ enc_list vsi_codec demo_entries ++ replicate 73 0.

Lemma demo_repr : repr vsi_codec demo_bytes demo_entries (replicate 73 0).
Proof. reflexivity. Qed.

Lemma demo_entry_wf active st vote :
  in_range 64 active -> in_range 8 st -> in_range 256 vote -> wf vsi_codec (demo_entry active st vote).
Proof.
  intros Ha Hs Hv. unfold vsi_codec, demo_entry, u64, u32, u8, pubkey, uint, in_range in *.
  cbn [wf active_stake_lamports transient_stake_lamports vsi_last_update_epoch transient_seed_suffix
       unused validator_seed_suffix status vote_account_address].
  repeat split; try lia.
Qed.

Lemma demo_wf : wf_entries vsi_codec demo_entries.
Proof.
  split; [|unfold in_range; simpl; lia].
  repeat constructor; apply demo_entry_wf; unfold in_range; lia.
Qed.

Lemma cleanup_refines_filter_witness :
  exists data' spare',
    retain VSI_SIZE (fun d => let* b := is_removed d in Ok (negb b)) demo_bytes = Ok data' /\
    repr vsi_codec data' [demo_entry 500 0 11; demo_entry 700 0 13] spare' /\
    length data' = length demo_bytes.
Proof. exact (cleanup_refines_filter demo_bytes demo_entries _ demo_repr demo_wf). Defined.

(** C34: [BigVec::find_mut] with [memcmp_pubkey] returns the first entry of the vote
    account, or nothing exactly when no entry has it; a store through the returned
    reference replaces that entry and no other. *)
Theorem find_mut_refines_list data xs spare vote :
  repr vsi_codec data xs spare -> wf_entries vsi_codec xs -> in_range 256 vote ->
  match find_mut vsi_codec VSI_SIZE (fun d => memcmp_pubkey d vote) data with
  | Ok (Some (i, x)) =>
      List.find (votes_for vote) xs = Some x /\
      exists ys zs, xs = ys ++ x :: zs /\
        forall y, wf vsi_codec y -> repr vsi_codec (write_entry vsi_codec i y data) (ys ++ y :: zs) spare
  | Ok None => forall v, In v xs -> vote_account_address v <> vote
  | _ => False
  end.
Proof.
  intros Hr Hw Hv.
  pose proof (find_mut_spec vsi_codec VSI_SIZE data xs spare _ _ Hr Hw (memcmp_decides vote Hv)) as H.
  destruct (find_mut _ _ _ _) as [[[i x]|]| |]; [| | done | done].
  - destruct H as (ys & zs & -> & Hx & Hys & _ & Hst). split; [|by exists ys, zs].
    clear -Hx Hys. induction Hys as [|y ys Hy _ IH]; cbn [List.find app]; [by rewrite Hx | by rewrite Hy].
  - intros v Hin E. rewrite List.Forall_forall in H. apply H in Hin. unfold votes_for in Hin.
    rewrite E, key_eqb_refl in Hin. done.
Qed.

Lemma find_mut_refines_list_witness :
  match find_mut vsi_codec VSI_SIZE (fun d => memcmp_pubkey d 13) demo_bytes with
  | Ok (Some (i, x)) =>
      List.find (votes_for 13) demo_entries = Some x /\
      exists ys zs, demo_entries = ys ++ x :: zs /\
        forall y, wf vsi_codec y ->
          repr vsi_codec (write_entry vsi_codec i y demo_bytes) (ys ++ y :: zs) (replicate 73 0)
  | Ok None => forall v, In v demo_entries -> vote_account_address v <> 13
  | _ => False
  end.
Proof.
  apply (find_mut_refines_list demo_bytes demo_entries (replicate 73 0) 13 demo_repr demo_wf).
  unfold in_range. lia.
Defined.

(** C35: [BigVec::push] appends when an entry fits in the spare bytes and otherwise
    fails; but in both cases the stored length is one more, since it is written before
    the capacity is checked. *)
Theorem push_appends_or_corrupts x data xs spare :
  wf vsi_codec x -> repr vsi_codec data xs spare -> wf_entries vsi_codec (xs ++ [x]) ->
  let '(r, data') := push vsi_codec VSI_SIZE x data in
  length data' = length data /\ len data' = Ok (Z.of_nat (length xs) + 1) /\
  if (VSI_SIZE <=? length spare)%nat
  then r = Ok tt /\ repr vsi_codec data' (xs ++ [x]) (drop VSI_SIZE spare)
  else r = Err AccountDataTooSmall.
Proof.
  intros Hx Hr Hw. destruct (Nat.leb_spec VSI_SIZE (length spare)) as [Hs|Hs].
  - destruct (push_spec vsi_codec VSI_SIZE x data xs spare Hx Hr Hw Hs) as (d & -> & Hd & Hl).
    split; [done|]. split; [|done]. rewrite (repr_len vsi_codec d _ _ Hd Hw), length_app. f_equal. simpl. lia.
  - destruct (push_full vsi_codec VSI_SIZE x data xs spare Hr Hw Hs) as (d & -> & Hl & Hn). auto.
Qed.

Lemma push_appends_or_corrupts_witness :
  let '(r, data') := push vsi_codec VSI_SIZE (demo_entry 9 0 14) (take 223 demo_bytes) in
  length data' = 223%nat /\ len data' = Ok (Z.of_nat (length demo_entries) + 1) /\ r = Err AccountDataTooSmall.
Proof.
  apply (push_appends_or_corrupts (demo_entry 9 0 14) (take 223 demo_bytes) demo_entries []).
  - apply demo_entry_wf; unfold in_range; lia.
  - reflexivity.
  - split; [|unfold in_range; simpl; lia]. apply Forall_app. split; [apply demo_wf|].
    constructor; [|constructor]. apply demo_entry_wf; unfold in_range; lia.
Defined.
