(* ===== verification/Runtime.v ===== *)
(** * The runtime the program runs on
    The ledger of accounts with their data borrows, the state and error monad of a
    handler, and, as the fields of the class [Runtime], the code that is not in the
    repository: sysvars, address derivation, the account formats of the stake and
    token programs, and the programs reached by cross-program invocation. *)
From S2P Require Import Prelude Error State Borsh Layout.

(** ** Accounts *)
Record Account := mkAccount { acc_lamports : Z; acc_data : list Z; acc_owner : Pubkey }.

(** What the program sees of an [AccountInfo] besides the account itself: two infos
    with the same key share the account, lamports and data included. *)
Record AccountInfo := mkInfo { key : Pubkey; is_signer : bool; is_writable : bool }.

Abbreviation Ledger := (gmap Pubkey Account).

(** ** Foreign data *)
Record Clock := mkClock { epoch : Z }.

Record Authorized := mkAuthorized { auth_staker : Pubkey; auth_withdrawer : Pubkey }.
Record Meta := mkMeta { rent_exempt_reserve : Z; authorized : Authorized; meta_lockup : Lockup }.
Record Delegation := mkDelegation {
  voter_pubkey : Pubkey; deleg_stake : Z; activation_epoch : Z; deactivation_epoch : Z
}.
Inductive StakeStateV2 : Type :=
| StakeUninitialized
| StakeInitialized (meta : Meta)
| StakeStake (meta : Meta) (delegation : Delegation)
| StakeRewardsPool.

(** The extensions of token-2022 the program names, and all the others. *)
Inductive ExtensionType : Type :=
| ExtUninitialized | TransferFeeConfig | TransferFeeAmount | ConfidentialTransferMint
| ConfidentialTransferFeeConfig | DefaultAccountState | ImmutableOwner | InterestBearingConfig
| CpiGuard | MetadataPointer | TokenMetadata | OtherExtension (code : Z).
#[export] Instance ExtensionType_eq_dec : EqDecision ExtensionType.
Proof. solve_decision. Defined.

(** What the program reads of a mint and of a token account. *)
Record MintView := mkMint {
  mint_supply : Z; mint_decimals : Z; mint_authority : option Pubkey;
  freeze_authority : option Pubkey; mint_extensions : outcome (list ExtensionType)
}.
Record TokenView := mkToken {
  token_initialized : bool; token_mint : Pubkey; token_extensions : outcome (list ExtensionType)
}.

(** The instructions the program invokes, one constructor per builder it calls; a
    builder and the invocation of what it built are one request. [RawInstruction]
    is an instruction the program assembles itself. *)
Inductive StakeAuthorizeKind : Type := AuthStaker | AuthWithdrawer.
Record AccountMeta := mkAccountMeta { meta_key : Pubkey; meta_signer : bool; meta_writable : bool }.
Inductive Cpi : Type :=
| SystemTransfer (from to : Pubkey) (lamports : Z)
| SystemAllocate (account : Pubkey) (space : Z)
| SystemAssign (account owner : Pubkey)
| StakeDelegate (stake authority vote : Pubkey)
| StakeDeactivate (stake authority : Pubkey)
| StakeSplit (stake authority : Pubkey) (lamports : Z) (split : Pubkey)
| StakeMerge (destination source authority : Pubkey)
| StakeAuthorize (stake authority new_authority : Pubkey) (kind : StakeAuthorizeKind)
| StakeWithdraw (stake authority to : Pubkey) (lamports : Z)
| TokenBurn (program account mint authority : Pubkey) (amount : Z)
| TokenMintTo (program mint account authority : Pubkey) (amount : Z)
| TokenTransferChecked (program source mint destination authority : Pubkey) (amount decimals : Z)
| RawInstruction (program : Pubkey) (accounts : list AccountMeta) (data : list Z).

(** ** Code outside the repository *)
Class Runtime := {
  system_program_id : Pubkey;
  stake_program_id : Pubkey;
  native_mint_decimals : Z;
  Rent : Type;
  Rent_get : outcome Rent;
  Rent_from_account_info : AccountInfo -> Account -> outcome Rent;
  is_exempt : Rent -> Z -> Z -> bool;
  minimum_balance : Rent -> Z -> Z;
  Clock_get : outcome Clock;
  Clock_from_account_info : AccountInfo -> Account -> outcome Clock;
  epoch_rewards_active : outcome bool;
  get_minimum_delegation : outcome Z;
  stake_state_size : Z;
  InsufficientDelegation : Z;
  create_program_address : list (list Z) -> Pubkey -> outcome Pubkey;
  find_program_address : list (list Z) -> Pubkey -> Pubkey * Z;
  unpack_stake_state : list Z -> outcome StakeStateV2;
  unpack_mint : list Z -> outcome MintView;
  unpack_token_account : list Z -> outcome TokenView;
  check_spl_token_program_account : Pubkey -> outcome unit;
  cpi_exec : list Pubkey -> Cpi -> list AccountInfo -> list (list (list Z)) -> Ledger -> outcome Ledger
}.

(** Lamports are [u64], data are [u8]. *)
Definition wf_ledger (l : Ledger) : Prop :=
  forall k a, l !! k = Some a -> in_range 64 (acc_lamports a) /\ bytes (acc_data a).

(** What the program relies on of the foreign code. [cpi_borrowed]: an account whose
    data the caller holds mutably borrowed cannot be among the accounts the callee
    works on, so it comes back unchanged. [cpi_types]: the callee leaves lamports and
    data of the types accounts have. The rest are the types of foreign values: the
    vote address of a stake account, the supply of a mint, derived addresses, the epoch
    of the clock, the rent of an account. *)
Class RuntimeLaws (RT : Runtime) : Prop := {
  cpi_borrowed held ix infos sg (l l' : Ledger) k :
    cpi_exec held ix infos sg l = Ok l' -> In k held -> l' !! k = l !! k;
  cpi_types held ix infos sg (l l' : Ledger) :
    cpi_exec held ix infos sg l = Ok l' -> wf_ledger l -> wf_ledger l';
  unpack_types d m g :
    bytes d -> unpack_stake_state d = Ok (StakeStake m g) -> in_range 256 (voter_pubkey g);
  mint_types d m : bytes d -> unpack_mint d = Ok m -> in_range 64 (mint_supply m);
  pda_types seeds p :
    in_range 256 (fst (find_program_address seeds p)) /\ in_range 8 (snd (find_program_address seeds p));
  clock_info_types i a c : Clock_from_account_info i a = Ok c -> in_range 64 (epoch c);
  clock_types c : Clock_get = Ok c -> in_range 64 (epoch c);
  rent_types r n : 0 <= n -> in_range 64 (minimum_balance r n);
  stake_size_types : 0 <= stake_state_size
}.

(** ** The handler monad *)
(** [borrowed]: the accounts whose data is mutably borrowed. [cpi_log]: the
    invocations that succeeded so far, oldest first. *)
Record RState := mkRState { ledger : Ledger; borrowed : list Pubkey; cpi_log : list Cpi }.

Definition M (A : Type) : Type := RState -> outcome (A * RState).
Definition mret {A} (a : A) : M A := fun s => Ok (a, s).
Definition mbind {A B} (m : M A) (k : A -> M B) : M B :=
  fun s => match m s with Ok (a, s') => k a s' | Err e => Err e | Panic => Panic end.
Definition lift {A} (o : outcome A) : M A :=
  fun s => match o with Ok a => Ok (a, s) | Err e => Err e | Panic => Panic end.

Notation "'let!' p := m 'in' k" := (mbind m (fun p => k))
  (at level 10, p pattern, m at level 100, k at level 200) : sp_scope.
Notation "'do!' m 'in' k" := (mbind m (fun _ => k))
  (at level 10, m at level 100, k at level 200) : sp_scope.

Definition mfail {A} (e : ProgramError) : M A := fun _ => Err e.
(** [if cond { return Err(e.into()) }], for the two kinds of error. *)
Definition fail_if (cond : bool) (e : ProgramError) : M unit := if cond then mfail e else mret tt.
Definition fail_if_sp (cond : bool) (e : StakePoolError) : M unit :=
  fail_if cond (into_program_error e).
(** [opt.ok_or(StakePoolError::X)?]. *)
Definition get_or {A} (o : option A) (e : StakePoolError) : M A := lift (ok_or_sp o e).
Definition mwhen (cond : bool) (m : M unit) : M unit := if cond then m else mret tt.

(** [r.is_err()] of a check whose result is kept. *)
Definition check_fails (m : M unit) : M bool :=
  fun s => match m s with Ok (_, s') => Ok (false, s') | Err _ => Ok (true, s) | Panic => Panic end.

(** A [Result] that is matched on instead of returned. *)
Definition attempt {A} (m : M A) : M (option A) :=
  fun s => match m s with Ok (a, s') => Ok (Some a, s') | Err _ => Ok (None, s) | Panic => Panic end.

Fixpoint mfold {A B} (f : B -> A -> M B) (xs : list A) (b : B) : M B :=
  match xs with [] => mret b | x :: xs => let! b := f b x in mfold f xs b end.

Definition next_account_info (it : list AccountInfo) : M (AccountInfo * list AccountInfo) :=
  match it with [] => mfail NotEnoughAccountKeys | i :: it => mret (i, it) end.

Section Primitives.
Context `{RT : Runtime}.

(** An address that holds nothing is an empty account of the system program. *)
Definition account_at (l : Ledger) (k : Pubkey) : Account :=
  match l !! k with Some a => a | None => mkAccount 0 [] system_program_id end.

Definition get_account (info : AccountInfo) : M Account :=
  fun s => Ok (account_at (ledger s) (key info), s).

Definition lamports_of (info : AccountInfo) : M Z :=
  let! a := get_account info in mret (acc_lamports a).
Definition owner_of (info : AccountInfo) : M Pubkey :=
  let! a := get_account info in mret (acc_owner a).

Definition is_borrowed (k : Pubkey) (s : RState) : bool := existsb (key_eqb k) (borrowed s).

(** [info.data.borrow()], a panic while the data is mutably borrowed, and
    [info.try_borrow_data()?], an error. *)
Definition borrow_data (info : AccountInfo) : M (list Z) :=
  fun s => if is_borrowed (key info) s then Panic
           else Ok (acc_data (account_at (ledger s) (key info)), s).
Definition try_borrow_data (info : AccountInfo) : M (list Z) :=
  fun s => if is_borrowed (key info) s then Err AccountBorrowFailed
           else Ok (acc_data (account_at (ledger s) (key info)), s).
Definition data_len (info : AccountInfo) : M Z :=
  let! d := borrow_data info in mret (Z.of_nat (length d)).

Definition set_data (k : Pubkey) (d : list Z) (s : RState) : RState :=
  let a := account_at (ledger s) k in
  mkRState (<[k := mkAccount (acc_lamports a) d (acc_owner a)]> (ledger s)) (borrowed s) (cpi_log s).

(** [let mut data = info.data.borrow_mut()], kept until the handler returns. *)
Definition borrow_mut_data (info : AccountInfo) : M unit :=
  fun s => if is_borrowed (key info) s then Panic
           else Ok (tt, mkRState (ledger s) (key info :: borrowed s) (cpi_log s)).

(** Reads and writes through the mutable borrow this handler holds. *)
Definition held_data (info : AccountInfo) : M (list Z) :=
  fun s => Ok (acc_data (account_at (ledger s) (key info)), s).
Definition set_held_data (info : AccountInfo) (d : list Z) : M unit :=
  fun s => Ok (tt, set_data (key info) d s).

(** [borsh::to_writer(&mut info.data.borrow_mut()[..], &x)?]. *)
Definition write_data {A} (c : Codec A) (info : AccountInfo) (x : A) : M unit :=
  fun s => if is_borrowed (key info) s then Panic else
           match to_writer c x (acc_data (account_at (ledger s) (key info))) with
           | Ok d => Ok (tt, set_data (key info) d s)
           | Err e => Err e
           | Panic => Panic
           end.

(** [invoke_signed(&ix, infos, signers)?]; [invoke] passes no signers. *)
Definition invoke_signed (ix : Cpi) (infos : list AccountInfo) (signers : list (list (list Z))) : M unit :=
  fun s => match cpi_exec (borrowed s) ix infos signers (ledger s) with
           | Ok l => Ok (tt, mkRState l (borrowed s) (cpi_log s ++ [ix]))
           | Err e => Err e
           | Panic => Panic
           end.
Definition invoke (ix : Cpi) (infos : list AccountInfo) : M unit := invoke_signed ix infos [].

(** [Clock::from_account_info] and [Rent::from_account_info]. *)
Definition clock_of (info : AccountInfo) : M Clock :=
  let! a := get_account info in lift (Clock_from_account_info info a).
Definition rent_of (info : AccountInfo) : M Rent :=
  let! a := get_account info in lift (Rent_from_account_info info a).

(** The program an invocation runs. *)
Definition cpi_program (ix : Cpi) : Pubkey :=
  match ix with
  | SystemTransfer _ _ _ | SystemAllocate _ _ | SystemAssign _ _ => system_program_id
  | StakeDelegate _ _ _ | StakeDeactivate _ _ | StakeSplit _ _ _ _ | StakeMerge _ _ _
  | StakeAuthorize _ _ _ _ | StakeWithdraw _ _ _ _ => stake_program_id
  | TokenBurn p _ _ _ _ | TokenMintTo p _ _ _ _ | TokenTransferChecked p _ _ _ _ _ _ => p
  | RawInstruction p _ _ => p
  end.
End Primitives.

(** ** Running a handler: what a successful run went through *)
Lemma mbind_Ok {A B} (m : M A) (k : A -> M B) s b s' :
  mbind m k s = Ok (b, s') <-> exists a s1, m s = Ok (a, s1) /\ k a s1 = Ok (b, s').
Proof.
  unfold mbind. destruct (m s) as [[a s1]| |]; split.
  - eauto.
  - intros (? & ? & [= <- <-] & H). exact H.
  - done.
  - intros (? & ? & ? & _). done.
  - done.
  - intros (? & ? & ? & _). done.
Qed.

Lemma mret_Ok {A} (a : A) s b s' : mret a s = Ok (b, s') <-> b = a /\ s' = s.
Proof. unfold mret. split; [by intros [= <- <-] | by intros [-> ->]]. Qed.

Lemma lift_Ok {A} (o : outcome A) s b s' : lift o s = Ok (b, s') <-> o = Ok b /\ s' = s.
Proof. unfold lift. destruct o; split; [by intros [= <- <-] | by intros [[= ->] ->] | done | by intros [? _] | done | by intros [? _]]. Qed.

Lemma fail_if_Ok c e s r s' : fail_if c e s = Ok (r, s') <-> c = false /\ s' = s.
Proof.
  unfold fail_if. destruct c; simpl; split; try done; try (by intros [? _]).
  - by intros [= _ <-].
  - intros [_ ->]. by destruct r.
Qed.

Lemma fail_if_sp_Ok c e s r s' : fail_if_sp c e s = Ok (r, s') <-> c = false /\ s' = s.
Proof. apply fail_if_Ok. Qed.

Lemma get_or_Ok {A} (o : option A) e s a s' : get_or o e s = Ok (a, s') <-> o = Some a /\ s' = s.
Proof. unfold get_or. rewrite lift_Ok, ok_or_sp_Ok. done. Qed.

Lemma next_account_info_Ok it s i it' s' :
  next_account_info it s = Ok ((i, it'), s') <-> it = i :: it' /\ s' = s.
Proof.
  destruct it as [|j it]; simpl; unfold mfail, mret; split; try done; try (by intros [? _]).
  - by intros [= -> -> ->].
  - by intros [[= -> ->] ->].
Qed.

Lemma mfail_Ok {A} e s (r : A * RState) : mfail e s = Ok r <-> False.
Proof. done. Qed.

(** A computation that leaves the state as it found it. *)
Class ReadOnly {A} (m : M A) : Prop := read_only s a s' : m s = Ok (a, s') -> s' = s.

#[export] Instance read_only_mret {A} (a : A) : ReadOnly (mret a).
Proof. intros s b s' [_ ?]%mret_Ok. done. Qed.
#[export] Instance read_only_mfail {A} e : ReadOnly (A := A) (mfail e).
Proof. intros s b s' H. done. Qed.
#[export] Instance read_only_lift {A} (o : outcome A) : ReadOnly (lift o).
Proof. intros s b s' [_ ?]%lift_Ok. done. Qed.
#[export] Instance read_only_fail_if c e : ReadOnly (fail_if c e).
Proof. intros s b s' [_ ?]%fail_if_Ok. done. Qed.
#[export] Instance read_only_fail_if_sp c e : ReadOnly (fail_if_sp c e).
Proof. intros s b s' [_ ?]%fail_if_sp_Ok. done. Qed.
#[export] Instance read_only_get_or {A} (o : option A) e : ReadOnly (get_or o e).
Proof. intros s b s' [_ ?]%get_or_Ok. done. Qed.
#[export] Instance read_only_next it : ReadOnly (next_account_info it).
Proof. intros s [] s' [_ ?]%next_account_info_Ok. done. Qed.
#[export] Instance read_only_mbind {A B} (m : M A) (k : A -> M B) :
  ReadOnly m -> (forall a, ReadOnly (k a)) -> ReadOnly (mbind m k).
Proof. intros Hm Hk s b s' (a & s1 & H1 & H2)%mbind_Ok. apply Hk in H2. apply Hm in H1. congruence. Qed.
#[export] Instance read_only_if {A} (c : bool) (m n : M A) :
  ReadOnly m -> ReadOnly n -> ReadOnly (if c then m else n).
Proof. by destruct c. Qed.
#[export] Instance read_only_option {A B} (o : option A) (m : A -> M B) (n : M B) :
  (forall a, ReadOnly (m a)) -> ReadOnly n -> ReadOnly (match o with Some a => m a | None => n end).
Proof. by destruct o. Qed.
#[export] Instance read_only_mwhen c (m : M unit) : ReadOnly m -> ReadOnly (mwhen c m).
Proof. intros ?. unfold mwhen. apply _. Qed.
#[export] Instance read_only_pair {A B C} (p : A * B) (m : A -> B -> M C) :
  (forall a b, ReadOnly (m a b)) -> ReadOnly (let '(a, b) := p in m a b).
Proof. by destruct p. Qed.

Lemma check_fails_Ok m s b s' `{!ReadOnly m} :
  check_fails m s = Ok (b, s') -> s' = s /\ (b = false -> exists r, m s = Ok (r, s)).
Proof.
  unfold check_fails. destruct (m s) as [[r s1]| |] eqn:E; [|intros [= <- <-]; by split|done].
  pose proof (read_only _ _ _ E) as ->. intros [= <- <-]. eauto.
Qed.

#[export] Instance read_only_check_fails m : ReadOnly m -> ReadOnly (check_fails m).
Proof. intros Hm s b s' H. by apply check_fails_Ok in H as [? _]. Qed.

#[export] Instance read_only_attempt {A} (m : M A) : ReadOnly m -> ReadOnly (attempt m).
Proof.
  intros Hm s b s'. unfold attempt. destruct (m s) as [[a s1]| |] eqn:E; [|congruence|done].
  pose proof (read_only _ _ _ E). congruence.
Qed.

Section PrimitiveFacts.
Context `{RT : Runtime}.

#[export] Instance read_only_get_account i : ReadOnly (get_account i).
Proof. intros s b s'. unfold get_account. congruence. Qed.
#[export] Instance read_only_lamports_of i : ReadOnly (lamports_of i).
Proof. unfold lamports_of. apply _. Qed.
#[export] Instance read_only_owner_of i : ReadOnly (owner_of i).
Proof. unfold owner_of. apply _. Qed.
#[export] Instance read_only_borrow_data i : ReadOnly (borrow_data i).
Proof. intros s b s'. unfold borrow_data. destruct (is_borrowed _ _); congruence. Qed.
#[export] Instance read_only_try_borrow_data i : ReadOnly (try_borrow_data i).
Proof. intros s b s'. unfold try_borrow_data. destruct (is_borrowed _ _); congruence. Qed.
#[export] Instance read_only_held_data i : ReadOnly (held_data i).
Proof. intros s b s'. unfold held_data. congruence. Qed.
#[export] Instance read_only_data_len i : ReadOnly (data_len i).
Proof. unfold data_len. apply _. Qed.
#[export] Instance read_only_clock_of i : ReadOnly (clock_of i).
Proof. unfold clock_of. apply _. Qed.
#[export] Instance read_only_rent_of i : ReadOnly (rent_of i).
Proof. unfold rent_of. apply _. Qed.

Lemma get_account_Ok i s a s' : get_account i s = Ok (a, s') <-> a = account_at (ledger s) (key i) /\ s' = s.
Proof. unfold get_account. split; [by intros [= <- <-] | by intros [-> ->]]. Qed.

Lemma lamports_of_Ok i s a s' :
  lamports_of i s = Ok (a, s') <-> a = acc_lamports (account_at (ledger s) (key i)) /\ s' = s.
Proof. unfold lamports_of, get_account, mbind, mret. split; [by intros [= <- <-] | by intros [-> ->]]. Qed.

Lemma owner_of_Ok i s a s' :
  owner_of i s = Ok (a, s') <-> a = acc_owner (account_at (ledger s) (key i)) /\ s' = s.
Proof. unfold owner_of, get_account, mbind, mret. split; [by intros [= <- <-] | by intros [-> ->]]. Qed.

Lemma borrow_data_Ok i s d s' :
  borrow_data i s = Ok (d, s') <->
  is_borrowed (key i) s = false /\ d = acc_data (account_at (ledger s) (key i)) /\ s' = s.
Proof.
  unfold borrow_data. destruct (is_borrowed _ _); split; try done; try (by intros [? _]).
  - by intros [= <- <-].
  - by intros (_ & -> & ->).
Qed.

Lemma try_borrow_data_Ok i s d s' :
  try_borrow_data i s = Ok (d, s') ->
  is_borrowed (key i) s = false /\ d = acc_data (account_at (ledger s) (key i)) /\ s' = s.
Proof. unfold try_borrow_data. destruct (is_borrowed _ _); [done|]. by intros [= <- <-]. Qed.

Lemma held_data_Ok i s d s' :
  held_data i s = Ok (d, s') <-> d = acc_data (account_at (ledger s) (key i)) /\ s' = s.
Proof. unfold held_data. split; [by intros [= <- <-] | by intros [-> ->]]. Qed.

Lemma set_held_data_Ok i d s r s' :
  set_held_data i d s = Ok (r, s') <-> s' = set_data (key i) d s.
Proof. unfold set_held_data. destruct r. split; [by intros [= <-] | by intros ->]. Qed.

Lemma borrow_mut_data_Ok i s r s' :
  borrow_mut_data i s = Ok (r, s') <->
  is_borrowed (key i) s = false /\ s' = mkRState (ledger s) (key i :: borrowed s) (cpi_log s).
Proof.
  unfold borrow_mut_data. destruct r. destruct (is_borrowed _ _); split; try done; try (by intros [? _]).
  - by intros [= <-].
  - by intros (_ & ->).
Qed.

Lemma write_data_Ok {A} (c : Codec A) i x s r s' :
  write_data c i x s = Ok (r, s') <->
  is_borrowed (key i) s = false /\ exists d,
    to_writer c x (acc_data (account_at (ledger s) (key i))) = Ok d /\ s' = set_data (key i) d s.
Proof.
  unfold write_data. destruct r. destruct (is_borrowed _ _); [split; [done | by intros [? _]]|].
  destruct (to_writer _ _ _); split; try done.
  - intros [= <-]. eauto.
  - intros (_ & d & [= ->] & ->). done.
  - intros (_ & d & ? & _). done.
  - intros (_ & d & ? & _). done.
Qed.

Lemma invoke_signed_Ok ix infos sg s r s' :
  invoke_signed ix infos sg s = Ok (r, s') <->
  exists l, cpi_exec (borrowed s) ix infos sg (ledger s) = Ok l /\
    s' = mkRState l (borrowed s) (cpi_log s ++ [ix]).
Proof.
  unfold invoke_signed. destruct r. destruct (cpi_exec _ _ _ _ _); split.
  - intros [= <-]. eauto.
  - intros (? & [= ->] & ->). done.
  - done.
  - by intros (? & ? & _).
  - done.
  - by intros (? & ? & _).
Qed.

(** Accounts after a store. *)
Lemma account_at_insert l k a : account_at (<[k := a]> l) k = a.
Proof. unfold account_at. by rewrite lookup_insert_eq. Qed.
Lemma account_at_insert_ne l k k' a : k <> k' -> account_at (<[k := a]> l) k' = account_at l k'.
Proof. intros. unfold account_at. by rewrite lookup_insert_ne. Qed.
Lemma set_data_at k d s :
  account_at (ledger (set_data k d s)) k =
  mkAccount (acc_lamports (account_at (ledger s) k)) d (acc_owner (account_at (ledger s) k)).
Proof. apply account_at_insert. Qed.
Lemma set_data_at_ne k k' d s :
  k <> k' -> account_at (ledger (set_data k d s)) k' = account_at (ledger s) k'.
Proof. apply account_at_insert_ne. Qed.
End PrimitiveFacts.

(** ** Runs of invocations *)
(** The invocations [ixs] succeed one after the other, from [s] to [s']. *)
Inductive invokes `{RT : Runtime} : RState -> list Cpi -> RState -> Prop :=
| invokes_nil s : invokes s [] s
| invokes_cons s ix infos sg l ixs s' :
    cpi_exec (borrowed s) ix infos sg (ledger s) = Ok l ->
    invokes (mkRState l (borrowed s) (cpi_log s ++ [ix])) ixs s' -> invokes s (ix :: ixs) s'.

Definition when {A} (b : bool) (x : A) : list A := if b then [x] else [].

Section InvokesFacts.
Context `{RT : Runtime}.

Lemma invokes_app s1 xs s2 ys s3 : invokes s1 xs s2 -> invokes s2 ys s3 -> invokes s1 (xs ++ ys) s3.
Proof. induction 1 as [|s ix infos sg l xs s2 He _ IH]; intros H; [done|]. econstructor; eauto. Qed.

Lemma invokes_log s xs s' : invokes s xs s' -> cpi_log s' = cpi_log s ++ xs /\ borrowed s' = borrowed s.
Proof.
  induction 1 as [s|s ix infos sg l xs s' He _ [IH1 IH2]]; [by rewrite app_nil_r|].
  simpl in *. rewrite <- app_assoc in IH1. auto.
Qed.

Lemma invokes_borrowed `{!RuntimeLaws RT} s xs s' k :
  invokes s xs s' -> In k (borrowed s) -> account_at (ledger s') k = account_at (ledger s) k.
Proof.
  induction 1 as [|s ix infos sg l xs s' He _ IH]; intros Hk; [done|]. simpl in IH.
  rewrite (IH Hk). unfold account_at. by rewrite (cpi_borrowed _ _ _ _ _ _ _ He Hk).
Qed.

Lemma invokes_types `{!RuntimeLaws RT} s xs s' :
  invokes s xs s' -> wf_ledger (ledger s) -> wf_ledger (ledger s').
Proof.
  induction 1 as [|s ix infos sg l xs s' He _ IH]; intros Hw; [done|]. simpl in IH.
  apply IH. by apply (cpi_types _ _ _ _ _ _ He).
Qed.

Lemma wf_ledger_at l k :
  wf_ledger l -> in_range 64 (acc_lamports (account_at l k)) /\ bytes (acc_data (account_at l k)).
Proof.
  intros Hw. unfold account_at. destruct (l !! k) eqn:E; [by apply (Hw k)|].
  split; [unfold in_range; simpl; lia | constructor].
Qed.

Lemma wf_ledger_set k d s : wf_ledger (ledger s) -> bytes d -> wf_ledger (ledger (set_data k d s)).
Proof.
  intros Hw Hd k' a. unfold set_data. cbn [ledger]. destruct (decide (k = k')) as [->|Hne].
  - rewrite lookup_insert_eq. intros [= <-]. split; [by apply wf_ledger_at | done].
  - rewrite lookup_insert_ne by done. apply Hw.
Qed.

Lemma invoke_signed_invokes ix infos sg s r s' :
  invoke_signed ix infos sg s = Ok (r, s') -> invokes s [ix] s'.
Proof. intros (l & H & ->)%invoke_signed_Ok. econstructor; [exact H | constructor]. Qed.

Lemma mwhen_invokes c m ix s r s' :
  (forall r s', m s = Ok (r, s') -> invokes s [ix] s') ->
  mwhen c m s = Ok (r, s') -> invokes s (when c ix) s'.
Proof. destruct c; simpl; intros H Hm; [by eapply H|]. apply mret_Ok in Hm as [_ ->]. constructor. Qed.
End InvokesFacts.

(** All invocations of a computation satisfy [P]. *)
Class Runs `{RT : Runtime} (P : Cpi -> Prop) {A} (m : M A) : Prop :=
  runs s a s' : m s = Ok (a, s') -> exists ixs, invokes s ixs s' /\ Forall P ixs.

Section RunsFacts.
Context `{RT : Runtime} (P : Cpi -> Prop).

Lemma runs_read_only {A} (m : M A) : ReadOnly m -> Runs P m.
Proof. intros Hm s a s' H. apply Hm in H as ->. exists []. split; constructor. Qed.
Lemma runs_mbind {A B} (m : M A) (k : A -> M B) : Runs P m -> (forall a, Runs P (k a)) -> Runs P (mbind m k).
Proof.
  intros Hm Hk s b s' (a & s1 & H1 & H2)%mbind_Ok. apply Hm in H1 as (xs & ? & ?). apply Hk in H2 as (ys & ? & ?).
  exists (xs ++ ys). split; [by eapply invokes_app | by apply Forall_app].
Qed.
Lemma runs_mwhen c (m : M unit) : Runs P m -> Runs P (mwhen c m).
Proof. intros Hm. destruct c; [exact Hm | apply runs_read_only, _]. Qed.
Lemma runs_invokes {A} (m : M A) ix :
  (forall s a s', m s = Ok (a, s') -> invokes s [ix] s') -> P ix -> Runs P m.
Proof. intros Hm HP s a s' H. exists [ix]. split; [by eapply Hm | by constructor]. Qed.
End RunsFacts.

(** [minv H] opens one successful run: binds, early returns, options, reads and
    writes, leaving their conditions in the context and the final state explicit.
    [mopen H] does one bind at a time. *)
Ltac minv_leaf H :=
  lazymatch type of H with
  | mret _ _ = Ok _ => apply mret_Ok in H as [? ?]; subst
  | lift _ _ = Ok _ => apply lift_Ok in H as [H ?]; subst
  | fail_if _ _ _ = Ok _ => apply fail_if_Ok in H as [H ?]; subst
  | fail_if_sp _ _ _ = Ok _ => apply fail_if_sp_Ok in H as [H ?]; subst
  | get_or _ _ _ = Ok _ => apply get_or_Ok in H as [H ?]; subst
  | mfail _ _ = Ok _ => exfalso; apply mfail_Ok in H; exact H
  | next_account_info _ _ = Ok ((_, _), _) => apply next_account_info_Ok in H as [? ?]; subst
  | get_account _ _ = Ok _ => apply get_account_Ok in H as [? ?]; subst
  | lamports_of _ _ = Ok _ => apply lamports_of_Ok in H as [? ?]; subst
  | owner_of _ _ = Ok _ => apply owner_of_Ok in H as [? ?]; subst
  | borrow_data _ _ = Ok _ => apply borrow_data_Ok in H as (H & ? & ?); subst
  | held_data _ _ = Ok _ => apply held_data_Ok in H as [? ?]; subst
  | set_held_data _ _ _ = Ok _ => apply set_held_data_Ok in H; subst
  | borrow_mut_data _ _ = Ok _ => apply borrow_mut_data_Ok in H as [H ?]; subst
  | write_data _ _ _ _ = Ok _ =>
      let d := fresh "d" in apply write_data_Ok in H as (? & d & H & ?); subst
  | invoke_signed _ _ _ _ = Ok _ =>
      let l := fresh "l" in apply invoke_signed_Ok in H as (l & H & ?); subst
  | ?m ?s = Ok (_, ?s') =>
      tryif is_var s' then
        (let E := fresh "E" in
         assert (E : s' = s) by (apply (read_only (m := m) _ _ _ H)); subst s')
      else idtac
  end.

Ltac mopen H :=
  lazymatch type of H with
  | mbind _ _ _ = Ok _ =>
      let a := fresh "a" in let s := fresh "s" in let E := fresh "E" in
      apply mbind_Ok in H as (a & s & E & H);
      try (lazymatch type of a with
           | prod _ _ => destruct a
           end);
      minv E;
      repeat match goal with u : unit |- _ => destruct u end;
      cbv beta iota in H
  end
with minv H :=
  lazymatch type of H with
  | mbind _ _ _ = Ok _ => repeat mopen H; try minv_leaf H
  | _ => try minv_leaf H
  end.
