(* ===== verification/Checks.v ===== *)
(** * Addresses, account checks and invocations
    The derived addresses and minimums of program/src/lib.rs, the [check_*] methods
    of [StakePool] (program/src/state.rs), and the free functions and invocation
    wrappers at the top of program/src/processor.rs. *)
From S2P Require Import Prelude Error Fees State Borsh Layout Runtime.

(** ** lib.rs: seeds and limits *)
(** [b"deposit"], [b"withdraw"], [b"transient"], [b"ephemeral"]. *)
Definition AUTHORITY_DEPOSIT : list Z := [100; 101; 112; 111; 115; 105; 116].
Definition AUTHORITY_WITHDRAW : list Z := [119; 105; 116; 104; 100; 114; 97; 119].
Definition TRANSIENT_STAKE_SEED_PREFIX : list Z := [116; 114; 97; 110; 115; 105; 101; 110; 116].
Definition EPHEMERAL_STAKE_SEED_PREFIX : list Z := [101; 112; 104; 101; 109; 101; 114; 97; 108].

Definition MINIMUM_ACTIVE_STAKE : Z := 1000000.
Definition MINIMUM_RESERVE_LAMPORTS : Z := 0.
Definition MAX_VALIDATORS_IN_POOL : Z := 20000.

Definition minimum_delegation (stake_program_minimum_delegation : Z) : Z :=
  Z.max stake_program_minimum_delegation MINIMUM_ACTIVE_STAKE.
Definition minimum_stake_lamports (meta : Meta) (stake_program_minimum_delegation : Z) : Z :=
  saturating_add 64 (rent_exempt_reserve meta) (minimum_delegation stake_program_minimum_delegation).
Definition minimum_reserve_lamports (meta : Meta) : Z :=
  saturating_add 64 (rent_exempt_reserve meta) MINIMUM_RESERVE_LAMPORTS.

(** [NonZeroU32::new]. *)
Definition NonZeroU32_new (n : Z) : option Z := if n =? 0 then None else Some n.

(** The seeds of the five families of addresses, without the bump. *)
Definition deposit_authority_seeds (stake_pool : Pubkey) : list (list Z) :=
  [enc pubkey stake_pool; AUTHORITY_DEPOSIT].
Definition withdraw_authority_seeds (stake_pool : Pubkey) : list (list Z) :=
  [enc pubkey stake_pool; AUTHORITY_WITHDRAW].
Definition stake_seeds (vote stake_pool : Pubkey) (seed : option Z) : list (list Z) :=
  [enc pubkey vote; enc pubkey stake_pool; match seed with Some s => enc u32 s | None => [] end].
Definition transient_stake_seeds (vote stake_pool : Pubkey) (seed : Z) : list (list Z) :=
  [TRANSIENT_STAKE_SEED_PREFIX; enc pubkey vote; enc pubkey stake_pool; enc u64 seed].
Definition ephemeral_stake_seeds (stake_pool : Pubkey) (seed : Z) : list (list Z) :=
  [EPHEMERAL_STAKE_SEED_PREFIX; enc pubkey stake_pool; enc u64 seed].

Definition is_extension_supported_for_mint (extension_type : ExtensionType) : bool :=
  bool_decide (extension_type ∈
    [ExtUninitialized; TransferFeeConfig; ConfidentialTransferMint; ConfidentialTransferFeeConfig;
     DefaultAccountState; InterestBearingConfig; MetadataPointer; TokenMetadata]).
Definition is_extension_supported_for_fee_account (extension_type : ExtensionType) : bool :=
  bool_decide (extension_type ∈ [ExtUninitialized; TransferFeeAmount; ImmutableOwner; CpiGuard]).

(** ** Stake account conditions *)
Definition stake_is_usable_by_pool (meta : Meta) (expected_authority : Pubkey)
    (expected_lockup : Lockup) : bool :=
  key_eqb (auth_staker (authorized meta)) expected_authority &&
  key_eqb (auth_withdrawer (authorized meta)) expected_authority &&
  bool_decide (meta_lockup meta = expected_lockup).

Definition stake_is_inactive_without_history (stake : Delegation) (epoch : Z) : bool :=
  (deactivation_epoch stake <? epoch) ||
  ((activation_epoch stake =? epoch) && (deactivation_epoch stake =? epoch)).

(** [stake_pool.check_sol_deposit_authority] and [check_sol_withdraw_authority];
    the argument is the [Result] of [next_account_info]. *)
Definition check_sol_authority (auth : option Pubkey) (wrong : StakePoolError)
    (maybe_info : option AccountInfo) : M unit :=
  match auth with
  | None => mret tt
  | Some auth =>
      let! info := lift (ok_or maybe_info NotEnoughAccountKeys) in
      do! fail_if_sp (negb (key_eqb auth (key info))) wrong in
      fail_if_sp (negb (is_signer info)) SignatureMissing
  end.
Definition check_sol_deposit_authority (self : StakePool) (maybe_info : option AccountInfo) : M unit :=
  check_sol_authority (sol_deposit_authority self) InvalidSolDepositAuthority maybe_info.
Definition check_sol_withdraw_authority (self : StakePool) (maybe_info : option AccountInfo) : M unit :=
  check_sol_authority (sol_withdraw_authority self) InvalidSolWithdrawAuthority maybe_info.

Definition check_stake_deposit_authority (self : StakePool) (authority : Pubkey) : M unit :=
  fail_if_sp (negb (key_eqb (stake_deposit_authority self) authority)) InvalidStakeDepositAuthority.

Definition check_manager (self : StakePool) (manager_info : AccountInfo) : M unit :=
  do! fail_if_sp (negb (key_eqb (key manager_info) (manager self))) WrongManager in
  fail_if_sp (negb (is_signer manager_info)) SignatureMissing.

Definition check_staker (self : StakePool) (staker_info : AccountInfo) : M unit :=
  do! fail_if_sp (negb (key_eqb (key staker_info) (staker self))) WrongStaker in
  fail_if_sp (negb (is_signer staker_info)) SignatureMissing.

Definition check_validator_list (self : StakePool) (validator_list_info : AccountInfo) : M unit :=
  fail_if_sp (negb (key_eqb (key validator_list_info) (validator_list self))) InvalidValidatorStakeList.

Definition check_reserve_stake (self : StakePool) (reserve_stake_info : AccountInfo) : M unit :=
  fail_if_sp (negb (key_eqb (key reserve_stake_info) (reserve_stake self))) InvalidProgramAddress.

Section Checks.
Context `{RT : Runtime}.

(** ** lib.rs: derived addresses *)
Definition find_deposit_authority_program_address (program_id stake_pool : Pubkey) : Pubkey * Z :=
  find_program_address (deposit_authority_seeds stake_pool) program_id.
Definition find_withdraw_authority_program_address (program_id stake_pool : Pubkey) : Pubkey * Z :=
  find_program_address (withdraw_authority_seeds stake_pool) program_id.
Definition find_stake_program_address (program_id vote stake_pool : Pubkey) (seed : option Z) : Pubkey * Z :=
  find_program_address (stake_seeds vote stake_pool seed) program_id.
Definition find_transient_stake_program_address (program_id vote stake_pool : Pubkey) (seed : Z) : Pubkey * Z :=
  find_program_address (transient_stake_seeds vote stake_pool seed) program_id.
Definition find_ephemeral_stake_program_address (program_id stake_pool : Pubkey) (seed : Z) : Pubkey * Z :=
  find_program_address (ephemeral_stake_seeds stake_pool seed) program_id.

(** ** state.rs: checks against accounts *)
Definition check_program_derived_authority (authority_address program_id stake_pool : Pubkey)
    (authority_seed : list Z) (bump_seed : Z) : M unit :=
  let! expected_address := lift (create_program_address
    [enc pubkey stake_pool; authority_seed; [bump_seed]] program_id) in
  fail_if_sp (negb (key_eqb authority_address expected_address)) InvalidProgramAddress.

Definition check_authority_withdraw (self : StakePool) (withdraw_authority program_id stake_pool : Pubkey) : M unit :=
  check_program_derived_authority withdraw_authority program_id stake_pool
    AUTHORITY_WITHDRAW (stake_withdraw_bump_seed self).

Definition check_manager_fee_info (self : StakePool) (manager_fee_info : AccountInfo) : M unit :=
  let! account_data := try_borrow_data manager_fee_info in
  let! token_account := lift (unpack_token_account account_data) in
  let! owner := owner_of manager_fee_info in
  do! fail_if_sp
    (negb (key_eqb owner (token_program_id self)) || negb (token_initialized token_account) ||
     negb (key_eqb (token_mint token_account) (pool_mint self))) InvalidFeeAccount in
  let! extensions := lift (token_extensions token_account) in
  fail_if_sp (existsb (fun x => negb (is_extension_supported_for_fee_account x)) extensions)
    UnsupportedFeeAccountExtension.

Definition check_mint (self : StakePool) (mint_info : AccountInfo) : M Z :=
  do! fail_if_sp (negb (key_eqb (key mint_info) (pool_mint self))) WrongPoolMint in
  let! mint_data := try_borrow_data mint_info in
  let! mint := lift (unpack_mint mint_data) in
  mret (mint_decimals mint).

(** ** processor.rs: checks *)
Definition get_stake_state (stake_account_info : AccountInfo) : M (Meta * Delegation) :=
  let! data := borrow_data stake_account_info in
  let! stake_state := lift (unpack_stake_state data) in
  match stake_state with
  | StakeStake meta stake => mret (meta, stake)
  | _ => mfail (into_program_error WrongStakeStake)
  end.

Definition check_validator_stake_address (program_id stake_pool stake_account vote : Pubkey)
    (seed : option Z) : M unit :=
  let '(validator_stake_address, _) := find_stake_program_address program_id vote stake_pool seed in
  fail_if_sp (negb (key_eqb validator_stake_address stake_account)) InvalidStakeAccountAddress.

Definition check_transient_stake_address (program_id stake_pool stake_account vote : Pubkey)
    (seed : Z) : M Z :=
  let '(address, bump_seed) := find_transient_stake_program_address program_id vote stake_pool seed in
  do! fail_if_sp (negb (key_eqb address stake_account)) InvalidStakeAccountAddress in
  mret bump_seed.

Definition check_ephemeral_stake_address (program_id stake_pool stake_account : Pubkey) (seed : Z) : M Z :=
  let '(address, bump_seed) := find_ephemeral_stake_program_address program_id stake_pool seed in
  do! fail_if_sp (negb (key_eqb address stake_account)) InvalidStakeAccountAddress in
  mret bump_seed.

Definition check_system_program (program_id : Pubkey) : M unit :=
  fail_if (negb (key_eqb program_id system_program_id)) IncorrectProgramId.
Definition check_stake_program (program_id : Pubkey) : M unit :=
  fail_if (negb (key_eqb program_id stake_program_id)) IncorrectProgramId.

Definition check_account_owner (account_info : AccountInfo) (program_id : Pubkey) : M unit :=
  let! owner := owner_of account_info in
  fail_if (negb (key_eqb program_id owner)) IncorrectProgramId.

Definition check_if_stake_deactivating (account_info : AccountInfo) (epoch : Z) : M unit :=
  let! (_, stake) := get_stake_state account_info in
  fail_if_sp (negb (deactivation_epoch stake =? epoch)) WrongStakeStake.

Definition check_if_stake_activating (account_info : AccountInfo) (epoch : Z) : M unit :=
  let! (_, stake) := get_stake_state account_info in
  fail_if_sp (negb (deactivation_epoch stake =? u64_max) || negb (activation_epoch stake =? epoch))
    WrongStakeStake.

Definition check_stake_state (stake_account_info : AccountInfo) (withdraw_authority vote : Pubkey)
    (lockup : Lockup) : M unit :=
  let! (meta, stake) := get_stake_state stake_account_info in
  do! fail_if_sp (negb (stake_is_usable_by_pool meta withdraw_authority lockup)) WrongStakeStake in
  fail_if_sp (negb (key_eqb (voter_pubkey stake) vote)) WrongStakeStake.

Definition check_validator_stake_account (stake_account_info : AccountInfo)
    (program_id stake_pool withdraw_authority vote : Pubkey) (seed : Z) (lockup : Lockup) : M unit :=
  do! check_account_owner stake_account_info stake_program_id in
  do! check_validator_stake_address program_id stake_pool (key stake_account_info) vote
        (NonZeroU32_new seed) in
  check_stake_state stake_account_info withdraw_authority vote lockup.

(** ** processor.rs: invocations *)
Definition create_stake_account (stake_account_info : AccountInfo) (signer_seeds : list (list Z))
    (stake_space : Z) : M unit :=
  do! invoke_signed (SystemAllocate (key stake_account_info) stake_space)
        [stake_account_info] [signer_seeds] in
  invoke_signed (SystemAssign (key stake_account_info) stake_program_id)
    [stake_account_info] [signer_seeds].

(** [&[stake_pool.as_ref(), authority_type, &[bump_seed]]]. *)
Definition authority_signature_seeds (stake_pool : Pubkey) (authority_type : list Z) (bump_seed : Z)
    : list (list Z) := [enc pubkey stake_pool; authority_type; [bump_seed]].

Definition stake_delegate (stake_info vote_account_info clock_info stake_history_info
    stake_config_info authority_info : AccountInfo) (stake_pool : Pubkey) (authority_type : list Z)
    (bump_seed : Z) : M unit :=
  invoke_signed (StakeDelegate (key stake_info) (key authority_info) (key vote_account_info))
    [stake_info; vote_account_info; clock_info; stake_history_info; stake_config_info; authority_info]
    [authority_signature_seeds stake_pool authority_type bump_seed].

Definition stake_deactivate (stake_info clock_info authority_info : AccountInfo) (stake_pool : Pubkey)
    (authority_type : list Z) (bump_seed : Z) : M unit :=
  invoke_signed (StakeDeactivate (key stake_info) (key authority_info))
    [stake_info; clock_info; authority_info]
    [authority_signature_seeds stake_pool authority_type bump_seed].

Definition stake_split (stake_pool : Pubkey) (stake_account authority : AccountInfo)
    (authority_type : list Z) (bump_seed amount : Z) (split_stake : AccountInfo) : M unit :=
  invoke_signed (StakeSplit (key stake_account) (key authority) amount (key split_stake))
    [stake_account; split_stake; authority]
    [authority_signature_seeds stake_pool authority_type bump_seed].

Definition stake_merge (stake_pool : Pubkey) (source_account authority : AccountInfo)
    (authority_type : list Z) (bump_seed : Z)
    (destination_account clock stake_history : AccountInfo) : M unit :=
  invoke_signed (StakeMerge (key destination_account) (key source_account) (key authority))
    [destination_account; source_account; clock; stake_history; authority]
    [authority_signature_seeds stake_pool authority_type bump_seed].

Definition stake_authorize (stake_account stake_authority : AccountInfo) (new_stake_authority : Pubkey)
    (clock : AccountInfo) : M unit :=
  do! invoke (StakeAuthorize (key stake_account) (key stake_authority) new_stake_authority AuthStaker)
        [stake_account; clock; stake_authority] in
  invoke (StakeAuthorize (key stake_account) (key stake_authority) new_stake_authority AuthWithdrawer)
    [stake_account; clock; stake_authority].

Definition stake_authorize_signed (stake_pool : Pubkey) (stake_account stake_authority : AccountInfo)
    (authority_type : list Z) (bump_seed : Z) (new_stake_authority : Pubkey) (clock : AccountInfo) : M unit :=
  let signers := [authority_signature_seeds stake_pool authority_type bump_seed] in
  do! invoke_signed (StakeAuthorize (key stake_account) (key stake_authority) new_stake_authority AuthStaker)
        [stake_account; clock; stake_authority] signers in
  invoke_signed (StakeAuthorize (key stake_account) (key stake_authority) new_stake_authority AuthWithdrawer)
    [stake_account; clock; stake_authority] signers.

Definition stake_withdraw (stake_pool : Pubkey) (source_account authority : AccountInfo)
    (authority_type : list Z) (bump_seed : Z)
    (destination_account clock stake_history : AccountInfo) (lamports : Z) : M unit :=
  invoke_signed (StakeWithdraw (key source_account) (key authority) (key destination_account) lamports)
    [source_account; destination_account; clock; stake_history; authority]
    [authority_signature_seeds stake_pool authority_type bump_seed].

Definition token_burn (token_program burn_account mint authority : AccountInfo) (amount : Z) : M unit :=
  invoke (TokenBurn (key token_program) (key burn_account) (key mint) (key authority) amount)
    [burn_account; mint; authority].

Definition token_mint_to (stake_pool : Pubkey) (token_program mint destination authority : AccountInfo)
    (authority_type : list Z) (bump_seed amount : Z) : M unit :=
  invoke_signed (TokenMintTo (key token_program) (key mint) (key destination) (key authority) amount)
    [mint; destination; authority] [authority_signature_seeds stake_pool authority_type bump_seed].

Definition token_transfer (token_program source mint destination authority : AccountInfo)
    (amount decimals : Z) : M unit :=
  invoke (TokenTransferChecked (key token_program) (key source) (key mint) (key destination)
            (key authority) amount decimals) [source; mint; destination; authority].

Definition sol_transfer (source destination : AccountInfo) (amount : Z) : M unit :=
  invoke (SystemTransfer (key source) (key destination) amount) [source; destination].

(** ** Reading the two program accounts *)
(** The opening of every handler: the owner check, the decoded pool, [is_valid]. *)
Definition load_stake_pool (program_id : Pubkey) (stake_pool_info : AccountInfo) : M StakePool :=
  do! check_account_owner stake_pool_info program_id in
  let! data := borrow_data stake_pool_info in
  let! stake_pool := lift (try_from_slice_unchecked stake_pool_codec data) in
  do! fail_if_sp (negb (StakePool_is_valid stake_pool)) InvalidState in
  mret stake_pool.

(** The list is borrowed mutably and stays so; its header must be valid. *)
Definition load_validator_list (program_id : Pubkey) (validator_list_info : AccountInfo)
    : M ValidatorListHeader :=
  do! check_account_owner validator_list_info program_id in
  do! borrow_mut_data validator_list_info in
  let! data := held_data validator_list_info in
  let! (header, _) := lift (deserialize_vec data) in
  do! fail_if_sp (negb (header_is_valid header)) InvalidState in
  mret header.
End Checks.

(** ** The checks read and do not write *)
Section ReadOnlyChecks.
Context `{RT : Runtime}.

#[export] Instance read_only_check_sol_authority a e m : ReadOnly (check_sol_authority a e m).
Proof. unfold check_sol_authority. apply _. Qed.
#[export] Instance read_only_check_sol_deposit_authority p m : ReadOnly (check_sol_deposit_authority p m).
Proof. unfold check_sol_deposit_authority. apply _. Qed.
#[export] Instance read_only_check_sol_withdraw_authority p m : ReadOnly (check_sol_withdraw_authority p m).
Proof. unfold check_sol_withdraw_authority. apply _. Qed.
#[export] Instance read_only_check_stake_deposit_authority p a : ReadOnly (check_stake_deposit_authority p a).
Proof. unfold check_stake_deposit_authority. apply _. Qed.
#[export] Instance read_only_check_manager p i : ReadOnly (check_manager p i).
Proof. unfold check_manager. apply _. Qed.
#[export] Instance read_only_check_staker p i : ReadOnly (check_staker p i).
Proof. unfold check_staker. apply _. Qed.
#[export] Instance read_only_check_validator_list p i : ReadOnly (check_validator_list p i).
Proof. unfold check_validator_list. apply _. Qed.
#[export] Instance read_only_check_reserve_stake p i : ReadOnly (check_reserve_stake p i).
Proof. unfold check_reserve_stake. apply _. Qed.
#[export] Instance read_only_check_program_derived_authority a b c d e :
  ReadOnly (check_program_derived_authority a b c d e).
Proof. unfold check_program_derived_authority. apply _. Qed.
#[export] Instance read_only_check_authority_withdraw p a b c : ReadOnly (check_authority_withdraw p a b c).
Proof. unfold check_authority_withdraw. apply _. Qed.
#[export] Instance read_only_check_manager_fee_info p i : ReadOnly (check_manager_fee_info p i).
Proof. unfold check_manager_fee_info. apply _. Qed.
#[export] Instance read_only_check_mint p i : ReadOnly (check_mint p i).
Proof. unfold check_mint. apply _. Qed.
#[export] Instance read_only_get_stake_state i : ReadOnly (get_stake_state i).
Proof.
  unfold get_stake_state. apply read_only_mbind; [apply _|]. intros d.
  apply read_only_mbind; [apply _|]. intros []; apply _.
Qed.
#[export] Instance read_only_check_validator_stake_address a b c d e :
  ReadOnly (check_validator_stake_address a b c d e).
Proof. unfold check_validator_stake_address. apply _. Qed.
#[export] Instance read_only_check_transient_stake_address a b c d e :
  ReadOnly (check_transient_stake_address a b c d e).
Proof. unfold check_transient_stake_address. apply _. Qed.
#[export] Instance read_only_check_ephemeral_stake_address a b c d :
  ReadOnly (check_ephemeral_stake_address a b c d).
Proof. unfold check_ephemeral_stake_address. apply _. Qed.
#[export] Instance read_only_check_system_program k : ReadOnly (check_system_program k).
Proof. unfold check_system_program. apply _. Qed.
#[export] Instance read_only_check_stake_program k : ReadOnly (check_stake_program k).
Proof. unfold check_stake_program. apply _. Qed.
#[export] Instance read_only_check_account_owner i k : ReadOnly (check_account_owner i k).
Proof. unfold check_account_owner. apply _. Qed.
#[export] Instance read_only_check_if_stake_deactivating i e : ReadOnly (check_if_stake_deactivating i e).
Proof. unfold check_if_stake_deactivating. apply _. Qed.
#[export] Instance read_only_check_if_stake_activating i e : ReadOnly (check_if_stake_activating i e).
Proof. unfold check_if_stake_activating. apply _. Qed.
#[export] Instance read_only_check_stake_state i a b c : ReadOnly (check_stake_state i a b c).
Proof. unfold check_stake_state. apply _. Qed.
#[export] Instance read_only_check_validator_stake_account i a b c d e f :
  ReadOnly (check_validator_stake_account i a b c d e f).
Proof. unfold check_validator_stake_account. apply _. Qed.
#[export] Instance read_only_load_stake_pool a i : ReadOnly (load_stake_pool a i).
Proof. unfold load_stake_pool. apply _. Qed.

(** ** What a successful check tells *)
Lemma negb_key_eqb a b : negb (key_eqb a b) = false <-> a = b.
Proof. rewrite negb_false_iff. apply key_eqb_eq. Qed.

Lemma check_account_owner_Ok i k s r s' :
  check_account_owner i k s = Ok (r, s') -> acc_owner (account_at (ledger s) (key i)) = k /\ s' = s.
Proof.
  intros H. unfold check_account_owner in H. mopen H. minv_leaf H. apply negb_key_eqb in H. done.
Qed.

(** The pool the handlers act on: owned by the program, of the pool type, and
    read from data nobody has borrowed. *)
Definition pool_at (program_id : Pubkey) (l : Ledger) (k : Pubkey) (p : StakePool) : Prop :=
  acc_owner (account_at l k) = program_id /\
  try_from_slice_unchecked stake_pool_codec (acc_data (account_at l k)) = Ok p /\
  StakePool_is_valid p = true.

Lemma load_stake_pool_Ok pid i s p s' :
  load_stake_pool pid i s = Ok (p, s') ->
  pool_at pid (ledger s) (key i) p /\ is_borrowed (key i) s = false /\ s' = s.
Proof.
  intros H. unfold load_stake_pool in H. mopen H. apply check_account_owner_Ok in E as [E _].
  mopen H. mopen H. mopen H. minv_leaf H. unfold pool_at.
  match goal with H : negb (StakePool_is_valid _) = false |- _ => apply negb_false_iff in H end. done.
Qed.

Lemma check_manager_Ok p i s r s' :
  check_manager p i s = Ok (r, s') -> key i = manager p /\ is_signer i = true.
Proof.
  intros H. unfold check_manager in H. mopen H. minv_leaf H. apply negb_key_eqb in E.
  apply negb_false_iff in H. done.
Qed.
Lemma check_staker_Ok p i s r s' :
  check_staker p i s = Ok (r, s') -> key i = staker p /\ is_signer i = true.
Proof.
  intros H. unfold check_staker in H. mopen H. minv_leaf H. apply negb_key_eqb in E.
  apply negb_false_iff in H. done.
Qed.
Lemma check_validator_list_Ok p i s r s' :
  check_validator_list p i s = Ok (r, s') -> key i = validator_list p.
Proof. intros H. unfold check_validator_list in H. minv_leaf H. by apply negb_key_eqb in H. Qed.
Lemma check_reserve_stake_Ok p i s r s' :
  check_reserve_stake p i s = Ok (r, s') -> key i = reserve_stake p.
Proof. intros H. unfold check_reserve_stake in H. minv_leaf H. by apply negb_key_eqb in H. Qed.
Lemma check_stake_deposit_authority_Ok p k s r s' :
  check_stake_deposit_authority p k s = Ok (r, s') -> stake_deposit_authority p = k.
Proof. intros H. unfold check_stake_deposit_authority in H. minv_leaf H. by apply negb_key_eqb in H. Qed.
Lemma check_mint_Ok p i s r s' : check_mint p i s = Ok (r, s') -> key i = pool_mint p.
Proof. intros H. unfold check_mint in H. mopen H. by apply negb_key_eqb in E. Qed.
Lemma check_sol_authority_Ok a e m s r s' :
  check_sol_authority a e m s = Ok (r, s') ->
  forall k, a = Some k -> exists i, m = Some i /\ key i = k /\ is_signer i = true.
Proof.
  intros H k ->. unfold check_sol_authority in H. mopen H. apply ok_or_Ok in E.
  mopen H. minv_leaf H. apply negb_key_eqb in E0. apply negb_false_iff in H. eauto.
Qed.
Lemma check_authority_withdraw_Ok p a pid k s r s' :
  check_authority_withdraw p a pid k s = Ok (r, s') ->
  create_program_address [enc pubkey k; AUTHORITY_WITHDRAW; [stake_withdraw_bump_seed p]] pid = Ok a.
Proof.
  intros H. unfold check_authority_withdraw, check_program_derived_authority in H.
  mopen H. minv_leaf H. apply negb_key_eqb in H. by subst.
Qed.
Lemma get_stake_state_Ok i s m g s' :
  get_stake_state i s = Ok ((m, g), s') ->
  unpack_stake_state (acc_data (account_at (ledger s) (key i))) = Ok (StakeStake m g).
Proof.
  unfold get_stake_state. intros H. mopen H. mopen H.
  match goal with st : StakeStateV2 |- _ => destruct st; minv_leaf H end.
  match goal with H : (_, _) = (_, _) |- _ => injection H as -> -> end. done.
Qed.

End ReadOnlyChecks.

(** ** The pool account before and after *)
Section PoolAccount.
Context `{RT : Runtime}.

(** The pool stored at [k]. *)
Definition stored_pool (s : RState) (k : Pubkey) : outcome StakePool :=
  try_from_slice_unchecked stake_pool_codec (acc_data (account_at (ledger s) k)).

Lemma pool_at_wf pid l k p : wf_ledger l -> pool_at pid l k p -> wf stake_pool_codec p.
Proof.
  intros Hb (_ & H & _). apply (wf_ledger_at _ k) in Hb as [_ Hb].
  by apply (try_from_slice_unchecked_wf _ _ _ Hb H).
Qed.

Lemma stored_after_write k p d s :
  wf stake_pool_codec p -> to_writer stake_pool_codec p (acc_data (account_at (ledger s) k)) = Ok d ->
  stored_pool (set_data k d s) k = Ok p.
Proof. intros Hp H. unfold stored_pool. rewrite set_data_at. simpl. by apply (read_after_write _ p _ _ Hp H). Qed.

(** The fields of a decoded pool are in range. *)
Lemma wf_pool_amounts p :
  wf stake_pool_codec p -> in_range 64 (total_lamports p) /\ in_range 64 (pool_token_supply p).
Proof. unfold stake_pool_codec. cbn [wf]. intros H. deex. split; assumption. Qed.

Lemma wf_set_amounts p l t :
  wf stake_pool_codec p -> in_range 64 l -> in_range 64 t ->
  wf stake_pool_codec (set_total_lamports l (set_pool_token_supply t p)).
Proof.
  unfold stake_pool_codec. cbn [wf]. intros H Hl Ht. deex.
  repeat (split; [first [exact Hl | exact Ht | assumption]|]). assumption.
Qed.
End PoolAccount.

(** The pool tokens a list of invocations mints and burns. *)
Definition tokens_minted (mint : Pubkey) (ixs : list Cpi) : Z :=
  fold_right (fun ix n =>
    match ix with
    | TokenMintTo _ m _ _ amount => if key_eqb m mint then amount + n else n
    | TokenBurn _ _ m _ amount => if key_eqb m mint then n - amount else n
    | _ => n
    end) 0 ixs.

Lemma tokens_minted_app mint xs ys :
  tokens_minted mint (xs ++ ys) = tokens_minted mint xs + tokens_minted mint ys.
Proof.
  induction xs as [|ix xs IH]; [reflexivity|]. simpl. rewrite IH.
  destruct ix; try destruct (key_eqb _ _); lia.
Qed.

Lemma tokens_minted_when_mint mint p a u n :
  0 <= n -> tokens_minted mint (when (0 <? n) (TokenMintTo p mint a u n)) = n.
Proof.
  intros H. unfold when. destruct (Z.ltb_spec 0 n); simpl; [rewrite key_eqb_refl|]; lia.
Qed.

Lemma tokens_minted_when_other mint c p so m d a n k :
  tokens_minted mint (when c (TokenTransferChecked p so m d a n k)) = 0.
Proof. by destruct c. Qed.

(** ** What the invocation wrappers invoke *)
Section WrapperFacts.
Context `{RT : Runtime}.

Lemma token_mint_to_invokes k tp mi de au ty b n s r s' :
  token_mint_to k tp mi de au ty b n s = Ok (r, s') ->
  invokes s [TokenMintTo (key tp) (key mi) (key de) (key au) n] s'.
Proof. apply invoke_signed_invokes. Qed.
Lemma token_burn_invokes tp ac mi au n s r s' :
  token_burn tp ac mi au n s = Ok (r, s') ->
  invokes s [TokenBurn (key tp) (key ac) (key mi) (key au) n] s'.
Proof. apply invoke_signed_invokes. Qed.
Lemma token_transfer_invokes tp so mi de au n d s r s' :
  token_transfer tp so mi de au n d s = Ok (r, s') ->
  invokes s [TokenTransferChecked (key tp) (key so) (key mi) (key de) (key au) n d] s'.
Proof. apply invoke_signed_invokes. Qed.
Lemma sol_transfer_invokes so de n s r s' :
  sol_transfer so de n s = Ok (r, s') -> invokes s [SystemTransfer (key so) (key de) n] s'.
Proof. apply invoke_signed_invokes. Qed.
Lemma stake_withdraw_invokes k so au ty b de cl hi n s r s' :
  stake_withdraw k so au ty b de cl hi n s = Ok (r, s') ->
  invokes s [StakeWithdraw (key so) (key au) (key de) n] s'.
Proof. apply invoke_signed_invokes. Qed.
Lemma stake_split_invokes k so au ty b n sp s r s' :
  stake_split k so au ty b n sp s = Ok (r, s') ->
  invokes s [StakeSplit (key so) (key au) n (key sp)] s'.
Proof. apply invoke_signed_invokes. Qed.
Lemma stake_merge_invokes k so au ty b de cl hi s r s' :
  stake_merge k so au ty b de cl hi s = Ok (r, s') ->
  invokes s [StakeMerge (key de) (key so) (key au)] s'.
Proof. apply invoke_signed_invokes. Qed.
Lemma stake_delegate_invokes st vo cl hi co au k ty b s r s' :
  stake_delegate st vo cl hi co au k ty b s = Ok (r, s') ->
  invokes s [StakeDelegate (key st) (key au) (key vo)] s'.
Proof. apply invoke_signed_invokes. Qed.
Lemma stake_deactivate_invokes st cl au k ty b s r s' :
  stake_deactivate st cl au k ty b s = Ok (r, s') ->
  invokes s [StakeDeactivate (key st) (key au)] s'.
Proof. apply invoke_signed_invokes. Qed.
Lemma stake_authorize_invokes st au new cl s r s' :
  stake_authorize st au new cl s = Ok (r, s') ->
  invokes s [StakeAuthorize (key st) (key au) new AuthStaker;
             StakeAuthorize (key st) (key au) new AuthWithdrawer] s'.
Proof.
  intros (? & s1 & H1 & H2)%mbind_Ok.
  exact (invokes_app _ [_] _ [_] _ (invoke_signed_invokes _ _ _ _ _ _ H1) (invoke_signed_invokes _ _ _ _ _ _ H2)).
Qed.
Lemma stake_authorize_signed_invokes k st au ty b new cl s r s' :
  stake_authorize_signed k st au ty b new cl s = Ok (r, s') ->
  invokes s [StakeAuthorize (key st) (key au) new AuthStaker;
             StakeAuthorize (key st) (key au) new AuthWithdrawer] s'.
Proof.
  intros (? & s1 & H1 & H2)%mbind_Ok.
  exact (invokes_app _ [_] _ [_] _ (invoke_signed_invokes _ _ _ _ _ _ H1) (invoke_signed_invokes _ _ _ _ _ _ H2)).
Qed.
Lemma create_stake_account_invokes i seeds n s r s' :
  create_stake_account i seeds n s = Ok (r, s') ->
  invokes s [SystemAllocate (key i) n; SystemAssign (key i) stake_program_id] s'.
Proof.
  intros (? & s1 & H1 & H2)%mbind_Ok.
  exact (invokes_app _ [_] _ [_] _ (invoke_signed_invokes _ _ _ _ _ _ H1) (invoke_signed_invokes _ _ _ _ _ _ H2)).
Qed.
End WrapperFacts.

#[export] Hint Resolve token_mint_to_invokes token_burn_invokes token_transfer_invokes
  sol_transfer_invokes stake_withdraw_invokes stake_split_invokes stake_merge_invokes
  stake_delegate_invokes stake_deactivate_invokes stake_authorize_invokes
  stake_authorize_signed_invokes create_stake_account_invokes : sp_wp.

(** Turns the successful run of a wrapper, guarded or not, into [invokes]. *)
Ltac to_invokes H :=
  lazymatch type of H with
  | mwhen ?c _ _ = Ok _ => eapply mwhen_invokes in H; [|intros; eauto with sp_wp]
  | _ => first
    [ apply token_mint_to_invokes in H | apply token_burn_invokes in H
    | apply token_transfer_invokes in H | apply sol_transfer_invokes in H
    | apply stake_withdraw_invokes in H | apply stake_split_invokes in H
    | apply stake_merge_invokes in H | apply stake_delegate_invokes in H
    | apply stake_deactivate_invokes in H | apply stake_authorize_invokes in H
    | apply stake_authorize_signed_invokes in H | apply create_stake_account_invokes in H ]
  end.

(** Replaces the successful checks of the context by what they tell. *)
Ltac check_facts :=
  repeat match goal with
  | H : negb (key_eqb _ _) = false |- _ => apply negb_key_eqb in H
  | H : negb _ = false |- _ => apply negb_false_iff in H
  | H : (_ =? _) = true |- _ => apply Z.eqb_eq in H
  | H : (_ =? _) = false |- _ => apply Z.eqb_neq in H
  | H : (_ <? _) = false |- _ => apply Z.ltb_ge in H
  | H : check_reserve_stake _ _ _ = _ |- _ => apply check_reserve_stake_Ok in H
  | H : check_validator_list _ _ _ = _ |- _ => apply check_validator_list_Ok in H
  | H : check_mint _ _ _ = _ |- _ => apply check_mint_Ok in H
  | H : check_stake_deposit_authority _ _ _ = _ |- _ => apply check_stake_deposit_authority_Ok in H
  | H : check_authority_withdraw _ _ _ _ _ = _ |- _ => apply check_authority_withdraw_Ok in H
  | H : check_account_owner _ _ _ = _ |- _ => apply check_account_owner_Ok in H as [H _]
  | H : check_staker _ _ _ = _ |- _ => apply check_staker_Ok in H as [H ?]
  | H : check_manager _ _ _ = _ |- _ => apply check_manager_Ok in H as [H ?]
  | H : load_stake_pool _ _ _ = _ |- _ => apply load_stake_pool_Ok in H as (H & ? & _)
  end.

(** ** The derived addresses do not overlap *)
Inductive PdaFamily : Type :=
| PdaDeposit (stake_pool : Pubkey)
| PdaWithdraw (stake_pool : Pubkey)
| PdaStake (vote stake_pool : Pubkey) (seed : option Z)
| PdaTransient (vote stake_pool : Pubkey) (seed : Z)
| PdaEphemeral (stake_pool : Pubkey) (seed : Z).

Definition pda_seeds (f : PdaFamily) : list (list Z) :=
  match f with
  | PdaDeposit p => deposit_authority_seeds p
  | PdaWithdraw p => withdraw_authority_seeds p
  | PdaStake v p s => stake_seeds v p s
  | PdaTransient v p s => transient_stake_seeds v p s
  | PdaEphemeral p s => ephemeral_stake_seeds p s
  end.

Definition wf_pda (f : PdaFamily) : Prop :=
  match f with
  | PdaDeposit p | PdaWithdraw p => in_range 256 p
  | PdaStake v p s => in_range 256 v /\ in_range 256 p /\ from_option (in_range 32) True s
  | PdaTransient v p s => in_range 256 v /\ in_range 256 p /\ in_range 64 s
  | PdaEphemeral p s => in_range 256 p /\ in_range 64 s
  end.

Lemma uint_app_inj n a b r r' :
  in_range (8 * Z.of_nat n) a -> in_range (8 * Z.of_nat n) b ->
  enc (uint n) a ++ r = enc (uint n) b ++ r' -> a = b /\ r = r'.
Proof.
  intros Ha Hb H. pose proof (dec_enc (c := uint n) a r Ha) as Ea.
  pose proof (dec_enc (c := uint n) b r' Hb) as Eb. rewrite H in Ea. split; congruence.
Qed.

Definition pda_length (f : PdaFamily) : nat :=
  match f with
  | PdaDeposit _ => 39 | PdaWithdraw _ => 40
  | PdaStake _ _ None => 64 | PdaStake _ _ (Some _) => 68
  | PdaTransient _ _ _ => 81 | PdaEphemeral _ _ => 49
  end.

Lemma length_pda f : length (concat (pda_seeds f)) = pda_length f.
Proof.
  destruct f as [p|p|v p [s|]|v p s|p s]; cbn [pda_seeds deposit_authority_seeds withdraw_authority_seeds
    stake_seeds transient_stake_seeds ephemeral_stake_seeds concat pda_length];
  rewrite ?length_app; unfold pubkey, u32, u64, uint; cbn [enc]; rewrite ?length_le_enc; reflexivity.
Qed.

(** No two addresses the program derives share their seed bytes: the
    concatenated seeds, bump included, determine the family (deposit authority,
    withdraw authority, validator stake, transient stake, ephemeral stake) and
    every parameter of the address. *)
Theorem pda_seeds_injective f g bump bump' :
  wf_pda f -> wf_pda g ->
  concat (pda_seeds f) ++ [bump] = concat (pda_seeds g) ++ [bump'] -> f = g /\ bump = bump'.
Proof.
  intros Hf Hg H. apply app_inj_tail in H as [H ->]. split; [|done].
  pose proof (f_equal length H) as Hl. rewrite !length_pda in Hl.
  destruct f as [p|p|v p [s|]|v p s|p s], g as [p'|p'|v' p' [s'|]|v' p' s'|p' s']; try discriminate Hl;
  cbn [pda_seeds deposit_authority_seeds withdraw_authority_seeds stake_seeds transient_stake_seeds
       ephemeral_stake_seeds concat wf_pda from_option] in *; deex;
  repeat match goal with
  | H : TRANSIENT_STAKE_SEED_PREFIX ++ _ = _ |- _ => apply app_inv_head in H
  | H : EPHEMERAL_STAKE_SEED_PREFIX ++ _ = _ |- _ => apply app_inv_head in H
  | H : enc pubkey _ ++ _ = _ |- _ => apply (uint_app_inj 32) in H as [? H]; [|assumption|assumption]
  | H : enc u64 _ ++ _ = _ |- _ => apply (uint_app_inj 8) in H as [? H]; [|assumption|assumption]
  | H : enc u32 _ ++ _ = _ |- _ => apply (uint_app_inj 4) in H as [? H]; [|assumption|assumption]
  end; subst; reflexivity.
Qed.

Lemma pda_seeds_injective_witness :
  PdaStake 5 6 (Some 7) = PdaStake 5 6 (Some 7) /\ 255 = 255.
Proof.
  apply (pda_seeds_injective (PdaStake 5 6 (Some 7)) (PdaStake 5 6 (Some 7)) 255 255);
    [unfold wf_pda, in_range, from_option; lia .. | reflexivity].
Defined.
