(* ===== verification/Concrete.v ===== *)
(** * A concrete runtime
    One instance of [Runtime], small and executable, at which the witnesses run the
    handlers: a bytewise address hash, a clock at epoch 5, rent of one lamport per
    byte, and system, stake and token programs with the effects the stake pool
    relies on (lamports move, stake accounts split, merge and delegate, mint supply
    and token balances follow mints and burns). An invocation fails when an account it
    works on is not passed, or when its authority has neither signed nor is derived from
    the seeds given. *)
From S2P Require Import Prelude Error Fees State Borsh Layout Runtime Checks.

(** Derived addresses are in the upper half, which holds no other address below. *)
Definition toy_hash (seeds : list (list Z)) (program : Pubkey) : Pubkey :=
  2 ^ 255 + fold_left (fun h b => (h * 257 + b + 1) mod 2 ^ 255) (concat seeds) program mod 2 ^ 255.

Definition meta_codec : Codec Meta :=
  mkCodec
    (fun m => enc u64 (rent_exempt_reserve m) ++ enc pubkey (auth_staker (authorized m)) ++
              enc pubkey (auth_withdrawer (authorized m)) ++ enc lockup_codec (meta_lockup m))
    (fun l => rd r, l <- u64 of l in rd a, l <- pubkey of l in rd w, l <- pubkey of l in
              rd k, l <- lockup_codec of l in Some (mkMeta r (mkAuthorized a w) k, l))
    (fun _ => True).

Definition delegation_codec : Codec Delegation :=
  mkCodec
    (fun d => enc pubkey (voter_pubkey d) ++ enc u64 (deleg_stake d) ++
              enc u64 (activation_epoch d) ++ enc u64 (deactivation_epoch d))
    (fun l => rd v, l <- pubkey of l in rd s, l <- u64 of l in rd a, l <- u64 of l in
              rd e, l <- u64 of l in Some (mkDelegation v s a e, l))
    (fun _ => True).

Definition toy_stake_size : nat := 200.
Definition pad (n : nat) (l : list Z) : list Z := l ++ replicate (n - length l) 0.

Definition pack_stake (st : StakeStateV2) : list Z :=
  pad toy_stake_size
    match st with
    | StakeUninitialized => [0]
    | StakeInitialized m => 1 :: enc meta_codec m
    | StakeStake m d => 2 :: enc meta_codec m ++ enc delegation_codec d
    | StakeRewardsPool => [3]
    end.

Definition unpack_stake (l : list Z) : outcome StakeStateV2 :=
  match l with
  | 0 :: _ => Ok StakeUninitialized
  | 1 :: l => match dec meta_codec l with Some (m, _) => Ok (StakeInitialized m) | None => Err BorshIoError end
  | 2 :: l => match dec meta_codec l with
              | Some (m, l) => match dec delegation_codec l with
                               | Some (d, _) => Ok (StakeStake m d)
                               | None => Err BorshIoError
                               end
              | None => Err BorshIoError
              end
  | 3 :: _ => Ok StakeRewardsPool
  | _ => Err BorshIoError
  end.

(** A mint: supply, decimals, authorities; a token account: mint and amount. *)
Definition mint_codec : Codec MintView :=
  mkCodec
    (fun m => enc u64 (mint_supply m) ++ enc u8 (mint_decimals m) ++
              enc (opt pubkey) (mint_authority m) ++ enc (opt pubkey) (freeze_authority m))
    (fun l => rd s, l <- u64 of l in rd d, l <- u8 of l in rd a, l <- (opt pubkey) of l in
              rd f, l <- (opt pubkey) of l in Some (mkMint s d a f (Ok []), l))
    (fun _ => True).
Definition token_codec : Codec (Pubkey * Z) :=
  mkCodec (fun t => enc pubkey (fst t) ++ enc u64 (snd t))
    (fun l => rd m, l <- pubkey of l in rd a, l <- u64 of l in Some ((m, a), l)) (fun _ => True).

Definition toy_account (l : Ledger) (k : Pubkey) : Account :=
  match l !! k with Some a => a | None => mkAccount 0 [] 0 end.

(** ** Effects of the called programs *)
Definition move_lamports (from to n : Z) (l : Ledger) : outcome Ledger :=
  let a := toy_account l from in
  if (0 <=? n) && (n <=? acc_lamports a) then
    let l := <[from := mkAccount (acc_lamports a - n) (acc_data a) (acc_owner a)]> l in
    let b := toy_account l to in
    match fit 64 (acc_lamports b + n) with
    | Some m => Ok (<[to := mkAccount m (acc_data b) (acc_owner b)]> l)
    | None => Err (Custom 2)
    end
  else Err InsufficientFunds.

Definition put_data (k : Pubkey) (d : list Z) (l : Ledger) : Ledger :=
  let a := toy_account l k in <[k := mkAccount (acc_lamports a) d (acc_owner a)]> l.

Definition change_mint (mint : Pubkey) (delta : Z) (l : Ledger) : outcome Ledger :=
  match dec mint_codec (acc_data (toy_account l mint)) with
  | Some (m, _) =>
      match fit 64 (mint_supply m + delta) with
      | Some n => Ok (put_data mint (enc mint_codec (mkMint n (mint_decimals m) (mint_authority m)
                                       (freeze_authority m) (Ok []))) l)
      | None => Err (Custom 14)
      end
  | None => Err InvalidAccountData
  end.

Definition change_balance (account mint : Pubkey) (delta : Z) (l : Ledger) : outcome Ledger :=
  match dec token_codec (acc_data (toy_account l account)) with
  | Some ((m, n), _) =>
      if key_eqb m mint then
        match fit 64 (n + delta) with
        | Some n => Ok (put_data account (enc token_codec (m, n)) l)
        | None => Err (Custom 1)
        end
      else Err (Custom 3)
  | None => Err InvalidAccountData
  end.

Definition toy_epoch : Z := 5.

Definition stake_effect (ix : Cpi) (l : Ledger) : outcome Ledger :=
  match ix with
  | StakeDelegate stake _ vote =>
      let* st := unpack_stake (acc_data (toy_account l stake)) in
      match st with
      | StakeInitialized m =>
          let n := acc_lamports (toy_account l stake) - rent_exempt_reserve m in
          Ok (put_data stake (pack_stake (StakeStake m (mkDelegation vote n toy_epoch u64_max))) l)
      | _ => Err InvalidAccountData
      end
  | StakeDeactivate stake _ =>
      let* st := unpack_stake (acc_data (toy_account l stake)) in
      match st with
      | StakeStake m d =>
          Ok (put_data stake (pack_stake (StakeStake m
                (mkDelegation (voter_pubkey d) (deleg_stake d) (activation_epoch d) toy_epoch))) l)
      | _ => Err InvalidAccountData
      end
  | StakeSplit stake _ n split =>
      let* st := unpack_stake (acc_data (toy_account l stake)) in
      let* l := move_lamports stake split n l in
      match st with
      | StakeStake m d =>
          let give s := StakeStake m (mkDelegation (voter_pubkey d) s (activation_epoch d) (deactivation_epoch d)) in
          Ok (put_data split (pack_stake (give n)) (put_data stake (pack_stake (give (deleg_stake d - n))) l))
      | StakeInitialized m => Ok (put_data split (pack_stake (StakeInitialized m)) l)
      | _ => Err InvalidAccountData
      end
  | StakeMerge destination source _ =>
      let* st := unpack_stake (acc_data (toy_account l destination)) in
      let* st' := unpack_stake (acc_data (toy_account l source)) in
      let* l := move_lamports source destination (acc_lamports (toy_account l source)) l in
      match st, st' with
      | StakeStake m d, StakeStake _ d' =>
          Ok (put_data destination (pack_stake (StakeStake m (mkDelegation (voter_pubkey d)
               (deleg_stake d + deleg_stake d') (activation_epoch d) (deactivation_epoch d)))) l)
      | StakeInitialized _, StakeInitialized _ => Ok l
      | _, _ => Err InvalidAccountData
      end
  | StakeAuthorize stake _ new_authority kind =>
      let* st := unpack_stake (acc_data (toy_account l stake)) in
      let change m :=
        mkMeta (rent_exempt_reserve m)
          match kind with
          | AuthStaker => mkAuthorized new_authority (auth_withdrawer (authorized m))
          | AuthWithdrawer => mkAuthorized (auth_staker (authorized m)) new_authority
          end (meta_lockup m) in
      match st with
      | StakeStake m d => Ok (put_data stake (pack_stake (StakeStake (change m) d)) l)
      | StakeInitialized m => Ok (put_data stake (pack_stake (StakeInitialized (change m))) l)
      | _ => Err InvalidAccountData
      end
  | StakeWithdraw stake _ to n => move_lamports stake to n l
  | _ => Err InvalidInstructionData
  end.

Definition toy_effect (ix : Cpi) (l : Ledger) : outcome Ledger :=
  match ix with
  | SystemTransfer from to n => move_lamports from to n l
  | SystemAllocate k n => Ok (put_data k (replicate (Z.to_nat n) 0) l)
  | SystemAssign k o =>
      let a := toy_account l k in Ok (<[k := mkAccount (acc_lamports a) (acc_data a) o]> l)
  | TokenMintTo _ mint account _ n => let* l := change_balance account mint n l in change_mint mint n l
  | TokenBurn _ account mint _ n => let* l := change_balance account mint (- n) l in change_mint mint (- n) l
  | TokenTransferChecked _ source mint destination _ n _ =>
      let* l := change_balance source mint (- n) l in change_balance destination mint n l
  | RawInstruction _ _ _ => Ok l
  | _ => stake_effect ix l
  end.

(** The accounts an invocation writes. *)
Definition cpi_touched (ix : Cpi) : list Pubkey :=
  match ix with
  | SystemTransfer from to _ => [from; to]
  | SystemAllocate k _ | SystemAssign k _ => [k]
  | StakeDelegate stake _ _ | StakeDeactivate stake _ | StakeAuthorize stake _ _ _ => [stake]
  | StakeSplit stake _ _ split => [stake; split]
  | StakeMerge destination source _ => [destination; source]
  | StakeWithdraw stake _ to _ => [stake; to]
  | TokenBurn _ account mint _ _ => [account; mint]
  | TokenMintTo _ mint account _ _ => [account; mint]
  | TokenTransferChecked _ source _ destination _ _ _ => [source; destination]
  | RawInstruction _ _ _ => []
  end.

(** Who has to sign an invocation. *)
Definition cpi_signers (ix : Cpi) : list Pubkey :=
  match ix with
  | SystemTransfer from _ _ => [from]
  | SystemAllocate k _ | SystemAssign k _ => [k]
  | StakeDelegate _ authority _ | StakeDeactivate _ authority | StakeSplit _ authority _ _
  | StakeMerge _ _ authority | StakeAuthorize _ authority _ _ | StakeWithdraw _ authority _ _
  | TokenBurn _ _ _ authority _ | TokenMintTo _ _ _ authority _
  | TokenTransferChecked _ _ _ _ authority _ _ => [authority]
  | RawInstruction _ metas _ => map meta_key (List.filter meta_signer metas)
  end.

(** The stake pool program; nobody else writes its accounts. *)
Definition toy_program : Pubkey := 9.

(** The accounts an invocation works on are passed, and whoever has to sign has signed
    the transaction or is derived from seeds of the program. *)
Definition toy_passed (ix : Cpi) (infos : list AccountInfo) : bool :=
  forallb (fun k => existsb (fun i => key_eqb (key i) k) infos) (cpi_touched ix).
Definition toy_signed (ix : Cpi) (infos : list AccountInfo) (signers : list (list (list Z))) : bool :=
  forallb (fun k => existsb (fun i => key_eqb (key i) k && is_signer i) infos ||
                    existsb (fun seeds => key_eqb (toy_hash seeds toy_program) k) signers) (cpi_signers ix).

Definition toy_exec (held : list Pubkey) (ix : Cpi) (infos : list AccountInfo)
    (signers : list (list (list Z))) (l : Ledger) : outcome Ledger :=
  if existsb (fun k => existsb (key_eqb k) held) (cpi_touched ix) then Err AccountBorrowFailed else
  if existsb (fun k => key_eqb (acc_owner (toy_account l k)) toy_program) (cpi_touched ix)
  then Err (Custom 13) else
  if negb (toy_passed ix infos && toy_signed ix infos signers) then Err (Custom 14) else
  toy_effect ix l.

Definition toy_system : Pubkey := 0.
Definition toy_stake_program : Pubkey := 77.
Definition toy_token_program : Pubkey := 88.

Definition toy : Runtime := {|
  system_program_id := toy_system;
  stake_program_id := toy_stake_program;
  native_mint_decimals := 9;
  Rent := unit;
  Rent_get := Ok tt;
  Rent_from_account_info _ _ := Ok tt;
  is_exempt _ lamports n := n <=? lamports;
  minimum_balance _ n := Z.min n u64_max;
  Clock_get := Ok (mkClock toy_epoch);
  Clock_from_account_info _ _ := Ok (mkClock toy_epoch);
  epoch_rewards_active := Ok false;
  get_minimum_delegation := Ok 1;
  stake_state_size := 200;
  InsufficientDelegation := 12;
  create_program_address seeds p := Ok (toy_hash seeds p);
  find_program_address seeds p := (toy_hash (seeds ++ [[255]]) p, 255);
  unpack_stake_state := unpack_stake;
  unpack_mint l := match dec mint_codec l with Some (m, _) => Ok m | None => Err InvalidAccountData end;
  unpack_token_account l :=
    match dec token_codec l with Some (t, _) => Ok (mkToken true (fst t) (Ok [])) | None => Err InvalidAccountData end;
  check_spl_token_program_account k := if key_eqb k toy_token_program then Ok tt else Err IncorrectProgramId;
  cpi_exec := toy_exec
|}.

(** ** A pool at the concrete runtime *)
Definition toy_pool_key : Pubkey := 10.
Definition toy_list_key : Pubkey := 11.
Definition toy_reserve_key : Pubkey := 12.
Definition toy_mint_key : Pubkey := 13.
Definition toy_fee_key : Pubkey := 14.
Definition toy_manager : Pubkey := 15.
Definition toy_staker : Pubkey := 16.
Definition toy_user : Pubkey := 17.
Definition toy_user_tokens : Pubkey := 18.
Definition toy_vote : Pubkey := 19.
Definition toy_user_stake : Pubkey := 20.
Definition toy_authority : Pubkey :=
  fst (find_withdraw_authority_program_address (RT := toy) toy_program toy_pool_key).
Definition toy_deposit_authority : Pubkey :=
  fst (find_deposit_authority_program_address (RT := toy) toy_program toy_pool_key).
Definition toy_validator_stake : Pubkey :=
  fst (find_stake_program_address (RT := toy) toy_program toy_vote toy_pool_key None).

Definition toy_meta : Meta := mkMeta 200 (mkAuthorized toy_authority toy_authority) Lockup_default.

(** Total 5_000_000_000 lamports, 4_000_000_000 of them with one validator, and
    4_000_000_000 pool tokens; the fees are those of a running pool. *)
Definition toy_pool : StakePool := {|
  version := 1;
  account_type := AccStakePool;
  manager := toy_manager;
  staker := toy_staker;
  stake_deposit_authority := toy_deposit_authority;
  stake_withdraw_bump_seed := 255;
  validator_list := toy_list_key;
  reserve_stake := toy_reserve_key;
  pool_mint := toy_mint_key;
  manager_fee_account := toy_fee_key;
  token_program_id := toy_token_program;
  total_lamports := 5000000000;
  pool_token_supply := 4000000000;
  last_update_epoch := 5;
  lockup := Lockup_default;
  epoch_fee := mkFee 10 1;
  next_epoch_fee := FutureNone;
  preferred_deposit_validator_vote_address := None;
  preferred_withdraw_validator_vote_address := None;
  stake_deposit_fee := mkFee 1000 1;
  stake_withdrawal_fee := mkFee 1000 3;
  next_stake_withdrawal_fee := FutureNone;
  stake_referral_fee := 50;
  sol_deposit_authority := None;
  sol_deposit_fee := mkFee 1000 5;
  sol_referral_fee := 20;
  sol_withdraw_authority := None;
  sol_withdrawal_fee := mkFee 1000 3;
  next_sol_withdrawal_fee := FutureNone;
  last_epoch_pool_token_supply := 4000000000;
  last_epoch_total_lamports := 4900000000;
  max_validator_stake := None;
  reserved := replicate 256 0
|}.

Definition toy_entry : ValidatorStakeInfo := mkVSI 4000000000 0 5 0 0 0 0 toy_vote.
Definition toy_list_data : list Z :=
  enc header_codec (mkHeader AccValidatorList 3) ++
  enc u32 (Z.of_nat 1) ++ enc_list vsi_codec [toy_entry] ++ replicate 146 0.

Definition toy_accounts : list (Pubkey * Account) := [
  (toy_pool_key, mkAccount 1000 (pad 1000 (enc stake_pool_codec toy_pool)) toy_program);
  (toy_list_key, mkAccount 300 toy_list_data toy_program);
  (toy_reserve_key, mkAccount 1000000200 (pack_stake (StakeInitialized toy_meta)) toy_stake_program);
  (toy_mint_key, mkAccount 100 (enc mint_codec (mkMint 4000000000 9 (Some toy_authority) None (Ok []))) toy_token_program);
  (toy_fee_key, mkAccount 100 (enc token_codec (toy_mint_key, 1000000000)) toy_token_program);
  (toy_user_tokens, mkAccount 100 (enc token_codec (toy_mint_key, 3000000000)) toy_token_program);
  (toy_user, mkAccount 2000000000 [] toy_system);
  (toy_validator_stake, mkAccount 4000000000
     (pack_stake (StakeStake toy_meta (mkDelegation toy_vote 3999999800 1 u64_max))) toy_stake_program);
  (toy_user_stake, mkAccount 500000700
     (pack_stake (StakeStake (mkMeta 200 (mkAuthorized toy_deposit_authority toy_deposit_authority) Lockup_default)
        (mkDelegation toy_vote 500000000 1 u64_max))) toy_stake_program)
].
Definition toy_state : RState := mkRState (list_to_map toy_accounts) [] [].

(** The list of the concrete pool. *)
Definition toy_header : ValidatorListHeader := mkHeader AccValidatorList 3.

(** Account infos, as a transaction passes them. *)
Definition signer (k : Pubkey) : AccountInfo := mkInfo k true true.
Definition plain (k : Pubkey) : AccountInfo := mkInfo k false true.

(** The state a successful run ends in. *)
Definition final (s : RState) (o : outcome (unit * RState)) : RState :=
  match o with Ok (_, s') => s' | _ => s end.

Lemma ran s o : is_ok o = true -> o = Ok (tt, final s o).
Proof. destruct o as [[[] s']| |]; done. Qed.

(** The pool account of a state. *)
Definition toy_pool_of (s : RState) : outcome StakePool :=
  try_from_slice_unchecked stake_pool_codec (acc_data (account_at (RT := toy) (ledger s) toy_pool_key)).

(** The accounts of the concrete state hold bytes. *)
Definition bytesb (l : list Z) : bool := forallb (fun b => (0 <=? b) && (b <? 256)) l.

Lemma bytesb_bytes l : bytesb l = true -> bytes l.
Proof.
  unfold bytesb. rewrite forallb_forall. intros H. apply List.Forall_forall. intros b Hb.
  apply H in Hb. unfold is_byte. lia.
Qed.

Lemma wf_of_accounts l :
  forallb (fun a => (0 <=? acc_lamports (snd a)) && (acc_lamports (snd a) <? 2 ^ 64) &&
                    bytesb (acc_data (snd a))) l = true ->
  wf_ledger (list_to_map l).
Proof.
  intros H k a E. apply elem_of_list_to_map_2, list_elem_of_In in E. rewrite forallb_forall in H.
  apply H in E. cbn [snd] in E. apply andb_true_iff in E as [E Hd]. unfold in_range.
  split; [lia | by apply bytesb_bytes].
Qed.

Lemma toy_state_wf : wf_ledger (ledger toy_state).
Proof. apply wf_of_accounts. vm_compute. reflexivity. Qed.

(** Account addresses are 256-bit. *)
Lemma toy_keys accounts :
  forallb (fun i => (0 <=? key i) && (key i <? 2 ^ 256)) accounts = true ->
  Forall (fun i => in_range 256 (key i)) accounts.
Proof.
  intros Hb. apply List.Forall_forall. intros i Hi. rewrite forallb_forall in Hb. apply Hb in Hi.
  unfold in_range. lia.
Qed.

(** ** The concrete runtime keeps the laws *)
Definition only_touches (ks : list Pubkey) (l l' : Ledger) : Prop :=
  (forall k, ~ In k ks -> l' !! k = l !! k) /\ (wf_ledger l -> wf_ledger l').

Lemma only_touches_trans ks l1 l2 l3 : only_touches ks l1 l2 -> only_touches ks l2 l3 -> only_touches ks l1 l3.
Proof. intros [A1 A2] [B1 B2]. split; [|tauto]. intros k Hk. by rewrite (B1 k Hk), (A1 k Hk). Qed.

Lemma only_touches_refl ks l : only_touches ks l l.
Proof. split; auto. Qed.

Lemma wf_toy_account l k :
  wf_ledger l -> in_range 64 (acc_lamports (toy_account l k)) /\ bytes (acc_data (toy_account l k)).
Proof.
  intros Hw. unfold toy_account. destruct (l !! k) eqn:E; [by apply (Hw k)|].
  split; [unfold in_range; simpl; lia | constructor].
Qed.

Lemma only_touches_insert ks l k a :
  In k ks -> (wf_ledger l -> in_range 64 (acc_lamports a) /\ bytes (acc_data a)) ->
  only_touches ks l (<[k := a]> l).
Proof.
  intros Hk Ha. split.
  - intros k' Hk'. apply lookup_insert_ne. intros ->. done.
  - intros Hw k' a'. destruct (decide (k = k')) as [->|Hne].
    + rewrite lookup_insert_eq. intros [= <-]. auto.
    + rewrite lookup_insert_ne by done. apply Hw.
Qed.

Lemma only_touches_put ks l k d : In k ks -> bytes d -> only_touches ks l (put_data k d l).
Proof.
  intros Hk Hd. apply only_touches_insert; [done|]. intros Hw. split; [by apply wf_toy_account | done].
Qed.

Lemma only_touches_move ks from to n l l' :
  In from ks -> In to ks -> move_lamports from to n l = Ok l' -> only_touches ks l l'.
Proof.
  intros Hf Ht. unfold move_lamports. destruct (Z.leb_spec 0 n); [|done].
  destruct (Z.leb_spec n (acc_lamports (toy_account l from))); [|done]. cbn [andb].
  destruct (fit 64 _) as [m|] eqn:E; [|done]. intros <-%Ok_inj. checked_inv.
  eapply only_touches_trans; apply only_touches_insert; try done; cbn [acc_lamports acc_data].
  - intros Hw. pose proof (wf_toy_account _ from Hw) as [??]. unfold in_range in *. split; [lia|done].
  - intros Hw. split; [done|]. by apply wf_toy_account.
Qed.

Lemma bytes_pad n l : bytes l -> bytes (pad n l).
Proof. intros H. apply bytes_app. split; [done|]. apply Forall_replicate. unfold is_byte. lia. Qed.

Lemma bytes_enc_uint n v : bytes (enc (uint n) v).
Proof. apply bytes_le_enc. Qed.

Lemma bytes_meta m : bytes (enc meta_codec m).
Proof.
  unfold meta_codec, lockup_codec. cbn [enc].
  repeat (apply bytes_app; split); apply bytes_enc_uint.
Qed.
Lemma bytes_delegation d : bytes (enc delegation_codec d).
Proof. unfold delegation_codec. cbn [enc]. repeat (apply bytes_app; split); apply bytes_enc_uint. Qed.

Lemma bytes_pack_stake st : bytes (pack_stake st).
Proof.
  assert (Hb : forall b l, 0 <= b < 256 -> bytes l -> bytes (b :: l)) by (intros; constructor; done).
  apply bytes_pad. destruct st; (apply Hb; [lia|]).
  - constructor.
  - apply bytes_meta.
  - apply bytes_app. split; [apply bytes_meta | apply bytes_delegation].
  - constructor.
Qed.

Lemma bytes_opt_pubkey o : bytes (enc (opt pubkey) o).
Proof. destruct o; cbn [opt enc]; constructor; try (unfold is_byte; lia); [apply bytes_enc_uint | constructor]. Qed.
Lemma bytes_mint m : bytes (enc mint_codec m).
Proof.
  unfold mint_codec. cbn [enc]. repeat (apply bytes_app; split); try apply bytes_enc_uint; apply bytes_opt_pubkey.
Qed.
Lemma bytes_token t : bytes (enc token_codec t).
Proof. unfold token_codec. cbn [enc]. apply bytes_app; split; apply bytes_enc_uint. Qed.

Lemma only_touches_mint ks mint n l l' :
  In mint ks -> change_mint mint n l = Ok l' -> only_touches ks l l'.
Proof.
  intros Hk. unfold change_mint. destruct (dec mint_codec _) as [[m r]|]; [|done].
  destruct (fit _ _); [|done]. intros <-%Ok_inj. apply only_touches_put; [done | apply bytes_mint].
Qed.
Lemma only_touches_balance ks a mint n l l' :
  In a ks -> change_balance a mint n l = Ok l' -> only_touches ks l l'.
Proof.
  intros Hk. unfold change_balance. destruct (dec token_codec _) as [[[m k] r]|]; [|done].
  destruct (key_eqb _ _); [|done]. destruct (fit _ _); [|done]. intros <-%Ok_inj.
  apply only_touches_put; [done | apply bytes_token].
Qed.

Lemma stake_effect_touches ix l l' : stake_effect ix l = Ok l' -> only_touches (cpi_touched ix) l l'.
Proof.
  destruct ix; try done; cbn [stake_effect cpi_touched]; intros H;
  repeat match type of H with
  | obind _ _ = Ok _ => let x := fresh "x" in let Hx := fresh "Hx" in apply obind_Ok in H as (x & Hx & H)
  | (match ?st with _ => _ end) = Ok _ => destruct st
  end; try discriminate H;
  try (eapply only_touches_move; [| |exact H]; simpl; tauto);
  try (apply Ok_inj in H as <-);
  try match goal with Hm : move_lamports _ _ _ _ = Ok _ |- _ =>
    eapply only_touches_trans; [eapply only_touches_move; [| |exact Hm]; simpl; tauto|] end;
  try apply only_touches_refl;
  repeat first
    [ apply only_touches_put; [simpl; tauto | apply bytes_pack_stake]
    | eapply only_touches_trans; [apply only_touches_put; [simpl; tauto | apply bytes_pack_stake]|] ].
Qed.

Lemma toy_effect_touches ix l l' : toy_effect ix l = Ok l' -> only_touches (cpi_touched ix) l l'.
Proof.
  destruct ix; cbn [toy_effect]; intros H; try (by apply stake_effect_touches).
  - by eapply only_touches_move; [| |exact H]; simpl; tauto.
  - apply Ok_inj in H as <-. apply only_touches_put; [simpl; tauto|]. apply Forall_replicate. unfold is_byte; lia.
  - apply Ok_inj in H as <-. apply only_touches_insert; [simpl; tauto|]. apply wf_toy_account.
  - apply obind_Ok in H as (x & Hx & H).
    eapply only_touches_trans; [eapply only_touches_balance; [|exact Hx] | eapply only_touches_mint; [|exact H]]; simpl; tauto.
  - apply obind_Ok in H as (x & Hx & H).
    eapply only_touches_trans; [eapply only_touches_balance; [|exact Hx] | eapply only_touches_mint; [|exact H]]; simpl; tauto.
  - apply obind_Ok in H as (x & Hx & H).
    eapply only_touches_trans; [eapply only_touches_balance; [|exact Hx] | eapply only_touches_balance; [|exact H]]; simpl; tauto.
  - apply Ok_inj in H as <-. apply only_touches_refl.
Qed.

Lemma toy_hash_upper seeds p : 2 ^ 255 <= toy_hash seeds p < 2 ^ 256.
Proof.
  unfold toy_hash. set (h := fold_left _ _ _). pose proof (Z.mod_pos_bound h (2 ^ 255) ltac:(lia)). lia.
Qed.

#[export] Instance toy_laws : RuntimeLaws toy.
Proof.
  split.
  - intros held ix infos sg l l' k H Hk. cbn [cpi_exec toy] in H. unfold toy_exec in H.
    destruct (existsb _ _) eqn:E; [done|]. destruct (existsb _ _) in H; [done|]. destruct (negb _) in H; [done|].
    apply toy_effect_touches in H as [H _]. apply H. intros Hin.
    apply not_true_iff_false in E. apply E. apply existsb_exists. exists k. split; [done|].
    apply existsb_exists. exists k. split; [done | apply key_eqb_refl].
  - intros held ix infos sg l l' H. cbn [cpi_exec toy] in H. unfold toy_exec in H.
    destruct (existsb _ _); [done|]. destruct (existsb _ _); [done|]. destruct (negb _); [done|]. by apply toy_effect_touches in H as [_ H].
  - intros d m g Hd H. cbn [unpack_stake_state toy] in H. unfold unpack_stake in H.
    destruct d as [|b d]; [done|]. apply (bytes_drop 1) in Hd. cbn [drop] in Hd. rewrite drop_0 in Hd.
    assert (Hr : forall st, (match dec meta_codec d with
      | Some (m, _) => Ok (StakeInitialized m) | None => Err BorshIoError end) = Ok st -> st <> StakeStake m g).
    { intros st E. destruct (dec meta_codec d) as [[]|]; [|done]. by injection E as <-. }
    destruct b as [|[[]|[]|]|]; try done; try (by apply Hr in H).
    destruct (dec meta_codec d) as [[m' r]|] eqn:E; [|done].
    destruct (dec delegation_codec r) as [[g' r']|] eqn:E'; [|done].
    apply Ok_inj in H. injection H as -> ->.
    unfold meta_codec in E. cbn [dec] in E. open_fields. apply Some_inj in E. injection E as _ ->.
    unfold delegation_codec in E'. cbn [dec] in E'. open_fields. apply Some_inj in E'. by injection E' as <- _.
  - intros d m Hd H. cbn [unpack_mint toy] in H. destruct (dec mint_codec d) as [[m' r]|] eqn:E; [|done].
    apply Ok_inj in H as ->. unfold mint_codec in E. cbn [dec] in E. open_fields.
    apply Some_inj in E. by injection E as <- _.
  - intros seeds p. cbn [find_program_address toy fst snd]. split; [|unfold in_range; lia].
    pose proof (toy_hash_upper (seeds ++ [[255]]) p). unfold in_range. lia.
  - intros i a c [= <-]. unfold in_range, toy_epoch. simpl. lia.
  - intros c [= <-]. unfold in_range, toy_epoch. simpl. lia.
  - intros r n Hn. change (minimum_balance r n) with (Z.min n u64_max). unfold in_range, u64_max. lia.
  - change (0 <= 200). lia.
Qed.
