(* ===== verification/Admin.v ===== *)
(** * Administration of a pool (program/src/processor.rs)
    [SetManager], [SetFee], [SetMaxValidatorStake], [SetStaker],
    [SetFundingAuthority] and [SetPreferredValidator]: who may call them, and that
    each changes its own fields of the pool and nothing else in the ledger. *)
From S2P Require Import Prelude Error Fees State Borsh Layout BigVec Entries Runtime Checks Concrete.

Inductive FundingType : Type := FundStakeDeposit | FundSolDeposit | FundSolWithdraw.
Inductive PreferredValidatorType : Type := PreferDeposit | PreferWithdraw.

Section Admin.
Context `{RT : Runtime}.
Variable program_id : Pubkey.

Definition process_set_manager (accounts : list AccountInfo) : M unit :=
  let! (stake_pool_info, it) := next_account_info accounts in
  let! (manager_info, it) := next_account_info it in
  let! (new_manager_info, it) := next_account_info it in
  let! (new_manager_fee_info, it) := next_account_info it in
  do! check_account_owner stake_pool_info program_id in
  let! data := borrow_data stake_pool_info in
  let! stake_pool := lift (try_from_slice_unchecked stake_pool_codec data) in
  do! check_account_owner new_manager_fee_info (token_program_id stake_pool) in
  do! fail_if_sp (negb (StakePool_is_valid stake_pool)) InvalidState in
  do! check_manager stake_pool manager_info in
  do! fail_if_sp (negb (is_signer new_manager_info)) SignatureMissing in
  do! check_manager_fee_info stake_pool new_manager_fee_info in
  let stake_pool := set_manager (key new_manager_info) stake_pool in
  let stake_pool := set_manager_fee_account (key new_manager_fee_info) stake_pool in
  write_data stake_pool_codec stake_pool_info stake_pool.

Definition process_set_fee (accounts : list AccountInfo) (fee : FeeType) : M unit :=
  let! (stake_pool_info, it) := next_account_info accounts in
  let! (manager_info, it) := next_account_info it in
  let! clock := lift Clock_get in
  let! stake_pool := load_stake_pool program_id stake_pool_info in
  do! check_manager stake_pool manager_info in
  do! fail_if_sp (can_only_change_next_epoch fee && (last_update_epoch stake_pool <? epoch clock))
        StakeListAndPoolOutOfDate in
  do! lift (check_too_high fee) in
  let! stake_pool := lift (update_fee stake_pool fee) in
  write_data stake_pool_codec stake_pool_info stake_pool.

Definition process_set_max_validator_stake (accounts : list AccountInfo) (max_stake : option Z) : M unit :=
  let! (stake_pool_info, it) := next_account_info accounts in
  let! (manager_info, it) := next_account_info it in
  let! stake_pool := load_stake_pool program_id stake_pool_info in
  do! check_manager stake_pool manager_info in
  write_data stake_pool_codec stake_pool_info (set_max_validator_stake max_stake stake_pool).

Definition process_set_staker (accounts : list AccountInfo) : M unit :=
  let! (stake_pool_info, it) := next_account_info accounts in
  let! (set_staker_authority_info, it) := next_account_info it in
  let! (new_staker_info, it) := next_account_info it in
  let! stake_pool := load_stake_pool program_id stake_pool_info in
  let! staker_err := check_fails (check_staker stake_pool set_staker_authority_info) in
  let! manager_err := check_fails (check_manager stake_pool set_staker_authority_info) in
  do! fail_if_sp (staker_err && manager_err) SignatureMissing in
  write_data stake_pool_codec stake_pool_info (set_staker (key new_staker_info) stake_pool).

Definition process_set_funding_authority (accounts : list AccountInfo) (funding_type : FundingType) : M unit :=
  let! (stake_pool_info, it) := next_account_info accounts in
  let! (manager_info, it) := next_account_info it in
  let new_authority := option_map key (head it) in
  let! stake_pool := load_stake_pool program_id stake_pool_info in
  do! check_manager stake_pool manager_info in
  let stake_pool :=
    match funding_type with
    | FundStakeDeposit =>
        set_stake_deposit_authority
          (default (fst (find_deposit_authority_program_address program_id (key stake_pool_info)))
             new_authority) stake_pool
    | FundSolDeposit => set_sol_deposit_authority new_authority stake_pool
    | FundSolWithdraw => set_sol_withdraw_authority new_authority stake_pool
    end in
  write_data stake_pool_codec stake_pool_info stake_pool.

Definition process_set_preferred_validator (accounts : list AccountInfo)
    (validator_type : PreferredValidatorType) (vote_account_address : option Pubkey) : M unit :=
  let! (stake_pool_info, it) := next_account_info accounts in
  let! (staker_info, it) := next_account_info it in
  let! (validator_list_info, it) := next_account_info it in
  do! check_account_owner stake_pool_info program_id in
  do! check_account_owner validator_list_info program_id in
  let! data := borrow_data stake_pool_info in
  let! stake_pool := lift (try_from_slice_unchecked stake_pool_codec data) in
  do! fail_if_sp (negb (StakePool_is_valid stake_pool)) InvalidState in
  do! check_staker stake_pool staker_info in
  do! check_validator_list stake_pool validator_list_info in
  do! borrow_mut_data validator_list_info in
  let! list_data := held_data validator_list_info in
  let! (header, vec_data) := lift (deserialize_vec list_data) in
  do! fail_if_sp (negb (header_is_valid header)) InvalidState in
  do! match vote_account_address with
      | None => mret tt
      | Some vote =>
          let! maybe_validator_stake_info :=
            lift (find vsi_codec VSI_SIZE (fun x => memcmp_pubkey x vote) vec_data) in
          match maybe_validator_stake_info with
          | Some vsi => fail_if_sp (negb (status vsi =? status_byte Active)) InvalidPreferredValidator
          | None => mfail (into_program_error ValidatorNotFound)
          end
      end in
  let stake_pool :=
    match validator_type with
    | PreferDeposit => set_preferred_deposit_validator_vote_address vote_account_address stake_pool
    | PreferWithdraw => set_preferred_withdraw_validator_vote_address vote_account_address stake_pool
    end in
  write_data stake_pool_codec stake_pool_info stake_pool.
End Admin.

(** ** Specification *)
Inductive AdminCmd : Type :=
| CmdSetManager
| CmdSetFee (fee : FeeType)
| CmdSetMaxValidatorStake (max_stake : option Z)
| CmdSetStaker
| CmdSetFundingAuthority (funding_type : FundingType)
| CmdSetPreferredValidator (validator_type : PreferredValidatorType) (vote : option Pubkey).

Section AdminSpec.
Context `{RT : Runtime}.
Variable program_id : Pubkey.

Definition run_admin (accounts : list AccountInfo) (cmd : AdminCmd) : M unit :=
  match cmd with
  | CmdSetManager => process_set_manager program_id accounts
  | CmdSetFee fee => process_set_fee program_id accounts fee
  | CmdSetMaxValidatorStake m => process_set_max_validator_stake program_id accounts m
  | CmdSetStaker => process_set_staker program_id accounts
  | CmdSetFundingAuthority t => process_set_funding_authority program_id accounts t
  | CmdSetPreferredValidator t v => process_set_preferred_validator program_id accounts t v
  end.

(** The only effect on the ledger: the pool account now holds [p']. *)
Definition only_pool_changed (k : Pubkey) (p' : StakePool) (s s' : RState) : Prop :=
  cpi_log s' = cpi_log s /\ exists d,
    to_writer stake_pool_codec p' (acc_data (account_at (ledger s) k)) = Ok d /\
    ledger s' = <[k := mkAccount (acc_lamports (account_at (ledger s) k)) d
                        (acc_owner (account_at (ledger s) k))]> (ledger s).

(** Who must have signed, as the account at position 1. *)
Definition admin_authority (cmd : AdminCmd) (p : StakePool) (i : AccountInfo) : Prop :=
  is_signer i = true /\
  match cmd with
  | CmdSetManager | CmdSetFee _ | CmdSetMaxValidatorStake _ | CmdSetFundingAuthority _ => key i = manager p
  | CmdSetStaker => key i = staker p \/ key i = manager p
  | CmdSetPreferredValidator _ _ => key i = staker p
  end.

(** The new pool, from the accounts after the second. *)
Definition admin_effect (cmd : AdminCmd) (k : Pubkey) (rest : list AccountInfo) (p p' : StakePool) : Prop :=
  match cmd with
  | CmdSetManager =>
      exists m f rest', rest = m :: f :: rest' /\ is_signer m = true /\
        p' = set_manager_fee_account (key f) (set_manager (key m) p)
  | CmdSetFee fee => check_too_high fee = Ok tt /\ update_fee p fee = Ok p'
  | CmdSetMaxValidatorStake max_stake => p' = set_max_validator_stake max_stake p
  | CmdSetStaker => exists i rest', rest = i :: rest' /\ p' = set_staker (key i) p
  | CmdSetFundingAuthority FundStakeDeposit =>
      p' = set_stake_deposit_authority
             (default (fst (find_deposit_authority_program_address program_id k))
                (option_map key (head rest))) p
  | CmdSetFundingAuthority FundSolDeposit => p' = set_sol_deposit_authority (option_map key (head rest)) p
  | CmdSetFundingAuthority FundSolWithdraw => p' = set_sol_withdraw_authority (option_map key (head rest)) p
  | CmdSetPreferredValidator PreferDeposit vote => p' = set_preferred_deposit_validator_vote_address vote p
  | CmdSetPreferredValidator PreferWithdraw vote => p' = set_preferred_withdraw_validator_vote_address vote p
  end.

Lemma written_only_pool k p' s d :
  to_writer stake_pool_codec p' (acc_data (account_at (ledger s) k)) = Ok d ->
  only_pool_changed k p' s (set_data k d s).
Proof. intros H. split; [done|]. exists d. auto. Qed.

Lemma set_manager_run accounts s r s' :
  process_set_manager program_id accounts s = Ok (r, s') ->
  exists i0 i1 rest p p', accounts = i0 :: i1 :: rest /\ pool_at program_id (ledger s) (key i0) p /\
    admin_authority CmdSetManager p i1 /\ admin_effect CmdSetManager (key i0) rest p p' /\
    only_pool_changed (key i0) p' s s'.
Proof.
  intros H. unfold process_set_manager in H. do 4 mopen H.
  mopen H. apply check_account_owner_Ok in E as [E _]. mopen H. mopen H. mopen H. mopen H.
  mopen H. match goal with H : check_manager _ _ _ = _ |- _ => apply check_manager_Ok in H as [] end.
  mopen H. mopen H. minv_leaf H.
  repeat match goal with H : negb _ = false |- _ => apply negb_false_iff in H end.
  eexists _, _, _, _, _. split; [reflexivity|]. split; [by repeat split|]. split; [done|].
  split; [|by apply written_only_pool]. by eexists _, _, _.
Qed.

Lemma set_fee_run accounts fee s r s' :
  process_set_fee program_id accounts fee s = Ok (r, s') ->
  exists i0 i1 rest p p', accounts = i0 :: i1 :: rest /\ pool_at program_id (ledger s) (key i0) p /\
    admin_authority (CmdSetFee fee) p i1 /\ admin_effect (CmdSetFee fee) (key i0) rest p p' /\
    only_pool_changed (key i0) p' s s'.
Proof.
  intros H. unfold process_set_fee in H. do 3 mopen H.
  mopen H. apply load_stake_pool_Ok in E0 as (E0 & _).
  mopen H. match goal with H : check_manager _ _ _ = _ |- _ => apply check_manager_Ok in H as [] end.
  do 3 mopen H. minv_leaf H.
  eexists _, _, _, _, _. split; [reflexivity|]. split; [done|]. split; [done|].
  split; [|by apply written_only_pool]. done.
Qed.

Lemma set_max_run accounts m s r s' :
  process_set_max_validator_stake program_id accounts m s = Ok (r, s') ->
  exists i0 i1 rest p p', accounts = i0 :: i1 :: rest /\ pool_at program_id (ledger s) (key i0) p /\
    admin_authority (CmdSetMaxValidatorStake m) p i1 /\
    admin_effect (CmdSetMaxValidatorStake m) (key i0) rest p p' /\
    only_pool_changed (key i0) p' s s'.
Proof.
  intros H. unfold process_set_max_validator_stake in H. do 2 mopen H.
  mopen H. apply load_stake_pool_Ok in E as (E & _).
  mopen H. match goal with H : check_manager _ _ _ = _ |- _ => apply check_manager_Ok in H as [] end.
  minv_leaf H. eexists _, _, _, _, _. split; [reflexivity|]. split; [done|]. split; [done|].
  split; [|by apply written_only_pool]. done.
Qed.

Lemma set_staker_run accounts s r s' :
  process_set_staker program_id accounts s = Ok (r, s') ->
  exists i0 i1 rest p p', accounts = i0 :: i1 :: rest /\ pool_at program_id (ledger s) (key i0) p /\
    admin_authority CmdSetStaker p i1 /\ admin_effect CmdSetStaker (key i0) rest p p' /\
    only_pool_changed (key i0) p' s s'.
Proof.
  intros H. unfold process_set_staker in H. do 3 mopen H.
  mopen H. apply load_stake_pool_Ok in E as (E & _).
  mopen H. apply check_fails_Ok in E0 as [_ Hs]; [|apply _].
  mopen H. apply check_fails_Ok in E0 as [_ Hm]; [|apply _].
  mopen H. minv_leaf H. eexists _, _, _, _, _. split; [reflexivity|]. split; [done|].
  split; [|split; [by eexists _, _|by apply written_only_pool]].
  apply andb_false_iff in E0 as [-> | ->].
  - destruct (Hs eq_refl) as [? [??]%check_staker_Ok]. split; auto.
  - destruct (Hm eq_refl) as [? [??]%check_manager_Ok]. split; auto.
Qed.

Lemma set_funding_run accounts t s r s' :
  process_set_funding_authority program_id accounts t s = Ok (r, s') ->
  exists i0 i1 rest p p', accounts = i0 :: i1 :: rest /\ pool_at program_id (ledger s) (key i0) p /\
    admin_authority (CmdSetFundingAuthority t) p i1 /\
    admin_effect (CmdSetFundingAuthority t) (key i0) rest p p' /\
    only_pool_changed (key i0) p' s s'.
Proof.
  intros H. unfold process_set_funding_authority in H. do 2 mopen H. cbv zeta in H.
  mopen H. apply load_stake_pool_Ok in E as (E & _).
  mopen H. match goal with H : check_manager _ _ _ = _ |- _ => apply check_manager_Ok in H as [] end.
  minv_leaf H. eexists _, _, _, _, _. split; [reflexivity|]. split; [done|]. split; [done|].
  split; [|by apply written_only_pool]. by destruct t.
Qed.

Lemma set_preferred_run accounts t v s r s' :
  process_set_preferred_validator program_id accounts t v s = Ok (r, s') ->
  exists i0 i1 rest p p', accounts = i0 :: i1 :: rest /\ pool_at program_id (ledger s) (key i0) p /\
    admin_authority (CmdSetPreferredValidator t v) p i1 /\
    admin_effect (CmdSetPreferredValidator t v) (key i0) rest p p' /\
    only_pool_changed (key i0) p' s s'.
Proof.
  intros H. unfold process_set_preferred_validator in H. do 3 mopen H.
  mopen H. apply check_account_owner_Ok in E as [E _]. do 4 mopen H.
  mopen H. match goal with H : check_staker _ _ _ = _ |- _ => apply check_staker_Ok in H as [] end.
  do 6 mopen H.
  minv_leaf H. repeat match goal with H : negb _ = false |- _ => apply negb_false_iff in H end.
  eexists _, _, _, _, _. split; [reflexivity|]. split; [by repeat split|]. split; [done|].
  split; [|split; [done | by exists d]]. by destruct t.
Qed.

(** C29: every administrative instruction that succeeds was signed by the authority
    the pool names (the manager; for [SetStaker] the manager or the staker; for
    [SetPreferredValidator] the staker; for [SetManager] also the new manager), it
    invokes nothing, and its only effect on the ledger is that the pool account
    holds the pool with the fields of that instruction changed. *)
Theorem admin_authorized accounts cmd s r s' :
  run_admin accounts cmd s = Ok (r, s') ->
  exists i0 i1 rest p p', accounts = i0 :: i1 :: rest /\ pool_at program_id (ledger s) (key i0) p /\
    admin_authority cmd p i1 /\ admin_effect cmd (key i0) rest p p' /\
    only_pool_changed (key i0) p' s s'.
Proof.
  destruct cmd; simpl run_admin.
  - apply set_manager_run.
  - apply set_fee_run.
  - apply set_max_run.
  - apply set_staker_run.
  - apply set_funding_run.
  - apply set_preferred_run.
Qed.
End AdminSpec.

(** The manager of the concrete pool sets a SOL deposit authority. *)
Definition toy_admin_accounts : list AccountInfo := [plain toy_pool_key; signer toy_manager; plain 5].
Definition toy_admin_cmd : AdminCmd := CmdSetFundingAuthority FundSolDeposit.
Definition toy_admin_run : outcome (unit * RState) :=
  run_admin (RT := toy) toy_program toy_admin_accounts toy_admin_cmd toy_state.

Lemma admin_authorized_witness :
  is_ok toy_admin_run = true /\
  exists i0 i1 rest p p', toy_admin_accounts = i0 :: i1 :: rest /\
    pool_at (RT := toy) toy_program (ledger toy_state) (key i0) p /\
    admin_authority toy_admin_cmd p i1 /\
    admin_effect (RT := toy) toy_program toy_admin_cmd (key i0) rest p p' /\
    only_pool_changed (RT := toy) (key i0) p' toy_state (final toy_state toy_admin_run).
Proof.
  assert (H : is_ok toy_admin_run = true) by (vm_compute; reflexivity).
  split; [exact H|]. exact (admin_authorized (RT := toy) toy_program _ _ _ _ _ (ran toy_state _ H)).
Defined.
