(* ===== verification/Funds.v ===== *)
(** * SOL deposits and withdrawals (program/src/processor.rs)
    [DepositSol] and [WithdrawSol]: the split of the pool tokens between the user,
    the manager and the referrer, the invocations in order, and the pool account
    afterwards. *)
From S2P Require Import Prelude Error Fees State PoolMath Borsh Layout Runtime Checks Concrete.

(** [if let Some(minimum) = minimum { if amount < minimum { .. } }]. *)
Definition below_minimum (amount : Z) (minimum : option Z) : bool :=
  match minimum with Some m => amount <? m | None => false end.

(** The pool tokens of a deposit and where they go. *)
Record DepositTokens := mkDepositTokens {
  tokens_new : Z; tokens_user : Z; tokens_manager : Z; tokens_referral : Z
}.

(** The checks on the split that both deposit handlers end with. *)
Definition checked_split (d : DepositTokens) (minimum_pool_tokens_out : option Z) : outcome DepositTokens :=
  if negb (saturating_add 64 (saturating_add 64 (tokens_user d) (tokens_manager d)) (tokens_referral d)
           =? tokens_new d) then fail_with CalculationFailure else
  if tokens_user d =? 0 then fail_with DepositTooSmall else
  if below_minimum (tokens_user d) minimum_pool_tokens_out then fail_with ExceededSlippage else
  Ok d.

Definition deposit_sol_tokens (stake_pool : StakePool) (deposit_lamports : Z)
    (minimum_pool_tokens_out : option Z) : outcome DepositTokens :=
  let* new_pool_tokens :=
    ok_or_sp (calc_pool_tokens_for_deposit stake_pool deposit_lamports) CalculationFailure in
  let* pool_tokens_sol_deposit_fee :=
    ok_or_sp (calc_pool_tokens_sol_deposit_fee stake_pool new_pool_tokens) CalculationFailure in
  let* pool_tokens_user :=
    ok_or_sp (checked_sub 64 new_pool_tokens pool_tokens_sol_deposit_fee) CalculationFailure in
  let* pool_tokens_referral_fee :=
    ok_or_sp (calc_pool_tokens_sol_referral_fee stake_pool pool_tokens_sol_deposit_fee) CalculationFailure in
  let* pool_tokens_manager_deposit_fee :=
    ok_or_sp (checked_sub 64 pool_tokens_sol_deposit_fee pool_tokens_referral_fee) CalculationFailure in
  checked_split
    (mkDepositTokens new_pool_tokens pool_tokens_user pool_tokens_manager_deposit_fee pool_tokens_referral_fee)
    minimum_pool_tokens_out.

Section Funds.
Context `{RT : Runtime}.
Variable program_id : Pubkey.

(** The mints of a deposit: the user, then the manager and the referrer when their
    share is positive. *)
Definition mint_deposit_tokens (stake_pool : Pubkey)
    (token_program pool_mint dest_user manager_fee referrer_fee withdraw_authority : AccountInfo)
    (bump_seed : Z) (d : DepositTokens) : M unit :=
  let mint_to dest amount :=
    token_mint_to stake_pool token_program pool_mint dest withdraw_authority AUTHORITY_WITHDRAW bump_seed amount in
  do! mint_to dest_user (tokens_user d) in
  do! mwhen (0 <? tokens_manager d) (mint_to manager_fee (tokens_manager d)) in
  mwhen (0 <? tokens_referral d) (mint_to referrer_fee (tokens_referral d)).

(** [pool_token_supply += tokens; total_lamports += lamports], checked. *)
Definition credit_pool (stake_pool : StakePool) (lamports tokens : Z) : M StakePool :=
  let! supply := get_or (checked_add 64 (pool_token_supply stake_pool) tokens) CalculationFailure in
  let stake_pool := set_pool_token_supply supply stake_pool in
  let! total := get_or (checked_add 64 (total_lamports stake_pool) lamports) CalculationFailure in
  mret (set_total_lamports total stake_pool).

Definition debit_pool (stake_pool : StakePool) (lamports tokens : Z) : M StakePool :=
  let! supply := get_or (checked_sub 64 (pool_token_supply stake_pool) tokens) CalculationFailure in
  let stake_pool := set_pool_token_supply supply stake_pool in
  let! total := get_or (checked_sub 64 (total_lamports stake_pool) lamports) CalculationFailure in
  mret (set_total_lamports total stake_pool).

Definition process_deposit_sol (accounts : list AccountInfo) (deposit_lamports : Z)
    (minimum_pool_tokens_out : option Z) : M unit :=
  let! (stake_pool_info, it) := next_account_info accounts in
  let! (withdraw_authority_info, it) := next_account_info it in
  let! (reserve_stake_account_info, it) := next_account_info it in
  let! (from_user_lamports_info, it) := next_account_info it in
  let! (dest_user_pool_info, it) := next_account_info it in
  let! (manager_fee_info, it) := next_account_info it in
  let! (referrer_fee_info, it) := next_account_info it in
  let! (pool_mint_info, it) := next_account_info it in
  let! (system_program_info, it) := next_account_info it in
  let! (token_program_info, it) := next_account_info it in
  let sol_deposit_authority_info := head it in
  let! clock := lift Clock_get in
  let! stake_pool := load_stake_pool program_id stake_pool_info in
  do! check_authority_withdraw stake_pool (key withdraw_authority_info) program_id (key stake_pool_info) in
  do! check_sol_deposit_authority stake_pool sol_deposit_authority_info in
  let! _ := check_mint stake_pool pool_mint_info in
  do! check_reserve_stake stake_pool reserve_stake_account_info in
  do! fail_if (negb (key_eqb (token_program_id stake_pool) (key token_program_info))) IncorrectProgramId in
  do! check_system_program (key system_program_info) in
  do! fail_if_sp (negb (key_eqb (manager_fee_account stake_pool) (key manager_fee_info))) InvalidFeeAccount in
  do! fail_if_sp (last_update_epoch stake_pool <? epoch clock) StakeListAndPoolOutOfDate in
  let! d := lift (deposit_sol_tokens stake_pool deposit_lamports minimum_pool_tokens_out) in
  do! sol_transfer from_user_lamports_info reserve_stake_account_info deposit_lamports in
  do! mint_deposit_tokens (key stake_pool_info) token_program_info pool_mint_info dest_user_pool_info
        manager_fee_info referrer_fee_info withdraw_authority_info (stake_withdraw_bump_seed stake_pool) d in
  let! stake_pool := credit_pool stake_pool deposit_lamports (tokens_new d) in
  write_data stake_pool_codec stake_pool_info stake_pool.

(** The fee of a withdrawal; none when the fee account is the one burnt from or is
    no longer able to receive tokens. *)
Definition withdrawal_fee_tokens (stake_pool : StakePool) (manager_fee_info burn_from_pool_info : AccountInfo)
    (calc : StakePool -> Z -> option Z) (pool_tokens : Z) : M Z :=
  if key_eqb (manager_fee_account stake_pool) (key burn_from_pool_info) then mret 0 else
  let! bad := check_fails (check_manager_fee_info stake_pool manager_fee_info) in
  if bad then mret 0 else get_or (calc stake_pool pool_tokens) CalculationFailure.

(** The reserve must keep its minimum after the withdrawal. *)
Definition check_reserve_after (reserve_stake_info : AccountInfo) (withdraw_lamports : Z) : M unit :=
  let! reserve_lamports := lamports_of reserve_stake_info in
  let new_reserve_lamports := saturating_sub reserve_lamports withdraw_lamports in
  let! data := borrow_data reserve_stake_info in
  let! stake_state := lift (unpack_stake_state data) in
  match stake_state with
  | StakeInitialized meta =>
      fail_if_sp (new_reserve_lamports <? minimum_reserve_lamports meta) SolWithdrawalTooLarge
  | _ => mfail (into_program_error WrongStakeStake)
  end.

Definition process_withdraw_sol (accounts : list AccountInfo) (pool_tokens : Z)
    (minimum_lamports_out : option Z) : M unit :=
  let! (stake_pool_info, it) := next_account_info accounts in
  let! (withdraw_authority_info, it) := next_account_info it in
  let! (user_transfer_authority_info, it) := next_account_info it in
  let! (burn_from_pool_info, it) := next_account_info it in
  let! (reserve_stake_info, it) := next_account_info it in
  let! (destination_lamports_info, it) := next_account_info it in
  let! (manager_fee_info, it) := next_account_info it in
  let! (pool_mint_info, it) := next_account_info it in
  let! (clock_info, it) := next_account_info it in
  let! (stake_history_info, it) := next_account_info it in
  let! (stake_program_info, it) := next_account_info it in
  let! (token_program_info, it) := next_account_info it in
  let sol_withdraw_authority_info := head it in
  let! stake_pool := load_stake_pool program_id stake_pool_info in
  do! check_authority_withdraw stake_pool (key withdraw_authority_info) program_id (key stake_pool_info) in
  do! check_sol_withdraw_authority stake_pool sol_withdraw_authority_info in
  let! decimals := check_mint stake_pool pool_mint_info in
  do! check_reserve_stake stake_pool reserve_stake_info in
  do! fail_if (negb (key_eqb (token_program_id stake_pool) (key token_program_info))) IncorrectProgramId in
  do! check_stake_program (key stake_program_info) in
  do! fail_if_sp (negb (key_eqb (manager_fee_account stake_pool) (key manager_fee_info))) InvalidFeeAccount in
  let! clock := lift Clock_get in
  do! fail_if_sp (last_update_epoch stake_pool <? epoch clock) StakeListAndPoolOutOfDate in
  let! pool_tokens_fee := withdrawal_fee_tokens stake_pool manager_fee_info burn_from_pool_info
                            calc_pool_tokens_sol_withdrawal_fee pool_tokens in
  let! pool_tokens_burnt := get_or (checked_sub 64 pool_tokens pool_tokens_fee) CalculationFailure in
  let! withdraw_lamports := get_or (calc_lamports_withdraw_amount stake_pool pool_tokens_burnt) CalculationFailure in
  do! fail_if_sp (withdraw_lamports =? 0) WithdrawalTooSmall in
  do! fail_if_sp (below_minimum withdraw_lamports minimum_lamports_out) ExceededSlippage in
  do! check_reserve_after reserve_stake_info withdraw_lamports in
  do! token_burn token_program_info burn_from_pool_info pool_mint_info user_transfer_authority_info
        pool_tokens_burnt in
  do! mwhen (0 <? pool_tokens_fee)
        (token_transfer token_program_info burn_from_pool_info pool_mint_info manager_fee_info
           user_transfer_authority_info pool_tokens_fee decimals) in
  do! stake_withdraw (key stake_pool_info) reserve_stake_info withdraw_authority_info AUTHORITY_WITHDRAW
        (stake_withdraw_bump_seed stake_pool) destination_lamports_info clock_info stake_history_info
        withdraw_lamports in
  let! stake_pool := debit_pool stake_pool withdraw_lamports pool_tokens_burnt in
  write_data stake_pool_codec stake_pool_info stake_pool.
End Funds.

(** ** The split of a deposit *)
Lemma checked_split_Ok d m d' :
  checked_split d m = Ok d' -> d' = d /\ tokens_user d <> 0 /\ below_minimum (tokens_user d) m = false.
Proof.
  unfold checked_split. destruct (negb _); [done|]. destruct (Z.eqb_spec (tokens_user d) 0); [done|].
  destruct (below_minimum _ _); [done|]. by intros [= <-].
Qed.

(** What the three parts of a split add up to. *)
Definition split_ok (d : DepositTokens) : Prop :=
  tokens_user d + tokens_manager d + tokens_referral d = tokens_new d /\
  0 < tokens_user d /\ 0 <= tokens_manager d /\ in_range 64 (tokens_referral d).

Lemma fit_option_range {A} (o : option A) (f : A -> Z) r :
  match o with Some a => fit 64 (f a) | None => None end = Some r -> in_range 64 r.
Proof. destruct o; [|done]. intros H. checked_inv. done. Qed.

Lemma referral_range p fee r : calc_pool_tokens_sol_referral_fee p fee = Some r -> in_range 64 r.
Proof.
  unfold calc_pool_tokens_sol_referral_fee. destruct (checked_mul _ _ _); [|done].
  apply (fit_option_range _ id).
Qed.

Lemma deposit_sol_tokens_Ok p x m d :
  deposit_sol_tokens p x m = Ok d ->
  calc_pool_tokens_for_deposit p x = Some (tokens_new d) /\ split_ok d /\
  below_minimum (tokens_user d) m = false /\
  calc_pool_tokens_sol_deposit_fee p (tokens_new d) = Some (tokens_manager d + tokens_referral d).
Proof.
  unfold deposit_sol_tokens. intros H.
  apply obind_Ok in H as (n & Hn%ok_or_sp_Ok & H). apply obind_Ok in H as (f & Hf%ok_or_sp_Ok & H).
  apply obind_Ok in H as (u & Hu%ok_or_sp_Ok & H). apply obind_Ok in H as (rf & Hr%ok_or_sp_Ok & H).
  apply obind_Ok in H as (mg & Hm%ok_or_sp_Ok & H). apply checked_split_Ok in H as (-> & H0 & Hb).
  apply referral_range in Hr. checked_inv. simpl in *. unfold split_ok. simpl.
  unfold in_range in *. repeat split; try done; try lia. rewrite Hf. f_equal. lia.
Qed.

(** The referrer's part of the fee. *)
Lemma deposit_sol_tokens_referral p x m d :
  deposit_sol_tokens p x m = Ok d ->
  calc_pool_tokens_sol_referral_fee p (tokens_manager d + tokens_referral d) = Some (tokens_referral d).
Proof.
  unfold deposit_sol_tokens. intros H.
  apply obind_Ok in H as (n & _ & H). apply obind_Ok in H as (f & _ & H). apply obind_Ok in H as (u & _ & H).
  apply obind_Ok in H as (rf & Hr%ok_or_sp_Ok & H). apply obind_Ok in H as (mg & Hm%ok_or_sp_Ok & H).
  apply checked_split_Ok in H as (-> & _). checked_inv. cbn [tokens_manager tokens_referral].
  rewrite <- Hr. f_equal. lia.
Qed.

(** ** Runs of the handlers *)
Section FundsRuns.
Context `{RT : Runtime}.
Variable program_id : Pubkey.

Lemma credit_pool_Ok p l t s p' s' :
  credit_pool p l t s = Ok (p', s') ->
  p' = credited p l t /\ in_range 64 (pool_token_supply p + t) /\ in_range 64 (total_lamports p + l) /\ s' = s.
Proof. intros H. unfold credit_pool in H. do 2 mopen H. minv_leaf H. checked_inv. done. Qed.

Lemma debit_pool_Ok p l t s p' s' :
  debit_pool p l t s = Ok (p', s') ->
  p' = debited p l t /\ in_range 64 (pool_token_supply p - t) /\ in_range 64 (total_lamports p - l) /\ s' = s.
Proof. intros H. unfold debit_pool in H. do 2 mopen H. minv_leaf H. checked_inv. done. Qed.

(** The mints of a deposit, as a list of invocations. *)
Definition deposit_mints (tp mint user fee referrer auth : Pubkey) (d : DepositTokens) : list Cpi :=
  TokenMintTo tp mint user auth (tokens_user d) ::
  when (0 <? tokens_manager d) (TokenMintTo tp mint fee auth (tokens_manager d)) ++
  when (0 <? tokens_referral d) (TokenMintTo tp mint referrer auth (tokens_referral d)).

Lemma mint_deposit_tokens_invokes k tp mi us fe re au b d s r s' :
  mint_deposit_tokens k tp mi us fe re au b d s = Ok (r, s') ->
  invokes s (deposit_mints (key tp) (key mi) (key us) (key fe) (key re) (key au) d) s'.
Proof.
  unfold mint_deposit_tokens. cbv zeta. intros H. mopen H. to_invokes E. mopen H. to_invokes E0. to_invokes H.
  exact (invokes_app _ [_] _ _ _ E (invokes_app _ _ _ _ _ E0 H)).
Qed.

Lemma deposit_mints_minted tp mint us fe re au d :
  split_ok d -> tokens_minted mint (deposit_mints tp mint us fe re au d) = tokens_new d.
Proof.
  intros (Hs & H0 & H1 & H2). unfold deposit_mints. unfold in_range in H2.
  change (?a :: ?l) with ([a] ++ l). rewrite !tokens_minted_app, !tokens_minted_when_mint by lia.
  simpl. rewrite key_eqb_refl. lia.
Qed.

Lemma deposit_sol_run accounts x m s r s' :
  process_deposit_sol program_id accounts x m s = Ok (r, s') ->
  exists pool auth reserve from user fee referrer mint sys tok rest clock p d s1 data,
    accounts = pool :: auth :: reserve :: from :: user :: fee :: referrer :: mint :: sys :: tok :: rest /\
    pool_at program_id (ledger s) (key pool) p /\
    Clock_get = Ok clock /\ (last_update_epoch p <? epoch clock) = false /\
    key reserve = reserve_stake p /\ key mint = pool_mint p /\
    key tok = token_program_id p /\ key fee = manager_fee_account p /\
    (forall k, sol_deposit_authority p = Some k -> exists i, head rest = Some i /\ key i = k /\ is_signer i = true) /\
    deposit_sol_tokens p x m = Ok d /\
    invokes s (SystemTransfer (key from) (key reserve) x ::
               deposit_mints (key tok) (key mint) (key user) (key fee) (key referrer) (key auth) d) s1 /\
    in_range 64 (total_lamports p + x) /\ in_range 64 (pool_token_supply p + tokens_new d) /\
    to_writer stake_pool_codec (credited p x (tokens_new d)) (acc_data (account_at (ledger s1) (key pool))) = Ok data /\
    s' = set_data (key pool) data s1.
Proof.
  intros H. unfold process_deposit_sol in H. do 10 mopen H. cbv zeta in H.
  do 2 mopen H. match goal with H : load_stake_pool _ _ _ = _ |- _ => apply load_stake_pool_Ok in H as (Hp & _) end.
  mopen H. mopen H. mopen H. mopen H. mopen H. mopen H. mopen H. mopen H. mopen H.
  mopen H. match goal with H : sol_transfer _ _ _ _ = _ |- _ => to_invokes H; rename H into Hi1 end.
  mopen H. match goal with H : mint_deposit_tokens _ _ _ _ _ _ _ _ _ _ = _ |- _ =>
    apply mint_deposit_tokens_invokes in H; rename H into Hi2 end.
  mopen H. match goal with H : credit_pool _ _ _ _ = _ |- _ => apply credit_pool_Ok in H as (-> & Hr1 & Hr2 & _) end.
  minv_leaf H.
  repeat match goal with
  | H : negb (key_eqb _ _) = false |- _ => apply negb_key_eqb in H
  | H : check_reserve_stake _ _ _ = _ |- _ => apply check_reserve_stake_Ok in H
  | H : check_mint _ _ _ = _ |- _ => apply check_mint_Ok in H
  end.
  match goal with H : check_sol_deposit_authority _ _ _ = _ |- _ =>
    pose proof (check_sol_authority_Ok _ _ _ _ _ _ H) as Hauth; clear H end.
  eexists _, _, _, _, _, _, _, _, _, _, _, _, _, _, _, _.
  split; [reflexivity|]. split; [exact Hp|]. split; [eassumption|].
  split; [assumption|]. do 4 (split; [congruence|]). split; [exact Hauth|]. split; [eassumption|].
  split; [exact (invokes_app _ [_] _ _ _ Hi1 Hi2)|]. do 2 (split; [assumption|]). split; [eassumption|]. done.
Qed.
End FundsRuns.

Section WithdrawRun.
Context `{RT : Runtime}.
Variable program_id : Pubkey.

Lemma withdrawal_fee_tokens_Ok p fi bi calc n s f s' :
  withdrawal_fee_tokens p fi bi calc n s = Ok (f, s') ->
  s' = s /\ (f = 0 \/ (calc p n = Some f /\ manager_fee_account p <> key bi)).
Proof.
  unfold withdrawal_fee_tokens. destruct (key_eqb _ _) eqn:E.
  { intros [-> ->]%mret_Ok. auto. }
  intros H. mopen H. destruct a; minv_leaf H; auto.
  split; [done|]. right. split; [done|]. intros E'. rewrite E', key_eqb_refl in E. done.
Qed.

Lemma check_reserve_after_Ok i n s r s' :
  check_reserve_after i n s = Ok (r, s') ->
  s' = s /\ exists meta,
    unpack_stake_state (acc_data (account_at (ledger s) (key i))) = Ok (StakeInitialized meta) /\
    minimum_reserve_lamports meta <= saturating_sub (acc_lamports (account_at (ledger s) (key i))) n.
Proof.
  unfold check_reserve_after. intros H. do 3 mopen H.
  match goal with st : StakeStateV2 |- _ => destruct st as [|meta|meta d|]; minv_leaf H end.
  split; [done|]. exists meta.
  split; [assumption|]. lia.
Qed.

(** The invocations of a withdrawal of SOL. *)
Definition withdraw_sol_invocations (tp burn mint user fee reserve auth dest : Pubkey)
    (burnt fee_tokens lamports decimals : Z) : list Cpi :=
  TokenBurn tp burn mint user burnt ::
  when (0 <? fee_tokens) (TokenTransferChecked tp burn mint fee user fee_tokens decimals) ++
  [StakeWithdraw reserve auth dest lamports].

Lemma withdraw_sol_minted tp burn mint user fee reserve auth dest burnt ft lam dec :
  tokens_minted mint (withdraw_sol_invocations tp burn mint user fee reserve auth dest burnt ft lam dec) = - burnt.
Proof.
  unfold withdraw_sol_invocations. change (?a :: ?l) with ([a] ++ l).
  rewrite !tokens_minted_app, tokens_minted_when_other. simpl. rewrite key_eqb_refl. lia.
Qed.

Lemma withdraw_sol_run accounts n m s r s' :
  process_withdraw_sol program_id accounts n m s = Ok (r, s') ->
  exists pool auth user burn reserve dest fee mint rest clock p f l dec tp s1 data meta,
    accounts = pool :: auth :: user :: burn :: reserve :: dest :: fee :: mint :: rest /\
    pool_at program_id (ledger s) (key pool) p /\
    Clock_get = Ok clock /\ (last_update_epoch p <? epoch clock) = false /\
    key reserve = reserve_stake p /\ key mint = pool_mint p /\ tp = token_program_id p /\
    key fee = manager_fee_account p /\
    (forall k, sol_withdraw_authority p = Some k -> exists i, In i rest /\ key i = k /\ is_signer i = true) /\
    (f = 0 \/ calc_pool_tokens_sol_withdrawal_fee p n = Some f) /\ in_range 64 (n - f) /\
    calc_lamports_withdraw_amount p (n - f) = Some l /\ l <> 0 /\ below_minimum l m = false /\
    unpack_stake_state (acc_data (account_at (ledger s) (key reserve))) = Ok (StakeInitialized meta) /\
    minimum_reserve_lamports meta <= saturating_sub (acc_lamports (account_at (ledger s) (key reserve))) l /\
    invokes s (withdraw_sol_invocations tp (key burn) (key mint) (key user) (key fee) (key reserve)
                 (key auth) (key dest) (n - f) f l dec) s1 /\
    in_range 64 (total_lamports p - l) /\ in_range 64 (pool_token_supply p - (n - f)) /\
    to_writer stake_pool_codec (debited p l (n - f)) (acc_data (account_at (ledger s1) (key pool))) = Ok data /\
    s' = set_data (key pool) data s1.
Proof.
  intros H. unfold process_withdraw_sol in H. do 12 mopen H. cbv zeta in H.
  mopen H. match goal with H : load_stake_pool _ _ _ = _ |- _ => apply load_stake_pool_Ok in H as (Hp & _) end.
  do 9 mopen H.
  mopen H. match goal with H : withdrawal_fee_tokens _ _ _ _ _ _ = _ |- _ => apply withdrawal_fee_tokens_Ok in H as [_ Hf] end.
  do 4 mopen H.
  mopen H. match goal with H : check_reserve_after _ _ _ = _ |- _ => apply check_reserve_after_Ok in H as (-> & meta & Hm1 & Hm2) end.
  mopen H. match goal with H : token_burn _ _ _ _ _ _ = _ |- _ => to_invokes H; rename H into Hi1 end.
  mopen H. match goal with H : mwhen _ _ _ = _ |- _ => to_invokes H; rename H into Hi2 end.
  mopen H. match goal with H : stake_withdraw _ _ _ _ _ _ _ _ _ _ = _ |- _ => to_invokes H; rename H into Hi3 end.
  mopen H. match goal with H : debit_pool _ _ _ _ = _ |- _ => apply debit_pool_Ok in H as (-> & Hr1 & Hr2 & _) end.
  minv_leaf H. checked_inv.
  repeat match goal with
  | H : negb (key_eqb _ _) = false |- _ => apply negb_key_eqb in H
  | H : (_ =? _) = false |- _ => apply Z.eqb_neq in H
  | H : check_reserve_stake _ _ _ = _ |- _ => apply check_reserve_stake_Ok in H
  | H : check_mint _ _ _ = _ |- _ => apply check_mint_Ok in H
  end.
  match goal with H : check_sol_withdraw_authority _ _ _ = _ |- _ =>
    pose proof (check_sol_authority_Ok _ _ _ _ _ _ H) as Hauth; clear H end.
  eexists _, _, _, _, _, _, _, _, _, _, _, _, _, _, _, _, _, meta.
  split; [reflexivity|]. split; [exact Hp|]. split; [eassumption|].
  split; [assumption|]. do 2 (split; [congruence|]). split; [reflexivity|]. split; [congruence|].
  split.
  { intros k Hk. destruct (Hauth k Hk) as (i & Hi & ?). exists i. split; [|done].
    match type of Hi with head ?it = _ => destruct it as [|j it'] end; simpl in Hi; [done|].
    injection Hi as ->. do 4 right. by left. }
  split; [destruct Hf as [? | [? _]]; [left | right]; eassumption|].
  do 4 (split; [eassumption|]). split; [exact Hm1|]. split; [exact Hm2|].
  split; [|do 2 (split; [assumption|]); split; [eassumption|done]].
  unfold withdraw_sol_invocations.
  match goal with H : token_program_id _ = key _ |- _ => rewrite H end.
  exact (invokes_app _ [_] _ _ _ Hi1 (invokes_app _ _ _ _ _ Hi2 Hi3)).
Qed.
End WithdrawRun.

(** ** Properties *)
Section FundsProperties.
Context `{RT : Runtime}.
Variable program_id : Pubkey.

(** C4: a successful [DepositSol] invokes exactly this: the transfer of the deposited
    lamports from the depositor into the reserve, and the mints of the user's part to the
    account given for the user, of the manager's to the fee account and of the
    referrer's to the account given for the referrer. The parts are those of the tokens
    [calc_pool_tokens_for_deposit] grants: the SOL deposit fee is what the user does not
    get, its referral fee is the referrer's, the user's part is positive and at least
    the requested minimum. The pool is stored with both totals raised by the lamports
    and the tokens, and the value of a token does not drop. *)
Theorem deposit_sol_correct accounts x m s r s' :
  process_deposit_sol program_id accounts x m s = Ok (r, s') -> wf_ledger (ledger s) -> 0 <= x ->
  exists pool auth reserve from user fee referrer rest p d,
    accounts = pool :: auth :: reserve :: from :: user :: fee :: referrer :: rest /\
    pool_at program_id (ledger s) (key pool) p /\
    stored_pool s' (key pool) = Ok (credited p x (tokens_new d)) /\
    cpi_log s' = cpi_log s ++
      SystemTransfer (key from) (reserve_stake p) x ::
      deposit_mints (token_program_id p) (pool_mint p) (key user) (manager_fee_account p) (key referrer) (key auth) d /\
    deposit_sol_tokens p x m = Ok d /\
    calc_pool_tokens_for_deposit p x = Some (tokens_new d) /\
    calc_pool_tokens_sol_deposit_fee p (tokens_new d) = Some (tokens_manager d + tokens_referral d) /\
    calc_pool_tokens_sol_referral_fee p (tokens_manager d + tokens_referral d) = Some (tokens_referral d) /\
    split_ok d /\ below_minimum (tokens_user d) m = false /\
    ((pool_token_supply p = 0 -> total_lamports p = 0) ->
     share_value_le p (credited p x (tokens_new d))).
Proof.
  intros H Hb Hx. apply deposit_sol_run in H
    as (pool & auth & reserve & from & user & fee & referrer & mint & sys & tok & rest & clock & p & d & s1 &
        data & -> & Hp & _ & _ & Hres & Hmint & Htok & Hfee & _ & Hd & Hi & HT & HS & Hw & ->).
  pose proof (deposit_sol_tokens_Ok _ _ _ _ Hd) as (Hc & Hsp & Hmin & Hdf).
  pose proof (pool_at_wf _ _ _ _ Hb Hp) as Hwf.
  apply invokes_log in Hi as [Hlog _]. rewrite Hres, Htok, Hmint, Hfee in Hlog.
  exists pool, auth, reserve, from, user, fee, referrer, (mint :: sys :: tok :: rest), p, d.
  split; [done|]. split; [exact Hp|].
  split; [apply stored_after_write; [by apply wf_set_amounts | exact Hw]|].
  split; [exact Hlog|]. do 3 (split; [assumption|]). split; [by eapply deposit_sol_tokens_referral|].
  do 2 (split; [assumption|]). intros He. eapply credited_share_le; try done. by apply wf_pool_amounts.
Qed.

(** C5: a successful [WithdrawSol] burns the tokens less the manager's fee, pays out
    exactly [calc_lamports_withdraw_amount] of the burnt tokens (positive, and at
    least the requested minimum), leaves the reserve at its minimum or above, and
    stores the pool with both totals lowered by these amounts; the value of a token
    does not drop. *)
Theorem withdraw_sol_correct accounts n m s r s' :
  process_withdraw_sol program_id accounts n m s = Ok (r, s') -> wf_ledger (ledger s) ->
  exists k p fee l ixs auth dest meta,
    option_map key (list.head accounts) = Some k /\ pool_at program_id (ledger s) k p /\
    stored_pool s' k = Ok (debited p l (n - fee)) /\
    cpi_log s' = cpi_log s ++ ixs /\ list.last ixs = Some (StakeWithdraw (reserve_stake p) auth dest l) /\
    tokens_minted (pool_mint p) ixs = - (n - fee) /\
    (fee = 0 \/ calc_pool_tokens_sol_withdrawal_fee p n = Some fee) /\
    calc_lamports_withdraw_amount p (n - fee) = Some l /\ 0 < l /\ below_minimum l m = false /\
    unpack_stake_state (acc_data (account_at (ledger s) (reserve_stake p))) = Ok (StakeInitialized meta) /\
    minimum_reserve_lamports meta <=
      saturating_sub (acc_lamports (account_at (ledger s) (reserve_stake p))) l /\
    share_value_le p (debited p l (n - fee)).
Proof.
  intros H Hb. apply withdraw_sol_run in H
    as (pool & auth & user & burn & reserve & dest & fee & mint & rest & clock & p & f & l & dec & tp & s1 &
        data & meta & -> & Hp & _ & _ & Hres & Hmint & _ & _ & _ & Hf & Hr & Hc & Hl & Hmin & Hst & Hm & Hi &
        HT & HS & Hw & ->).
  pose proof (pool_at_wf _ _ _ _ Hb Hp) as Hwf. pose proof (wf_pool_amounts _ Hwf) as Ha.
  assert (H0 : pool_token_supply p <> 0).
  { intros E. rewrite calc_withdraw_no_supply in Hc; [congruence | done |]. apply mul_64_128; [done | apply Ha]. }
  assert (Hnf : 0 <= n - f) by (unfold in_range in Hr; lia).
  apply invokes_log in Hi as [Hlog _].
  eexists (key pool), p, f, l, _, (key auth), (key dest), meta. split; [done|]. split; [exact Hp|].
  split; [apply stored_after_write; [by apply wf_set_amounts | exact Hw]|].
  split; [exact Hlog|]. rewrite <- Hres, <- Hmint. split; [unfold withdraw_sol_invocations; by rewrite app_comm_cons, last_snoc|].
  split; [apply withdraw_sol_minted|]. split; [exact Hf|]. split; [exact Hc|].
  split; [pose proof (calc_withdraw_le _ _ _ Hc Ha Hnf H0); lia|].
  split; [exact Hmin|]. split; [exact Hst|]. split; [exact Hm|]. by apply debited_share_le.
Qed.

(** With fees of at most one and a referral of at most 100%, the split of a SOL
    deposit whose tokens fit in 64 bits never fails with a calculation error: the
    only refusals are a deposit too small for one token and the slippage bound. *)
Theorem deposit_split_total p x m n :
  wf_Fee (sol_deposit_fee p) -> fee_le_one (sol_deposit_fee p) -> 0 <= sol_referral_fee p <= 100 ->
  calc_pool_tokens_for_deposit p x = Some n -> in_range 64 n ->
  deposit_sol_tokens p x m =
    let fee := fee_of (sol_deposit_fee p) n in
    if n - fee =? 0 then fail_with DepositTooSmall else
    if below_minimum (n - fee) m then fail_with ExceededSlippage else
    Ok (mkDepositTokens n (n - fee) (fee - fee * sol_referral_fee p / 100) (fee * sol_referral_fee p / 100)).
Proof.
  intros Hwf H1 Hrf Hc Hn. unfold deposit_sol_tokens. rewrite Hc. cbn [obind ok_or_sp ok_or].
  destruct (apply_fit _ _ Hwf H1 Hn) as [E Hb].
  unfold calc_pool_tokens_sol_deposit_fee. rewrite E. cbn [obind ok_or_sp ok_or].
  set (fee := fee_of _ _) in *. assert (Hfee : in_range 64 fee) by (unfold in_range in *; lia).
  unfold checked_sub at 1. rewrite fit_in_range by (unfold in_range in *; lia). cbn [obind ok_or_sp ok_or].
  destruct (referral_fit fee (sol_referral_fee p) Hfee Hrf) as [E' Hb'].
  unfold calc_pool_tokens_sol_referral_fee. rewrite E'. cbn [obind ok_or_sp ok_or].
  unfold checked_sub. rewrite fit_in_range by (unfold in_range in *; lia). cbn [obind ok_or_sp ok_or].
  unfold checked_split. cbn [tokens_user tokens_manager tokens_referral tokens_new].
  unfold saturating_add. replace (Z.min _ _ =? n) with true; [reflexivity|].
  symmetry. apply Z.eqb_eq. unfold in_range in *. lia.
Qed.
End FundsProperties.

(** ** The concrete pool takes a deposit and a withdrawal *)
Definition toy_deposit_accounts : list AccountInfo :=
  [plain toy_pool_key; plain toy_authority; plain toy_reserve_key; signer toy_user; plain toy_user_tokens;
   plain toy_fee_key; plain toy_fee_key; plain toy_mint_key; plain toy_system; plain toy_token_program].
Definition toy_deposit_run : outcome (unit * RState) :=
  process_deposit_sol (RT := toy) toy_program toy_deposit_accounts 1000000000 (Some 790000000) toy_state.

Definition toy_withdraw_accounts : list AccountInfo :=
  [plain toy_pool_key; plain toy_authority; signer toy_user; plain toy_user_tokens; plain toy_reserve_key;
   plain toy_user; plain toy_fee_key; plain toy_mint_key; plain 1; plain 2; plain toy_stake_program;
   plain toy_token_program].
Definition toy_withdraw_run : outcome (unit * RState) :=
  process_withdraw_sol (RT := toy) toy_program toy_withdraw_accounts 500000000 None toy_state.

Lemma deposit_sol_correct_witness :
  is_ok toy_deposit_run = true /\
  exists pool auth reserve from user fee referrer rest p d,
    toy_deposit_accounts = pool :: auth :: reserve :: from :: user :: fee :: referrer :: rest /\
    pool_at (RT := toy) toy_program (ledger toy_state) (key pool) p /\
    stored_pool (RT := toy) (final toy_state toy_deposit_run) (key pool) =
      Ok (credited p 1000000000 (tokens_new d)) /\
    cpi_log (final toy_state toy_deposit_run) = cpi_log toy_state ++
      SystemTransfer (key from) (reserve_stake p) 1000000000 ::
      deposit_mints (token_program_id p) (pool_mint p) (key user) (manager_fee_account p) (key referrer) (key auth) d /\
    deposit_sol_tokens p 1000000000 (Some 790000000) = Ok d /\
    calc_pool_tokens_for_deposit p 1000000000 = Some (tokens_new d) /\
    calc_pool_tokens_sol_deposit_fee p (tokens_new d) = Some (tokens_manager d + tokens_referral d) /\
    calc_pool_tokens_sol_referral_fee p (tokens_manager d + tokens_referral d) = Some (tokens_referral d) /\
    split_ok d /\ below_minimum (tokens_user d) (Some 790000000) = false /\
    ((pool_token_supply p = 0 -> total_lamports p = 0) ->
     share_value_le p (credited p 1000000000 (tokens_new d))).
Proof.
  assert (H : is_ok toy_deposit_run = true) by (vm_compute; reflexivity). split; [exact H|].
  refine (deposit_sol_correct (RT := toy) toy_program _ _ _ _ _ _ (ran toy_state _ H) toy_state_wf _). lia.
Defined.

Lemma withdraw_sol_correct_witness :
  is_ok toy_withdraw_run = true /\
  exists k p fee l ixs auth dest meta,
    option_map key (list.head toy_withdraw_accounts) = Some k /\
    pool_at (RT := toy) toy_program (ledger toy_state) k p /\
    stored_pool (RT := toy) (final toy_state toy_withdraw_run) k = Ok (debited p l (500000000 - fee)) /\
    cpi_log (final toy_state toy_withdraw_run) = cpi_log toy_state ++ ixs /\
    list.last ixs = Some (StakeWithdraw (reserve_stake p) auth dest l) /\
    tokens_minted (pool_mint p) ixs = - (500000000 - fee) /\
    (fee = 0 \/ calc_pool_tokens_sol_withdrawal_fee p 500000000 = Some fee) /\
    calc_lamports_withdraw_amount p (500000000 - fee) = Some l /\ 0 < l /\ below_minimum l None = false /\
    unpack_stake_state (Runtime := toy) (acc_data (account_at (RT := toy) (ledger toy_state) (reserve_stake p))) =
      Ok (StakeInitialized meta) /\
    minimum_reserve_lamports meta <=
      saturating_sub (acc_lamports (account_at (RT := toy) (ledger toy_state) (reserve_stake p))) l /\
    share_value_le p (debited p l (500000000 - fee)).
Proof.
  assert (H : is_ok toy_withdraw_run = true) by (vm_compute; reflexivity). split; [exact H|].
  exact (withdraw_sol_correct (RT := toy) toy_program _ _ _ _ _ _ (ran toy_state _ H) toy_state_wf).
Defined.

Lemma deposit_split_total_witness :
  deposit_sol_tokens toy_pool 1000000000 (Some 790000000) =
    Ok (mkDepositTokens 800000000 796000000 3200000 800000).
Proof.
  exact (deposit_split_total toy_pool 1000000000 (Some 790000000) 800000000
    ltac:(split; unfold in_range; simpl; lia) ltac:(unfold fee_le_one; simpl; lia)
    ltac:(simpl; lia) ltac:(reflexivity) ltac:(unfold in_range; lia)).
Defined.
