(* ===== verification/ListAccess.v ===== *)
(** * The validator list account in a handler
    [load_validator_list] leaves the account mutably borrowed; these operations run
    the [BigVec] methods on the bytes behind its header, and the lemmas relate them
    to the list of entries the account holds. *)
From S2P Require Import Prelude Error Fees State Borsh Layout BigVec Entries Runtime Checks Concrete.

Section ListAccess.
Context `{RT : Runtime}.

(** The bytes of the [BigVec]: what follows the header. *)
Definition list_bytes (info : AccountInfo) : M (list Z) :=
  let! data := held_data info in mret (drop (Z.to_nat HEADER_LEN) data).
Definition set_list_bytes (info : AccountInfo) (vec_data : list Z) : M unit :=
  let! data := held_data info in
  set_held_data info (take (Z.to_nat HEADER_LEN) data ++ vec_data).

Definition list_find (info : AccountInfo) (predicate : list Z -> outcome bool)
    : M (option ValidatorStakeInfo) :=
  let! d := list_bytes info in lift (find vsi_codec VSI_SIZE predicate d).
Definition list_find_mut (info : AccountInfo) (predicate : list Z -> outcome bool)
    : M (option (nat * ValidatorStakeInfo)) :=
  let! d := list_bytes info in lift (find_mut vsi_codec VSI_SIZE predicate d).
(** A store through the reference [find_mut] returned. *)
Definition list_store (info : AccountInfo) (offset : nat) (v : ValidatorStakeInfo) : M unit :=
  let! d := list_bytes info in set_list_bytes info (write_entry vsi_codec offset v d).
Definition list_len (info : AccountInfo) : M Z :=
  let! d := list_bytes info in lift (len d).
Definition list_push (info : AccountInfo) (v : ValidatorStakeInfo) : M unit :=
  let! d := list_bytes info in
  let '(r, d') := push vsi_codec VSI_SIZE v d in
  do! lift r in set_list_bytes info d'.
Definition list_retain (info : AccountInfo) (predicate : list Z -> outcome bool) : M unit :=
  let! d := list_bytes info in
  let! d' := lift (retain VSI_SIZE predicate d) in set_list_bytes info d'.
Definition list_slice (info : AccountInfo) (skip n : Z) : M (list ValidatorStakeInfo) :=
  let! d := list_bytes info in lift (deserialize_slice vsi_codec VSI_SIZE skip n d).

#[export] Instance read_only_list_bytes i : ReadOnly (list_bytes i).
Proof. unfold list_bytes. apply _. Qed.
#[export] Instance read_only_list_find i f : ReadOnly (list_find i f).
Proof. unfold list_find. apply _. Qed.
#[export] Instance read_only_list_find_mut i f : ReadOnly (list_find_mut i f).
Proof. unfold list_find_mut. apply _. Qed.
#[export] Instance read_only_list_len i : ReadOnly (list_len i).
Proof. unfold list_len. apply _. Qed.
#[export] Instance read_only_list_slice i a b : ReadOnly (list_slice i a b).
Proof. unfold list_slice. apply _. Qed.

(** The account at [k] holds the header [h] and the entries [xs], all in range. *)
Definition list_at (s : RState) (k : Pubkey) (h : ValidatorListHeader)
    (xs : list ValidatorStakeInfo) : Prop :=
  wf header_codec h /\ wf_entries vsi_codec xs /\
  exists spare, list_account (acc_data (account_at (ledger s) k)) h xs spare.

Lemma list_bytes_Ok i s d s' h xs :
  list_at s (key i) h xs -> list_bytes i s = Ok (d, s') ->
  s' = s /\ exists spare, repr vsi_codec d xs spare /\
    acc_data (account_at (ledger s) (key i)) = enc header_codec h ++ d.
Proof.
  intros (Hh & Hw & spare & vd & Hd & Hr) H. unfold list_bytes in H. mopen H. minv_leaf H.
  split; [done|]. exists spare. rewrite Hd.
  rewrite drop_app_length' by (rewrite length_enc_header; reflexivity). done.
Qed.

Lemma set_list_bytes_Ok i s r s' h d d' xs :
  acc_data (account_at (ledger s) (key i)) = enc header_codec h ++ d ->
  wf header_codec h -> wf_entries vsi_codec xs -> (exists spare, repr vsi_codec d' xs spare) ->
  set_list_bytes i d' s = Ok (r, s') ->
  list_at s' (key i) h xs /\ s' = set_data (key i) (enc header_codec h ++ d') s.
Proof.
  intros Hd Hh Hw [spare Hr] H. unfold set_list_bytes in H. mopen H. minv_leaf H.
  rewrite Hd. rewrite take_app_length' by (rewrite length_enc_header; reflexivity).
  split; [|done]. split; [done|]. split; [done|]. exists spare, d'. rewrite set_data_at. done.
Qed.

(** Searching by vote address finds the first entry that has it. *)
Lemma list_find_mut_Ok i s o s' h xs predicate p :
  list_at s (key i) h xs -> decides vsi_codec predicate p ->
  list_find_mut i predicate s = Ok (o, s') ->
  s' = s /\
  match o with
  | Some (off, x) => exists ys zs, xs = ys ++ x :: zs /\ p x = true /\
      Forall (fun y => p y = false) ys /\ wf vsi_codec x /\
      forall y s1 r s2, wf vsi_codec y ->
        account_at (ledger s1) (key i) = account_at (ledger s) (key i) ->
        list_store i off y s1 = Ok (r, s2) ->
        list_at s2 (key i) h (ys ++ y :: zs) /\ exists d, s2 = set_data (key i) d s1
  | None => Forall (fun y => p y = false) xs
  end.
Proof.
  intros Hl Hp H. pose proof Hl as (Hh & Hw & _). unfold list_find_mut in H.
  apply mbind_Ok in H as (d & s1 & E & H). apply (list_bytes_Ok _ _ _ _ _ _ Hl) in E as [-> (spare & Hr & Hd)].
  minv_leaf H. split; [done|].
  pose proof (find_mut_spec vsi_codec VSI_SIZE d xs spare predicate p Hr Hw Hp) as Hf. rewrite H in Hf.
  destruct o as [[off x]|]; [|exact Hf]. destruct Hf as (ys & zs & -> & Hx & Hys & Hwx & Hst).
  exists ys, zs. repeat (split; [assumption || reflexivity|]). intros y s1 r s2 Hy Hsame H2.
  assert (Hw' : wf_entries vsi_codec (ys ++ y :: zs)).
  { destruct Hw as [Hw1 Hw2]. split; [|rewrite length_app in *; exact Hw2].
    apply Forall_app in Hw1 as [? Hw1]. inversion Hw1; subst. by apply Forall_app; split; [|constructor]. }
  unfold list_store, list_bytes in H2. mopen H2.
  rewrite Hsame in *. rewrite Hd in H2.
  rewrite drop_app_length' in H2 by (rewrite length_enc_header; reflexivity).
  apply (set_list_bytes_Ok i s1 tt s2 h d _ (ys ++ y :: zs)) in H2 as [? ->]; [split; [done|eauto] | rewrite Hsame; exact Hd | done | exact Hw' | ].
  exists spare. by apply Hst.
Qed.

Lemma list_find_Ok i s o s' h xs predicate p :
  list_at s (key i) h xs -> decides vsi_codec predicate p ->
  list_find i predicate s = Ok (o, s') -> s' = s /\ o = List.find p xs.
Proof.
  intros Hl Hp H. pose proof Hl as (Hh & Hw & _). unfold list_find in H.
  apply mbind_Ok in H as (d & s1 & E & H). apply (list_bytes_Ok _ _ _ _ _ _ Hl) in E as [-> (spare & Hr & Hd)].
  minv_leaf H. split; [done|]. rewrite find_find_mut in H.
  pose proof (find_mut_spec vsi_codec VSI_SIZE d xs spare predicate p Hr Hw Hp) as Hf.
  destruct (find_mut _ _ _ _) as [[[off x]|]| |]; [| | done | done]; apply Ok_inj in H as <-.
  - destruct Hf as (ys & zs & -> & Hx & Hys & _). cbn [option_map snd].
    clear -Hx Hys. symmetry. induction Hys as [|y ys Hy _ IH]; cbn [List.find app]; [by rewrite Hx | by rewrite Hy].
  - cbn [option_map]. symmetry. clear -Hf. induction Hf as [|y xs Hy _ IH]; cbn [List.find]; [done | by rewrite Hy].
Qed.

Lemma list_len_Ok i s n s' h xs :
  list_at s (key i) h xs -> list_len i s = Ok (n, s') -> s' = s /\ n = Z.of_nat (length xs).
Proof.
  intros Hl H. pose proof Hl as (Hh & Hw & _). unfold list_len in H.
  apply mbind_Ok in H as (d & s1 & E & H). apply (list_bytes_Ok _ _ _ _ _ _ Hl) in E as [-> (spare & Hr & Hd)].
  minv_leaf H. rewrite (repr_len vsi_codec d xs spare Hr Hw) in H. injection H as <-. done.
Qed.

(** A push that succeeds appends. *)
Lemma list_push_Ok i s v r s' h xs :
  list_at s (key i) h xs -> wf vsi_codec v -> in_range 32 (Z.of_nat (length xs) + 1) ->
  list_push i v s = Ok (r, s') ->
  list_at s' (key i) h (xs ++ [v]) /\ exists d, s' = set_data (key i) d s.
Proof.
  intros Hl Hv Hn H. pose proof Hl as (Hh & Hw & _). unfold list_push in H.
  apply mbind_Ok in H as (d & s1 & E & H). apply (list_bytes_Ok _ _ _ _ _ _ Hl) in E as [-> (spare & Hr & Hd)].
  assert (Hw' : wf_entries vsi_codec (xs ++ [v])).
  { destruct Hw as [Hw1 Hw2]. split; [apply Forall_app; auto|]. rewrite length_app. simpl.
    replace (Z.of_nat (length xs + 1)) with (Z.of_nat (length xs) + 1) by lia. done. }
  destruct (Nat.le_gt_cases VSI_SIZE (length spare)) as [Hsp|Hsp].
  - destruct (push_spec vsi_codec VSI_SIZE v d xs spare Hv Hr Hw' Hsp) as (d' & E & Hr' & _).
    rewrite E in H. mopen H.
    apply (set_list_bytes_Ok i s tt s' h d _ (xs ++ [v]) Hd Hh Hw') in H as [? ->]; eauto.
  - destruct (push_full vsi_codec VSI_SIZE v d xs spare Hr Hw' Hsp) as (d' & E & _).
    rewrite E in H. mopen H. done.
Qed.

(** A store at the place of the entry that follows [ys]. *)
Lemma list_store_Ok i s y r s' h ys x zs :
  list_at s (key i) h (ys ++ x :: zs) -> wf vsi_codec y ->
  list_store i (VEC_SIZE_BYTES + length ys * VSI_SIZE) y s = Ok (r, s') ->
  list_at s' (key i) h (ys ++ y :: zs) /\ exists d, s' = set_data (key i) d s.
Proof.
  intros Hl Hy H. pose proof Hl as (Hh & Hw & _). unfold list_store in H.
  apply mbind_Ok in H as (d & s1 & E & H). apply (list_bytes_Ok _ _ _ _ _ _ Hl) in E as [-> (spare & Hr & Hd)].
  destruct Hw as [Hw1 Hw2]. apply Forall_app in Hw1 as [Hys Hw1]. inversion Hw1; subst.
  apply (set_list_bytes_Ok i s r s' h d _ (ys ++ y :: zs) Hd Hh) in H as [? ->]; [eauto| |].
  - split; [apply Forall_app; split; [done | by constructor]|]. rewrite length_app in *. exact Hw2.
  - exists spare. unfold repr in Hr. subst d.
    rewrite enc_list_app. cbn [enc_list flat_map]. fold (enc_list vsi_codec zs).
    rewrite <- (length_enc_list vsi_codec VSI_SIZE ys Hys), <- (length_u32 (Z.of_nat (length (ys ++ x :: zs)))).
    rewrite <- length_app.
    replace (enc u32 (Z.of_nat (length (ys ++ x :: zs))) ++
              (enc_list vsi_codec ys ++ enc vsi_codec x ++ enc_list vsi_codec zs) ++ spare)
      with ((enc u32 (Z.of_nat (length (ys ++ x :: zs))) ++ enc_list vsi_codec ys) ++ enc vsi_codec x ++
              enc_list vsi_codec zs ++ spare) by (rewrite <- !app_assoc; reflexivity).
    rewrite (write_entry_spec vsi_codec VSI_SIZE) by done. unfold repr.
    rewrite enc_list_app, !length_app. cbn [enc_list flat_map length]. rewrite <- !app_assoc. reflexivity.
Qed.

Lemma list_store_types i off y s r s' :
  wf vsi_codec y -> list_store i off y s = Ok (r, s') -> wf_ledger (ledger s) -> wf_ledger (ledger s').
Proof.
  intros Hy H Hw. unfold list_store, list_bytes, set_list_bytes in H. do 2 mopen H. minv_leaf H.
  pose proof (wf_ledger_at _ (key i) Hw) as [_ Hd]. apply wf_ledger_set; [done|].
  apply bytes_app. split; [auto with sp_bytes|]. unfold write_entry, splice.
  apply bytes_app. split; [auto with sp_bytes|]. apply bytes_app. split; [by apply enc_bytes | auto with sp_bytes].
Qed.

Lemma list_slice_Ok i s a b ms s' h xs :
  list_at s (key i) h xs -> 0 <= a -> 0 <= b -> list_slice i a b s = Ok (ms, s') ->
  s' = s /\ exists ys zs, xs = ys ++ ms ++ zs /\ Z.of_nat (length ys) = a /\ Z.of_nat (length ms) = b.
Proof.
  intros Hl Ha Hb H. pose proof Hl as (Hh & Hw & _). unfold list_slice in H.
  apply mbind_Ok in H as (d & s1 & E & H). apply (list_bytes_Ok _ _ _ _ _ _ Hl) in E as [-> (spare & Hr & Hd)].
  minv_leaf H. split; [done|].
  assert (Hab : a + b <= Z.of_nat (length xs)).
  { unfold deserialize_slice in H. rewrite (repr_len vsi_codec d xs spare Hr Hw) in H. cbn [obind] in H.
    apply obind_Ok in H as (z & Ez & H). apply ok_or_Ok in Ez. checked_inv.
    destruct (Z.ltb_spec (Z.of_nat (length xs)) (a + b)); [done | lia]. }
  set (ys := take (Z.to_nat a) xs). set (rest := drop (Z.to_nat a) xs).
  assert (Hxs : xs = ys ++ take (Z.to_nat b) rest ++ drop (Z.to_nat b) rest) by (unfold ys, rest; by rewrite !take_drop).
  assert (Ly : length ys = Z.to_nat a) by (unfold ys; rewrite length_take; lia).
  assert (Lm : length (take (Z.to_nat b) rest) = Z.to_nat b)
    by (unfold rest; rewrite length_take, length_drop; lia).
  rewrite Hxs in Hr, Hw.
  pose proof (deserialize_slice_spec vsi_codec VSI_SIZE d _ _ _ spare Hr Hw) as Hs.
  rewrite Ly, Lm, !Z2Nat.id in Hs by done. rewrite Hs in H. apply Ok_inj in H as <-.
  exists ys, (drop (Z.to_nat b) rest). split; [exact Hxs|]. rewrite Ly, Lm. lia.
Qed.

(** [retain] is [filter] on the entries. *)
Lemma list_retain_Ok i s predicate p r s' h xs :
  list_at s (key i) h xs -> decides vsi_codec predicate p -> list_retain i predicate s = Ok (r, s') ->
  list_at s' (key i) h (List.filter p xs) /\ exists d, s' = set_data (key i) d s.
Proof.
  intros Hl Hp H. pose proof Hl as (Hh & Hw & _). unfold list_retain in H.
  apply mbind_Ok in H as (d & s1 & E & H). apply (list_bytes_Ok _ _ _ _ _ _ Hl) in E as [-> (spare & Hr & Hd)].
  destruct (retain_spec vsi_codec VSI_SIZE predicate p d xs spare Hp Hr Hw) as (d' & spare' & E & Hr' & _).
  mopen H. rewrite E in *. match goal with H : Ok _ = Ok _ |- _ => apply Ok_inj in H as <- end.
  destruct Hw as [Hw1 Hw2].
  apply (set_list_bytes_Ok i s tt s' h d _ (List.filter p xs) Hd Hh) in H as [? ->]; [eauto| |eauto].
  split.
  - apply List.Forall_forall. intros x Hx. apply filter_In in Hx as [Hx _]. revert Hx. by apply List.Forall_forall.
  - pose proof (filter_length_le p xs). unfold in_range in *. lia.
Qed.

Lemma load_validator_list_Ok pid i s h s' xs h' :
  load_validator_list pid i s = Ok (h, s') -> list_at s (key i) h' xs ->
  h = h' /\ header_is_valid h = true /\ acc_owner (account_at (ledger s) (key i)) = pid /\
  is_borrowed (key i) s = false /\
  s' = mkRState (ledger s) (key i :: borrowed s) (cpi_log s) /\ list_at s' (key i) h xs.
Proof.
  intros H Hl. pose proof Hl as (Hh & Hw & spare & vd & Hd & Hr). unfold load_validator_list in H.
  mopen H. apply check_account_owner_Ok in E as [E _]. do 4 mopen H. minv_leaf H. cbn [ledger] in *.
  match goal with H : deserialize_vec _ = _ |- _ =>
    rewrite Hd, deserialize_vec_app in H by done; injection H as <- <- end.
  match goal with H : negb (header_is_valid _) = false |- _ => apply negb_false_iff in H end. done.
Qed.

(** A list is where its account is. *)
Lemma list_at_same s1 s2 k h xs :
  account_at (ledger s2) k = account_at (ledger s1) k -> list_at s1 k h xs -> list_at s2 k h xs.
Proof. intros E (? & ? & ?). split; [done|]. split; [done|]. by rewrite E. Qed.

Lemma borrowed_ne (s : RState) k k' : In k' (borrowed s) -> is_borrowed k s = false -> k <> k'.
Proof.
  intros Hin Hb ->. apply not_true_iff_false in Hb. apply Hb. apply existsb_exists.
  exists k'. split; [done | apply key_eqb_refl].
Qed.

Lemma set_data_lamports k d s k' :
  acc_lamports (account_at (ledger (set_data k d s)) k') = acc_lamports (account_at (ledger s) k').
Proof.
  destruct (decide (k = k')) as [->|Hne]; [by rewrite set_data_at | by rewrite set_data_at_ne].
Qed.

Lemma stored_pool_ne s k k' d : k <> k' -> stored_pool (set_data k' d s) k = stored_pool s k.
Proof. intros H. unfold stored_pool. by rewrite set_data_at_ne. Qed.

Lemma wf_set_active v n : wf vsi_codec v -> in_range 64 n -> wf vsi_codec (set_active_stake_lamports n v).
Proof. unfold vsi_codec. cbn [wf]. intros H Hn. deex. repeat (split; [first [exact Hn | assumption]|]). assumption. Qed.
Lemma wf_set_transient v n : wf vsi_codec v -> in_range 64 n -> wf vsi_codec (set_transient_stake_lamports n v).
Proof. unfold vsi_codec. cbn [wf]. intros H Hn. deex. repeat (split; [first [exact Hn | assumption]|]). assumption. Qed.
Lemma wf_set_seed v n : wf vsi_codec v -> in_range 64 n -> wf vsi_codec (set_transient_seed_suffix n v).
Proof. unfold vsi_codec. cbn [wf]. intros H Hn. deex. repeat (split; [first [exact Hn | assumption]|]). assumption. Qed.
Lemma wf_set_epoch v n : wf vsi_codec v -> in_range 64 n -> wf vsi_codec (set_vsi_last_update_epoch n v).
Proof. unfold vsi_codec. cbn [wf]. intros H Hn. deex. repeat (split; [first [exact Hn | assumption]|]). assumption. Qed.
Lemma wf_set_status v n : wf vsi_codec v -> in_range 8 n -> wf vsi_codec (set_status n v).
Proof. unfold vsi_codec. cbn [wf]. intros H Hn. deex. repeat (split; [first [exact Hn | assumption]|]). assumption. Qed.
Lemma status_byte_range st : in_range 8 (status_byte st).
Proof. destruct st; unfold in_range; simpl; lia. Qed.
End ListAccess.
#[export] Hint Resolve wf_set_active wf_set_transient wf_set_seed wf_set_epoch wf_set_status
  status_byte_range : sp_math.

(** The list of the concrete state. *)
Lemma toy_list_at : list_at (RT := toy) toy_state toy_list_key toy_header [toy_entry].
Proof.
  split; [split; [exact I | unfold toy_header, u32, uint, in_range; simpl; lia]|].
  split.
  { split; [|unfold in_range; simpl; lia]. constructor; [|constructor].
    unfold vsi_codec, toy_entry, toy_vote, u64, u32, u8, pubkey, uint, in_range.
    cbn [wf active_stake_lamports transient_stake_lamports vsi_last_update_epoch transient_seed_suffix
         unused validator_seed_suffix status vote_account_address]. repeat split; lia. }
  exists (replicate 146 0), (enc u32 (Z.of_nat 1) ++ enc_list vsi_codec [toy_entry] ++ replicate 146 0).
  split; [vm_compute; reflexivity | reflexivity].
Qed.
