(* ===== verification/DepositStake.v ===== *)
(** * Stake deposits (program/src/processor.rs)
    [DepositStake]: the deposited stake account is authorized to the pool and merged
    into a validator's stake; the tokens are priced from the observed change of the
    validator's lamports and delegation. *)
From S2P Require Import Prelude Error Fees State PoolMath Borsh Layout BigVec Entries Runtime Checks ListAccess Funds Concrete.

(** The pricing of a deposit of [total_deposit_lamports], of which
    [stake_deposit_lamports] are delegated and the rest counts as SOL. *)
Definition deposit_stake_tokens (stake_pool : StakePool) (total_deposit_lamports stake_deposit_lamports : Z)
    (minimum_pool_tokens_out : option Z) : outcome DepositTokens :=
  let* new_pool_tokens :=
    ok_or_sp (calc_pool_tokens_for_deposit stake_pool total_deposit_lamports) CalculationFailure in
  let* new_pool_tokens_from_stake :=
    ok_or_sp (calc_pool_tokens_for_deposit stake_pool stake_deposit_lamports) CalculationFailure in
  let* new_pool_tokens_from_sol :=
    ok_or_sp (checked_sub 64 new_pool_tokens new_pool_tokens_from_stake) CalculationFailure in
  let* stake_deposit_fee :=
    ok_or_sp (calc_pool_tokens_stake_deposit_fee stake_pool new_pool_tokens_from_stake) CalculationFailure in
  let* sol_deposit_fee :=
    ok_or_sp (calc_pool_tokens_sol_deposit_fee stake_pool new_pool_tokens_from_sol) CalculationFailure in
  let* total_fee := ok_or_sp (checked_add 64 stake_deposit_fee sol_deposit_fee) CalculationFailure in
  let* pool_tokens_user := ok_or_sp (checked_sub 64 new_pool_tokens total_fee) CalculationFailure in
  let* pool_tokens_referral_fee :=
    ok_or_sp (calc_pool_tokens_stake_referral_fee stake_pool total_fee) CalculationFailure in
  let* pool_tokens_manager_deposit_fee :=
    ok_or_sp (checked_sub 64 total_fee pool_tokens_referral_fee) CalculationFailure in
  checked_split
    (mkDepositTokens new_pool_tokens pool_tokens_user pool_tokens_manager_deposit_fee pool_tokens_referral_fee)
    minimum_pool_tokens_out.

Section DepositStake.
Context `{RT : Runtime}.
Variable program_id : Pubkey.

(** The entry the deposit goes to: the preferred validator when one is set, at the
    address of its stake account, and not on its way out. *)
Definition deposit_validator (stake_pool : StakePool) (stake_pool_key : Pubkey)
    (validator_list_info validator_stake_account_info : AccountInfo) (vote_account_address : Pubkey)
    : M (nat * ValidatorStakeInfo) :=
  do! match preferred_deposit_validator_vote_address stake_pool with
      | Some preferred_deposit =>
          fail_if_sp (negb (key_eqb preferred_deposit vote_account_address)) IncorrectDepositVoteAddress
      | None => mret tt
      end in
  let! o := list_find_mut validator_list_info (fun x => memcmp_pubkey x vote_account_address) in
  let! (offset, validator_stake_info) := get_or o ValidatorNotFound in
  do! check_validator_stake_address program_id stake_pool_key (key validator_stake_account_info)
        vote_account_address (NonZeroU32_new (validator_seed_suffix validator_stake_info)) in
  do! fail_if_sp (negb (status validator_stake_info =? status_byte Active)) ValidatorNotFound in
  mret (offset, validator_stake_info).

(** The deposited account becomes the pool's and is merged into the validator's. *)
Definition take_over_stake (stake_pool : StakePool) (stake_pool_key : Pubkey)
    (stake_info stake_deposit_authority_info withdraw_authority_info validator_stake_account_info
     clock_info stake_history_info : AccountInfo) : M unit :=
  let '(stake_deposit_authority_program_address, deposit_bump_seed) :=
    find_deposit_authority_program_address program_id stake_pool_key in
  do! (if key_eqb (key stake_deposit_authority_info) stake_deposit_authority_program_address then
         stake_authorize_signed stake_pool_key stake_info stake_deposit_authority_info AUTHORITY_DEPOSIT
           deposit_bump_seed (key withdraw_authority_info) clock_info
       else
         stake_authorize stake_info stake_deposit_authority_info (key withdraw_authority_info) clock_info) in
  stake_merge stake_pool_key stake_info withdraw_authority_info AUTHORITY_WITHDRAW
    (stake_withdraw_bump_seed stake_pool) validator_stake_account_info clock_info stake_history_info.

Definition process_deposit_stake (accounts : list AccountInfo) (minimum_pool_tokens_out : option Z) : M unit :=
  let! (stake_pool_info, it) := next_account_info accounts in
  let! (validator_list_info, it) := next_account_info it in
  let! (stake_deposit_authority_info, it) := next_account_info it in
  let! (withdraw_authority_info, it) := next_account_info it in
  let! (stake_info, it) := next_account_info it in
  let! (validator_stake_account_info, it) := next_account_info it in
  let! (reserve_stake_account_info, it) := next_account_info it in
  let! (dest_user_pool_info, it) := next_account_info it in
  let! (manager_fee_info, it) := next_account_info it in
  let! (referrer_fee_info, it) := next_account_info it in
  let! (pool_mint_info, it) := next_account_info it in
  let! (clock_info, it) := next_account_info it in
  let! clock := clock_of clock_info in
  let! (stake_history_info, it) := next_account_info it in
  let! (token_program_info, it) := next_account_info it in
  let! (stake_program_info, it) := next_account_info it in
  do! check_stake_program (key stake_program_info) in
  let! stake_pool := load_stake_pool program_id stake_pool_info in
  do! check_authority_withdraw stake_pool (key withdraw_authority_info) program_id (key stake_pool_info) in
  do! check_stake_deposit_authority stake_pool (key stake_deposit_authority_info) in
  let! _ := check_mint stake_pool pool_mint_info in
  do! check_validator_list stake_pool validator_list_info in
  do! check_reserve_stake stake_pool reserve_stake_account_info in
  do! fail_if (negb (key_eqb (token_program_id stake_pool) (key token_program_info))) IncorrectProgramId in
  do! fail_if_sp (negb (key_eqb (manager_fee_account stake_pool) (key manager_fee_info))) InvalidFeeAccount in
  do! fail_if_sp (last_update_epoch stake_pool <? epoch clock) StakeListAndPoolOutOfDate in
  let! _ := load_validator_list program_id validator_list_info in
  let! (_, validator_stake) := get_stake_state validator_stake_account_info in
  let! pre_all_validator_lamports := lamports_of validator_stake_account_info in
  let vote_account_address := voter_pubkey validator_stake in
  let! (offset, validator_stake_info) := deposit_validator stake_pool (key stake_pool_info)
    validator_list_info validator_stake_account_info vote_account_address in
  do! take_over_stake stake_pool (key stake_pool_info) stake_info stake_deposit_authority_info
        withdraw_authority_info validator_stake_account_info clock_info stake_history_info in
  let! (_, post_validator_stake) := get_stake_state validator_stake_account_info in
  let! post_all_validator_lamports := lamports_of validator_stake_account_info in
  let! total_deposit_lamports :=
    get_or (checked_sub 64 post_all_validator_lamports pre_all_validator_lamports) CalculationFailure in
  let! stake_deposit_lamports :=
    get_or (checked_sub 64 (deleg_stake post_validator_stake) (deleg_stake validator_stake)) CalculationFailure in
  let! sol_deposit_lamports :=
    get_or (checked_sub 64 total_deposit_lamports stake_deposit_lamports) CalculationFailure in
  let! d := lift (deposit_stake_tokens stake_pool total_deposit_lamports stake_deposit_lamports
                    minimum_pool_tokens_out) in
  do! mint_deposit_tokens (key stake_pool_info) token_program_info pool_mint_info dest_user_pool_info
        manager_fee_info referrer_fee_info withdraw_authority_info (stake_withdraw_bump_seed stake_pool) d in
  do! mwhen (0 <? sol_deposit_lamports)
        (stake_withdraw (key stake_pool_info) validator_stake_account_info withdraw_authority_info
           AUTHORITY_WITHDRAW (stake_withdraw_bump_seed stake_pool) reserve_stake_account_info
           clock_info stake_history_info sol_deposit_lamports) in
  let! stake_pool := credit_pool stake_pool total_deposit_lamports (tokens_new d) in
  do! write_data stake_pool_codec stake_pool_info stake_pool in
  let! lamports := lamports_of validator_stake_account_info in
  list_store validator_list_info offset (set_active_stake_lamports lamports validator_stake_info).
End DepositStake.

(** ** The pricing of a stake deposit *)
Lemma deposit_stake_tokens_Ok p total stake m d :
  deposit_stake_tokens p total stake m = Ok d ->
  calc_pool_tokens_for_deposit p total = Some (tokens_new d) /\ split_ok d /\
  below_minimum (tokens_user d) m = false.
Proof.
  unfold deposit_stake_tokens. intros H.
  repeat match type of H with
  | obind (ok_or_sp _ _) _ = Ok _ =>
      let x := fresh "x" in let Hx := fresh "Hx" in apply obind_Ok in H as (x & Hx%ok_or_sp_Ok & H)
  end.
  apply checked_split_Ok in H as (-> & H0 & Hb).
  match goal with H : calc_pool_tokens_stake_referral_fee _ _ = Some _ |- _ => rename H into Hr end.
  unfold calc_pool_tokens_stake_referral_fee in Hr. destruct (checked_mul _ _ _); [|done].
  apply (fit_option_range _ id) in Hr. checked_inv. simpl in *. unfold split_ok. simpl.
  unfold in_range in *. repeat split; try done; lia.
Qed.

(** Where the tokens of [total] lamports go, [stake] of them delegated: the delegated
    part pays the stake deposit fee, the rest the SOL deposit fee, and the referrer gets
    its share of both. *)
Definition stake_split_of (p : StakePool) (total stake : Z) (d : DepositTokens) : Prop :=
  exists from_stake stake_fee sol_fee,
    calc_pool_tokens_for_deposit p total = Some (tokens_new d) /\
    calc_pool_tokens_for_deposit p stake = Some from_stake /\
    calc_pool_tokens_stake_deposit_fee p from_stake = Some stake_fee /\
    calc_pool_tokens_sol_deposit_fee p (tokens_new d - from_stake) = Some sol_fee /\
    tokens_user d = tokens_new d - (stake_fee + sol_fee) /\
    calc_pool_tokens_stake_referral_fee p (stake_fee + sol_fee) = Some (tokens_referral d) /\
    tokens_manager d = stake_fee + sol_fee - tokens_referral d.

Lemma deposit_stake_tokens_split p total stake m d :
  deposit_stake_tokens p total stake m = Ok d -> stake_split_of p total stake d.
Proof.
  unfold deposit_stake_tokens. intros H.
  repeat match type of H with
  | obind (ok_or_sp _ _) _ = Ok _ =>
      let x := fresh "x" in let Hx := fresh "Hx" in apply obind_Ok in H as (x & Hx%ok_or_sp_Ok & H)
  end.
  apply checked_split_Ok in H as (-> & _). checked_inv. do 3 eexists. cbn [tokens_new tokens_user tokens_manager tokens_referral].
  repeat (split; [first [eassumption | reflexivity]|]). reflexivity.
Qed.

Section DepositStakeRun.
Context `{RT : Runtime} `{!RuntimeLaws RT}.
Variable program_id : Pubkey.

(** The entry a deposit goes to, in a list that holds [xs]. *)
Lemma deposit_validator_Ok p k li vi vote s o v s' h xs :
  deposit_validator program_id p k li vi vote s = Ok ((o, v), s') ->
  list_at s (key li) h xs -> in_range 256 vote ->
  s' = s /\
  (forall pref, preferred_deposit_validator_vote_address p = Some pref -> pref = vote) /\
  fst (find_stake_program_address program_id vote k (NonZeroU32_new (validator_seed_suffix v))) = key vi /\
  status v = status_byte Active /\ vote_account_address v = vote /\ wf vsi_codec v /\
  exists ys zs, xs = ys ++ v :: zs /\
    forall y s1 r s2, wf vsi_codec y ->
      account_at (ledger s1) (key li) = account_at (ledger s) (key li) ->
      list_store li o y s1 = Ok (r, s2) ->
      list_at s2 (key li) h (ys ++ y :: zs) /\ exists d, s2 = set_data (key li) d s1.
Proof.
  intros H Hl Hv. unfold deposit_validator in H.
  apply mbind_Ok in H as (u & s1 & Hpref & H).
  assert (s1 = s) as ->.
  { destruct (preferred_deposit_validator_vote_address p); by minv_leaf Hpref. }
  apply mbind_Ok in H as (f & s1 & Hf & H).
  apply (list_find_mut_Ok _ _ _ _ _ _ _ _ Hl (memcmp_decides vote Hv)) in Hf as [-> Hf].
  destruct f as [[off x]|]; [|mopen H; done]. do 3 mopen H. minv_leaf H.
  match goal with H : (_, _) = (_, _) |- _ => injection H as -> -> end.
  match goal with H : Some _ = Some _ |- _ => injection H as -> -> end.
  destruct Hf as (ys & zs & -> & Hx & _ & Hw & Hst). split; [done|]. split.
  { intros pref E. rewrite E in Hpref. minv_leaf Hpref. check_facts. done. }
  split.
  { match goal with H : check_validator_stake_address _ _ _ _ _ _ = _ |- _ => rename H into Ha end.
    unfold check_validator_stake_address in Ha.
    destruct (find_stake_program_address _ _ _ _) as [a b]. minv_leaf Ha. check_facts. done. }
  check_facts. split; [done|]. split; [by apply key_eqb_eq|]. split; [done|]. by exists ys, zs.
Qed.

Lemma take_over_stake_invokes p k si ai wi vi ci hi s r s' :
  take_over_stake program_id p k si ai wi vi ci hi s = Ok (r, s') ->
  invokes s [StakeAuthorize (key si) (key ai) (key wi) AuthStaker;
             StakeAuthorize (key si) (key ai) (key wi) AuthWithdrawer;
             StakeMerge (key vi) (key si) (key wi)] s'.
Proof.
  unfold take_over_stake. destruct (find_deposit_authority_program_address _ _) as [a b].
  intros H. apply mbind_Ok in H as (u & s1 & Ha & H). to_invokes H.
  destruct (key_eqb _ _); to_invokes Ha; exact (invokes_app _ [_; _] _ [_] _ Ha H).
Qed.

Lemma deposit_stake_run accounts m s r s' h xs :
  process_deposit_stake program_id accounts m s = Ok (r, s') -> wf_ledger (ledger s) ->
  (forall li, accounts !! 1%nat = Some li -> list_at s (key li) h xs) ->
  exists pool li ai wi si vi ri ui fi rfi mi tp rest p mg g mg' g' total sd d v ys zs s1 s2 data ldata,
    accounts = pool :: li :: ai :: wi :: si :: vi :: ri :: ui :: fi :: rfi :: mi :: rest /\
    pool_at program_id (ledger s) (key pool) p /\ key mi = pool_mint p /\ key ri = reserve_stake p /\
    (key ai = stake_deposit_authority p /\ tp = token_program_id p /\ key fi = manager_fee_account p /\
     create_program_address (authority_signature_seeds (key pool) AUTHORITY_WITHDRAW (stake_withdraw_bump_seed p))
       program_id = Ok (key wi)) /\
    unpack_stake_state (acc_data (account_at (ledger s) (key vi))) = Ok (StakeStake mg g) /\
    unpack_stake_state (acc_data (account_at (ledger s1) (key vi))) = Ok (StakeStake mg' g') /\
    (forall pref, preferred_deposit_validator_vote_address p = Some pref -> pref = voter_pubkey g) /\
    fst (find_stake_program_address program_id (voter_pubkey g) (key pool)
          (NonZeroU32_new (validator_seed_suffix v))) = key vi /\
    status v = status_byte Active /\ vote_account_address v = voter_pubkey g /\ xs = ys ++ v :: zs /\
    let s0 := mkRState (ledger s) (key li :: borrowed s) (cpi_log s) in
    invokes s0 [StakeAuthorize (key si) (key ai) (key wi) AuthStaker;
                StakeAuthorize (key si) (key ai) (key wi) AuthWithdrawer;
                StakeMerge (key vi) (key si) (key wi)] s1 /\
    total = acc_lamports (account_at (ledger s1) (key vi)) - acc_lamports (account_at (ledger s) (key vi)) /\
    sd = deleg_stake g' - deleg_stake g /\ 0 <= sd <= total /\
    deposit_stake_tokens p total sd m = Ok d /\
    invokes s1 (deposit_mints tp (key mi) (key ui) (key fi) (key rfi) (key wi) d ++
                when (0 <? total - sd) (StakeWithdraw (key vi) (key wi) (key ri) (total - sd))) s2 /\
    in_range 64 (total_lamports p + total) /\ in_range 64 (pool_token_supply p + tokens_new d) /\
    to_writer stake_pool_codec (credited p total (tokens_new d)) (acc_data (account_at (ledger s2) (key pool))) = Ok data /\
    key pool <> key li /\
    s' = set_data (key li) ldata (set_data (key pool) data s2) /\
    list_at s' (key li) h
      (ys ++ set_active_stake_lamports (acc_lamports (account_at (ledger s2) (key vi))) v :: zs).
Proof.
  intros H Hwf Hl0. unfold process_deposit_stake in H. do 17 mopen H.
  match type of Hl0 with forall _, (_ :: ?linfo :: _) !! _ = _ -> _ => pose proof (Hl0 linfo eq_refl) as Hl; clear Hl0 end.
  rename a into pool, a0 into li.
  do 9 mopen H.
  apply mbind_Ok in H as (hd & sb & Hload & H).
  apply (load_validator_list_Ok _ _ _ _ _ _ _ Hload) in Hl as (-> & _ & _ & Hnb & -> & Hl).
  mopen H. match goal with H : get_stake_state _ _ = _ |- _ => apply get_stake_state_Ok in H; rename H into Hg end.
  mopen H.
  apply mbind_Ok in H as ([off v] & sb' & Hdv & H).
  assert (Hvote : in_range 256 (voter_pubkey d)).
  { eapply unpack_types; [|exact Hg]. by apply (wf_ledger_at _ _ Hwf). }
  apply (deposit_validator_Ok _ _ _ _ _ _ _ _ _ _ _ Hdv) in Hl
    as (-> & Hpref & Haddr & Hst & Hva & Hwv & ys & zs & -> & Hstore); [|done].
  mopen H. match goal with H : take_over_stake _ _ _ _ _ _ _ _ _ _ = _ |- _ => apply take_over_stake_invokes in H; rename H into Hi1 end.
  mopen H. match goal with H : get_stake_state _ _ = _ |- _ => apply get_stake_state_Ok in H; rename H into Hg' end.
  do 5 mopen H.
  mopen H. match goal with H : mint_deposit_tokens _ _ _ _ _ _ _ _ _ _ = _ |- _ =>
    apply mint_deposit_tokens_invokes in H; rename H into Hi2 end.
  mopen H. match goal with H : mwhen _ _ _ = _ |- _ => to_invokes H; rename H into Hi3 end.
  mopen H. match goal with H : credit_pool _ _ _ _ = _ |- _ => apply credit_pool_Ok in H as (-> & Hr1 & Hr2 & _) end.
  do 2 mopen H. checked_inv. check_facts. cbn [ledger] in *.
  pose proof (invokes_app _ _ _ _ _ Hi1 (invokes_app _ _ _ _ _ Hi2 Hi3)) as Hi.
  match type of Hi with invokes _ _ ?sx => rename sx into sf end.
  pose proof (invokes_log _ _ _ Hi) as [_ Hbor]. cbn [borrowed] in Hbor.
  assert (Hne : key pool <> key li).
  { apply (borrowed_ne sf); [rewrite Hbor; by left | assumption]. }
  assert (Hsame : account_at (ledger sf) (key li) = account_at (ledger s) (key li)).
  { by apply (invokes_borrowed _ _ _ _ Hi); left. }
  rewrite set_data_lamports in H.
  apply Hstore in H as [Hlist [ld ->]].
  2:{ apply wf_set_active; [done|]. by apply wf_ledger_at, (invokes_types _ _ _ Hi). }
  2:{ by rewrite set_data_at_ne. }
  do 28 eexists. split; [reflexivity|]. split; [eassumption|]. do 2 (split; [congruence|]).
  split; [split; [congruence|]; split; [symmetry; eassumption|]; split; [congruence | eassumption]|].
  split; [exact Hg|]. split; [exact Hg'|]. split; [exact Hpref|]. split; [exact Haddr|].
  split; [exact Hst|]. split; [exact Hva|]. split; [reflexivity|]. cbv zeta.
  split; [exact Hi1|]. split; [reflexivity|]. split; [reflexivity|].
  split; [unfold in_range in *; lia|]. split; [eassumption|].
  split; [exact (invokes_app _ _ _ _ _ Hi2 Hi3)|]. do 2 (split; [assumption|]).
  split; [eassumption|]. split; [exact Hne|]. split; [reflexivity|]. exact Hlist.
Qed.
End DepositStakeRun.

(** ** Properties *)
Section DepositStakeProperties.
Context `{RT : Runtime} `{!RuntimeLaws RT}.
Variable program_id : Pubkey.

(** C6: a successful [DepositStake] takes the given stake account over from the pool's
    deposit authority to the pool's withdraw authority and merges it into the stake
    account of an active validator (the preferred one when one is set), at its derived
    address. It mints, to the accounts given for the user and the referrer and to the
    manager's fee account, the parts of the tokens that the lamports the merge added are
    worth ([stake_split_of]), and sends the lamports that were not delegated to the
    reserve; nothing else is invoked. The pool is credited with these lamports and
    tokens, and the account's lamports are recorded in the entry of that validator and
    in no other entry. *)
Theorem deposit_stake_correct accounts m s r s' h xs :
  process_deposit_stake program_id accounts m s = Ok (r, s') -> wf_ledger (ledger s) ->
  (forall li, accounts !! 1%nat = Some li -> list_at s (key li) h xs) ->
  exists pool li ai wi si vi ri ui fi rfi mi rest p mg g mg' g' d v ys zs total sd s1 s2,
    accounts = pool :: li :: ai :: wi :: si :: vi :: ri :: ui :: fi :: rfi :: mi :: rest /\
    pool_at program_id (ledger s) (key pool) p /\
    create_program_address
      (authority_signature_seeds (key pool) AUTHORITY_WITHDRAW (stake_withdraw_bump_seed p)) program_id = Ok (key wi) /\
    xs = ys ++ v :: zs /\ status v = status_byte Active /\
    (forall pref, preferred_deposit_validator_vote_address p = Some pref -> pref = vote_account_address v) /\
    fst (find_stake_program_address program_id (vote_account_address v) (key pool)
          (NonZeroU32_new (validator_seed_suffix v))) = key vi /\
    invokes (mkRState (ledger s) (key li :: borrowed s) (cpi_log s))
      [StakeAuthorize (key si) (stake_deposit_authority p) (key wi) AuthStaker;
       StakeAuthorize (key si) (stake_deposit_authority p) (key wi) AuthWithdrawer;
       StakeMerge (key vi) (key si) (key wi)] s1 /\
    unpack_stake_state (acc_data (account_at (ledger s) (key vi))) = Ok (StakeStake mg g) /\
    voter_pubkey g = vote_account_address v /\
    unpack_stake_state (acc_data (account_at (ledger s1) (key vi))) = Ok (StakeStake mg' g') /\
    total = acc_lamports (account_at (ledger s1) (key vi)) -
            acc_lamports (account_at (ledger s) (key vi)) /\
    sd = deleg_stake g' - deleg_stake g /\ 0 <= sd <= total /\
    deposit_stake_tokens p total sd m = Ok d /\ stake_split_of p total sd d /\ split_ok d /\
    below_minimum (tokens_user d) m = false /\
    invokes s1
      (deposit_mints (token_program_id p) (pool_mint p) (key ui) (manager_fee_account p) (key rfi) (key wi) d ++
       when (0 <? total - sd) (StakeWithdraw (key vi) (key wi) (reserve_stake p) (total - sd))) s2 /\
    cpi_log s' = cpi_log s2 /\
    stored_pool s' (key pool) = Ok (credited p total (tokens_new d)) /\
    list_at s' (key li) h
      (ys ++ set_active_stake_lamports (acc_lamports (account_at (ledger s') (key vi))) v :: zs) /\
    ((pool_token_supply p = 0 -> total_lamports p = 0) ->
     share_value_le p (credited p total (tokens_new d))).
Proof.
  intros H Hw Hl. apply (deposit_stake_run program_id accounts m s r s' h xs) in H; [|done|done].
  destruct H as (pool & li & ai & wi & si & vi & ri & ui & fi & rfi & mi & tp & rest & p & mg & g & mg' & g' &
    total & sd & d & v & ys & zs & s1 & s2 & data & ldata & -> & Hp & Hmint & Hri & (Hai & Htp & Hfi & Hwi) & Hg &
    Hg' & Hpref & Haddr & Hst & Hva & -> & Hi1 & Ht & Hsd & Hrange & Hd & Hi2 & HT & HS & Hwr & Hne & -> & Hlist).
  pose proof (deposit_stake_tokens_Ok _ _ _ _ _ Hd) as (Hc & Hsp & Hmin).
  pose proof (pool_at_wf _ _ _ _ Hw Hp) as Hwf. rewrite Hai in Hi1. rewrite Htp, Hmint, Hfi, Hri in Hi2.
  exists pool, li, ai, wi, si, vi, ri, ui, fi, rfi, mi, rest, p, mg, g, mg', g', d, v, ys, zs, total, sd, s1, s2.
  split; [reflexivity|]. split; [exact Hp|]. split; [exact Hwi|]. split; [reflexivity|]. split; [exact Hst|].
  rewrite Hva. split; [exact Hpref|]. split; [exact Haddr|]. split; [exact Hi1|]. split; [exact Hg|].
  split; [reflexivity|]. split; [exact Hg'|]. split; [exact Ht|]. split; [exact Hsd|]. split; [exact Hrange|].
  split; [exact Hd|]. split; [by eapply deposit_stake_tokens_split|]. split; [exact Hsp|]. split; [exact Hmin|].
  split; [exact Hi2|]. split; [reflexivity|]. split.
  { rewrite stored_pool_ne by done. apply stored_after_write; [by apply wf_set_amounts | exact Hwr]. }
  split; [by rewrite !set_data_lamports|].
  intros He. eapply credited_share_le; try done; [by apply wf_pool_amounts | lia].
Qed.
End DepositStakeProperties.

(** The concrete pool takes a stake account of 500_000_700 lamports, 700 of them
    not delegated. *)
Definition toy_stake_accounts : list AccountInfo :=
  [plain toy_pool_key; plain toy_list_key; plain toy_deposit_authority; plain toy_authority;
   plain toy_user_stake; plain toy_validator_stake; plain toy_reserve_key; plain toy_user_tokens;
   plain toy_fee_key; plain toy_fee_key; plain toy_mint_key; plain 1; plain 2; plain toy_token_program;
   plain toy_stake_program].
Definition toy_deposit_stake_run : outcome (unit * RState) :=
  process_deposit_stake (RT := toy) toy_program toy_stake_accounts None toy_state.

Lemma deposit_stake_correct_witness :
  is_ok toy_deposit_stake_run = true /\
  let s' := final toy_state toy_deposit_stake_run in
  exists pool li ai wi si vi ri ui fi rfi mi rest p mg g mg' g' d v ys zs total sd s1 s2,
    toy_stake_accounts = pool :: li :: ai :: wi :: si :: vi :: ri :: ui :: fi :: rfi :: mi :: rest /\
    pool_at (RT := toy) toy_program (ledger toy_state) (key pool) p /\
    create_program_address (Runtime := toy)
      (authority_signature_seeds (key pool) AUTHORITY_WITHDRAW (stake_withdraw_bump_seed p)) toy_program = Ok (key wi) /\
    [toy_entry] = ys ++ v :: zs /\ status v = status_byte Active /\
    (forall pref, preferred_deposit_validator_vote_address p = Some pref -> pref = vote_account_address v) /\
    fst (find_stake_program_address (RT := toy) toy_program (vote_account_address v) (key pool)
          (NonZeroU32_new (validator_seed_suffix v))) = key vi /\
    invokes (RT := toy) (mkRState (ledger toy_state) (key li :: borrowed toy_state) (cpi_log toy_state))
      [StakeAuthorize (key si) (stake_deposit_authority p) (key wi) AuthStaker;
       StakeAuthorize (key si) (stake_deposit_authority p) (key wi) AuthWithdrawer;
       StakeMerge (key vi) (key si) (key wi)] s1 /\
    unpack_stake_state (Runtime := toy) (acc_data (account_at (RT := toy) (ledger toy_state) (key vi))) = Ok (StakeStake mg g) /\
    voter_pubkey g = vote_account_address v /\
    unpack_stake_state (Runtime := toy) (acc_data (account_at (RT := toy) (ledger s1) (key vi))) = Ok (StakeStake mg' g') /\
    total = acc_lamports (account_at (RT := toy) (ledger s1) (key vi)) -
            acc_lamports (account_at (RT := toy) (ledger toy_state) (key vi)) /\
    sd = deleg_stake g' - deleg_stake g /\ 0 <= sd <= total /\
    deposit_stake_tokens p total sd None = Ok d /\ stake_split_of p total sd d /\ split_ok d /\
    below_minimum (tokens_user d) None = false /\
    invokes (RT := toy) s1
      (deposit_mints (token_program_id p) (pool_mint p) (key ui) (manager_fee_account p) (key rfi) (key wi) d ++
       when (0 <? total - sd) (StakeWithdraw (key vi) (key wi) (reserve_stake p) (total - sd))) s2 /\
    cpi_log s' = cpi_log s2 /\
    stored_pool (RT := toy) s' (key pool) = Ok (credited p total (tokens_new d)) /\
    list_at (RT := toy) s' (key li) toy_header
      (ys ++ set_active_stake_lamports (acc_lamports (account_at (RT := toy) (ledger s') (key vi))) v :: zs) /\
    ((pool_token_supply p = 0 -> total_lamports p = 0) ->
     share_value_le p (credited p total (tokens_new d))).
Proof.
  assert (H : is_ok toy_deposit_stake_run = true) by (vm_compute; reflexivity). split; [exact H|].
  refine (deposit_stake_correct (RT := toy) toy_program toy_stake_accounts None toy_state tt _ toy_header
            [toy_entry] (ran toy_state _ H) toy_state_wf _).
  intros li E. injection E as <-. exact toy_list_at.
Defined.
