(* ===== verification/WithdrawStake.v ===== *)
(** * Stake withdrawals (program/src/processor.rs)
    [WithdrawStake]: which account a withdrawal may be split from (a validator's
    active stake first, transient stake next, a whole validator account or the
    reserve last), and the accounting of the pool and of the validator's entry. *)
From S2P Require Import Prelude Error Fees State PoolMath Borsh Layout BigVec Entries Runtime Checks ListAccess Funds Concrete.

(** [StakeStateV2::meta] and [StakeStateV2::delegation]. *)
Definition state_meta (st : StakeStateV2) : option Meta :=
  match st with StakeInitialized m | StakeStake m _ => Some m | _ => None end.
Definition state_delegation (st : StakeStateV2) : option Delegation :=
  match st with StakeStake _ d => Some d | _ => None end.

(** [p(x) && q(x)] on the bytes of an entry. *)
Definition pred_and (p q : list Z -> outcome bool) (x : list Z) : outcome bool :=
  let* b := p x in if b then q x else Ok false.

(** What the choice of the source reads of the pool. *)
Record WithdrawTerms := mkWithdrawTerms {
  withdraw_lamports : Z;
  required_lamports : Z;
  lamports_per_pool_token : Z;
  minimum_lamports_with_tolerance : Z;
  any_active_stake : bool;
  any_transient_stake : bool
}.

Section WithdrawStake.
Context `{RT : Runtime}.
Variable program_id : Pubkey.

Definition withdraw_terms (stake_pool : StakePool) (validator_list_info : AccountInfo) (meta : Meta)
    (stake_minimum_delegation withdraw_lamports : Z) : M WithdrawTerms :=
  let required_lamports := minimum_stake_lamports meta stake_minimum_delegation in
  let! lamports_per_pool_token := get_or (get_lamports_per_pool_token stake_pool) CalculationFailure in
  let minimum_lamports_with_tolerance := saturating_add 64 required_lamports lamports_per_pool_token in
  let! a := list_find validator_list_info
    (pred_and (fun x => active_lamports_greater_than x minimum_lamports_with_tolerance) is_active) in
  let! t := list_find validator_list_info
    (pred_and (fun x => transient_lamports_greater_than x minimum_lamports_with_tolerance) is_active) in
  mret (mkWithdrawTerms withdraw_lamports required_lamports lamports_per_pool_token
    minimum_lamports_with_tolerance (bool_decide (is_Some a)) (bool_decide (is_Some t))).

(** From the reserve only when no validator has stake to give. *)
Definition check_reserve_source (stake_split_from : AccountInfo) (meta : Meta) (t : WithdrawTerms) : M unit :=
  do! fail_if_sp (any_transient_stake t || any_active_stake t) StakeLamportsNotEqualToMinimum in
  let! lamports := lamports_of stake_split_from in
  fail_if_sp (saturating_sub lamports (withdraw_lamports t) <? minimum_reserve_lamports meta)
    SolWithdrawalTooLarge.

Definition check_preferred_withdraw (stake_pool : StakePool) (validator_list_info : AccountInfo)
    (vote_account_address : Pubkey) (t : WithdrawTerms) : M unit :=
  match preferred_withdraw_validator_vote_address stake_pool with
  | None => mret tt
  | Some preferred =>
      let! o := list_find validator_list_info (fun x => memcmp_pubkey x preferred) in
      match o with
      | None => mret tt
      | Some preferred_validator_info =>
          let available_lamports := saturating_sub (active_stake_lamports preferred_validator_info)
                                      (minimum_lamports_with_tolerance t) in
          fail_if_sp (negb (key_eqb preferred vote_account_address) && (0 <? available_lamports))
            IncorrectWithdrawVoteAddress
      end
  end.

(** The kind of source, which fixes the address the account must have. *)
Definition withdraw_source (stake_pool_key : Pubkey) (stake_split_from : AccountInfo)
    (vote_account_address : Pubkey) (v : ValidatorStakeInfo) (t : WithdrawTerms) : M StakeWithdrawSource :=
  let check_validator := check_validator_stake_address program_id stake_pool_key (key stake_split_from)
    vote_account_address (NonZeroU32_new (validator_seed_suffix v)) in
  if any_active_stake t then do! check_validator in mret SourceActive
  else if any_transient_stake t || negb (transient_stake_lamports v =? 0) then
    let! _ := check_transient_stake_address program_id stake_pool_key (key stake_split_from)
      vote_account_address (transient_seed_suffix v) in mret SourceTransient
  else do! check_validator in mret SourceValidatorRemoval.

Definition forget_preferred (vote : Pubkey) (stake_pool : StakePool) : StakePool :=
  let stake_pool :=
    if opt_key_eqb (preferred_deposit_validator_vote_address stake_pool) vote
    then set_preferred_deposit_validator_vote_address None stake_pool else stake_pool in
  if opt_key_eqb (preferred_withdraw_validator_vote_address stake_pool) vote
  then set_preferred_withdraw_validator_vote_address None stake_pool else stake_pool.

(** The amount to split off and the pool, changed when a whole validator leaves. *)
Definition withdraw_amount (stake_pool : StakePool) (stake_split_from : AccountInfo)
    (vote_account_address : Pubkey) (source : StakeWithdrawSource) (t : WithdrawTerms) : M (Z * StakePool) :=
  let! split_from_lamports := lamports_of stake_split_from in
  match source with
  | SourceActive | SourceTransient =>
      let remaining_lamports := saturating_sub split_from_lamports (withdraw_lamports t) in
      do! fail_if_sp (remaining_lamports <? required_lamports t) StakeLamportsNotEqualToMinimum in
      mret (withdraw_lamports t, stake_pool)
  | SourceValidatorRemoval =>
      let upper_bound := saturating_add 64 split_from_lamports (lamports_per_pool_token t) in
      do! fail_if_sp ((withdraw_lamports t <? split_from_lamports) || (upper_bound <? withdraw_lamports t))
            StakeLamportsNotEqualToMinimum in
      mret (split_from_lamports, forget_preferred vote_account_address stake_pool)
  end.

(** The entry the lamports come from ([None] for the reserve), the lamports to
    split off and the pool. *)
Definition choose_source (stake_pool : StakePool) (stake_pool_key : Pubkey)
    (validator_list_info stake_split_from : AccountInfo) (stake_state : StakeStateV2) (meta : Meta)
    (t : WithdrawTerms) : M (option (nat * ValidatorStakeInfo * StakeWithdrawSource) * Z * StakePool) :=
  if key_eqb (key stake_split_from) (reserve_stake stake_pool) then
    do! check_reserve_source stake_split_from meta t in
    mret (None, withdraw_lamports t, stake_pool)
  else
    let! delegation := get_or (state_delegation stake_state) WrongStakeStake in
    let vote_account_address := voter_pubkey delegation in
    do! check_preferred_withdraw stake_pool validator_list_info vote_account_address t in
    let! o := list_find_mut validator_list_info (fun x => memcmp_pubkey x vote_account_address) in
    let! (offset, validator_stake_info) := get_or o ValidatorNotFound in
    let! source := withdraw_source stake_pool_key stake_split_from vote_account_address validator_stake_info t in
    do! fail_if_sp (negb (status validator_stake_info =? status_byte Active)) ValidatorNotFound in
    let! (lamports, stake_pool) := withdraw_amount stake_pool stake_split_from vote_account_address source t in
    mret (Some (offset, validator_stake_info, source), lamports, stake_pool).

(** The entry after the withdrawal. *)
Definition entry_after_withdrawal (v : ValidatorStakeInfo) (source : StakeWithdrawSource)
    (lamports : Z) : outcome ValidatorStakeInfo :=
  match source with
  | SourceActive =>
      let* n := ok_or_sp (checked_sub 64 (active_stake_lamports v) lamports) CalculationFailure in
      Ok (set_active_stake_lamports n v)
  | SourceTransient =>
      let* n := ok_or_sp (checked_sub 64 (transient_stake_lamports v) lamports) CalculationFailure in
      Ok (set_transient_stake_lamports n v)
  | SourceValidatorRemoval =>
      let* n := ok_or_sp (checked_sub 64 (active_stake_lamports v) lamports) CalculationFailure in
      if negb (n =? 0) then fail_with StakeListAndPoolOutOfDate else
      Ok (set_status (status_byte ReadyForRemoval) (set_active_stake_lamports n v))
  end.

Definition process_withdraw_stake (accounts : list AccountInfo) (pool_tokens : Z)
    (minimum_lamports_out : option Z) : M unit :=
  let! (stake_pool_info, it) := next_account_info accounts in
  let! (validator_list_info, it) := next_account_info it in
  let! (withdraw_authority_info, it) := next_account_info it in
  let! (stake_split_from, it) := next_account_info it in
  let! (stake_split_to, it) := next_account_info it in
  let! (user_stake_authority_info, it) := next_account_info it in
  let! (user_transfer_authority_info, it) := next_account_info it in
  let! (burn_from_pool_info, it) := next_account_info it in
  let! (manager_fee_info, it) := next_account_info it in
  let! (pool_mint_info, it) := next_account_info it in
  let! (clock_info, it) := next_account_info it in
  let! clock := clock_of clock_info in
  let! (token_program_info, it) := next_account_info it in
  let! (stake_program_info, it) := next_account_info it in
  do! check_stake_program (key stake_program_info) in
  let! stake_pool := load_stake_pool program_id stake_pool_info in
  let! decimals := check_mint stake_pool pool_mint_info in
  do! check_validator_list stake_pool validator_list_info in
  do! check_authority_withdraw stake_pool (key withdraw_authority_info) program_id (key stake_pool_info) in
  do! fail_if_sp (negb (key_eqb (manager_fee_account stake_pool) (key manager_fee_info))) InvalidFeeAccount in
  do! fail_if (negb (key_eqb (token_program_id stake_pool) (key token_program_info))) IncorrectProgramId in
  do! fail_if_sp (last_update_epoch stake_pool <? epoch clock) StakeListAndPoolOutOfDate in
  let! _ := load_validator_list program_id validator_list_info in
  let! pool_tokens_fee := withdrawal_fee_tokens stake_pool manager_fee_info burn_from_pool_info
                            calc_pool_tokens_stake_withdrawal_fee pool_tokens in
  let! pool_tokens_burnt := get_or (checked_sub 64 pool_tokens pool_tokens_fee) CalculationFailure in
  let! lamports := get_or (calc_lamports_withdraw_amount stake_pool pool_tokens_burnt) CalculationFailure in
  do! fail_if_sp (lamports =? 0) WithdrawalTooSmall in
  do! fail_if_sp (below_minimum lamports minimum_lamports_out) ExceededSlippage in
  let! stake_minimum_delegation := lift get_minimum_delegation in
  let! data := borrow_data stake_split_from in
  let! stake_state := lift (unpack_stake_state data) in
  let! meta := get_or (state_meta stake_state) WrongStakeStake in
  let! t := withdraw_terms stake_pool validator_list_info meta stake_minimum_delegation lamports in
  let! (item, lamports, stake_pool) := choose_source stake_pool (key stake_pool_info) validator_list_info
    stake_split_from stake_state meta t in
  do! token_burn token_program_info burn_from_pool_info pool_mint_info user_transfer_authority_info
        pool_tokens_burnt in
  do! stake_split (key stake_pool_info) stake_split_from withdraw_authority_info AUTHORITY_WITHDRAW
        (stake_withdraw_bump_seed stake_pool) lamports stake_split_to in
  do! stake_authorize_signed (key stake_pool_info) stake_split_to withdraw_authority_info AUTHORITY_WITHDRAW
        (stake_withdraw_bump_seed stake_pool) (key user_stake_authority_info) clock_info in
  do! mwhen (0 <? pool_tokens_fee)
        (token_transfer token_program_info burn_from_pool_info pool_mint_info manager_fee_info
           user_transfer_authority_info pool_tokens_fee decimals) in
  let! stake_pool := debit_pool stake_pool lamports pool_tokens_burnt in
  do! write_data stake_pool_codec stake_pool_info stake_pool in
  match item with
  | None => mret tt
  | Some (offset, v, source) =>
      let! v := lift (entry_after_withdrawal v source lamports) in
      list_store validator_list_info offset v
  end.
End WithdrawStake.

(** ** What the choice of the source guarantees *)
(** Entries of active validators whose active (transient) stake exceeds [n]. *)
Definition gives_active (n : Z) (v : ValidatorStakeInfo) : bool :=
  (n <? active_stake_lamports v) && entry_active v.
Definition gives_transient (n : Z) (v : ValidatorStakeInfo) : bool :=
  (n <? transient_stake_lamports v) && entry_active v.

Lemma pred_and_decides p q p' q' :
  decides vsi_codec p p' -> decides vsi_codec q q' ->
  decides vsi_codec (pred_and p q) (fun v => p' v && q' v).
Proof. intros Hp Hq v Hv. unfold pred_and. rewrite Hp by done. simpl. destruct (p' v); [by apply Hq | done]. Qed.

Lemma find_existsb {A} (f : A -> bool) xs : bool_decide (is_Some (List.find f xs)) = existsb f xs.
Proof.
  induction xs as [|x xs IH]; [reflexivity|]. simpl. destruct (f x); [|exact IH].
  by apply bool_decide_eq_true.
Qed.

(** The terms, given the entries of the list. *)
Definition terms_of (p : StakePool) (xs : list ValidatorStakeInfo) (req per c : Z) : WithdrawTerms :=
  let thr := saturating_add 64 req per in
  mkWithdrawTerms c req per thr (existsb (gives_active thr) xs) (existsb (gives_transient thr) xs).

(** The order of the sources and the bounds on what each gives. *)
Definition source_rules (t : WithdrawTerms) (v : ValidatorStakeInfo) (source : StakeWithdrawSource)
    (from_lamports lamports : Z) : Prop :=
  match source with
  | SourceActive => any_active_stake t = true /\ lamports = withdraw_lamports t /\
      required_lamports t <= saturating_sub from_lamports lamports
  | SourceTransient => any_active_stake t = false /\
      (any_transient_stake t = true \/ transient_stake_lamports v <> 0) /\
      lamports = withdraw_lamports t /\ required_lamports t <= saturating_sub from_lamports lamports
  | SourceValidatorRemoval => any_active_stake t = false /\ any_transient_stake t = false /\
      transient_stake_lamports v = 0 /\ lamports = from_lamports /\
      from_lamports <= withdraw_lamports t <= saturating_add 64 from_lamports (lamports_per_pool_token t)
  end.

(** The source whose turn it is for an entry, by what the list has to give. *)
Definition source_in_turn (any_active any_transient : bool) (v : ValidatorStakeInfo) : StakeWithdrawSource :=
  if any_active then SourceActive
  else if any_transient || negb (transient_stake_lamports v =? 0) then SourceTransient
  else SourceValidatorRemoval.

Lemma source_rules_turn p xs req per c v src fl l :
  source_rules (terms_of p xs req per c) v src fl l ->
  let thr := saturating_add 64 req per in
  src = source_in_turn (existsb (gives_active thr) xs) (existsb (gives_transient thr) xs) v /\
  match src with
  | SourceValidatorRemoval => l = fl /\ fl <= c <= saturating_add 64 fl per
  | _ => l = c /\ req <= saturating_sub fl l
  end.
Proof.
  intros H. cbv zeta. unfold source_in_turn. destruct src; cbn [source_rules terms_of any_active_stake
    any_transient_stake withdraw_lamports required_lamports lamports_per_pool_token] in H.
  - by destruct H as (-> & -> & ?).
  - destruct H as (-> & [-> | E] & -> & ?); [done|]. apply Z.eqb_neq in E as ->. by rewrite orb_true_r.
  - by destruct H as (-> & -> & -> & -> & ?).
Qed.

Section WithdrawStakeFacts.
Context `{RT : Runtime} `{!RuntimeLaws RT}.
Variable program_id : Pubkey.

(** The address each source must have. *)
Definition source_address (k : Pubkey) (v : ValidatorStakeInfo) (source : StakeWithdrawSource) : Pubkey :=
  match source with
  | SourceTransient => fst (find_transient_stake_program_address program_id (vote_account_address v) k
                              (transient_seed_suffix v))
  | _ => fst (find_stake_program_address program_id (vote_account_address v) k
                (NonZeroU32_new (validator_seed_suffix v)))
  end.

Lemma withdraw_terms_Ok p li meta dmin c s t s' h xs :
  withdraw_terms p li meta dmin c s = Ok (t, s') -> list_at s (key li) h xs ->
  s' = s /\ exists per, get_lamports_per_pool_token p = Some per /\
    t = terms_of p xs (minimum_stake_lamports meta dmin) per c.
Proof.
  intros H Hl. unfold withdraw_terms in H. mopen H.
  apply mbind_Ok in H as (f1 & s1 & Hf1 & H).
  apply (list_find_Ok _ _ _ _ _ _ _ _ Hl (pred_and_decides _ _ _ _ (active_gt_decides _) is_active_decides)) in Hf1 as [-> ->].
  apply mbind_Ok in H as (f2 & s1 & Hf2 & H).
  apply (list_find_Ok _ _ _ _ _ _ _ _ Hl (pred_and_decides _ _ _ _ (transient_gt_decides _) is_active_decides)) in Hf2 as [-> ->].
  minv_leaf H. split; [done|]. eexists. split; [eassumption|]. by rewrite !find_existsb.
Qed.

Lemma check_validator_stake_address_Ok k a vote seed s r s' :
  check_validator_stake_address program_id k a vote seed s = Ok (r, s') ->
  s' = s /\ fst (find_stake_program_address program_id vote k seed) = a.
Proof.
  unfold check_validator_stake_address. destruct (find_stake_program_address _ _ _ _) as [x b].
  intros H. minv_leaf H. check_facts. done.
Qed.

Lemma check_transient_stake_address_Ok k a vote seed s r s' :
  check_transient_stake_address program_id k a vote seed s = Ok (r, s') ->
  s' = s /\ fst (find_transient_stake_program_address program_id vote k seed) = a /\
  snd (find_transient_stake_program_address program_id vote k seed) = r.
Proof.
  unfold check_transient_stake_address. destruct (find_transient_stake_program_address _ _ _ _) as [x b].
  intros H. mopen H. minv_leaf H. check_facts. done.
Qed.

Lemma withdraw_source_Ok k from vote v t s src s' :
  withdraw_source program_id k from vote v t s = Ok (src, s') -> vote_account_address v = vote ->
  s' = s /\ source_address k v src = key from /\
  match src with
  | SourceActive => any_active_stake t = true
  | SourceTransient => any_active_stake t = false /\ (any_transient_stake t = true \/ transient_stake_lamports v <> 0)
  | SourceValidatorRemoval => any_active_stake t = false /\ any_transient_stake t = false /\ transient_stake_lamports v = 0
  end.
Proof.
  intros H <-. unfold withdraw_source in H. cbv zeta in H.
  destruct (any_active_stake t) eqn:Ea; [|destruct (any_transient_stake t || _) eqn:Et];
    apply mbind_Ok in H as (u & s1 & Hc & H); minv_leaf H.
  - apply check_validator_stake_address_Ok in Hc as [-> <-]. done.
  - apply check_transient_stake_address_Ok in Hc as (-> & <- & _). repeat split; try done.
    apply orb_true_iff in Et as [?|Et]; [by left | right]. apply negb_true_iff, Z.eqb_neq in Et. done.
  - apply check_validator_stake_address_Ok in Hc as [-> <-]. apply orb_false_iff in Et as [? Et].
    apply negb_false_iff, Z.eqb_eq in Et. done.
Qed.

Lemma withdraw_amount_Ok p from vote src t s l p1 s' :
  withdraw_amount p from vote src t s = Ok ((l, p1), s') ->
  s' = s /\
  let fl := acc_lamports (account_at (ledger s) (key from)) in
  match src with
  | SourceActive | SourceTransient =>
      l = withdraw_lamports t /\ p1 = p /\ required_lamports t <= saturating_sub fl l
  | SourceValidatorRemoval =>
      l = fl /\ p1 = forget_preferred vote p /\
      fl <= withdraw_lamports t <= saturating_add 64 fl (lamports_per_pool_token t)
  end.
Proof.
  unfold withdraw_amount. intros H. mopen H.
  destruct src; mopen H; minv_leaf H;
    match goal with H : (_, _) = (_, _) |- _ => injection H as -> -> end; split; try done; cbv zeta.
  - check_facts. done.
  - check_facts. done.
  - match goal with H : _ || _ = false |- _ => apply orb_false_iff in H as [??] end. check_facts. done.
Qed.

#[export] Instance read_only_check_preferred_withdraw p li vote t : ReadOnly (check_preferred_withdraw p li vote t).
Proof.
  unfold check_preferred_withdraw. apply read_only_option; [|apply _]. intros pref.
  apply read_only_mbind; [apply _|]. intros [v|]; apply _.
Qed.

(** The choice as a whole. *)
Lemma choose_source_Ok p k li from st meta t s item l p1 s' h xs :
  choose_source program_id p k li from st meta t s = Ok ((item, l, p1), s') ->
  list_at s (key li) h xs -> (forall m g, st = StakeStake m g -> in_range 256 (voter_pubkey g)) ->
  s' = s /\
  let fl := acc_lamports (account_at (ledger s) (key from)) in
  match item with
  | None => key from = reserve_stake p /\ l = withdraw_lamports t /\ p1 = p /\
      any_active_stake t = false /\ any_transient_stake t = false /\
      minimum_reserve_lamports meta <= saturating_sub fl l
  | Some (off, v, src) => key from <> reserve_stake p /\ source_rules t v src fl l /\
      source_address k v src = key from /\ status v = status_byte Active /\ wf vsi_codec v /\
      p1 = (match src with SourceValidatorRemoval => forget_preferred (vote_account_address v) p | _ => p end) /\
      exists ys zs, xs = ys ++ v :: zs /\
        forall y s1 r s2, wf vsi_codec y ->
          account_at (ledger s1) (key li) = account_at (ledger s) (key li) ->
          list_store li off y s1 = Ok (r, s2) ->
          list_at s2 (key li) h (ys ++ y :: zs) /\ exists d, s2 = set_data (key li) d s1
  end.
Proof.
  intros H Hl Hv. unfold choose_source in H. destruct (key_eqb (key from) (reserve_stake p)) eqn:Ek.
  { apply key_eqb_eq in Ek. unfold check_reserve_source in H. mopen H. minv_leaf H.
    match goal with H : (_, _, _) = _ |- _ => injection H as -> -> -> end. split; [done|]. cbv zeta.
    match goal with H : _ || _ = false |- _ => apply orb_false_iff in H as [??] end. check_facts. done. }
  mopen H. mopen H.
  match goal with E : state_delegation st = Some ?g |- _ => destruct st as [| |mm gg|]; try discriminate E; injection E as -> end.
  apply mbind_Ok in H as (f & s1 & Hf & H).
  apply (list_find_mut_Ok _ _ _ _ _ _ _ _ Hl (memcmp_decides _ (Hv _ _ eq_refl))) in Hf as [-> Hf].
  destruct f as [[off x]|]; [|mopen H; done]. mopen H.
  match goal with E : Some (_, _) = Some _ |- _ => injection E as <- <- end.
  destruct Hf as (ys & zs & -> & Hx & _ & Hw & Hst). apply key_eqb_eq in Hx.
  apply mbind_Ok in H as (src & s1 & Hsrc & H).
  apply withdraw_source_Ok in Hsrc as (-> & Haddr & Hrule); [|exact Hx].
  mopen H. apply mbind_Ok in H as ([l1 p2] & s1 & Hamt & H). apply withdraw_amount_Ok in Hamt as [-> Hamt].
  minv_leaf H. match goal with H : (_, _, _) = _ |- _ => injection H as -> -> -> end. check_facts.
  cbv zeta in *. split; [done|]. split.
  { intros Ekk. by rewrite Ekk, key_eqb_refl in Ek. }
  split; [destruct src; cbn [source_rules]; deex; repeat split; congruence || tauto || lia|].
  split; [exact Haddr|]. split; [assumption|]. split; [exact Hw|].
  split; [destruct src; deex; congruence|]. by exists ys, zs.
Qed.

(** The invocations of a stake withdrawal. *)
Definition withdraw_stake_invocations (tp burn mint user fee from auth to new_auth : Pubkey)
    (burnt fee_tokens lamports decimals : Z) : list Cpi :=
  TokenBurn tp burn mint user burnt ::
  StakeSplit from auth lamports to ::
  StakeAuthorize to auth new_auth AuthStaker :: StakeAuthorize to auth new_auth AuthWithdrawer ::
  when (0 <? fee_tokens) (TokenTransferChecked tp burn mint fee user fee_tokens decimals).

Lemma withdraw_stake_minted tp burn mint user fee from auth to na burnt ft l dec :
  tokens_minted mint (withdraw_stake_invocations tp burn mint user fee from auth to na burnt ft l dec) = - burnt.
Proof.
  unfold withdraw_stake_invocations. change (?a :: ?b :: ?c :: ?d :: ?l) with ([a; b; c; d] ++ l).
  rewrite tokens_minted_app, tokens_minted_when_other. simpl. rewrite key_eqb_refl. lia.
Qed.

(** The entry a withdrawal of [l] lamports leaves. *)
Definition entry_paid (source : StakeWithdrawSource) (l : Z) (v v' : ValidatorStakeInfo) : Prop :=
  match source with
  | SourceActive =>
      l <= active_stake_lamports v /\ v' = set_active_stake_lamports (active_stake_lamports v - l) v
  | SourceTransient =>
      l <= transient_stake_lamports v /\ v' = set_transient_stake_lamports (transient_stake_lamports v - l) v
  | SourceValidatorRemoval => active_stake_lamports v = l /\
      v' = set_status (status_byte ReadyForRemoval) (set_active_stake_lamports 0 v)
  end.

Lemma entry_after_withdrawal_Ok v src l v' :
  entry_after_withdrawal v src l = Ok v' -> entry_paid src l v v'.
Proof.
  intros H. destruct src; cbn [entry_after_withdrawal entry_paid] in *;
    apply obind_Ok in H as (n & Hn%ok_or_sp_Ok & H); apply checked_sub_Some in Hn as [-> Hn]; unfold in_range in Hn.
  - apply Ok_inj in H as <-. split; [lia | done].
  - apply Ok_inj in H as <-. split; [lia | done].
  - destruct (Z.eqb_spec (active_stake_lamports v - l) 0) as [E|]; [|done]. rewrite E in H.
    apply Ok_inj in H as <-. split; [lia | done].
Qed.

Lemma entry_after_withdrawal_wf v src l v' :
  entry_after_withdrawal v src l = Ok v' -> wf vsi_codec v -> wf vsi_codec v'.
Proof.
  intros H Hw. destruct src; cbn [entry_after_withdrawal] in H;
    apply obind_Ok in H as (n & Hn%ok_or_sp_Ok & H); checked_inv.
  - apply Ok_inj in H as <-. auto with sp_math.
  - apply Ok_inj in H as <-. auto with sp_math.
  - destruct (negb _); [done|]. apply Ok_inj in H as <-. auto with sp_math.
Qed.

Lemma withdraw_stake_run accounts n m s r s' h xs :
  process_withdraw_stake program_id accounts n m s = Ok (r, s') -> wf_ledger (ledger s) ->
  (forall li, accounts !! 1%nat = Some li -> list_at s (key li) h xs) ->
  exists pool li auth from to na user burn fee mint rest p f c l p1 dec per st meta dmin item s1 data,
    accounts = pool :: li :: auth :: from :: to :: na :: user :: burn :: fee :: mint :: rest /\
    pool_at program_id (ledger s) (key pool) p /\ key mint = pool_mint p /\
    (f = 0 \/ calc_pool_tokens_stake_withdrawal_fee p n = Some f) /\ in_range 64 (n - f) /\
    calc_lamports_withdraw_amount p (n - f) = Some c /\ c <> 0 /\ below_minimum c m = false /\
    get_lamports_per_pool_token p = Some per /\ get_minimum_delegation = Ok dmin /\
    unpack_stake_state (acc_data (account_at (ledger s) (key from))) = Ok st /\ state_meta st = Some meta /\
    let t := terms_of p xs (minimum_stake_lamports meta dmin) per c in
    let fl := acc_lamports (account_at (ledger s) (key from)) in
    invokes (mkRState (ledger s) (key li :: borrowed s) (cpi_log s))
      (withdraw_stake_invocations (token_program_id p) (key burn) (key mint) (key user) (key fee) (key from)
         (key auth) (key to) (key na) (n - f) f l dec) s1 /\
    in_range 64 (total_lamports p1 - l) /\ in_range 64 (pool_token_supply p1 - (n - f)) /\
    to_writer stake_pool_codec (debited p1 l (n - f)) (acc_data (account_at (ledger s1) (key pool))) = Ok data /\
    key pool <> key li /\
    match item with
    | None => key from = reserve_stake p /\ l = c /\ p1 = p /\ s' = set_data (key pool) data s1 /\
        any_active_stake t = false /\ any_transient_stake t = false /\
        minimum_reserve_lamports meta <= saturating_sub fl l /\ list_at s' (key li) h xs
    | Some (v, src) => key from <> reserve_stake p /\ source_rules t v src fl l /\
        source_address (key pool) v src = key from /\ status v = status_byte Active /\
        p1 = (match src with SourceValidatorRemoval => forget_preferred (vote_account_address v) p | _ => p end) /\
        exists ys zs v' d, xs = ys ++ v :: zs /\ entry_after_withdrawal v src l = Ok v' /\
          s' = set_data (key li) d (set_data (key pool) data s1) /\ list_at s' (key li) h (ys ++ v' :: zs)
    end.
Proof.
  intros H Hwf Hl0. unfold process_withdraw_stake in H. do 14 mopen H.
  match type of Hl0 with forall _, (_ :: ?linfo :: _) !! _ = _ -> _ => pose proof (Hl0 linfo eq_refl) as Hl; clear Hl0 end.
  rename a into pool, a0 into li. do 8 mopen H.
  apply mbind_Ok in H as (hd & sb & Hload & H).
  apply (load_validator_list_Ok _ _ _ _ _ _ _ Hload) in Hl as (-> & _ & _ & Hnb & -> & Hl).
  mopen H. match goal with H : withdrawal_fee_tokens _ _ _ _ _ _ = _ |- _ => apply withdrawal_fee_tokens_Ok in H as [_ Hf] end.
  do 8 mopen H.
  apply mbind_Ok in H as (t & s1 & Ht & H). apply (withdraw_terms_Ok _ _ _ _ _ _ _ _ _ _ Ht) in Hl as Ht'.
  destruct Ht' as (-> & per & Hper & ->).
  apply mbind_Ok in H as ([[item lam] p1] & s1 & Hc & H).
  match goal with H : unpack_stake_state _ = Ok ?x |- _ => rename H into Hst end.
  apply (choose_source_Ok _ _ _ _ _ _ _ _ _ _ _ _ _ _ Hc) in Hl as Hitem.
  2:{ intros mm gg ->. eapply unpack_types; [|exact Hst]. by apply (wf_ledger_at _ _ Hwf). }
  destruct Hitem as [-> Hitem].
  mopen H. match goal with H : token_burn _ _ _ _ _ _ = _ |- _ => to_invokes H; rename H into Hi1 end.
  mopen H. match goal with H : stake_split _ _ _ _ _ _ _ _ = _ |- _ => to_invokes H; rename H into Hi2 end.
  mopen H. match goal with H : stake_authorize_signed _ _ _ _ _ _ _ _ = _ |- _ => to_invokes H; rename H into Hi3 end.
  mopen H. match goal with H : mwhen _ _ _ = _ |- _ => to_invokes H; rename H into Hi4 end.
  mopen H. match goal with H : debit_pool _ _ _ _ = _ |- _ => apply debit_pool_Ok in H as (-> & Hr1 & Hr2 & _) end.
  mopen H. checked_inv. check_facts. cbn [ledger] in *.
  pose proof (invokes_app _ _ _ _ _ Hi1 (invokes_app _ _ _ _ _ Hi2 (invokes_app _ _ _ _ _ Hi3 Hi4))) as Hi.
  match type of Hi with invokes _ _ ?sx => rename sx into sf end.
  pose proof (invokes_log _ _ _ Hi) as [_ Hbor]. cbn [borrowed] in Hbor.
  assert (Hne : key pool <> key li).
  { apply (borrowed_ne sf); [rewrite Hbor; by left | assumption]. }
  assert (Hsame : account_at (ledger sf) (key li) = account_at (ledger s) (key li)).
  { by apply (invokes_borrowed _ _ _ _ Hi); left. }
  assert (Hlast : match option_map (fun '(_, v, src) => (v, src)) item with
    | None => key a2 = reserve_stake a /\ lam = a15 /\ p1 = a /\ s' = set_data (key pool) d sf /\
        any_active_stake (terms_of a xs (minimum_stake_lamports a18 a16) per a15) = false /\
        any_transient_stake (terms_of a xs (minimum_stake_lamports a18 a16) per a15) = false /\
        minimum_reserve_lamports a18 <=
          saturating_sub (acc_lamports (account_at (ledger s) (key a2))) lam /\ list_at s' (key li) h xs
    | Some (v, src) => key a2 <> reserve_stake a /\
        source_rules (terms_of a xs (minimum_stake_lamports a18 a16) per a15) v src
          (acc_lamports (account_at (ledger s) (key a2))) lam /\
        source_address (key pool) v src = key a2 /\ status v = status_byte Active /\
        p1 = (match src with SourceValidatorRemoval => forget_preferred (vote_account_address v) a | _ => a end) /\
        exists ys zs v' d', xs = ys ++ v :: zs /\ entry_after_withdrawal v src lam = Ok v' /\
          s' = set_data (key li) d' (set_data (key pool) d sf) /\ list_at s' (key li) h (ys ++ v' :: zs)
    end).
  { destruct item as [[[off v] src]|]; cbn [option_map].
    - destruct Hitem as (Hk & Hrul & Had & Hsta & Hw & -> & ys & zs & -> & Hstore).
      mopen H. match goal with H : entry_after_withdrawal _ _ _ = Ok ?x |- _ => rename H into Hent; rename x into v' end.
      apply Hstore in H as [Hlist [ld ->]].
      2:{ by eapply entry_after_withdrawal_wf. }
      2:{ by rewrite set_data_at_ne. }
      do 5 (split; [done|]). by exists ys, zs, v', ld.
    - destruct Hitem as (? & ? & -> & ? & ? & ?). minv_leaf H. do 7 (split; [done|]).
      eapply list_at_same; [|exact Hl]. cbn [ledger]. by rewrite set_data_at_ne. }
  do 21 eexists. exists (option_map (fun '(_, v, src) => (v, src)) item). do 2 eexists.
  split; [reflexivity|]. split; [eassumption|]. split; [eassumption|].
  split; [destruct Hf as [Hf0 | [Hf0 _]]; [left | right]; exact Hf0|].
  do 8 (split; [eassumption|]). cbv zeta.
  match goal with H : token_program_id _ = key _ |- _ => rewrite H end.
  split; [exact Hi|]. split; [exact Hr2|]. split; [exact Hr1|]. split; [eassumption|]. split; [exact Hne|]. exact Hlast.
Qed.

End WithdrawStakeFacts.

(** ** Properties *)
Section WithdrawStakeProperties.
Context `{RT : Runtime} `{!RuntimeLaws RT}.
Variable program_id : Pubkey.

Lemma forget_preferred_amounts vote p :
  total_lamports (forget_preferred vote p) = total_lamports p /\
  pool_token_supply (forget_preferred vote p) = pool_token_supply p.
Proof. unfold forget_preferred. by repeat destruct (opt_key_eqb _ _). Qed.

Lemma wf_forget_preferred vote p : wf stake_pool_codec p -> wf stake_pool_codec (forget_preferred vote p).
Proof.
  intros H. unfold forget_preferred.
  assert (G : forall q, wf stake_pool_codec q ->
    wf stake_pool_codec (set_preferred_deposit_validator_vote_address None q) /\
    wf stake_pool_codec (set_preferred_withdraw_validator_vote_address None q)).
  { intros q Hq. unfold stake_pool_codec in *. cbn [wf] in *. deex.
    split; repeat (split; [first [assumption | exact I]|]); assumption. }
  destruct (opt_key_eqb (preferred_deposit_validator_vote_address p) vote);
    destruct (opt_key_eqb _ vote); try done; repeat apply G; try done.
Qed.

(** C3: a successful [WithdrawStake] burns the tokens less the manager's fee, splits
    off at most the lamports the burnt tokens are worth, lowers the pool's totals by
    exactly the burnt tokens and the lamports split off, so that the value of a
    token does not drop, and lowers the entry the lamports came from by the same
    amount, leaving every other entry as it was. *)
Theorem withdraw_stake_correct accounts n m s r s' h xs :
  process_withdraw_stake program_id accounts n m s = Ok (r, s') -> wf_ledger (ledger s) ->
  (forall li, accounts !! 1%nat = Some li -> list_at s (key li) h xs) ->
  exists pool li from to auth p p1 fee c l ixs,
    accounts !! 0%nat = Some pool /\ accounts !! 1%nat = Some li /\ accounts !! 3%nat = Some from /\
    pool_at program_id (ledger s) (key pool) p /\
    (fee = 0 \/ calc_pool_tokens_stake_withdrawal_fee p n = Some fee) /\
    calc_lamports_withdraw_amount p (n - fee) = Some c /\ 0 < c /\ below_minimum c m = false /\ l <= c /\
    cpi_log s' = cpi_log s ++ ixs /\ In (StakeSplit (key from) auth l to) ixs /\
    tokens_minted (pool_mint p) ixs = - (n - fee) /\
    (p1 = p \/ exists vote, p1 = forget_preferred vote p) /\
    stored_pool s' (key pool) = Ok (debited p1 l (n - fee)) /\
    share_value_le p (debited p1 l (n - fee)) /\
    ((key from = reserve_stake p /\ list_at s' (key li) h xs) \/
     exists ys v zs src v', xs = ys ++ v :: zs /\ status v = status_byte Active /\
       source_address program_id (key pool) v src = key from /\
       entry_paid src l v v' /\ list_at s' (key li) h (ys ++ v' :: zs)).
Proof.
  intros H Hw Hl. apply (withdraw_stake_run program_id accounts n m s r s' h xs) in H; [|done|done].
  destruct H as (pool & li & auth & from & to & na & user & burn & fee & mint & rest & p & f & c & l & p1 & dec &
    per & st & meta & dmin & item & s1 & data & -> & Hp & Hmint & Hf & Hr & Hc & Hc0 & Hmin & Hper & Hdm & Hst &
    Hmeta & Hi & HT & HS & Hwr & Hne & Hitem). cbv zeta in *.
  pose proof (pool_at_wf _ _ _ _ Hw Hp) as Hwf. pose proof (wf_pool_amounts _ Hwf) as Ha.
  assert (H0 : pool_token_supply p <> 0).
  { intros E. rewrite calc_withdraw_no_supply in Hc; [congruence | done |]. apply mul_64_128; [done | apply Ha]. }
  assert (Hnf : 0 <= n - f) by (unfold in_range in Hr; lia).
  pose proof (calc_withdraw_le _ _ _ Hc Ha Hnf H0) as [Hc1 Hc2].
  pose proof (invokes_log _ _ _ Hi) as [Hlog _]. cbn [cpi_log] in Hlog.
  assert (Hp1 : (p1 = p \/ exists vote, p1 = forget_preferred vote p) /\ l <= c /\
    cpi_log s' = cpi_log s1 /\ stored_pool s' (key pool) = stored_pool (set_data (key pool) data s1) (key pool)).
  { destruct item as [[v src]|].
    - destruct Hitem as (_ & Hrule & _ & _ & -> & ys & zs & v' & d' & _ & _ & -> & _).
      split; [destruct src; [by left | by left | right; by eexists]|].
      split; [destruct src; cbn [source_rules] in Hrule; deex; simpl in *; lia|].
      split; [done|]. by apply stored_pool_ne.
    - destruct Hitem as (_ & -> & -> & -> & _). split; [by left|]. done. }
  destruct Hp1 as (Hp1 & Hlc & Hlog' & Hpool).
  assert (Hp1a : wf stake_pool_codec p1 /\ total_lamports p1 = total_lamports p /\
                 pool_token_supply p1 = pool_token_supply p).
  { destruct Hp1 as [-> | [vote ->]]; [done|]. split; [by apply wf_forget_preferred | apply forget_preferred_amounts]. }
  destruct Hp1a as (Hw1 & ET & ES).
  exists pool, li, from, (key to), (key auth), p, p1, f, c, l. eexists.
  do 3 (split; [reflexivity|]). split; [exact Hp|]. split; [exact Hf|]. split; [exact Hc|].
  split; [lia|]. split; [exact Hmin|]. split; [exact Hlc|].
  split; [by rewrite Hlog', Hlog|]. split; [right; by left|]. rewrite <- Hmint.
  split; [apply withdraw_stake_minted|]. split; [exact Hp1|].
  split; [rewrite Hpool; apply stored_after_write; [by apply wf_set_amounts | exact Hwr]|].
  split; [unfold share_value_le, debited; simpl; rewrite ET, ES; destruct Ha; unfold in_range in *; nia|].
  destruct item as [[v src]|].
  - destruct Hitem as (_ & _ & Had & Hact & _ & ys & zs & v' & d' & -> & Hent & _ & Hla). right. exists ys, v, zs, src, v'.
    apply entry_after_withdrawal_Ok in Hent. done.
  - destruct Hitem as (Hk & _ & _ & _ & _ & _ & _ & Hla). by left.
Qed.

(** C30: the order of the sources: with the priced amount [c] and the lamports [l]
    that the invocations really split off, the reserve gives only when no active
    validator has active or transient stake above the minimum with tolerance;
    otherwise the stake comes from the account of one active entry, and which of its
    accounts is settled by [source_in_turn]: its validator account while any
    validator has active stake to give, else its transient account while any has
    transient stake to give or this one has any at all, else its whole validator
    account. An active or transient account gives exactly [c] and keeps its required
    minimum, the reserve gives exactly [c] and keeps its own, and a removed
    validator gives all it has, which is [c] up to one token's worth. *)
Theorem withdraw_stake_priority accounts n m s r s' h xs :
  process_withdraw_stake program_id accounts n m s = Ok (r, s') -> wf_ledger (ledger s) ->
  (forall li, accounts !! 1%nat = Some li -> list_at s (key li) h xs) ->
  exists pool li auth from to na user burn fee mint rest p f c per st meta dmin l dec,
    accounts = pool :: li :: auth :: from :: to :: na :: user :: burn :: fee :: mint :: rest /\
    pool_at program_id (ledger s) (key pool) p /\
    (f = 0 \/ calc_pool_tokens_stake_withdrawal_fee p n = Some f) /\
    calc_lamports_withdraw_amount p (n - f) = Some c /\ get_lamports_per_pool_token p = Some per /\
    unpack_stake_state (acc_data (account_at (ledger s) (key from))) = Ok st /\ state_meta st = Some meta /\
    get_minimum_delegation = Ok dmin /\
    cpi_log s' = cpi_log s ++ withdraw_stake_invocations (token_program_id p) (key burn) (key mint) (key user)
      (key fee) (key from) (key auth) (key to) (key na) (n - f) f l dec /\
    let req := minimum_stake_lamports meta dmin in
    let thr := saturating_add 64 req per in
    let fl := acc_lamports (account_at (ledger s) (key from)) in
    let any_active := existsb (gives_active thr) xs in
    let any_transient := existsb (gives_transient thr) xs in
    if key_eqb (key from) (reserve_stake p)
    then any_active = false /\ any_transient = false /\ l = c /\
      minimum_reserve_lamports meta <= saturating_sub fl l /\ list_at s' (key li) h xs
    else exists ys v zs v',
      let source := source_in_turn any_active any_transient v in
      xs = ys ++ v :: zs /\ status v = status_byte Active /\
      source_address program_id (key pool) v source = key from /\
      match source with
      | SourceValidatorRemoval => l = fl /\ fl <= c <= saturating_add 64 fl per
      | _ => l = c /\ req <= saturating_sub fl l
      end /\
      entry_paid source l v v' /\ list_at s' (key li) h (ys ++ v' :: zs).
Proof.
  intros H Hw Hl. apply (withdraw_stake_run program_id accounts n m s r s' h xs) in H; [|done|done].
  destruct H as (pool & li & auth & from & to & na & user & burn & fee & mint & rest & p & f & c & l & p1 & dec &
    per & st & meta & dmin & item & s1 & data & -> & Hp & Hmint & Hf & Hr & Hc & Hc0 & Hmin & Hper & Hdm & Hst &
    Hmeta & Hi & HT & HS & Hwr & Hne & Hitem). cbv zeta in *.
  pose proof (invokes_log _ _ _ Hi) as [Hlog _]. cbn [cpi_log] in Hlog.
  do 10 eexists. exists rest, p, f, c, per, st, meta, dmin, l, dec. split; [reflexivity|].
  do 7 (split; [eassumption|]).
  destruct item as [[v src]|].
  - destruct Hitem as (Hk & Hrule & Had & Hact & _ & ys & zs & v' & d' & -> & Hent & -> & Hla).
    split; [exact Hlog|]. destruct (key_eqb (key from) (reserve_stake p)) eqn:Ek; [by apply key_eqb_eq in Ek|]. exists ys, v, zs, v'.
    apply source_rules_turn in Hrule as [<- Hrule]. apply entry_after_withdrawal_Ok in Hent. done.
  - destruct Hitem as (Hk & -> & -> & -> & ? & ? & ? & ?). split; [exact Hlog|].
    destruct (key_eqb (key from) (reserve_stake p)) eqn:Ek; [done|]. by rewrite Hk, key_eqb_refl in Ek.
Qed.
End WithdrawStakeProperties.

(** ** The concrete pool gives stake *)
Definition toy_split_key : Pubkey := 21.
Definition toy_withdraw_stake_accounts : list AccountInfo :=
  [plain toy_pool_key; plain toy_list_key; plain toy_authority; plain toy_validator_stake; plain toy_split_key;
   plain 22; signer toy_user; plain toy_user_tokens; plain toy_fee_key; plain toy_mint_key; plain 1;
   plain toy_token_program; plain toy_stake_program].
Definition toy_withdraw_stake_run : outcome (unit * RState) :=
  process_withdraw_stake (RT := toy) toy_program toy_withdraw_stake_accounts 500000000 (Some 600000000) toy_state.

Lemma withdraw_stake_correct_witness :
  is_ok toy_withdraw_stake_run = true /\
  let s' := final toy_state toy_withdraw_stake_run in
  exists pool li from to auth p p1 fee c l ixs,
    toy_withdraw_stake_accounts !! 0%nat = Some pool /\ toy_withdraw_stake_accounts !! 1%nat = Some li /\
    toy_withdraw_stake_accounts !! 3%nat = Some from /\
    pool_at (RT := toy) toy_program (ledger toy_state) (key pool) p /\
    (fee = 0 \/ calc_pool_tokens_stake_withdrawal_fee p 500000000 = Some fee) /\
    calc_lamports_withdraw_amount p (500000000 - fee) = Some c /\ 0 < c /\
    below_minimum c (Some 600000000) = false /\ l <= c /\
    cpi_log s' = cpi_log toy_state ++ ixs /\ In (StakeSplit (key from) auth l to) ixs /\
    tokens_minted (pool_mint p) ixs = - (500000000 - fee) /\
    (p1 = p \/ exists vote, p1 = forget_preferred vote p) /\
    stored_pool (RT := toy) s' (key pool) = Ok (debited p1 l (500000000 - fee)) /\
    share_value_le p (debited p1 l (500000000 - fee)) /\
    ((key from = reserve_stake p /\ list_at (RT := toy) s' (key li) toy_header [toy_entry]) \/
     exists ys v zs src v', [toy_entry] = ys ++ v :: zs /\ status v = status_byte Active /\
       source_address (RT := toy) toy_program (key pool) v src = key from /\
       entry_paid src l v v' /\ list_at (RT := toy) s' (key li) toy_header (ys ++ v' :: zs)).
Proof.
  assert (H : is_ok toy_withdraw_stake_run = true) by (vm_compute; reflexivity). split; [exact H|].
  refine (withdraw_stake_correct (RT := toy) toy_program toy_withdraw_stake_accounts 500000000 (Some 600000000)
    toy_state tt _ toy_header [toy_entry] (ran toy_state _ H) toy_state_wf _).
  intros li E. injection E as <-. exact toy_list_at.
Defined.

Lemma withdraw_stake_priority_witness :
  is_ok toy_withdraw_stake_run = true /\
  exists from p l,
    toy_withdraw_stake_accounts !! 3%nat = Some from /\
    pool_at (RT := toy) toy_program (ledger toy_state) toy_pool_key p /\
    exists auth to, In (StakeSplit (key from) auth l to) (cpi_log (final toy_state toy_withdraw_stake_run)).
Proof.
  assert (H : is_ok toy_withdraw_stake_run = true) by (vm_compute; reflexivity). split; [exact H|].
  destruct (withdraw_stake_priority (RT := toy) toy_program toy_withdraw_stake_accounts 500000000 (Some 600000000)
    toy_state tt _ toy_header [toy_entry] (ran toy_state _ H) toy_state_wf) as (pool & li & auth & from & to & na &
    user & burn & fee & mint & rest & p & f & c & per & st & meta & dmin & l & dec & E & Hp & _ & _ & _ & _ & _ & _ &
    Hlog & _).
  - intros li E. injection E as <-. exact toy_list_at.
  - injection E as <- <- <- <- <- <- <- <- <- <- _. eexists _, p, l. split; [reflexivity|]. split; [exact Hp|].
    exists toy_authority, toy_split_key. rewrite Hlog. right. by left.
Defined.

(** ** A whole validator account *)
(** The same pool at 3 lamports for 2 tokens, its validator at the minimum. *)
Definition toy_minimum : Z := 1000200.
Definition toy_small_pool : StakePool :=
  set_total_lamports 3000000000 (set_pool_token_supply 2000000000 toy_pool).
Definition toy_small_ledger : Ledger :=
  <[toy_pool_key := mkAccount 1000 (pad 1000 (enc stake_pool_codec toy_small_pool)) toy_program]>
  (<[toy_list_key := mkAccount 300
       (enc header_codec toy_header ++ enc u32 1 ++
        enc_list vsi_codec [set_active_stake_lamports toy_minimum toy_entry] ++ replicate 146 0) toy_program]>
  (<[toy_validator_stake := mkAccount toy_minimum
       (pack_stake (StakeStake toy_meta (mkDelegation toy_vote 1000000 1 u64_max))) toy_stake_program]>
   (ledger toy_state))).
Definition toy_small_state : RState := mkRState toy_small_ledger [] [].
Definition toy_removal_run : outcome (unit * RState) :=
  process_withdraw_stake (RT := toy) toy_program toy_withdraw_stake_accounts 668808 (Some 1000201) toy_small_state.

(** [WithdrawStakeWithSlippage] compares the minimum with the lamports before they
    are truncated to the account that is emptied: a withdrawal that takes a whole
    validator account can succeed and pay less than the minimum the user set. *)
Theorem withdraw_stake_slippage_not_rechecked :
  exists accounts n minimum s s' from auth lamports to,
    process_withdraw_stake (RT := toy) toy_program accounts n (Some minimum) s = Ok (tt, s') /\
    List.filter (fun ix => match ix with StakeSplit _ _ _ _ => true | _ => false end) (cpi_log s') =
      [StakeSplit from auth lamports to] /\
    lamports < minimum.
Proof.
  exists toy_withdraw_stake_accounts, 668808, 1000201, toy_small_state, (final toy_small_state toy_removal_run),
    toy_validator_stake, toy_authority, toy_minimum, toy_split_key.
  split; [apply (ran toy_small_state); vm_compute; reflexivity|].
  split; [vm_compute; reflexivity | reflexivity].
Qed.
