(* ===== verification/Validators.v ===== *)
(** * Adding and removing validators (program/src/processor.rs)
    [AddValidatorToPool] funds a validator's stake account from the reserve and
    appends its entry; [RemoveValidatorFromPool] deactivates the stake and starts the
    removal of the entry. *)
From S2P Require Import Prelude Error Fees State Borsh Layout BigVec Entries Runtime Checks ListAccess Concrete WithdrawStake.

Section Validators.
Context `{RT : Runtime}.
Variable program_id : Pubkey.

(** The entry must be new and the list must have room. *)
Definition check_new_validator (header : ValidatorListHeader) (validator_list_info : AccountInfo)
    (vote : Pubkey) : M unit :=
  let! n := list_len validator_list_info in
  do! fail_if (max_validators header =? n) AccountDataTooSmall in
  do! fail_if_sp (MAX_VALIDATORS_IN_POOL <=? n) TooManyValidatorsInPool in
  let! o := list_find validator_list_info (fun x => memcmp_pubkey x vote) in
  fail_if_sp (bool_decide (is_Some o)) ValidatorAlreadyAdded.

(** The reserve must keep its minimum after it gave [required_lamports]. *)
Definition check_not_draining (reserve_stake_info : AccountInfo) (required_lamports : Z) : M unit :=
  let! data := borrow_data reserve_stake_info in
  let! reserve_stake := lift (unpack_stake_state data) in
  let! reserve_meta := get_or (state_meta reserve_stake) WrongStakeStake in
  let minimum_lamports := minimum_reserve_lamports reserve_meta in
  let! reserve_lamports := lamports_of reserve_stake_info in
  fail_if (saturating_sub reserve_lamports required_lamports <? minimum_lamports) InsufficientFunds.

Definition new_entry (vote : Pubkey) (required_lamports epoch raw_validator_seed : Z) : ValidatorStakeInfo := {|
  status := status_byte Active;
  vote_account_address := vote;
  active_stake_lamports := required_lamports;
  transient_stake_lamports := 0;
  vsi_last_update_epoch := epoch;
  transient_seed_suffix := 0;
  unused := 0;
  validator_seed_suffix := raw_validator_seed
|}.

Definition process_add_validator_to_pool (accounts : list AccountInfo) (raw_validator_seed : Z) : M unit :=
  let! (stake_pool_info, it) := next_account_info accounts in
  let! (staker_info, it) := next_account_info it in
  let! (reserve_stake_info, it) := next_account_info it in
  let! (withdraw_authority_info, it) := next_account_info it in
  let! (validator_list_info, it) := next_account_info it in
  let! (stake_info, it) := next_account_info it in
  let! (validator_vote_info, it) := next_account_info it in
  let! (rent_info, it) := next_account_info it in
  let! rent := rent_of rent_info in
  let! (clock_info, it) := next_account_info it in
  let! clock := clock_of clock_info in
  let! (stake_history_info, it) := next_account_info it in
  let! (stake_config_info, it) := next_account_info it in
  let! (system_program_info, it) := next_account_info it in
  let! (stake_program_info, it) := next_account_info it in
  do! check_system_program (key system_program_info) in
  do! check_stake_program (key stake_program_info) in
  let! stake_pool := load_stake_pool program_id stake_pool_info in
  do! check_authority_withdraw stake_pool (key withdraw_authority_info) program_id (key stake_pool_info) in
  do! check_staker stake_pool staker_info in
  do! check_reserve_stake stake_pool reserve_stake_info in
  do! check_validator_list stake_pool validator_list_info in
  do! fail_if_sp (last_update_epoch stake_pool <? epoch clock) StakeListAndPoolOutOfDate in
  let! header := load_validator_list program_id validator_list_info in
  do! check_new_validator header validator_list_info (key validator_vote_info) in
  let validator_seed := NonZeroU32_new raw_validator_seed in
  let '(stake_address, bump_seed) :=
    find_stake_program_address program_id (key validator_vote_info) (key stake_pool_info) validator_seed in
  do! fail_if_sp (negb (key_eqb stake_address (key stake_info))) InvalidStakeAccountAddress in
  let stake_account_signer_seeds :=
    stake_seeds (key validator_vote_info) (key stake_pool_info) validator_seed ++ [[bump_seed]] in
  let stake_space := stake_state_size in
  let! stake_minimum_delegation := lift get_minimum_delegation in
  let required_lamports :=
    saturating_add 64 (minimum_delegation stake_minimum_delegation) (minimum_balance rent stake_space) in
  do! check_not_draining reserve_stake_info required_lamports in
  do! create_stake_account stake_info stake_account_signer_seeds stake_space in
  do! stake_split (key stake_pool_info) reserve_stake_info withdraw_authority_info AUTHORITY_WITHDRAW
        (stake_withdraw_bump_seed stake_pool) required_lamports stake_info in
  do! stake_delegate stake_info validator_vote_info clock_info stake_history_info stake_config_info
        withdraw_authority_info (key stake_pool_info) AUTHORITY_WITHDRAW (stake_withdraw_bump_seed stake_pool) in
  list_push validator_list_info
    (new_entry (key validator_vote_info) required_lamports (epoch clock) raw_validator_seed).

(** The transient stake of a validator being removed is deactivated when the pool
    controls it and it is not deactivating yet. *)
Definition remove_transient (stake_pool : StakePool) (stake_pool_key vote : Pubkey)
    (v : ValidatorStakeInfo) (transient_stake_account_info withdraw_authority_info clock_info : AccountInfo)
    : M StakeStatus :=
  if 0 <? transient_stake_lamports v then
    let! _ := check_transient_stake_address program_id stake_pool_key (key transient_stake_account_info)
                vote (transient_seed_suffix v) in
    let! o := attempt (get_stake_state transient_stake_account_info) in
    do! match o with
        | Some (meta, stake) =>
            mwhen (stake_is_usable_by_pool meta (key withdraw_authority_info) (lockup stake_pool) &&
                   (deactivation_epoch stake =? u64_max))
              (stake_deactivate transient_stake_account_info clock_info withdraw_authority_info stake_pool_key
                 AUTHORITY_WITHDRAW (stake_withdraw_bump_seed stake_pool))
        | None => mret tt
        end in
    mret DeactivatingAll
  else mret DeactivatingValidator.

Definition process_remove_validator_from_pool (accounts : list AccountInfo) : M unit :=
  let! (stake_pool_info, it) := next_account_info accounts in
  let! (staker_info, it) := next_account_info it in
  let! (withdraw_authority_info, it) := next_account_info it in
  let! (validator_list_info, it) := next_account_info it in
  let! (stake_account_info, it) := next_account_info it in
  let! (transient_stake_account_info, it) := next_account_info it in
  let! (clock_info, it) := next_account_info it in
  let! clock := clock_of clock_info in
  let! (stake_program_info, it) := next_account_info it in
  do! check_stake_program (key stake_program_info) in
  let! stake_pool := load_stake_pool program_id stake_pool_info in
  do! check_authority_withdraw stake_pool (key withdraw_authority_info) program_id (key stake_pool_info) in
  do! check_staker stake_pool staker_info in
  do! fail_if_sp (last_update_epoch stake_pool <? epoch clock) StakeListAndPoolOutOfDate in
  do! check_validator_list stake_pool validator_list_info in
  let! _ := load_validator_list program_id validator_list_info in
  let! (_, stake) := get_stake_state stake_account_info in
  let vote_account_address := voter_pubkey stake in
  let! o := list_find_mut validator_list_info (fun x => memcmp_pubkey x vote_account_address) in
  let! (offset, validator_stake_info) := get_or o ValidatorNotFound in
  do! check_validator_stake_address program_id (key stake_pool_info) (key stake_account_info)
        vote_account_address (NonZeroU32_new (validator_seed_suffix validator_stake_info)) in
  do! fail_if_sp (negb (status validator_stake_info =? status_byte Active)) ValidatorNotFound in
  let! new_status := remove_transient stake_pool (key stake_pool_info) vote_account_address validator_stake_info
    transient_stake_account_info withdraw_authority_info clock_info in
  do! mwhen (deactivation_epoch stake =? u64_max)
        (stake_deactivate stake_account_info clock_info withdraw_authority_info (key stake_pool_info)
           AUTHORITY_WITHDRAW (stake_withdraw_bump_seed stake_pool)) in
  do! list_store validator_list_info offset (set_status (status_byte new_status) validator_stake_info) in
  write_data stake_pool_codec stake_pool_info (forget_preferred vote_account_address stake_pool).
End Validators.

Definition votes (xs : list ValidatorStakeInfo) : list Pubkey := vote_account_address <$> xs.

Section ValidatorsRuns.
Context `{RT : Runtime} `{!RuntimeLaws RT}.
Variable program_id : Pubkey.

Lemma clock_of_Ok i s c s' : clock_of i s = Ok (c, s') -> s' = s /\ in_range 64 (epoch c).
Proof. unfold clock_of. intros H. mopen H. minv_leaf H. split; [done|]. by eapply clock_info_types. Qed.

Lemma check_new_validator_Ok hd li vote s r s' h xs :
  check_new_validator hd li vote s = Ok (r, s') -> list_at s (key li) h xs -> in_range 256 vote ->
  s' = s /\ max_validators hd <> Z.of_nat (length xs) /\ Z.of_nat (length xs) < MAX_VALIDATORS_IN_POOL /\
  ~ In vote (votes xs).
Proof.
  intros H Hl Hv. unfold check_new_validator in H.
  apply mbind_Ok in H as (n & s1 & Hn & H). apply (list_len_Ok _ _ _ _ _ _ Hl) in Hn as [-> ->].
  do 2 mopen H. apply mbind_Ok in H as (o & s1 & Ho & H).
  apply (list_find_Ok _ _ _ _ _ _ _ _ Hl (memcmp_decides vote Hv)) in Ho as [-> ->].
  minv_leaf H. check_facts. split; [done|]. split; [done|]. split; [lia|].
  rewrite find_existsb in H. intros Hin. apply not_true_iff_false in H. apply H.
  apply existsb_exists. unfold votes in Hin. apply list_elem_of_In, list_elem_of_fmap in Hin as (v & -> & Hin).
  exists v. split; [by apply list_elem_of_In | apply key_eqb_refl].
Qed.

Lemma check_not_draining_Ok i n s r s' :
  check_not_draining i n s = Ok (r, s') ->
  s' = s /\ exists st meta,
    unpack_stake_state (acc_data (account_at (ledger s) (key i))) = Ok st /\ state_meta st = Some meta /\
    minimum_reserve_lamports meta <= saturating_sub (acc_lamports (account_at (ledger s) (key i))) n.
Proof.
  unfold check_not_draining. intros H. do 4 mopen H. minv_leaf H. check_facts.
  split; [done|]. eexists _, _. done.
Qed.

Lemma required_range dmin rent :
  in_range 64 (saturating_add 64 (minimum_delegation dmin) (minimum_balance rent stake_state_size)).
Proof.
  pose proof (rent_types rent _ stake_size_types). unfold saturating_add, minimum_delegation, in_range in *.
  unfold MINIMUM_ACTIVE_STAKE. lia.
Qed.

Lemma wf_new_entry vote req c seed :
  in_range 256 vote -> in_range 64 req -> in_range 64 c -> in_range 32 seed ->
  wf vsi_codec (new_entry vote req c seed).
Proof.
  intros Hv Hr Hc Hs. unfold vsi_codec, new_entry. cbn [wf active_stake_lamports transient_stake_lamports
    vsi_last_update_epoch transient_seed_suffix unused validator_seed_suffix status vote_account_address].
  assert (in_range 64 0 /\ in_range 32 0) as [??] by (unfold in_range; lia).
  do 6 (split; [assumption|]). split; [apply status_byte_range | assumption].
Qed.

(** ** Properties *)
(** The run of the handler: [add_validator_correct] below. *)
Lemma add_validator_run accounts seed s r s' h xs :
  process_add_validator_to_pool program_id accounts seed s = Ok (r, s') -> in_range 32 seed ->
  Forall (fun i => in_range 256 (key i)) accounts ->
  (forall li, accounts !! 4%nat = Some li -> list_at s (key li) h xs) ->
  exists pool staker_info reserve auth li si vote rest p dmin rent c req st meta s1,
    accounts = pool :: staker_info :: reserve :: auth :: li :: si :: vote :: rest /\
    pool_at program_id (ledger s) (key pool) p /\
    key staker_info = staker p /\ is_signer staker_info = true /\ key reserve = reserve_stake p /\
    get_minimum_delegation = Ok dmin /\
    req = saturating_add 64 (minimum_delegation dmin) (minimum_balance rent stake_state_size) /\
    fst (find_stake_program_address program_id (key vote) (key pool) (NonZeroU32_new seed)) = key si /\
    unpack_stake_state (acc_data (account_at (ledger s) (key reserve))) = Ok st /\ state_meta st = Some meta /\
    minimum_reserve_lamports meta <= saturating_sub (acc_lamports (account_at (ledger s) (key reserve))) req /\
    invokes (mkRState (ledger s) (key li :: borrowed s) (cpi_log s))
      [SystemAllocate (key si) stake_state_size; SystemAssign (key si) stake_program_id;
       StakeSplit (key reserve) (key auth) req (key si); StakeDelegate (key si) (key auth) (key vote)] s1 /\
    list_at s' (key li) h (xs ++ [new_entry (key vote) req c seed]) /\
    ~ In (key vote) (votes xs) /\ Z.of_nat (length xs) < MAX_VALIDATORS_IN_POOL /\
    (NoDup (votes xs) -> NoDup (votes (xs ++ [new_entry (key vote) req c seed]))) /\
    exists d, s' = set_data (key li) d s1.
Proof.
  intros H Hseed Hkeys Hl0. unfold process_add_validator_to_pool in H. do 10 mopen H.
  match type of Hl0 with forall _, (_ :: _ :: _ :: _ :: ?linfo :: _) !! _ = _ -> _ => pose proof (Hl0 linfo eq_refl) as Hl; clear Hl0 end.
  apply mbind_Ok in H as (c & sc & Hc & H). apply clock_of_Ok in Hc as [-> Hc].
  do 12 mopen H.
  apply mbind_Ok in H as (hd & sb & Hload & H).
  apply (load_validator_list_Ok _ _ _ _ _ _ _ Hload) in Hl as (-> & _ & _ & Hnb & -> & Hl).
  apply mbind_Ok in H as (u & s1 & Hnew & H).
  apply (check_new_validator_Ok _ _ _ _ _ _ _ _ Hnew) in Hl as Hnew'.
  2:{ do 6 (apply Forall_inv_tail in Hkeys). by apply Forall_inv in Hkeys. }
  destruct Hnew' as (-> & Hmax & Hlen & Hfresh). cbv zeta in H.
  destruct (find_stake_program_address _ _ _ _) as [addr bump] eqn:Ea. do 2 mopen H.
  apply mbind_Ok in H as (u' & s1 & Hdr & H). apply check_not_draining_Ok in Hdr as (-> & st & meta & Hst & Hmeta & Hmin).
  mopen H. match goal with H : create_stake_account _ _ _ _ = _ |- _ => to_invokes H; rename H into Hi1 end.
  mopen H. match goal with H : stake_split _ _ _ _ _ _ _ _ = _ |- _ => to_invokes H; rename H into Hi2 end.
  mopen H. match goal with H : stake_delegate _ _ _ _ _ _ _ _ _ _ = _ |- _ => to_invokes H; rename H into Hi3 end.
  pose proof (invokes_app _ _ _ _ _ Hi1 (invokes_app _ _ _ _ _ Hi2 Hi3)) as Hi.
  match type of Hi with invokes _ _ ?sx => rename sx into sf end.
  cbn [ledger] in *. check_facts.
  assert (Hvote : in_range 256 (key a5)).
  { do 6 (apply Forall_inv_tail in Hkeys). by apply Forall_inv in Hkeys. }
  assert (Hl' : list_at sf (key a3) h xs).
  { eapply list_at_same; [|exact Hl]. by apply (invokes_borrowed _ _ _ _ Hi); left. }
  apply (list_push_Ok _ _ _ _ _ _ _ Hl') in H as [Hlist Hd].
  2:{ apply wf_new_entry; [done | apply required_range | done | done]. }
  2:{ unfold MAX_VALIDATORS_IN_POOL, in_range in *. lia. }
  do 8 eexists. do 8 eexists. split; [reflexivity|]. split; [eassumption|].
  split; [eassumption|]. split; [assumption|]. split; [eassumption|]. split; [eassumption|]. split; [reflexivity|].
  split; [rewrite Ea; eassumption|]. split; [exact Hst|]. split; [exact Hmeta|]. split; [exact Hmin|].
  split; [exact Hi|]. split; [exact Hlist|]. split; [exact Hfresh|]. split; [exact Hlen|]. split; [|exact Hd].
  intros Hnd. unfold votes. rewrite fmap_app. apply list.NoDup_app. split; [exact Hnd|]. split.
  - intros k Hk Hk'. apply list_elem_of_singleton in Hk'. subst k. by apply Hfresh, list_elem_of_In.
  - apply list.NoDup_singleton.
Qed.

(** C26: a successful [AddValidatorToPool] was signed by the staker, funds the new
    validator's derived stake account from the reserve with exactly the required
    minimum (which leaves the reserve at its own minimum or above), delegates it, and
    appends one active entry for a vote account that no entry had: the vote accounts
    of the list stay distinct and the list stays within its bounds. *)
Theorem add_validator_correct accounts seed s r s' h xs :
  process_add_validator_to_pool program_id accounts seed s = Ok (r, s') -> in_range 32 seed ->
  Forall (fun i => in_range 256 (key i)) accounts ->
  (forall li, accounts !! 4%nat = Some li -> list_at s (key li) h xs) ->
  exists pool staker_info reserve auth li si vote rest p dmin rent c req st meta s1,
    accounts = pool :: staker_info :: reserve :: auth :: li :: si :: vote :: rest /\
    pool_at program_id (ledger s) (key pool) p /\
    key staker_info = staker p /\ is_signer staker_info = true /\ key reserve = reserve_stake p /\
    get_minimum_delegation = Ok dmin /\
    req = saturating_add 64 (minimum_delegation dmin) (minimum_balance rent stake_state_size) /\
    fst (find_stake_program_address program_id (key vote) (key pool) (NonZeroU32_new seed)) = key si /\
    unpack_stake_state (acc_data (account_at (ledger s) (key reserve))) = Ok st /\ state_meta st = Some meta /\
    minimum_reserve_lamports meta <= saturating_sub (acc_lamports (account_at (ledger s) (key reserve))) req /\
    invokes (mkRState (ledger s) (key li :: borrowed s) (cpi_log s))
      [SystemAllocate (key si) stake_state_size; SystemAssign (key si) stake_program_id;
       StakeSplit (key reserve) (key auth) req (key si); StakeDelegate (key si) (key auth) (key vote)] s1 /\
    list_at s' (key li) h (xs ++ [new_entry (key vote) req c seed]) /\
    ~ In (key vote) (votes xs) /\ Z.of_nat (length xs) < MAX_VALIDATORS_IN_POOL /\
    (NoDup (votes xs) -> NoDup (votes (xs ++ [new_entry (key vote) req c seed]))) /\
    exists d, s' = set_data (key li) d s1.
Proof. apply add_validator_run. Qed.

(** The transient stake that a removal has to deactivate: the entry records
    transient lamports, and the transient account holds a delegated stake that the
    pool controls and that is not deactivating yet. *)
Definition transient_to_stop (l : Ledger) (p : StakePool) (auth ti : Pubkey) (v : ValidatorStakeInfo) : bool :=
  (0 <? transient_stake_lamports v) &&
  match unpack_stake_state (acc_data (account_at l ti)) with
  | Ok (StakeStake m g) =>
      key_eqb (auth_staker (authorized m)) auth && key_eqb (auth_withdrawer (authorized m)) auth &&
      bool_decide (meta_lockup m = lockup p) && (deactivation_epoch g =? u64_max)
  | _ => false
  end.

Lemma attempt_stake_state i s o s' :
  attempt (get_stake_state i) s = Ok (o, s') ->
  o = match unpack_stake_state (acc_data (account_at (ledger s) (key i))) with
      | Ok (StakeStake m g) => Some (m, g)
      | _ => None
      end.
Proof.
  unfold attempt, get_stake_state, borrow_data, mbind, lift, mret, mfail.
  destruct (is_borrowed _ _); [done|]. destruct (unpack_stake_state _) as [[]| |]; cbn; congruence.
Qed.

Lemma remove_transient_Ok p k vote v ti ai ci s st s' :
  remove_transient program_id p k vote v ti ai ci s = Ok (st, s') ->
  st = (if 0 <? transient_stake_lamports v then DeactivatingAll else DeactivatingValidator) /\
  invokes s (when (transient_to_stop (ledger s) p (key ai) (key ti) v) (StakeDeactivate (key ti) (key ai))) s' /\
  (0 < transient_stake_lamports v ->
     fst (find_transient_stake_program_address program_id vote k (transient_seed_suffix v)) = key ti).
Proof.
  unfold remove_transient, transient_to_stop. destruct (Z.ltb_spec 0 (transient_stake_lamports v)) as [Hp|Hp].
  2:{ intros [-> ->]%mret_Ok. split; [done|]. split; [constructor | lia]. }
  intros H1. apply mbind_Ok in H1 as (b & s1 & Ha & H1). apply check_transient_stake_address_Ok in Ha as (-> & Ha & _).
  apply mbind_Ok in H1 as (o & s1 & Ho & H1). pose proof (read_only _ _ _ Ho) as ->. apply attempt_stake_state in Ho.
  apply mbind_Ok in H1 as (u & s1 & Hd & H1). minv_leaf H1. split; [done|]. split; [|done]. cbn [andb].
  destruct (unpack_stake_state _) as [[]| |]; try (minv_leaf Hd; constructor).
  to_invokes Hd. exact Hd.
Qed.

Lemma forget_preferred_none vote p :
  preferred_deposit_validator_vote_address (forget_preferred vote p) <> Some vote /\
  preferred_withdraw_validator_vote_address (forget_preferred vote p) <> Some vote.
Proof.
  assert (Hk : forall o, opt_key_eqb o vote = false -> o <> Some vote).
  { intros o E ->. simpl in E. by rewrite key_eqb_refl in E. }
  unfold forget_preferred.
  destruct (opt_key_eqb (preferred_deposit_validator_vote_address p) vote) eqn:E1;
    destruct (opt_key_eqb (preferred_withdraw_validator_vote_address _) vote) eqn:E2; simpl in *; auto.
Qed.

(** The run of the handler: [remove_validator_correct] below. *)
Lemma remove_validator_run accounts s r s' h xs :
  process_remove_validator_from_pool program_id accounts s = Ok (r, s') -> wf_ledger (ledger s) ->
  (forall li, accounts !! 3%nat = Some li -> list_at s (key li) h xs) ->
  exists pool staker_info auth li si ti rest p m g v ys zs s1,
    accounts = pool :: staker_info :: auth :: li :: si :: ti :: rest /\
    pool_at program_id (ledger s) (key pool) p /\
    key staker_info = staker p /\ is_signer staker_info = true /\
    unpack_stake_state (acc_data (account_at (ledger s) (key si))) = Ok (StakeStake m g) /\
    xs = ys ++ v :: zs /\ status v = status_byte Active /\ vote_account_address v = voter_pubkey g /\
    source_address program_id (key pool) v SourceActive = key si /\
    create_program_address [enc pubkey (key pool); AUTHORITY_WITHDRAW; [stake_withdraw_bump_seed p]] program_id
      = Ok (key auth) /\
    (0 < transient_stake_lamports v -> source_address program_id (key pool) v SourceTransient = key ti) /\
    invokes (mkRState (ledger s) (key li :: borrowed s) (cpi_log s))
      (when (transient_to_stop (ledger s) p (key auth) (key ti) v) (StakeDeactivate (key ti) (key auth)) ++
       when (deactivation_epoch g =? u64_max) (StakeDeactivate (key si) (key auth))) s1 /\
    cpi_log s' = cpi_log s1 /\
    stored_pool s' (key pool) = Ok (forget_preferred (vote_account_address v) p) /\
    preferred_deposit_validator_vote_address (forget_preferred (vote_account_address v) p)
      <> Some (vote_account_address v) /\
    preferred_withdraw_validator_vote_address (forget_preferred (vote_account_address v) p)
      <> Some (vote_account_address v) /\
    list_at s' (key li) h
      (ys ++ set_status (status_byte
         (if 0 <? transient_stake_lamports v then DeactivatingAll else DeactivatingValidator)) v :: zs) /\
    exists d d', s' = set_data (key pool) d' (set_data (key li) d s1).
Proof.
  intros H Hw Hl0. unfold process_remove_validator_from_pool in H. do 9 mopen H.
  match type of Hl0 with forall _, (_ :: _ :: _ :: ?linfo :: _) !! _ = _ -> _ => pose proof (Hl0 linfo eq_refl) as Hl; clear Hl0 end.
  do 6 mopen H. apply mbind_Ok in H as (hd & sb & Hload & H).
  apply (load_validator_list_Ok _ _ _ _ _ _ _ Hload) in Hl as (-> & _ & _ & Hnb & -> & Hl).
  mopen H. match goal with H : get_stake_state _ _ = _ |- _ => apply get_stake_state_Ok in H; rename H into Hg end.
  match type of Hg with _ = Ok (StakeStake _ ?gg) => rename gg into g end.
  assert (Hvote : in_range 256 (voter_pubkey g)).
  { eapply unpack_types; [|exact Hg]. by apply (wf_ledger_at _ _ Hw). }
  apply mbind_Ok in H as (f & s1 & Hf & H).
  apply (list_find_mut_Ok _ _ _ _ _ _ _ _ Hl (memcmp_decides _ Hvote)) in Hf as [-> Hf].
  destruct f as [[off x]|]; [|mopen H; done]. mopen H.
  match goal with E : Some (_, _) = Some _ |- _ => injection E as <- <- end.
  destruct Hf as (ys & zs & -> & Hx & _ & Hwx & Hstore). apply key_eqb_eq in Hx.
  apply mbind_Ok in H as (u & s1 & Haddr & H). apply check_validator_stake_address_Ok in Haddr as [-> Haddr].
  mopen H. apply mbind_Ok in H as (st & s1 & Ht & H). apply remove_transient_Ok in Ht as (-> & Hi1 & Htp).
  mopen H. match goal with H : mwhen _ _ _ = _ |- _ => to_invokes H; rename H into Hi2 end.
  pose proof (invokes_app _ _ _ _ _ Hi1 Hi2) as Hi.
  match type of Hi with invokes _ _ ?sx => rename sx into sf end.
  pose proof (invokes_log _ _ _ Hi) as [_ Hbor]. cbn [borrowed] in Hbor.
  apply mbind_Ok in H as (u' & sl & Hst & H). apply Hstore in Hst as [Hlist [ld ->]].
  2:{ auto with sp_math. }
  2:{ by apply (invokes_borrowed _ _ _ _ Hi); left. }
  minv_leaf H. check_facts. cbn [ledger] in *.
  match goal with H : pool_at _ _ (key a) ?q |- _ => rename q into p; pose proof (pool_at_wf _ _ _ _ Hw H) as Hwf end.
  assert (Hne : key a <> key a2).
  { apply (borrowed_ne (set_data (key a2) ld sf)); [cbn [set_data borrowed]; rewrite Hbor; by left | assumption]. }
  exists a, a0, a1, a2, a3, a4. do 4 eexists. exists x, ys, zs, sf. split; [reflexivity|].
  split; [eassumption|]. split; [eassumption|]. split; [assumption|]. split; [exact Hg|]. split; [reflexivity|].
  split; [assumption|]. split; [exact Hx|]. cbn [source_address]. rewrite Hx. split; [exact Haddr|].
  split; [eassumption|]. split; [exact Htp|]. split; [exact Hi|]. split; [done|].
  split; [by apply stored_after_write; [apply wf_forget_preferred|]|].
  destruct (forget_preferred_none (voter_pubkey g) p) as [F1 F2]. split; [exact F1|]. split; [exact F2|].
  split; [|eauto]. eapply list_at_same; [|exact Hlist]. by rewrite set_data_at_ne.
Qed.

(** C27: a successful [RemoveValidatorFromPool] was signed by the staker and concerns
    an active entry whose stake account is at its derived address (and whose transient
    account is, when the entry records transient lamports). It invokes exactly these
    deactivations under the pool's withdraw authority: of the transient stake when
    there is one, under the pool's control and not deactivating yet, and of the
    validator's stake when that is not deactivating yet. It moves
    the entry to [DeactivatingAll] exactly when transient lamports remain and to
    [DeactivatingValidator] otherwise, leaves every other entry alone, and leaves no
    preference for the removed validator in the pool. *)
Theorem remove_validator_correct accounts s r s' h xs :
  process_remove_validator_from_pool program_id accounts s = Ok (r, s') -> wf_ledger (ledger s) ->
  (forall li, accounts !! 3%nat = Some li -> list_at s (key li) h xs) ->
  exists pool staker_info auth li si ti rest p m g v ys zs s1,
    accounts = pool :: staker_info :: auth :: li :: si :: ti :: rest /\
    pool_at program_id (ledger s) (key pool) p /\
    key staker_info = staker p /\ is_signer staker_info = true /\
    unpack_stake_state (acc_data (account_at (ledger s) (key si))) = Ok (StakeStake m g) /\
    xs = ys ++ v :: zs /\ status v = status_byte Active /\ vote_account_address v = voter_pubkey g /\
    source_address program_id (key pool) v SourceActive = key si /\
    create_program_address [enc pubkey (key pool); AUTHORITY_WITHDRAW; [stake_withdraw_bump_seed p]] program_id
      = Ok (key auth) /\
    (0 < transient_stake_lamports v -> source_address program_id (key pool) v SourceTransient = key ti) /\
    invokes (mkRState (ledger s) (key li :: borrowed s) (cpi_log s))
      (when (transient_to_stop (ledger s) p (key auth) (key ti) v) (StakeDeactivate (key ti) (key auth)) ++
       when (deactivation_epoch g =? u64_max) (StakeDeactivate (key si) (key auth))) s1 /\
    cpi_log s' = cpi_log s1 /\
    stored_pool s' (key pool) = Ok (forget_preferred (vote_account_address v) p) /\
    preferred_deposit_validator_vote_address (forget_preferred (vote_account_address v) p)
      <> Some (vote_account_address v) /\
    preferred_withdraw_validator_vote_address (forget_preferred (vote_account_address v) p)
      <> Some (vote_account_address v) /\
    list_at s' (key li) h
      (ys ++ set_status (status_byte
         (if 0 <? transient_stake_lamports v then DeactivatingAll else DeactivatingValidator)) v :: zs) /\
    exists d d', s' = set_data (key pool) d' (set_data (key li) d s1).
Proof. apply remove_validator_run. Qed.
End ValidatorsRuns.

(** ** The concrete pool adds a validator and removes its first one *)
Definition toy_new_vote : Pubkey := 40.
Definition toy_new_stake : Pubkey :=
  fst (find_stake_program_address (RT := toy) toy_program toy_new_vote toy_pool_key None).
Definition toy_add_accounts : list AccountInfo :=
  [plain toy_pool_key; signer toy_staker; plain toy_reserve_key; plain toy_authority; plain toy_list_key;
   plain toy_new_stake; plain toy_new_vote; plain 1; plain 2; plain 3; plain 4; plain toy_system;
   plain toy_stake_program].
Definition toy_add_run : outcome (unit * RState) :=
  process_add_validator_to_pool (RT := toy) toy_program toy_add_accounts 0 toy_state.
Definition toy_remove_accounts : list AccountInfo :=
  [plain toy_pool_key; signer toy_staker; plain toy_authority; plain toy_list_key; plain toy_validator_stake;
   plain 30; plain 1; plain toy_stake_program].
Definition toy_remove_run : outcome (unit * RState) :=
  process_remove_validator_from_pool (RT := toy) toy_program toy_remove_accounts toy_state.


Lemma add_validator_correct_witness :
  is_ok toy_add_run = true /\ NoDup (votes [toy_entry]) /\
  exists li vote req c,
    list_at (RT := toy) (final toy_state toy_add_run) (key li) toy_header
      ([toy_entry] ++ [new_entry (key vote) req c 0]) /\
    ~ In (key vote) (votes [toy_entry]) /\
    NoDup (votes ([toy_entry] ++ [new_entry (key vote) req c 0])).
Proof.
  assert (H : is_ok toy_add_run = true) by (vm_compute; reflexivity). split; [exact H|].
  assert (Hn : NoDup (votes [toy_entry])) by apply list.NoDup_singleton. split; [exact Hn|].
  destruct (add_validator_correct (RT := toy) toy_program toy_add_accounts 0 toy_state tt _ toy_header
    [toy_entry] (ran toy_state _ H)) as (pool & st & re & au & li & si & vote & rest & p & dmin & rent & c & req & sst & meta & s1 & Rest).
  - unfold in_range. lia.
  - apply List.Forall_forall. intros i Hi. unfold in_range.
    assert (Hb : forallb (fun i => (0 <=? key i) && (key i <? 2 ^ 256)) toy_add_accounts = true)
      by (vm_compute; reflexivity).
    rewrite forallb_forall in Hb. apply Hb in Hi. lia.
  - intros li E. injection E as <-. exact toy_list_at.
  - skip 12 Rest; destruct Rest as (Hl & Hf & Rest); skip 1 Rest; destruct Rest as (Hnd & Rest).
    exists li, vote, req, c. auto.
Defined.

Lemma remove_validator_correct_witness :
  is_ok toy_remove_run = true /\
  exists pool li p v ys zs,
    stored_pool (RT := toy) (final toy_state toy_remove_run) (key pool) =
      Ok (forget_preferred (vote_account_address v) p) /\
    [toy_entry] = ys ++ v :: zs /\
    list_at (RT := toy) (final toy_state toy_remove_run) (key li) toy_header
      (ys ++ set_status (status_byte
         (if 0 <? transient_stake_lamports v then DeactivatingAll else DeactivatingValidator)) v :: zs).
Proof.
  assert (H : is_ok toy_remove_run = true) by (vm_compute; reflexivity). split; [exact H|].
  destruct (remove_validator_correct (RT := toy) toy_program toy_remove_accounts toy_state tt _ toy_header
    [toy_entry] (ran toy_state _ H) toy_state_wf) as (pool & st & au & li & si & ti & rest & p & m & g & v & ys & zs & s1 & Rest).
  - intros li E. injection E as <-. exact toy_list_at.
  - skip 5 Rest; destruct Rest as (Hxs & Rest); skip 7 Rest; destruct Rest as (Hp & Rest); skip 2 Rest; destruct Rest as (Hl & _).
    exists pool, li, p, v, ys, zs. auto.
Defined.
