(* ===== verification/Rebalance.v ===== *)
(** * Moving stake between the reserve and a validator (program/src/processor.rs)
    [DecreaseValidatorStake] and [IncreaseValidatorStake] with their variants: the
    entry's transient account, the optional ephemeral account in between, and the
    entry afterwards. *)
From S2P Require Import Prelude Error Fees State Borsh Layout BigVec Entries Runtime Checks ListAccess WithdrawStake Validators Concrete.

(** [cond.then(|| next_account_info(iter)).transpose()?]. *)
Definition next_if (cond : bool) (it : list AccountInfo) : M (option AccountInfo * list AccountInfo) :=
  if cond then let! (i, it) := next_account_info it in mret (Some i, it) else mret (None, it).

#[export] Instance read_only_next_if c it : ReadOnly (next_if c it).
Proof. unfold next_if. apply _. Qed.

Section Rebalance.
Context `{RT : Runtime}.
Variable program_id : Pubkey.

(** The accounts a rebalancing works on, after they were read from the instruction. *)
Record Rebalancing := mkRebalancing {
  rb_pool : StakePool;
  rb_pool_key : Pubkey;
  rb_authority : AccountInfo;
  rb_validator_stake : AccountInfo;
  rb_transient : AccountInfo;
  rb_ephemeral : option (Z * AccountInfo);
  rb_clock_info : AccountInfo
}.

Definition rb_split (r : Rebalancing) (from : AccountInfo) (lamports : Z) (to : AccountInfo) : M unit :=
  stake_split (rb_pool_key r) from (rb_authority r) AUTHORITY_WITHDRAW
    (stake_withdraw_bump_seed (rb_pool r)) lamports to.
Definition rb_deactivate (r : Rebalancing) (stake : AccountInfo) : M unit :=
  stake_deactivate stake (rb_clock_info r) (rb_authority r) (rb_pool_key r) AUTHORITY_WITHDRAW
    (stake_withdraw_bump_seed (rb_pool r)).
Definition rb_withdraw (r : Rebalancing) (reserve to stake_history : AccountInfo) (lamports : Z) : M unit :=
  stake_withdraw (rb_pool_key r) reserve (rb_authority r) AUTHORITY_WITHDRAW
    (stake_withdraw_bump_seed (rb_pool r)) to (rb_clock_info r) stake_history lamports.
Definition rb_merge (r : Rebalancing) (source stake_history : AccountInfo) : M unit :=
  stake_merge (rb_pool_key r) source (rb_authority r) AUTHORITY_WITHDRAW
    (stake_withdraw_bump_seed (rb_pool r)) (rb_transient r) (rb_clock_info r) stake_history.
Definition rb_delegate (r : Rebalancing) (stake vote stake_history stake_config : AccountInfo) : M unit :=
  stake_delegate stake vote (rb_clock_info r) stake_history stake_config (rb_authority r) (rb_pool_key r)
    AUTHORITY_WITHDRAW (stake_withdraw_bump_seed (rb_pool r)).

(** A new account at the ephemeral or transient address. *)
Definition create_ephemeral (r : Rebalancing) (seed : Z) (info : AccountInfo) : M unit :=
  let! bump := check_ephemeral_stake_address program_id (rb_pool_key r) (key info) seed in
  create_stake_account info (ephemeral_stake_seeds (rb_pool_key r) seed ++ [[bump]]) stake_state_size.
Definition create_transient (r : Rebalancing) (vote : Pubkey) (seed bump : Z) : M unit :=
  create_stake_account (rb_transient r)
    (transient_stake_seeds vote (rb_pool_key r) seed ++ [[bump]]) stake_state_size.

(** A pending transient account may only be added to with its own seed, through an
    ephemeral account, and while it moves in the same direction. *)
Definition check_transient_use (v : ValidatorStakeInfo) (transient_stake_seed : Z)
    (ephemeral_stake_seed : option Z) (check_direction : M unit) : M unit :=
  mwhen (0 <? transient_stake_lamports v)
    (do! fail_if_sp (negb (bool_decide (is_Some ephemeral_stake_seed))) TransientAccountInUse in
     do! fail_if (negb (transient_stake_seed =? transient_seed_suffix v)) InvalidSeeds in
     check_direction).

(** ** Decrease *)
Definition decrease_entry (r : Rebalancing) (validator_list_info : AccountInfo)
    (transient_stake_seed : Z) (ephemeral_stake_seed : option Z) (epoch : Z)
    : M (Meta * Pubkey * nat * ValidatorStakeInfo) :=
  let! (meta, stake) := get_stake_state (rb_validator_stake r) in
  let vote_account_address := voter_pubkey stake in
  let! o := list_find_mut validator_list_info (fun x => memcmp_pubkey x vote_account_address) in
  let! (offset, v) := get_or o ValidatorNotFound in
  do! check_validator_stake_address program_id (rb_pool_key r) (key (rb_validator_stake r))
        vote_account_address (NonZeroU32_new (validator_seed_suffix v)) in
  do! check_transient_use v transient_stake_seed ephemeral_stake_seed
        (check_if_stake_deactivating (rb_transient r) epoch) in
  do! fail_if_sp (negb (status v =? status_byte Active)) ValidatorNotFound in
  mret (meta, vote_account_address, offset, v).

(** The amount must be a delegation, and the validator must keep its minimum; the
    message of the last error computes the maximum and fails first when it underflows. *)
Definition check_decrease_amount (r : Rebalancing) (meta : Meta) (lamports : Z) : M unit :=
  let! stake_minimum_delegation := lift get_minimum_delegation in
  do! fail_if (lamports <? minimum_delegation stake_minimum_delegation) AccountNotRentExempt in
  let! validator_lamports := lamports_of (rb_validator_stake r) in
  let! remaining_lamports := lift (ok_or (checked_sub 64 validator_lamports lamports) InsufficientFunds) in
  let required_lamports := minimum_stake_lamports meta stake_minimum_delegation in
  if remaining_lamports <? required_lamports then
    let! _ := get_or (checked_sub 64 validator_lamports required_lamports) CalculationFailure in
    mfail InsufficientFunds
  else mret tt.

(** The account to move on and the lamports to move: the validator's own account, or
    an ephemeral one that takes them first and is deactivated. *)
Definition decrease_source (r : Rebalancing) (stake_rent lamports : Z)
    (reserve stake_history : option AccountInfo) : M (AccountInfo * Z) :=
  match rb_ephemeral r with
  | None => mret (rb_validator_stake r, lamports)
  | Some (ephemeral_stake_seed, ephemeral) =>
      do! create_ephemeral r ephemeral_stake_seed ephemeral in
      do! match reserve with
          | None => mret tt
          | Some reserve =>
              let! ephemeral_lamports := lamports_of ephemeral in
              let required := saturating_sub stake_rent ephemeral_lamports in
              if 0 <? required then
                let! reserve_lamports := lamports_of reserve in
                do! fail_if_sp (reserve_lamports <=? required) ReserveDepleted in
                let! history := get_or stake_history MissingRequiredSysvar in
                rb_withdraw r reserve ephemeral history required
              else mret tt
          end in
      do! rb_split r (rb_validator_stake r) lamports ephemeral in
      do! rb_deactivate r ephemeral in
      let! split_lamports := lamports_of ephemeral in
      mret (ephemeral, split_lamports)
  end.

(** A new transient account, funded for rent from the reserve unless the whole
    source moves over. *)
Definition decrease_into_new_transient (r : Rebalancing) (vote : Pubkey) (transient_stake_seed bump : Z)
    (source : AccountInfo) (split_lamports stake_rent : Z) (reserve stake_history : option AccountInfo) : M unit :=
  do! create_transient r vote transient_stake_seed bump in
  do! match reserve with
      | None => mret tt
      | Some reserve =>
          let! transient_lamports := lamports_of (rb_transient r) in
          let required_lamports := saturating_sub stake_rent transient_lamports in
          let! source_lamports := lamports_of source in
          if negb (source_lamports =? split_lamports) then
            let! history := get_or stake_history MissingRequiredSysvar in
            let! reserve_lamports := lamports_of reserve in
            do! fail_if_sp (reserve_lamports <=? required_lamports) ReserveDepleted in
            mwhen (0 <? required_lamports) (rb_withdraw r reserve (rb_transient r) history required_lamports)
          else mret tt
      end in
  do! rb_split r source split_lamports (rb_transient r) in
  let! (_, stake) := get_stake_state (rb_transient r) in
  mwhen (deactivation_epoch stake =? u64_max) (rb_deactivate r (rb_transient r)).

(** [maybe_stake_history_info.unwrap()]. *)
Definition unwrap {A} (o : option A) : M A :=
  fun s => match o with Some a => Ok (a, s) | None => Panic end.

Definition decrease_stake (r : Rebalancing) (vote : Pubkey) (v : ValidatorStakeInfo)
    (lamports transient_stake_seed stake_rent : Z) (reserve stake_history : option AccountInfo)
    : M ValidatorStakeInfo :=
  let! (source, split_lamports) := decrease_source r stake_rent lamports reserve stake_history in
  let! bump := check_transient_stake_address program_id (rb_pool_key r) (key (rb_transient r)) vote
                 transient_stake_seed in
  do! (if 0 <? transient_stake_lamports v then
         let! history := unwrap stake_history in rb_merge r source history
       else decrease_into_new_transient r vote transient_stake_seed bump source split_lamports stake_rent
              reserve stake_history) in
  let! active := get_or (checked_sub 64 (active_stake_lamports v) lamports) CalculationFailure in
  let! transient_lamports := lamports_of (rb_transient r) in
  mret (set_transient_seed_suffix transient_stake_seed
          (set_transient_stake_lamports transient_lamports (set_active_stake_lamports active v))).

Definition decrease_validator (r : Rebalancing) (validator_list_info : AccountInfo)
    (lamports transient_stake_seed : Z) (ephemeral_stake_seed : option Z) (epoch stake_rent : Z)
    (reserve stake_history : option AccountInfo) : M unit :=
  let! (meta, vote, offset, v) :=
    decrease_entry r validator_list_info transient_stake_seed ephemeral_stake_seed epoch in
  do! check_decrease_amount r meta lamports in
  let! v := decrease_stake r vote v lamports transient_stake_seed stake_rent reserve stake_history in
  list_store validator_list_info offset v.

Definition process_decrease_validator_stake (accounts : list AccountInfo) (lamports transient_stake_seed : Z)
    (maybe_ephemeral_stake_seed : option Z) (fund_rent_exempt_reserve : bool) : M unit :=
  let! (stake_pool_info, it) := next_account_info accounts in
  let! (staker_info, it) := next_account_info it in
  let! (withdraw_authority_info, it) := next_account_info it in
  let! (validator_list_info, it) := next_account_info it in
  let! (maybe_reserve_stake_info, it) := next_if fund_rent_exempt_reserve it in
  let! (validator_stake_account_info, it) := next_account_info it in
  let with_ephemeral := bool_decide (is_Some maybe_ephemeral_stake_seed) in
  let! (maybe_ephemeral_stake_account_info, it) := next_if with_ephemeral it in
  let! (transient_stake_account_info, it) := next_account_info it in
  let! (clock_info, it) := next_account_info it in
  let! clock := clock_of clock_info in
  let! (rent, maybe_stake_history_info, it) :=
    if with_ephemeral || fund_rent_exempt_reserve then
      let! rent := lift Rent_get in
      let! (i, it) := next_account_info it in mret (rent, Some i, it)
    else
      let! (rent_info, it) := next_account_info it in
      let! rent := rent_of rent_info in mret (rent, None, it) in
  let! (system_program_info, it) := next_account_info it in
  let! (stake_program_info, it) := next_account_info it in
  do! check_system_program (key system_program_info) in
  do! check_stake_program (key stake_program_info) in
  let! stake_pool := load_stake_pool program_id stake_pool_info in
  do! check_authority_withdraw stake_pool (key withdraw_authority_info) program_id (key stake_pool_info) in
  do! check_staker stake_pool staker_info in
  do! fail_if_sp (last_update_epoch stake_pool <? epoch clock) StakeListAndPoolOutOfDate in
  do! check_validator_list stake_pool validator_list_info in
  let! _ := load_validator_list program_id validator_list_info in
  do! match maybe_reserve_stake_info with
      | Some reserve_stake_info => check_reserve_stake stake_pool reserve_stake_info
      | None => mret tt
      end in
  let r := mkRebalancing stake_pool (key stake_pool_info) withdraw_authority_info validator_stake_account_info
             transient_stake_account_info
             (match maybe_ephemeral_stake_seed, maybe_ephemeral_stake_account_info with
              | Some seed, Some info => Some (seed, info) | _, _ => None end) clock_info in
  decrease_validator r validator_list_info lamports transient_stake_seed maybe_ephemeral_stake_seed
    (epoch clock) (minimum_balance rent stake_state_size) maybe_reserve_stake_info maybe_stake_history_info.

(** ** Increase *)
Definition check_max_validator_stake (stake_pool : StakePool) (v : ValidatorStakeInfo) (lamports : Z) : M unit :=
  match max_validator_stake stake_pool with
  | None => mret tt
  | Some max_stake =>
      let! current_total_stake := lift (stake_lamports v) in
      let! new_total_stake := get_or (checked_add 64 current_total_stake lamports) CalculationFailure in
      fail_if_sp (max_stake <? new_total_stake) ExceedsMaxValidatorStake
  end.

Definition increase_entry (r : Rebalancing) (validator_list_info : AccountInfo) (vote : Pubkey)
    (lamports transient_stake_seed : Z) (ephemeral_stake_seed : option Z) (epoch : Z)
    : M (nat * ValidatorStakeInfo) :=
  let! o := list_find_mut validator_list_info (fun x => memcmp_pubkey x vote) in
  let! (offset, v) := get_or o ValidatorNotFound in
  do! check_transient_use v transient_stake_seed ephemeral_stake_seed
        (check_if_stake_activating (rb_transient r) epoch) in
  do! check_validator_stake_account (rb_validator_stake r) program_id (rb_pool_key r) (key (rb_authority r))
        vote (validator_seed_suffix v) (lockup (rb_pool r)) in
  do! fail_if_sp (negb (status v =? status_byte Active)) ValidatorNotFound in
  do! check_max_validator_stake (rb_pool r) v lamports in
  mret (offset, v).

(** The lamports to split off the reserve: the increase and the rent of its account. *)
Definition increase_amount (reserve : AccountInfo) (lamports stake_rent : Z) : M Z :=
  let! stake_minimum_delegation := lift get_minimum_delegation in
  do! fail_if (lamports <? minimum_delegation stake_minimum_delegation) (Custom InsufficientDelegation) in
  let total_lamports := saturating_add 64 lamports stake_rent in
  let! reserve_lamports := lamports_of reserve in
  do! fail_if (saturating_sub reserve_lamports total_lamports <? stake_rent) InsufficientFunds in
  mret total_lamports.

Definition increase_source (r : Rebalancing) (reserve vote_info stake_history stake_config : AccountInfo)
    (total : Z) : M AccountInfo :=
  match rb_ephemeral r with
  | None => mret reserve
  | Some (ephemeral_stake_seed, ephemeral) =>
      do! create_ephemeral r ephemeral_stake_seed ephemeral in
      do! rb_split r reserve total ephemeral in
      do! rb_delegate r ephemeral vote_info stake_history stake_config in
      mret ephemeral
  end.

Definition increase_into_new_transient (r : Rebalancing) (vote_info stake_history stake_config source : AccountInfo)
    (transient_stake_seed bump total epoch : Z) : M unit :=
  do! create_transient r (key vote_info) transient_stake_seed bump in
  do! rb_split r source total (rb_transient r) in
  let! data := borrow_data (rb_transient r) in
  let! stake_state := lift (unpack_stake_state data) in
  match stake_state with
  | StakeStake _ stake =>
      if activation_epoch stake <=? epoch then mret tt
      else rb_delegate r (rb_transient r) vote_info stake_history stake_config
  | _ => rb_delegate r (rb_transient r) vote_info stake_history stake_config
  end.

Definition increase_stake (r : Rebalancing) (reserve vote_info stake_history stake_config : AccountInfo)
    (v : ValidatorStakeInfo) (total transient_stake_seed epoch : Z) : M ValidatorStakeInfo :=
  let! source := increase_source r reserve vote_info stake_history stake_config total in
  let! bump := check_transient_stake_address program_id (rb_pool_key r) (key (rb_transient r)) (key vote_info)
                 transient_stake_seed in
  do! (if 0 <? transient_stake_lamports v then rb_merge r source stake_history
       else increase_into_new_transient r vote_info stake_history stake_config source
              transient_stake_seed bump total epoch) in
  let! transient := get_or (checked_add 64 (transient_stake_lamports v) total) CalculationFailure in
  mret (set_transient_seed_suffix transient_stake_seed (set_transient_stake_lamports transient v)).

Definition increase_validator (r : Rebalancing)
    (validator_list_info reserve vote_info stake_history stake_config : AccountInfo)
    (lamports transient_stake_seed : Z) (ephemeral_stake_seed : option Z) (epoch stake_rent : Z) : M unit :=
  let! (offset, v) := increase_entry r validator_list_info (key vote_info) lamports
                        transient_stake_seed ephemeral_stake_seed epoch in
  let! total_lamports := increase_amount reserve lamports stake_rent in
  let! v := increase_stake r reserve vote_info stake_history stake_config v total_lamports
              transient_stake_seed epoch in
  list_store validator_list_info offset v.

Definition process_increase_validator_stake (accounts : list AccountInfo) (lamports transient_stake_seed : Z)
    (maybe_ephemeral_stake_seed : option Z) : M unit :=
  let! (stake_pool_info, it) := next_account_info accounts in
  let! (staker_info, it) := next_account_info it in
  let! (withdraw_authority_info, it) := next_account_info it in
  let! (validator_list_info, it) := next_account_info it in
  let! (reserve_stake_account_info, it) := next_account_info it in
  let with_ephemeral := bool_decide (is_Some maybe_ephemeral_stake_seed) in
  let! (maybe_ephemeral_stake_account_info, it) := next_if with_ephemeral it in
  let! (transient_stake_account_info, it) := next_account_info it in
  let! (validator_stake_account_info, it) := next_account_info it in
  let! (validator_vote_account_info, it) := next_account_info it in
  let! (clock_info, it) := next_account_info it in
  let! clock := clock_of clock_info in
  let! (rent, it) :=
    if with_ephemeral then let! rent := lift Rent_get in mret (rent, it)
    else let! (rent_info, it) := next_account_info it in let! rent := rent_of rent_info in mret (rent, it) in
  let! (stake_history_info, it) := next_account_info it in
  let! (stake_config_info, it) := next_account_info it in
  let! (system_program_info, it) := next_account_info it in
  let! (stake_program_info, it) := next_account_info it in
  do! check_system_program (key system_program_info) in
  do! check_stake_program (key stake_program_info) in
  let! stake_pool := load_stake_pool program_id stake_pool_info in
  do! check_authority_withdraw stake_pool (key withdraw_authority_info) program_id (key stake_pool_info) in
  do! check_staker stake_pool staker_info in
  do! fail_if_sp (last_update_epoch stake_pool <? epoch clock) StakeListAndPoolOutOfDate in
  do! check_validator_list stake_pool validator_list_info in
  do! check_reserve_stake stake_pool reserve_stake_account_info in
  let! _ := load_validator_list program_id validator_list_info in
  let r := mkRebalancing stake_pool (key stake_pool_info) withdraw_authority_info validator_stake_account_info
             transient_stake_account_info
             (match maybe_ephemeral_stake_seed, maybe_ephemeral_stake_account_info with
              | Some seed, Some info => Some (seed, info) | _, _ => None end) clock_info in
  increase_validator r validator_list_info reserve_stake_account_info validator_vote_account_info
    stake_history_info stake_config_info lamports transient_stake_seed maybe_ephemeral_stake_seed
    (epoch clock) (minimum_balance rent stake_state_size).
End Rebalance.

(** ** What a rebalancing invokes *)
Section RebalanceRuns.
Context `{RT : Runtime} `{!RuntimeLaws RT}.
Variable program_id : Pubkey.

(** The derived addresses of a rebalancing: the transient account of a vote account
    and seed, the ephemeral account of a seed. *)
Definition transient_address (k vote : Pubkey) (seed : Z) : Pubkey :=
  fst (find_transient_stake_program_address program_id vote k seed).
Definition ephemeral_address (k : Pubkey) (seed : Z) : Pubkey :=
  fst (find_ephemeral_stake_program_address program_id k seed).

Definition create_ixs (k : Pubkey) : list Cpi :=
  [SystemAllocate k stake_state_size; SystemAssign k stake_program_id].

Lemma check_ephemeral_stake_address_Ok k a seed s b s' :
  check_ephemeral_stake_address program_id k a seed s = Ok (b, s') ->
  s' = s /\ ephemeral_address k seed = a.
Proof.
  unfold check_ephemeral_stake_address, ephemeral_address.
  destruct (find_ephemeral_stake_program_address _ _ _). intros H. mopen H. minv_leaf H. check_facts. done.
Qed.

Lemma create_ephemeral_Ok r seed i s u s' :
  create_ephemeral program_id r seed i s = Ok (u, s') ->
  ephemeral_address (rb_pool_key r) seed = key i /\ invokes s (create_ixs (key i)) s'.
Proof.
  unfold create_ephemeral. intros (b & s1 & Ha & H)%mbind_Ok.
  apply check_ephemeral_stake_address_Ok in Ha as [-> Ha]. to_invokes H. done.
Qed.

Lemma create_transient_Ok r vote seed bump s u s' :
  create_transient r vote seed bump s = Ok (u, s') -> invokes s (create_ixs (key (rb_transient r))) s'.
Proof. unfold create_transient. intros H. by to_invokes H. Qed.

Lemma check_transient_use_Ok v seed eph m s u s' `{!ReadOnly m} :
  check_transient_use v seed eph m s = Ok (u, s') ->
  s' = s /\ (0 < transient_stake_lamports v ->
    is_Some eph /\ seed = transient_seed_suffix v /\ exists w, m s = Ok (w, s)).
Proof.
  unfold check_transient_use, mwhen. destruct (Z.ltb_spec 0 (transient_stake_lamports v)).
  2:{ intros [_ ->]%mret_Ok. split; [done | lia]. }
  intros H1. mopen H1. mopen H1. pose proof (read_only _ _ _ H1) as ->. check_facts.
  match goal with H : bool_decide _ = true |- _ => apply bool_decide_eq_true in H end. split; [done|]. eauto.
Qed.

(** Rent taken from the reserve for a new account: [n] lamports, none when [n] is 0. *)
Definition rent_top_up (r : Rebalancing) (reserve : option AccountInfo) (to : Pubkey) (n : Z) : list Cpi :=
  match reserve with
  | Some i => when (0 <? n) (StakeWithdraw (key i) (key (rb_authority r)) to n)
  | None => []
  end.

(** The account the stake is moved on from and the lamports moved: the validator's own,
    or an ephemeral account, topped up to [rent] from the reserve, to which they are
    split off and which is deactivated; it moves on as a whole. *)
Definition decrease_source_moves (r : Rebalancing) (reserve : option AccountInfo) (rent n : Z) (s : RState)
    (src : AccountInfo) (k : Z) (ixs : list Cpi) (s' : RState) : Prop :=
  match rb_ephemeral r with
  | None => src = rb_validator_stake r /\ k = n /\ ixs = [] /\ s' = s
  | Some (seed, e) =>
      src = e /\ ephemeral_address (rb_pool_key r) seed = key e /\
      k = acc_lamports (account_at (ledger s') (key e)) /\
      exists s1,
        let moved := rent_top_up r reserve (key e)
                       (saturating_sub rent (acc_lamports (account_at (ledger s1) (key e)))) ++
                     [StakeSplit (key (rb_validator_stake r)) (key (rb_authority r)) n (key e);
                      StakeDeactivate (key e) (key (rb_authority r))] in
        invokes s (create_ixs (key e)) s1 /\ invokes s1 moved s' /\ ixs = create_ixs (key e) ++ moved
  end.

(** A new transient account takes [k] lamports of [src], topped up to [rent] from the
    reserve unless [src] holds no more than these, and is deactivated unless the stake
    split off already was. *)
Definition decrease_new_transient_moves (r : Rebalancing) (reserve : option AccountInfo) (rent : Z) (s : RState)
    (src : AccountInfo) (k : Z) (ixs : list Cpi) (s' : RState) : Prop :=
  let tr := key (rb_transient r) in
  exists s1 s2 m g,
    let top := if acc_lamports (account_at (ledger s1) (key src)) =? k then 0
               else saturating_sub rent (acc_lamports (account_at (ledger s1) tr)) in
    let moved := rent_top_up r reserve tr top ++ [StakeSplit (key src) (key (rb_authority r)) k tr] in
    let wound_down := when (deactivation_epoch g =? u64_max) (StakeDeactivate tr (key (rb_authority r))) in
    invokes s (create_ixs tr) s1 /\ invokes s1 moved s2 /\
    unpack_stake_state (acc_data (account_at (ledger s2) tr)) = Ok (StakeStake m g) /\
    invokes s2 wound_down s' /\ ixs = create_ixs tr ++ moved ++ wound_down.

(** The invocations that move [n] lamports of a validator to its transient account:
    through the ephemeral account if there is one, merged into the transient account
    if it holds stake already. *)
Definition decrease_moves (r : Rebalancing) (reserve : option AccountInfo) (rent n : Z) (v : ValidatorStakeInfo)
    (s : RState) (ixs : list Cpi) (s' : RState) : Prop :=
  exists src k pre post s1, ixs = pre ++ post /\
    decrease_source_moves r reserve rent n s src k pre s1 /\
    if 0 <? transient_stake_lamports v
    then post = [StakeMerge (key (rb_transient r)) (key src) (key (rb_authority r))] /\ invokes s1 post s'
    else decrease_new_transient_moves r reserve rent s1 src k post s'.

Lemma decrease_source_Ok r rent n reserve history s src k s' :
  decrease_source program_id r rent n reserve history s = Ok ((src, k), s') ->
  exists ixs, decrease_source_moves r reserve rent n s src k ixs s'.
Proof.
  unfold decrease_source, decrease_source_moves. destruct (rb_ephemeral r) as [[seed e]|].
  2:{ intros [E ->]%mret_Ok. injection E as -> ->. by exists []. }
  intros H1. apply mbind_Ok in H1 as (u & s1 & H2 & H1). apply create_ephemeral_Ok in H2 as [Ha Hi].
  apply mbind_Ok in H1 as (u' & s2 & H2 & H1). apply mbind_Ok in H1 as (u'' & s3 & H3 & H1).
  unfold rb_split in H3. to_invokes H3. apply mbind_Ok in H1 as (u3 & s4 & H4 & H1).
  unfold rb_deactivate in H4. to_invokes H4. mopen H1. minv_leaf H1.
  match goal with H : (_, _) = (_, _) |- _ => injection H as -> -> end.
  eexists. do 3 (split; [done|]). exists s1. cbv zeta. split; [exact Hi|]. split; [|reflexivity].
  refine (invokes_app _ _ _ _ _ _ (invokes_app _ [_] _ [_] _ H3 H4)).
  destruct reserve as [rk|]; [|apply mret_Ok in H2 as [_ ->]; constructor].
  mopen H2. cbv zeta in H2. unfold rent_top_up. destruct (0 <? _) eqn:Eb; [|apply mret_Ok in H2 as [_ ->]; constructor].
  do 3 mopen H2. unfold rb_withdraw in H2. by to_invokes H2.
Qed.

Lemma decrease_into_new_transient_Ok r vote seed bump src k rent reserve history s u s' :
  decrease_into_new_transient r vote seed bump src k rent reserve history s = Ok (u, s') ->
  exists ixs, decrease_new_transient_moves r reserve rent s src k ixs s'.
Proof.
  unfold decrease_into_new_transient, decrease_new_transient_moves. intros H1.
  apply mbind_Ok in H1 as (u1 & s1 & Hi & H1). apply create_transient_Ok in Hi.
  apply mbind_Ok in H1 as (u2 & s2 & H2 & H1). apply mbind_Ok in H1 as (u3 & s3 & H3 & H1).
  unfold rb_split in H3. to_invokes H3. apply mbind_Ok in H1 as ([m g] & s4 & Hg & H1).
  pose proof (read_only _ _ _ Hg) as ->. apply get_stake_state_Ok in Hg. to_invokes H1.
  eexists. exists s1, s3, m, g. cbv zeta. split; [exact Hi|]. split; [|split; [exact Hg|]; split; [exact H1 | reflexivity]].
  refine (invokes_app _ _ _ _ _ _ H3).
  destruct reserve as [rk|]; [|apply mret_Ok in H2 as [_ ->]; constructor].
  do 2 mopen H2. cbv zeta in H2. unfold rent_top_up.
  destruct (_ =? k) in H2 |- *; cbn [negb] in H2; [apply mret_Ok in H2 as [_ ->]; constructor|].
  do 3 mopen H2. by to_invokes H2.
Qed.

Lemma decrease_source_invokes r reserve rent n s src k ixs s' :
  decrease_source_moves r reserve rent n s src k ixs s' -> invokes s ixs s'.
Proof.
  unfold decrease_source_moves. destruct (rb_ephemeral r) as [[seed e]|].
  - intros (_ & _ & _ & s1 & Hc & Hm & ->). by eapply invokes_app.
  - intros (_ & _ & -> & ->). constructor.
Qed.
Lemma decrease_moves_invokes r reserve rent n v s ixs s' :
  decrease_moves r reserve rent n v s ixs s' -> invokes s ixs s'.
Proof.
  intros (src & k & pre & post & s1 & -> & Hs%decrease_source_invokes & Hp). eapply invokes_app; [exact Hs|].
  destruct (0 <? _); [apply Hp|]. destruct Hp as (s2 & s3 & m & g & Hc & Hm & _ & Hw & ->).
  by repeat (eapply invokes_app; [eassumption|]).
Qed.

Definition decreased_entry (n seed transient : Z) (v : ValidatorStakeInfo) : ValidatorStakeInfo :=
  set_transient_seed_suffix seed (set_transient_stake_lamports transient
    (set_active_stake_lamports (active_stake_lamports v - n) v)).

Lemma decrease_stake_Ok r vote v n seed rent reserve history s y s' :
  decrease_stake program_id r vote v n seed rent reserve history s = Ok (y, s') ->
  transient_address (rb_pool_key r) vote seed = key (rb_transient r) /\
  in_range 64 (active_stake_lamports v - n) /\
  y = decreased_entry n seed (acc_lamports (account_at (ledger s') (key (rb_transient r)))) v /\
  exists ixs, decrease_moves r reserve rent n v s ixs s'.
Proof.
  unfold decrease_stake. intros H1. apply mbind_Ok in H1 as ([src k] & s1 & Hs & H1).
  apply decrease_source_Ok in Hs as [pre Hs].
  apply mbind_Ok in H1 as (b & s2 & Ha & H1). apply check_transient_stake_address_Ok in Ha as (-> & Ha & _).
  apply mbind_Ok in H1 as (u & s3 & H2 & H1). do 2 mopen H1. minv_leaf H1. checked_inv.
  split; [done|]. split; [done|]. split; [done|]. unfold decrease_moves. destruct (0 <? transient_stake_lamports v).
  - apply mbind_Ok in H2 as (hi & s4 & H3 & H2). unfold unwrap in H3. destruct history; [|done].
    apply Ok_inj in H3. injection H3 as <- <-. unfold rb_merge in H2. to_invokes H2.
    eexists _, src, k, pre, _, s1. split; [reflexivity|]. split; [exact Hs|]. by split.
  - apply decrease_into_new_transient_Ok in H2 as [post H2]. eexists _, src, k, pre, post, s1. by split.
Qed.

Lemma check_decrease_amount_Ok r m n s u s' :
  check_decrease_amount r m n s = Ok (u, s') ->
  s' = s /\ exists dmin, get_minimum_delegation = Ok dmin /\ minimum_delegation dmin <= n /\
    minimum_stake_lamports m dmin <= acc_lamports (account_at (ledger s) (key (rb_validator_stake r))) - n.
Proof.
  unfold check_decrease_amount. intros H1. do 4 mopen H1. cbv zeta in H1.
  match goal with H : ok_or _ _ = Ok _ |- _ => apply ok_or_Ok in H end. checked_inv.
  destruct (_ <? minimum_stake_lamports _ _) eqn:Er in H1; [mopen H1; done|].
  apply mret_Ok in H1 as [_ ->]. check_facts. split; [done|]. eauto.
Qed.

Lemma decrease_entry_Ok r li seed eph ep s m vote off v s' h xs :
  decrease_entry program_id r li seed eph ep s = Ok ((m, vote, off, v), s') ->
  wf_ledger (ledger s) -> list_at s (key li) h xs ->
  s' = s /\ (exists g, unpack_stake_state (acc_data (account_at (ledger s) (key (rb_validator_stake r)))) =
      Ok (StakeStake m g) /\ vote = voter_pubkey g) /\
  vote_account_address v = vote /\ status v = status_byte Active /\ wf vsi_codec v /\
  source_address program_id (rb_pool_key r) v SourceActive = key (rb_validator_stake r) /\
  (0 < transient_stake_lamports v -> is_Some eph /\ seed = transient_seed_suffix v /\
     exists w, check_if_stake_deactivating (rb_transient r) ep s = Ok (w, s)) /\
  exists ys zs, xs = ys ++ v :: zs /\
    forall y s1 r s2, wf vsi_codec y ->
      account_at (ledger s1) (key li) = account_at (ledger s) (key li) ->
      list_store li off y s1 = Ok (r, s2) ->
      list_at s2 (key li) h (ys ++ y :: zs) /\ exists d, s2 = set_data (key li) d s1.
Proof.
  unfold decrease_entry. intros H1 Hw Hl. mopen H1.
  match goal with H : get_stake_state _ _ = _ |- _ => apply get_stake_state_Ok in H; rename H into Hg end.
  match type of Hg with _ = Ok (StakeStake _ ?gg) => rename gg into g end.
  assert (Hvote : in_range 256 (voter_pubkey g)).
  { eapply unpack_types; [|exact Hg]. by apply (wf_ledger_at _ _ Hw). }
  apply mbind_Ok in H1 as (f & s1 & Hf & H1).
  apply (list_find_mut_Ok _ _ _ _ _ _ _ _ Hl (memcmp_decides _ Hvote)) in Hf as [-> Hf].
  destruct f as [[off' x]|]; [|mopen H1; done]. mopen H1.
  match goal with E : Some (_, _) = Some _ |- _ => injection E as <- <- end.
  destruct Hf as (ys & zs & -> & Hx & _ & Hwx & Hstore). apply key_eqb_eq in Hx.
  apply mbind_Ok in H1 as (u & s1 & Haddr & H1). apply check_validator_stake_address_Ok in Haddr as [-> Haddr].
  apply mbind_Ok in H1 as (u' & s1 & Ht & H1).
  apply check_transient_use_Ok in Ht as [-> Ht]; [|unfold check_if_stake_deactivating; apply _].
  mopen H1. minv_leaf H1. check_facts.
  match goal with H : (_, _, _, _) = _ |- _ => injection H as -> -> -> -> end.
  split; [done|]. split; [eauto|]. split; [done|]. split; [done|]. split; [done|].
  split; [by cbn [source_address]; rewrite Hx|]. split; [exact Ht|]. eauto.
Qed.

Lemma wf_decreased n seed tr v :
  wf vsi_codec v -> in_range 64 (active_stake_lamports v - n) -> in_range 64 seed -> in_range 64 tr ->
  wf vsi_codec (decreased_entry n seed tr v).
Proof. unfold decreased_entry. auto with sp_math. Qed.

(** The optional ephemeral account goes with its seed. *)
Lemma ephemeral_given {A} (seed : option Z) (it it' : list AccountInfo) (o : option AccountInfo) s s' (k : A) :
  next_if (bool_decide (is_Some seed)) it s = Ok ((o, it'), s') ->
  fst <$> (match seed, o with Some e, Some i => Some (e, i) | _, _ => None end) = seed.
Proof.
  destruct seed as [e|]; [|done]. unfold next_if. rewrite bool_decide_true by eauto.
  intros H. do 1 mopen H. minv_leaf H.
  match goal with H : (_, _) = (_, _) |- _ => injection H as -> -> end. done.
Qed.

Lemma next_if_Forall (P : AccountInfo -> Prop) c it s o it' s' :
  next_if c it s = Ok ((o, it'), s') -> Forall P it -> Forall P it'.
Proof.
  unfold next_if. intros H Hit. destruct c; [mopen H|]; minv_leaf H;
    match goal with H : (_, _) = (_, _) |- _ => injection H as -> -> end; [by inversion Hit | done].
Qed.

Lemma reserve_given b it s o it' s' :
  next_if b it s = Ok ((o, it'), s') -> bool_decide (is_Some o) = b.
Proof.
  unfold next_if. destruct b; intros H; [mopen H|]; minv_leaf H;
    match goal with H : (_, _) = (_, _) |- _ => injection H as -> -> end; reflexivity.
Qed.

Lemma decrease_validator_Ok r li n seed eph ep rent reserve history s u s' h xs :
  decrease_validator program_id r li n seed eph ep rent reserve history s = Ok (u, s') ->
  wf_ledger (ledger s) -> in_range 64 seed -> In (key li) (borrowed s) -> list_at s (key li) h xs ->
  exists dmin m g v ys zs ixs s1,
    unpack_stake_state (acc_data (account_at (ledger s) (key (rb_validator_stake r)))) = Ok (StakeStake m g) /\
    xs = ys ++ v :: zs /\ vote_account_address v = voter_pubkey g /\ status v = status_byte Active /\
    source_address program_id (rb_pool_key r) v SourceActive = key (rb_validator_stake r) /\
    transient_address (rb_pool_key r) (vote_account_address v) seed = key (rb_transient r) /\
    (0 < transient_stake_lamports v -> is_Some eph /\ seed = transient_seed_suffix v /\
       exists w, check_if_stake_deactivating (rb_transient r) ep s = Ok (w, s)) /\
    get_minimum_delegation = Ok dmin /\ minimum_delegation dmin <= n <= active_stake_lamports v /\
    minimum_stake_lamports m dmin <= acc_lamports (account_at (ledger s) (key (rb_validator_stake r))) - n /\
    decrease_moves r reserve rent n v s ixs s1 /\ (exists d, s' = set_data (key li) d s1) /\
    list_at s' (key li) h
      (ys ++ decreased_entry n seed (acc_lamports (account_at (ledger s1) (key (rb_transient r)))) v :: zs).
Proof.
  unfold decrease_validator. intros H1 Hw Hseed Hb Hl.
  apply mbind_Ok in H1 as ([[[m vote] off] v] & s1 & He & H1).
  eapply decrease_entry_Ok in He as (-> & (g & Hg & Hvote) & Hv & Hst & Hwv & Hsrc & Htr & ys & zs & -> & Hstore);
    [|done..].
  apply mbind_Ok in H1 as (u1 & s1 & Ha & H1). apply check_decrease_amount_Ok in Ha as (-> & dmin & Hd & Hmin & Hreq).
  apply mbind_Ok in H1 as (y & s1 & Hx & H1).
  apply decrease_stake_Ok in Hx as (Hta & Hact & -> & ixs & Hm). pose proof (decrease_moves_invokes _ _ _ _ _ _ _ _ Hm) as Hi.
  apply Hstore in H1 as [Hlist Hset].
  - exists dmin, m, g, v, ys, zs, ixs, s1. subst vote. repeat (split; [first [assumption | reflexivity]|]).
    rewrite Hv. repeat (split; [first [assumption | unfold in_range in Hact; lia]|]). assumption.
  - apply wf_decreased; try done. by apply wf_ledger_at, (invokes_types _ _ _ Hi).
  - by apply (invokes_borrowed _ _ _ _ Hi).
Qed.

(** The run of the handler: [decrease_correct] below. *)
Lemma decrease_run accounts n seed eph fund s u s' h xs :
  process_decrease_validator_stake program_id accounts n seed eph fund s = Ok (u, s') ->
  wf_ledger (ledger s) -> in_range 64 seed ->
  (forall li, accounts !! 3%nat = Some li -> list_at s (key li) h xs) ->
  exists pool staker_info auth li rest p r reserve c rn dmin m g v ys zs ixs s1,
    accounts = pool :: staker_info :: auth :: li :: rest /\
    pool_at program_id (ledger s) (key pool) p /\ key staker_info = staker p /\ is_signer staker_info = true /\
    key li = validator_list p /\ epoch c <= last_update_epoch p /\
    rb_pool r = p /\ rb_pool_key r = key pool /\ rb_authority r = auth /\ fst <$> rb_ephemeral r = eph /\
    bool_decide (is_Some reserve) = fund /\ (forall i, reserve = Some i -> key i = reserve_stake p) /\
    unpack_stake_state (acc_data (account_at (ledger s) (key (rb_validator_stake r)))) = Ok (StakeStake m g) /\
    xs = ys ++ v :: zs /\ vote_account_address v = voter_pubkey g /\ status v = status_byte Active /\
    source_address program_id (key pool) v SourceActive = key (rb_validator_stake r) /\
    transient_address (key pool) (vote_account_address v) seed = key (rb_transient r) /\
    (0 < transient_stake_lamports v -> is_Some eph /\ seed = transient_seed_suffix v /\
       exists w sb, check_if_stake_deactivating (rb_transient r) (epoch c) sb = Ok (w, sb) /\ ledger sb = ledger s) /\
    get_minimum_delegation = Ok dmin /\ minimum_delegation dmin <= n <= active_stake_lamports v /\
    minimum_stake_lamports m dmin <= acc_lamports (account_at (ledger s) (key (rb_validator_stake r))) - n /\
    (bool_decide (is_Some eph) || fund = true -> Rent_get = Ok rn) /\
    decrease_moves r reserve (minimum_balance rn stake_state_size) n v
      (mkRState (ledger s) (key li :: borrowed s) (cpi_log s)) ixs s1 /\
    invokes (mkRState (ledger s) (key li :: borrowed s) (cpi_log s)) ixs s1 /\
    (exists d, s' = set_data (key li) d s1) /\
    list_at s' (key li) h
      (ys ++ decreased_entry n seed (acc_lamports (account_at (ledger s1) (key (rb_transient r)))) v :: zs).
Proof.
  intros H1 Hw Hseed Hl0. unfold process_decrease_validator_stake in H1. do 4 mopen H1.
  match type of Hl0 with forall _, (_ :: _ :: _ :: ?linfo :: _) !! _ = _ -> _ => pose proof (Hl0 linfo eq_refl) as Hl; clear Hl0 end.
  apply mbind_Ok in H1 as ([o1 it1] & s1 & Hr & H1). pose proof (reserve_given _ _ _ _ _ _ Hr) as Hfund. minv_leaf Hr.
  mopen H1. apply mbind_Ok in H1 as ([o2 it2] & s1 & He & H1).
  pose proof (ephemeral_given (A := unit) _ _ _ _ _ _ tt He) as Heph. minv_leaf He.
  do 2 mopen H1. apply mbind_Ok in H1 as (c & s1 & Hc & H1). minv_leaf Hc.
  apply mbind_Ok in H1 as ([[rent history] it3] & s1 & Hrent & H1).
  assert (Hrn : bool_decide (is_Some eph) || bool_decide (is_Some o1) = true -> Rent_get = Ok rent).
  { intros E. rewrite E in Hrent. mopen Hrent. mopen Hrent. minv_leaf Hrent. congruence. }
  minv_leaf Hrent. cbv beta iota in H1.
  do 9 mopen H1. apply mbind_Ok in H1 as (hd & sb & Hload & H1).
  apply (load_validator_list_Ok _ _ _ _ _ _ _ Hload) in Hl as (-> & _ & _ & Hnb & -> & Hl).
  apply mbind_Ok in H1 as (u1 & s1 & Hres & H1).
  assert (Hres' : s1 = mkRState (ledger s) (key a2 :: borrowed s) (cpi_log s) /\
    forall i, o1 = Some i -> key i = reserve_stake a8).
  { destruct o1 as [i|]; minv_leaf Hres; [check_facts; split; [done | by intros i' [= <-]] | done]. }
  destruct Hres' as [-> Hres'].
  apply (decrease_validator_Ok _ _ _ _ _ _ _ _ _ _ _ _ h xs) in H1
    as (dmin & m & g & v & ys & zs & ixs & s1 & Hg & -> & Hv & Hst & Hsrc & Hta & Htr & Hd & Hmin & Hreq & Hm & Hset & Hlist);
    [|done|done|by left|done].
  check_facts. cbn [rb_pool rb_pool_key rb_authority rb_ephemeral rb_validator_stake rb_transient ledger] in *.
  match type of Hm with decrease_moves ?r _ _ _ _ _ _ _ =>
    exists a, a0, a1, a2; eexists; exists a8, r, o1, c, rent, dmin, m, g, v, ys, zs, ixs, s1 end.
  split; [reflexivity|]. do 4 (split; [eassumption|]). split; [assumption|].
  do 3 (split; [reflexivity|]). split; [exact Heph|]. split; [reflexivity|]. split; [exact Hres'|].
  split; [exact Hg|]. split; [reflexivity|]. do 4 (split; [eassumption|]).
  split; [intros Ht; apply Htr in Ht as (? & ? & ? & ?); eauto 10|].
  do 4 (split; [eassumption|]). split; [exact Hm|]. split; [by eapply decrease_moves_invokes|]. by split.
Qed.

(** C9: a successful decrease of [lamports] was signed by the staker of an up-to-date
    pool and concerns an active entry whose validator and transient accounts are at
    their derived addresses (a pending transient account only with its own seed, an
    ephemeral account, and while deactivating). At least the minimum delegation
    moves, the validator keeps its minimum, and the invocations are exactly those of
    [decrease_moves]: the rent a new account lacks is what the reserve pays for it, the
    stake goes through the ephemeral account as a whole, and what is split off is
    deactivated unless it already was. Of the list only that entry changes: [lamports] leave its active
    stake without underflow, its transient stake is what the transient account then
    holds, and its seed is the one given. *)
Theorem decrease_correct accounts n seed eph fund s u s' h xs :
  process_decrease_validator_stake program_id accounts n seed eph fund s = Ok (u, s') ->
  wf_ledger (ledger s) -> in_range 64 seed ->
  (forall li, accounts !! 3%nat = Some li -> list_at s (key li) h xs) ->
  exists pool staker_info auth li rest p r reserve c rn dmin m g v ys zs ixs s1,
    accounts = pool :: staker_info :: auth :: li :: rest /\
    pool_at program_id (ledger s) (key pool) p /\ key staker_info = staker p /\ is_signer staker_info = true /\
    key li = validator_list p /\ epoch c <= last_update_epoch p /\
    rb_pool r = p /\ rb_pool_key r = key pool /\ rb_authority r = auth /\ fst <$> rb_ephemeral r = eph /\
    bool_decide (is_Some reserve) = fund /\ (forall i, reserve = Some i -> key i = reserve_stake p) /\
    unpack_stake_state (acc_data (account_at (ledger s) (key (rb_validator_stake r)))) = Ok (StakeStake m g) /\
    xs = ys ++ v :: zs /\ vote_account_address v = voter_pubkey g /\ status v = status_byte Active /\
    source_address program_id (key pool) v SourceActive = key (rb_validator_stake r) /\
    transient_address (key pool) (vote_account_address v) seed = key (rb_transient r) /\
    (0 < transient_stake_lamports v -> is_Some eph /\ seed = transient_seed_suffix v /\
       exists w sb, check_if_stake_deactivating (rb_transient r) (epoch c) sb = Ok (w, sb) /\ ledger sb = ledger s) /\
    get_minimum_delegation = Ok dmin /\ minimum_delegation dmin <= n <= active_stake_lamports v /\
    minimum_stake_lamports m dmin <= acc_lamports (account_at (ledger s) (key (rb_validator_stake r))) - n /\
    (bool_decide (is_Some eph) || fund = true -> Rent_get = Ok rn) /\
    decrease_moves r reserve (minimum_balance rn stake_state_size) n v
      (mkRState (ledger s) (key li :: borrowed s) (cpi_log s)) ixs s1 /\
    invokes (mkRState (ledger s) (key li :: borrowed s) (cpi_log s)) ixs s1 /\
    (exists d, s' = set_data (key li) d s1) /\
    list_at s' (key li) h
      (ys ++ decreased_entry n seed (acc_lamports (account_at (ledger s1) (key (rb_transient r)))) v :: zs).
Proof. apply decrease_run. Qed.

(** The stake of [k] is delegated already, in an epoch that has begun. *)
Definition delegated_by (l : Ledger) (k : Pubkey) (epoch : Z) : bool :=
  match unpack_stake_state (acc_data (account_at l k)) with
  | Ok (StakeStake _ g) => activation_epoch g <=? epoch
  | _ => false
  end.

(** The invocations that move [total] lamports from the reserve to a validator's
    transient account: through the ephemeral account if there is one, which is
    delegated, merged into the transient account if it holds stake already; a new
    transient account is delegated unless the stake split off already was. *)
Definition increase_moves (r : Rebalancing) (reserve vote : Pubkey) (total epoch : Z) (v : ValidatorStakeInfo)
    (s : RState) (ixs : list Cpi) (s' : RState) : Prop :=
  let tr := key (rb_transient r) in let auth := key (rb_authority r) in
  exists src pre post s1, ixs = pre ++ post /\ invokes s pre s1 /\
  match rb_ephemeral r with
  | None => src = reserve /\ pre = []
  | Some (seed, e) => src = key e /\ ephemeral_address (rb_pool_key r) seed = key e /\
      pre = create_ixs (key e) ++ [StakeSplit reserve auth total (key e); StakeDelegate (key e) auth vote]
  end /\
  if 0 <? transient_stake_lamports v
  then post = [StakeMerge tr src auth] /\ invokes s1 post s'
  else exists s2, let moved := create_ixs tr ++ [StakeSplit src auth total tr] in
         let delegated := when (negb (delegated_by (ledger s2) tr epoch)) (StakeDelegate tr auth vote) in
         invokes s1 moved s2 /\ invokes s2 delegated s' /\ post = moved ++ delegated.

Definition increased_entry (total seed : Z) (v : ValidatorStakeInfo) : ValidatorStakeInfo :=
  set_transient_seed_suffix seed
    (set_transient_stake_lamports (transient_stake_lamports v + total) v).

Lemma increase_into_new_transient_Ok r vi hi co src seed bump total ep s u s' :
  increase_into_new_transient r vi hi co src seed bump total ep s = Ok (u, s') ->
  exists s1,
    invokes s (create_ixs (key (rb_transient r)) ++
               [StakeSplit (key src) (key (rb_authority r)) total (key (rb_transient r))]) s1 /\
    invokes s1 (when (negb (delegated_by (ledger s1) (key (rb_transient r)) ep))
                  (StakeDelegate (key (rb_transient r)) (key (rb_authority r)) (key vi))) s'.
Proof.
  unfold increase_into_new_transient. intros H1.
  apply mbind_Ok in H1 as (u1 & s1 & Hi & H1). apply create_transient_Ok in Hi.
  apply mbind_Ok in H1 as (u2 & s2 & H2 & H1). unfold rb_split in H2. to_invokes H2.
  apply mbind_Ok in H1 as (d & s3 & Hd & H1). apply borrow_data_Ok in Hd as (_ & -> & ->).
  apply mbind_Ok in H1 as (st & s3 & Hst & H1). apply lift_Ok in Hst as [Hst ->].
  exists s2. split; [exact (invokes_app _ _ _ _ _ Hi H2)|]. unfold delegated_by. rewrite Hst.
  repeat match type of H1 with (match ?st with _ => _ end) _ = _ => destruct st | (if ?c then _ else _) _ = _ => destruct c end;
    try (apply mret_Ok in H1 as [_ ->]; constructor);
    unfold rb_delegate in H1; to_invokes H1; exact H1.
Qed.

Lemma increase_moves_invokes r reserve vote total ep v s ixs s' :
  increase_moves r reserve vote total ep v s ixs s' -> invokes s ixs s'.
Proof.
  intros (src & pre & post & s1 & -> & Hpre & _ & Hpost). eapply invokes_app; [exact Hpre|].
  destruct (0 <? _); [apply Hpost|]. destruct Hpost as (s2 & Hm & Hd & ->). by eapply invokes_app.
Qed.

Lemma increase_source_Ok r reserve vi hi co total s src s' :
  increase_source program_id r reserve vi hi co total s = Ok (src, s') ->
  match rb_ephemeral r with
  | None => src = reserve /\ s' = s
  | Some (seed, e) => src = e /\ ephemeral_address (rb_pool_key r) seed = key e /\
      invokes s (create_ixs (key e) ++ [StakeSplit (key reserve) (key (rb_authority r)) total (key e);
                                        StakeDelegate (key e) (key (rb_authority r)) (key vi)]) s'
  end.
Proof.
  unfold increase_source. destruct (rb_ephemeral r) as [[seed e]|].
  2:{ by intros [-> ->]%mret_Ok. }
  intros H1. apply mbind_Ok in H1 as (u & s1 & H2 & H1). apply create_ephemeral_Ok in H2 as [Ha Hi].
  apply mbind_Ok in H1 as (u' & s2 & H2 & H1). unfold rb_split in H2. to_invokes H2.
  apply mbind_Ok in H1 as (u3 & s3 & H3 & H1). unfold rb_delegate in H3. to_invokes H3. minv_leaf H1.
  split; [done|]. split; [done|]. exact (invokes_app _ _ _ _ _ Hi (invokes_app _ _ _ _ _ H2 H3)).
Qed.

Lemma increase_stake_Ok r reserve vi hi co v total seed ep s y s' :
  increase_stake program_id r reserve vi hi co v total seed ep s = Ok (y, s') ->
  transient_address (rb_pool_key r) (key vi) seed = key (rb_transient r) /\
  in_range 64 (transient_stake_lamports v + total) /\ y = increased_entry total seed v /\
  exists ixs, increase_moves r (key reserve) (key vi) total ep v s ixs s'.
Proof.
  unfold increase_stake. intros H1. apply mbind_Ok in H1 as (src & s1 & Hs & H1).
  apply increase_source_Ok in Hs.
  apply mbind_Ok in H1 as (b & s2 & Ha & H1). apply check_transient_stake_address_Ok in Ha as (-> & Ha & _).
  apply mbind_Ok in H1 as (u & s3 & H2 & H1). mopen H1. minv_leaf H1. checked_inv.
  split; [done|]. split; [done|]. split; [done|].
  assert (Hpre : exists pre, invokes s pre s1 /\
    match rb_ephemeral r with
    | None => key src = key reserve /\ pre = []
    | Some (es, e) => key src = key e /\ ephemeral_address (rb_pool_key r) es = key e /\
        pre = create_ixs (key e) ++ [StakeSplit (key reserve) (key (rb_authority r)) total (key e);
                                     StakeDelegate (key e) (key (rb_authority r)) (key vi)]
    end).
  { destruct (rb_ephemeral r) as [[es e]|].
    - destruct Hs as (-> & He & Hpre). eauto.
    - destruct Hs as (-> & ->). exists []. repeat constructor. }
  destruct Hpre as (pre & Hi & Hpre). unfold increase_moves. destruct (0 <? transient_stake_lamports v).
  - unfold rb_merge in H2. to_invokes H2. eexists _, (key src), pre, _, s1. by repeat (split; [done|]).
  - apply increase_into_new_transient_Ok in H2 as (s2 & Hm & Hd).
    eexists _, (key src), pre, _, s1. split; [reflexivity|]. split; [exact Hi|]. split; [exact Hpre|]. by exists s2.
Qed.

Lemma increase_amount_Ok reserve n rent s total s' :
  increase_amount reserve n rent s = Ok (total, s') ->
  s' = s /\ total = saturating_add 64 n rent /\
  rent <= saturating_sub (acc_lamports (account_at (ledger s) (key reserve))) total /\
  exists dmin, get_minimum_delegation = Ok dmin /\ minimum_delegation dmin <= n.
Proof.
  unfold increase_amount. intros H1. do 2 mopen H1. cbv zeta in H1. do 2 mopen H1. minv_leaf H1.
  check_facts. eauto 10.
Qed.

Lemma check_max_validator_stake_Ok p v n s u s' :
  check_max_validator_stake p v n s = Ok (u, s') ->
  s' = s /\ forall mx, max_validator_stake p = Some mx ->
    active_stake_lamports v + transient_stake_lamports v + n <= mx.
Proof.
  unfold check_max_validator_stake. destruct (max_validator_stake p) as [mx|].
  2:{ intros [_ ->]%mret_Ok. done. }
  intros H1. do 2 mopen H1. minv_leaf H1. check_facts. split; [done|]. intros ? [= <-].
  unfold stake_lamports in *.
  match goal with H : ok_or_sp _ _ = Ok _ |- _ => apply ok_or_sp_Ok in H end. checked_inv. lia.
Qed.

Lemma increase_entry_Ok r li vote n seed eph ep s off v s' h xs :
  increase_entry program_id r li vote n seed eph ep s = Ok ((off, v), s') ->
  in_range 256 vote -> list_at s (key li) h xs ->
  s' = s /\ vote_account_address v = vote /\ status v = status_byte Active /\ wf vsi_codec v /\
  source_address program_id (rb_pool_key r) v SourceActive = key (rb_validator_stake r) /\
  (0 < transient_stake_lamports v -> is_Some eph /\ seed = transient_seed_suffix v /\
     exists w, check_if_stake_activating (rb_transient r) ep s = Ok (w, s)) /\
  (forall mx, max_validator_stake (rb_pool r) = Some mx ->
     active_stake_lamports v + transient_stake_lamports v + n <= mx) /\
  exists ys zs, xs = ys ++ v :: zs /\
    forall y s1 r s2, wf vsi_codec y ->
      account_at (ledger s1) (key li) = account_at (ledger s) (key li) ->
      list_store li off y s1 = Ok (r, s2) ->
      list_at s2 (key li) h (ys ++ y :: zs) /\ exists d, s2 = set_data (key li) d s1.
Proof.
  unfold increase_entry. intros H1 Hvote Hl. apply mbind_Ok in H1 as (f & s1 & Hf & H1).
  apply (list_find_mut_Ok _ _ _ _ _ _ _ _ Hl (memcmp_decides _ Hvote)) in Hf as [-> Hf].
  destruct f as [[off' x]|]; [|mopen H1; done]. mopen H1.
  match goal with E : Some (_, _) = Some _ |- _ => injection E as <- <- end.
  destruct Hf as (ys & zs & -> & Hx & _ & Hwx & Hstore). apply key_eqb_eq in Hx.
  apply mbind_Ok in H1 as (u' & s1 & Ht & H1).
  apply check_transient_use_Ok in Ht as [-> Ht]; [|unfold check_if_stake_activating; apply _].
  mopen H1. match goal with H : check_validator_stake_account _ _ _ _ _ _ _ _ = _ |- _ => rename H into Ha end.
  unfold check_validator_stake_account in Ha. mopen Ha.
  apply mbind_Ok in Ha as (u2 & s1 & Haddr & _). apply check_validator_stake_address_Ok in Haddr as [-> Haddr].
  mopen H1. apply mbind_Ok in H1 as (u3 & s1 & Hmax & H1). apply check_max_validator_stake_Ok in Hmax as [-> Hmax].
  minv_leaf H1. check_facts.
  match goal with H : (_, _) = _ |- _ => injection H as -> -> end.
  split; [done|]. split; [done|]. split; [done|]. split; [done|].
  split; [exact Haddr|]. split; [exact Ht|]. split; [exact Hmax|]. eauto.
Qed.

Lemma wf_increased total seed v :
  wf vsi_codec v -> in_range 64 (transient_stake_lamports v + total) -> in_range 64 seed ->
  wf vsi_codec (increased_entry total seed v).
Proof. unfold increased_entry. auto with sp_math. Qed.

Lemma increase_validator_Ok r li reserve vi hi co n seed eph ep rent s u s' h xs :
  increase_validator program_id r li reserve vi hi co n seed eph ep rent s = Ok (u, s') ->
  wf_ledger (ledger s) -> in_range 64 seed -> in_range 256 (key vi) ->
  In (key li) (borrowed s) -> list_at s (key li) h xs ->
  exists dmin v ys zs ixs s1, let total := saturating_add 64 n rent in
    xs = ys ++ v :: zs /\ vote_account_address v = key vi /\ status v = status_byte Active /\
    source_address program_id (rb_pool_key r) v SourceActive = key (rb_validator_stake r) /\
    transient_address (rb_pool_key r) (key vi) seed = key (rb_transient r) /\
    (0 < transient_stake_lamports v -> is_Some eph /\ seed = transient_seed_suffix v /\
       exists w, check_if_stake_activating (rb_transient r) ep s = Ok (w, s)) /\
    get_minimum_delegation = Ok dmin /\ minimum_delegation dmin <= n /\
    rent <= saturating_sub (acc_lamports (account_at (ledger s) (key reserve))) total /\
    (forall mx, max_validator_stake (rb_pool r) = Some mx ->
       active_stake_lamports v + (transient_stake_lamports v + total) <= mx + rent) /\
    increase_moves r (key reserve) (key vi) total ep v s ixs s1 /\
    (exists d, s' = set_data (key li) d s1) /\
    list_at s' (key li) h (ys ++ increased_entry total seed v :: zs).
Proof.
  unfold increase_validator. intros H1 Hw Hseed Hvote Hb Hl.
  apply mbind_Ok in H1 as ([off v] & s1 & He & H1).
  eapply increase_entry_Ok in He as (-> & Hv & Hst & Hwv & Hsrc & Htr & Hmax & ys & zs & -> & Hstore); [|done..].
  apply mbind_Ok in H1 as (total & s1 & Ha & H1).
  apply increase_amount_Ok in Ha as (-> & -> & Hres & dmin & Hd & Hmin).
  apply mbind_Ok in H1 as (y & s1 & Hx & H1).
  apply increase_stake_Ok in Hx as (Hta & Hact & -> & ixs & Hm). pose proof (increase_moves_invokes _ _ _ _ _ _ _ _ _ Hm) as Hi.
  apply Hstore in H1 as [Hlist Hset].
  - exists dmin, v, ys, zs, ixs, s1. cbv zeta. repeat (split; [first [assumption | reflexivity]|]).
    split; [|repeat (split; [assumption|]); assumption].
    intros mx Hmx. apply Hmax in Hmx. unfold saturating_add. lia.
  - by apply wf_increased.
  - by apply (invokes_borrowed _ _ _ _ Hi).
Qed.

(** The run of the handler: [increase_correct] below. *)
Lemma increase_run accounts n seed eph s u s' h xs :
  process_increase_validator_stake program_id accounts n seed eph s = Ok (u, s') ->
  wf_ledger (ledger s) -> in_range 64 seed -> Forall (fun i => in_range 256 (key i)) accounts ->
  (forall li, accounts !! 3%nat = Some li -> list_at s (key li) h xs) ->
  exists pool staker_info auth li reserve rest p r vote c rn dmin v ys zs ixs s1,
    let rent := minimum_balance rn stake_state_size in let total := saturating_add 64 n rent in
    accounts = pool :: staker_info :: auth :: li :: reserve :: rest /\
    pool_at program_id (ledger s) (key pool) p /\ key staker_info = staker p /\ is_signer staker_info = true /\
    key li = validator_list p /\ key reserve = reserve_stake p /\ epoch c <= last_update_epoch p /\
    rb_pool r = p /\ rb_pool_key r = key pool /\ rb_authority r = auth /\ fst <$> rb_ephemeral r = eph /\
    match eph with
    | Some _ => Rent_get = Ok rn
    | None => exists i, accounts !! 9%nat = Some i /\ Rent_from_account_info i (account_at (ledger s) (key i)) = Ok rn
    end /\
    xs = ys ++ v :: zs /\ vote_account_address v = vote /\ status v = status_byte Active /\
    source_address program_id (key pool) v SourceActive = key (rb_validator_stake r) /\
    transient_address (key pool) vote seed = key (rb_transient r) /\
    (0 < transient_stake_lamports v -> is_Some eph /\ seed = transient_seed_suffix v /\
       exists w sb, check_if_stake_activating (rb_transient r) (epoch c) sb = Ok (w, sb) /\ ledger sb = ledger s) /\
    get_minimum_delegation = Ok dmin /\ minimum_delegation dmin <= n /\
    (0 < rent -> total + rent <= acc_lamports (account_at (ledger s) (key reserve))) /\
    (forall mx, max_validator_stake p = Some mx ->
       active_stake_lamports v + (transient_stake_lamports v + total) <= mx + rent) /\
    increase_moves r (key reserve) vote total (epoch c) v
      (mkRState (ledger s) (key li :: borrowed s) (cpi_log s)) ixs s1 /\
    invokes (mkRState (ledger s) (key li :: borrowed s) (cpi_log s)) ixs s1 /\
    (exists d, s' = set_data (key li) d s1) /\
    list_at s' (key li) h (ys ++ increased_entry total seed v :: zs).
Proof.
  intros H1 Hw Hseed Hk Hl0. unfold process_increase_validator_stake in H1. do 5 mopen H1.
  match type of Hl0 with forall _, (_ :: _ :: _ :: ?linfo :: _) !! _ = _ -> _ => pose proof (Hl0 linfo eq_refl) as Hl; clear Hl0 end.
  do 5 apply Forall_inv_tail in Hk.
  apply mbind_Ok in H1 as ([o2 it2] & s1 & He & H1). pose proof (next_if_Forall _ _ _ _ _ _ _ He Hk) as Hk'.
  pose proof (ephemeral_given (A := unit) _ _ _ _ _ _ tt He) as Heph.
  assert (Hit : eph = None -> l = it2) by (intros ->; by injection He as _ ->). minv_leaf He.
  do 4 mopen H1. apply mbind_Ok in H1 as (c & s1 & Hc & H1). minv_leaf Hc.
  apply mbind_Ok in H1 as ([rent it3] & s1 & Hrent & H1).
  match goal with |- context [?accs = _ :: _ :: _ :: _ :: _ :: _ /\ _] =>
    assert (Hrn : match eph with
      | Some _ => Rent_get = Ok rent
      | None => exists i, accs !! 9%nat = Some i /\ Rent_from_account_info i (account_at (ledger s) (key i)) = Ok rent
      end) end.
  { destruct eph as [es|].
    - rewrite bool_decide_true in Hrent by eauto. mopen Hrent. minv_leaf Hrent. congruence.
    - rewrite (Hit eq_refl). rewrite bool_decide_false in Hrent by (by intros [? ?]). mopen Hrent. apply mbind_Ok in Hrent as (rn & s2 & Hr & Hrent).
      minv_leaf Hrent. match goal with H : (_, _) = _ |- _ => injection H as -> -> end.
      eexists. split; [reflexivity|]. unfold rent_of in Hr. mopen Hr. by minv_leaf Hr. }
  minv_leaf Hrent. cbv beta iota in H1.
  do 12 mopen H1. apply mbind_Ok in H1 as (hd & sb & Hload & H1).
  apply (load_validator_list_Ok _ _ _ _ _ _ _ Hload) in Hl as (-> & _ & _ & Hnb & -> & Hl).
  do 2 apply Forall_inv_tail in Hk'. apply Forall_inv in Hk'.
  apply (increase_validator_Ok _ _ _ _ _ _ _ _ _ _ _ _ _ _ h xs) in H1
    as (dmin & v & ys & zs & ixs & s1 & -> & Hv & Hst & Hsrc & Hta & Htr & Hd & Hmin & Hres & Hmax & Hm & Hset & Hlist);
    [|done|done|done|by left|done].
  check_facts. cbn [rb_pool rb_pool_key rb_authority rb_ephemeral rb_validator_stake rb_transient ledger] in *.
  match type of Hm with increase_moves ?r _ ?w _ _ _ _ _ _ =>
    exists a, a0, a1, a2, a3, l; eexists; exists r, w, c, rent, dmin, v, ys, zs, ixs, s1 end.
  cbv zeta. split; [reflexivity|]. do 5 (split; [eassumption|]). split; [assumption|].
  do 3 (split; [reflexivity|]). split; [exact Heph|]. split; [exact Hrn|]. split; [reflexivity|]. do 4 (split; [eassumption|]).
  split; [intros Ht; apply Htr in Ht as (? & ? & ? & ?); eauto 10|].
  split; [exact Hd|]. split; [exact Hmin|]. split; [unfold saturating_sub in Hres; lia|].
  split; [exact Hmax|]. split; [exact Hm|]. split; [by eapply increase_moves_invokes|]. by split.
Qed.

(** C10: a successful increase of [lamports] was signed by the staker of an up-to-date
    pool and concerns the active entry of the given vote account, whose validator and
    transient accounts are at their derived addresses (a pending transient account
    only with its own seed, an ephemeral account, and while activating). The reserve
    pays [lamports] and one rent, the minimum balance of a stake account, and, if rent is
    not free, still holds at least one more; the invocations are exactly those of
    [increase_moves], which delegates to the vote account whatever is not delegated yet;
    of the list only
    that entry changes, its transient stake growing by what left the reserve without
    overflow. A stake limit of the pool bounds the recorded stake up to that rent. *)
Theorem increase_correct accounts n seed eph s u s' h xs :
  process_increase_validator_stake program_id accounts n seed eph s = Ok (u, s') ->
  wf_ledger (ledger s) -> in_range 64 seed -> Forall (fun i => in_range 256 (key i)) accounts ->
  (forall li, accounts !! 3%nat = Some li -> list_at s (key li) h xs) ->
  exists pool staker_info auth li reserve rest p r vote c rn dmin v ys zs ixs s1,
    let rent := minimum_balance rn stake_state_size in let total := saturating_add 64 n rent in
    accounts = pool :: staker_info :: auth :: li :: reserve :: rest /\
    pool_at program_id (ledger s) (key pool) p /\ key staker_info = staker p /\ is_signer staker_info = true /\
    key li = validator_list p /\ key reserve = reserve_stake p /\ epoch c <= last_update_epoch p /\
    rb_pool r = p /\ rb_pool_key r = key pool /\ rb_authority r = auth /\ fst <$> rb_ephemeral r = eph /\
    match eph with
    | Some _ => Rent_get = Ok rn
    | None => exists i, accounts !! 9%nat = Some i /\ Rent_from_account_info i (account_at (ledger s) (key i)) = Ok rn
    end /\
    xs = ys ++ v :: zs /\ vote_account_address v = vote /\ status v = status_byte Active /\
    source_address program_id (key pool) v SourceActive = key (rb_validator_stake r) /\
    transient_address (key pool) vote seed = key (rb_transient r) /\
    (0 < transient_stake_lamports v -> is_Some eph /\ seed = transient_seed_suffix v /\
       exists w sb, check_if_stake_activating (rb_transient r) (epoch c) sb = Ok (w, sb) /\ ledger sb = ledger s) /\
    get_minimum_delegation = Ok dmin /\ minimum_delegation dmin <= n /\
    (0 < rent -> total + rent <= acc_lamports (account_at (ledger s) (key reserve))) /\
    (forall mx, max_validator_stake p = Some mx ->
       active_stake_lamports v + (transient_stake_lamports v + total) <= mx + rent) /\
    increase_moves r (key reserve) vote total (epoch c) v
      (mkRState (ledger s) (key li :: borrowed s) (cpi_log s)) ixs s1 /\
    invokes (mkRState (ledger s) (key li :: borrowed s) (cpi_log s)) ixs s1 /\
    (exists d, s' = set_data (key li) d s1) /\
    list_at s' (key li) h (ys ++ increased_entry total seed v :: zs).
Proof. apply increase_run. Qed.
End RebalanceRuns.

(** ** The concrete pool moves stake from and to its validator *)
Definition toy_transient (seed : Z) : Pubkey :=
  transient_address (RT := toy) toy_program toy_pool_key toy_vote seed.
Definition toy_decrease_accounts : list AccountInfo :=
  [plain toy_pool_key; signer toy_staker; plain toy_authority; plain toy_list_key; plain toy_reserve_key;
   plain toy_validator_stake; plain (toy_transient 6); plain 1; plain 2; plain toy_system; plain toy_stake_program].
Definition toy_decrease_run : outcome (unit * RState) :=
  process_decrease_validator_stake (RT := toy) toy_program toy_decrease_accounts 700000000 6 None true toy_state.
Definition toy_increase_accounts : list AccountInfo :=
  [plain toy_pool_key; signer toy_staker; plain toy_authority; plain toy_list_key; plain toy_reserve_key;
   plain (toy_transient 6); plain toy_validator_stake; plain toy_vote; plain 1; plain 2; plain 3; plain 4;
   plain toy_system; plain toy_stake_program].
Definition toy_increase_run (s : RState) : outcome (unit * RState) :=
  process_increase_validator_stake (RT := toy) toy_program toy_increase_accounts 500000000 6 None s.

Lemma decrease_correct_witness :
  is_ok toy_decrease_run = true /\
  exists li v ys zs k, 700000000 <= active_stake_lamports v /\ [toy_entry] = ys ++ v :: zs /\
    list_at (RT := toy) (final toy_state toy_decrease_run) (key li) toy_header
      (ys ++ decreased_entry 700000000 6 k v :: zs).
Proof.
  assert (H : is_ok toy_decrease_run = true) by (vm_compute; reflexivity). split; [exact H|].
  destruct (decrease_correct (RT := toy) toy_program toy_decrease_accounts 700000000 6 None true toy_state tt _
    toy_header [toy_entry] (ran toy_state _ H) toy_state_wf) as (pool & st & au & li & rest & p & r & re & c & rn & dmin & m & g & v & ys & zs & ixs & s1 & Rest).
  - unfold in_range. lia.
  - intros li E. injection E as <-. exact toy_list_at.
  - skip 13 Rest; destruct Rest as (Hxs & Rest); skip 6 Rest; destruct Rest as (Hn & Rest); skip 5 Rest; rename Rest into Hl.
    eexists li, v, ys, zs, _. split; [apply Hn|]. split; [exact Hxs | exact Hl].
Defined.

Lemma increase_correct_witness :
  is_ok (toy_increase_run toy_state) = true /\
  exists li v ys zs total, [toy_entry] = ys ++ v :: zs /\
    list_at (RT := toy) (final toy_state (toy_increase_run toy_state)) (key li) toy_header
      (ys ++ increased_entry total 6 v :: zs).
Proof.
  assert (H : is_ok (toy_increase_run toy_state) = true) by (vm_compute; reflexivity). split; [exact H|].
  destruct (increase_correct (RT := toy) toy_program toy_increase_accounts 500000000 6 None toy_state tt _
    toy_header [toy_entry] (ran toy_state _ H) toy_state_wf) as (pool & st & au & li & re & rest & p & r & vote & c & rn & dmin & v & ys & zs & ixs & s1 & Rest).
  - unfold in_range. lia.
  - apply toy_keys. vm_compute. reflexivity.
  - intros li E. injection E as <-. exact toy_list_at.
  - skip 12 Rest; destruct Rest as (Hxs & Rest); skip 12 Rest; rename Rest into Hl.
    eexists li, v, ys, zs, _. split; [exact Hxs | exact Hl].
Defined.

(** The concrete pool with a stake limit per validator. *)
Definition toy_limited (mx : Z) : RState :=
  set_data (RT := toy) toy_pool_key
    (pad 1000 (enc stake_pool_codec (set_max_validator_stake (Some mx) toy_pool))) toy_state.

(** The entries of the concrete list. *)
Definition toy_entries (s : RState) : outcome (list ValidatorStakeInfo) :=
  match list_slice (RT := toy) (plain toy_list_key) 0 1 s with
  | Ok (xs, _) => Ok xs | Err e => Err e | Panic => Panic end.

(** The stake limit is checked without the rent that moves along: with a limit of
    4_500_000_000 lamports, an increase of 500_000_000 on a validator with
    4_000_000_000 succeeds and records 4_500_000_200. *)
Theorem increase_exceeds_limit_by_rent :
  let s' := final (toy_limited 4500000000) (toy_increase_run (toy_limited 4500000000)) in
  is_ok (toy_increase_run (toy_limited 4500000000)) = true /\
  max_validator_stake <$> (match toy_pool_of s' with Ok p => Some p | _ => None end) = Some (Some 4500000000) /\
  match toy_entries s' with Ok [v] => stake_lamports v = Ok 4500000200 | _ => False end.
Proof. vm_compute. auto. Qed.
