(* ===== verification/UpdateList.v ===== *)
(** * Refreshing validator entries (program/src/processor.rs)
    [UpdateValidatorListBalance]: for each entry of a slice of the list, what happens
    to its transient account, what happens to its validator account, and the entry
    that is stored afterwards. *)
From S2P Require Import Prelude Error Fees State Borsh Layout BigVec Entries Runtime Checks ListAccess WithdrawStake Validators Concrete.

(** What all entries of one instruction share. *)
Record UpdateContext := mkUpdateContext {
  up_pool : StakePool;
  up_pool_key : Pubkey;
  up_authority : AccountInfo;
  up_reserve : AccountInfo;
  up_clock_info : AccountInfo;
  up_stake_history : AccountInfo;
  up_epoch : Z;
  up_no_merge : bool
}.

Section UpdateList.
Context `{RT : Runtime}.
Variable program_id : Pubkey.

Definition up_merge (u : UpdateContext) (source destination : AccountInfo) : M unit :=
  stake_merge (up_pool_key u) source (up_authority u) AUTHORITY_WITHDRAW
    (stake_withdraw_bump_seed (up_pool u)) destination (up_clock_info u) (up_stake_history u).
Definition up_deactivate (u : UpdateContext) (stake : AccountInfo) : M unit :=
  stake_deactivate stake (up_clock_info u) (up_authority u) (up_pool_key u) AUTHORITY_WITHDRAW
    (stake_withdraw_bump_seed (up_pool u)).
Definition up_withdraw (u : UpdateContext) (source : AccountInfo) (lamports : Z) : M unit :=
  stake_withdraw (up_pool_key u) source (up_authority u) AUTHORITY_WITHDRAW
    (stake_withdraw_bump_seed (up_pool u)) (up_reserve u) (up_clock_info u) (up_stake_history u) lamports.
Definition up_usable (u : UpdateContext) (meta : Meta) : bool :=
  stake_is_usable_by_pool meta (key (up_authority u)) (lockup (up_pool u)).

(** [try_from_slice_unchecked::<StakeStateV2>(&info.data.borrow()).ok()]. *)
Definition stake_state_of (info : AccountInfo) : M (option StakeStateV2) :=
  let! data := borrow_data info in attempt (lift (unpack_stake_state data)).

(** A usable transient stake when merging is allowed: into the reserve when it is
    inactive, into the validator's stake when both are active, otherwise deactivated
    if the validator is being removed. The result is the status. *)
Definition merge_transient (u : UpdateContext) (validator_info transient_info : AccountInfo)
    (validator_state : option StakeStateV2) (stake : Delegation) (status : Z) : M Z :=
  if stake_is_inactive_without_history stake (up_epoch u) then
    do! up_merge u transient_info (up_reserve u) in lift (remove_transient_stake status)
  else if bool_decide (status_from_u8 status = Some Active) then
    do! (if activation_epoch stake <? up_epoch u then
           match validator_state with
           | Some (StakeStake _ validator_stake) =>
               mwhen (activation_epoch validator_stake <? up_epoch u) (up_merge u transient_info validator_info)
           | _ => mret tt
           end
         else mret tt) in
    mret status
  else
    do! mwhen (deactivation_epoch stake =? u64_max) (up_deactivate u transient_info) in
    mret status.

(** The transient account of an entry: the status and the transient lamports. *)
Definition update_transient (u : UpdateContext) (validator_info transient_info : AccountInfo)
    (validator_state transient_state : option StakeStateV2) (v : ValidatorStakeInfo) : M (Z * Z) :=
  if transient_stake_lamports v =? 0 then mret (status v, 0) else
  match transient_state with
  | Some (StakeInitialized meta) =>
      if up_usable u meta then
        if up_no_merge u then let! n := lamports_of transient_info in mret (status v, n)
        else
          do! up_merge u transient_info (up_reserve u) in
          let! st := lift (remove_transient_stake (status v)) in
          mret (st, 0)
      else mret (status v, 0)
  | Some (StakeStake meta stake) =>
      if up_usable u meta then
        let! st :=
          (if up_no_merge u then mret (status v)
           else merge_transient u validator_info transient_info validator_state stake (status v)) in
        let! n := lamports_of transient_info in mret (st, n)
      else mret (status v, 0)
  | _ => mret (status v, 0)
  end.

(** The validator account of an entry: the status and the active lamports. *)
Definition update_active (u : UpdateContext) (validator_info : AccountInfo)
    (current_status transient_lamports : Z) : M (Z * Z) :=
  let! state := stake_state_of validator_info in
  match state with
  | Some (StakeStake meta stake) =>
      if up_usable u meta then
        let! lamports := lamports_of validator_info in
        let additional_lamports :=
          saturating_sub (saturating_sub lamports (deleg_stake stake)) (rent_exempt_reserve meta) in
        do! mwhen (0 <? additional_lamports) (up_withdraw u validator_info additional_lamports) in
        let! status := lift (status_try_from current_status) in
        match status with
        | Active => let! n := lamports_of validator_info in mret (current_status, n)
        | DeactivatingValidator | DeactivatingAll =>
            if up_no_merge u then let! n := lamports_of validator_info in mret (current_status, n)
            else if stake_is_inactive_without_history stake (up_epoch u) then
              do! up_merge u validator_info (up_reserve u) in
              let! st := lift (remove_validator_stake current_status) in
              mret (st, 0)
            else let! n := lamports_of validator_info in mret (current_status, n)
        | DeactivatingTransient | ReadyForRemoval => mret (current_status, 0)
        end
      else mret (current_status, 0)
  | Some (StakeInitialized meta) =>
      if up_usable u meta then
        do! up_merge u validator_info (up_reserve u) in
        mret (status_byte (if transient_lamports =? 0 then ReadyForRemoval else DeactivatingTransient), 0)
      else mret (current_status, 0)
  | _ => mret (current_status, 0)
  end.

(** One entry with the two accounts passed for it; [None] when an address is not the
    derived one and the entry is skipped. *)
Definition update_record (u : UpdateContext) (v : ValidatorStakeInfo)
    (validator_info transient_info : AccountInfo) : M (option ValidatorStakeInfo) :=
  let! wrong := check_fails (check_validator_stake_address program_id (up_pool_key u) (key validator_info)
                  (vote_account_address v) (NonZeroU32_new (validator_seed_suffix v))) in
  if wrong then mret None else
  let! wrong := check_fails (let! _ := check_transient_stake_address program_id (up_pool_key u)
                  (key transient_info) (vote_account_address v) (transient_seed_suffix v) in mret tt) in
  if wrong then mret None else
  let! validator_state := stake_state_of validator_info in
  let! transient_state := stake_state_of transient_info in
  let! (st, transient_lamports) :=
    update_transient u validator_info transient_info validator_state transient_state v in
  let! (st, active_lamports) := update_active u validator_info st transient_lamports in
  mret (Some (set_transient_stake_lamports transient_lamports (set_active_stake_lamports active_lamports
               (set_vsi_last_update_epoch (up_epoch u) (set_status st v))))).

(** [chunks_exact(2)]. *)
Fixpoint pairs {A} (l : list A) : list (A * A) :=
  match l with
  | a :: b :: l => (a, b) :: pairs l
  | _ => []
  end.

(** The place of an entry in the vector. *)
Definition record_offset (index : nat) : nat := (VEC_SIZE_BYTES + index * VSI_SIZE)%nat.

Fixpoint update_records (u : UpdateContext) (validator_list_info : AccountInfo) (index : nat)
    (records : list ValidatorStakeInfo) (infos : list (AccountInfo * AccountInfo)) : M unit :=
  match records, infos with
  | v :: records, (validator_info, transient_info) :: infos =>
      let! o := update_record u v validator_info transient_info in
      do! match o with
          | Some v => list_store validator_list_info (record_offset index) v
          | None => mret tt
          end in
      update_records u validator_list_info (S index) records infos
  | _, _ => mret tt
  end.

Definition process_update_validator_list_balance (accounts : list AccountInfo) (start_index : Z)
    (no_merge : bool) : M unit :=
  let! (stake_pool_info, it) := next_account_info accounts in
  let! (withdraw_authority_info, it) := next_account_info it in
  let! (validator_list_info, it) := next_account_info it in
  let! (reserve_stake_info, it) := next_account_info it in
  let! (clock_info, it) := next_account_info it in
  let! clock := clock_of clock_info in
  let! (stake_history_info, it) := next_account_info it in
  let! (stake_program_info, it) := next_account_info it in
  let validator_stake_accounts := it in
  let! stake_pool := load_stake_pool program_id stake_pool_info in
  do! check_validator_list stake_pool validator_list_info in
  do! check_authority_withdraw stake_pool (key withdraw_authority_info) program_id (key stake_pool_info) in
  do! check_reserve_stake stake_pool reserve_stake_info in
  do! check_stake_program (key stake_program_info) in
  let! active := lift epoch_rewards_active in
  do! fail_if_sp active EpochRewardDistributionInProgress in
  do! fail_if_sp (negb (Z.of_nat (length validator_stake_accounts) mod 2 =? 0)) UnexpectedValidatorListAccountSize in
  do! check_account_owner validator_list_info program_id in
  do! borrow_mut_data validator_list_info in
  let! data := held_data validator_list_info in
  let! (validator_list_header, _) := lift (deserialize_vec data) in
  let! validator_slice := list_slice validator_list_info start_index
    (Z.of_nat (length validator_stake_accounts) / 2) in
  do! fail_if_sp (negb (header_is_valid validator_list_header)) InvalidState in
  let u := mkUpdateContext stake_pool (key stake_pool_info) withdraw_authority_info reserve_stake_info
             clock_info stake_history_info (epoch clock) no_merge in
  update_records u validator_list_info (Z.to_nat start_index) validator_slice (pairs validator_stake_accounts).
End UpdateList.

(** ** What refreshing an entry does *)
Section UpdateListFacts.
Context `{RT : Runtime} `{!RuntimeLaws RT}.
Variable program_id : Pubkey.

#[export] Instance read_only_stake_state_of i : ReadOnly (stake_state_of i).
Proof. unfold stake_state_of. apply _. Qed.

(** The invocations that concern the entry [v] stay inside the pool: its transient
    account is merged into the reserve or its validator account or deactivated, its
    validator account is merged into the reserve or gives lamports to it; the pool's
    withdraw authority signs. *)
Definition inside_pool (u : UpdateContext) (v : ValidatorStakeInfo) (ix : Cpi) : Prop :=
  let validator := source_address program_id (up_pool_key u) v SourceActive in
  let transient := source_address program_id (up_pool_key u) v SourceTransient in
  match ix with
  | StakeMerge destination source authority =>
      authority = key (up_authority u) /\
      ((source = transient /\ (destination = key (up_reserve u) \/ destination = validator)) \/
       (source = validator /\ destination = key (up_reserve u)))
  | StakeWithdraw source authority to _ =>
      authority = key (up_authority u) /\ source = validator /\ to = key (up_reserve u)
  | StakeDeactivate stake authority => authority = key (up_authority u) /\ stake = transient
  | _ => False
  end.

Section OneEntry.
Variables (u : UpdateContext) (v : ValidatorStakeInfo) (vi ti : AccountInfo).
Hypothesis validator_here : source_address program_id (up_pool_key u) v SourceActive = key vi.
Hypothesis transient_here : source_address program_id (up_pool_key u) v SourceTransient = key ti.

Local Ltac inside_leaf :=
  first
    [ apply runs_read_only; apply _
    | eapply runs_invokes;
      [ intros ? ? ?; first [apply stake_merge_invokes | apply stake_withdraw_invokes | apply stake_deactivate_invokes]
      | unfold inside_pool; rewrite ?validator_here, ?transient_here; tauto ] ].
Local Ltac inside :=
  repeat match goal with
  | |- Runs _ (mbind _ _) => apply runs_mbind; [|intros]
  | |- Runs _ (mwhen _ _) => apply runs_mwhen
  | |- Runs _ (match ?x with _ => _ end) => destruct x
  end; try inside_leaf.

Lemma merge_transient_runs vst g st : Runs (inside_pool u v) (merge_transient u vi ti vst g st).
Proof. unfold merge_transient. inside. Qed.
Lemma update_transient_runs vst tst : Runs (inside_pool u v) (update_transient u vi ti vst tst v).
Proof. unfold update_transient. inside. all: try apply merge_transient_runs. Qed.
Lemma update_active_runs st n : Runs (inside_pool u v) (update_active u vi st n).
Proof. unfold update_active. inside. Qed.
End OneEntry.

(** A removal is never undone: no status but [Active] becomes [Active], no status but
    [DeactivatingAll] becomes [DeactivatingAll]. *)
Definition winds_down (b b' : Z) : Prop :=
  in_range 8 b' /\
  (b' = status_byte Active -> b = status_byte Active) /\
  (b' = status_byte DeactivatingAll -> b = status_byte DeactivatingAll).

Lemma winds_down_refl b : in_range 8 b -> winds_down b b.
Proof. done. Qed.
Lemma winds_down_trans a b c : winds_down a b -> winds_down b c -> winds_down a c.
Proof. unfold winds_down. tauto. Qed.
Lemma winds_down_ready b c : c = ReadyForRemoval \/ c = DeactivatingTransient -> winds_down b (status_byte c).
Proof. intros [-> | ->]; (split; [apply status_byte_range | done]). Qed.
Lemma remove_transient_winds_down b b' : remove_transient_stake b = Ok b' -> winds_down b b'.
Proof.
  unfold remove_transient_stake. intros (st & E & H)%obind_Ok. apply Ok_inj in H as <-.
  apply ok_or_Ok, status_from_u8_byte in E as ->. split; [apply status_byte_range|]. by destruct st.
Qed.
Lemma remove_validator_winds_down b b' : remove_validator_stake b = Ok b' -> winds_down b b'.
Proof.
  unfold remove_validator_stake. intros (st & E & H)%obind_Ok. apply Ok_inj in H as <-.
  apply ok_or_Ok, status_from_u8_byte in E as ->. split; [apply status_byte_range|]. by destruct st.
Qed.

Lemma merge_transient_Ok u vi ti vst g st s st' s' :
  in_range 8 st -> merge_transient u vi ti vst g st s = Ok (st', s') -> winds_down st st'.
Proof.
  intros Hst. unfold merge_transient. destruct (stake_is_inactive_without_history _ _).
  { intros H. mopen H. minv_leaf H. by apply remove_transient_winds_down. }
  destruct (bool_decide _); intros H; mopen H; minv_leaf H; by apply winds_down_refl.
Qed.

Lemma update_transient_Ok u vi ti vst tst v s st n s' :
  in_range 8 (status v) -> update_transient u vi ti vst tst v s = Ok ((st, n), s') ->
  winds_down (status v) st /\ (n = 0 \/ n = acc_lamports (account_at (ledger s') (key ti))) /\
  (transient_stake_lamports v = 0 -> n = 0 /\ st = status v /\ s' = s).
Proof.
  intros Hst. unfold update_transient. destruct (Z.eqb_spec (transient_stake_lamports v) 0).
  { intros [[= -> ->] ->]%mret_Ok. auto using winds_down_refl. }
  intros H. cut (winds_down (status v) st /\ (n = 0 \/ n = acc_lamports (account_at (ledger s') (key ti)))); [tauto|].
  destruct tst as [[|m|m g|]|]; try (apply mret_Ok in H as [[= -> ->] ->]; auto using winds_down_refl);
    (destruct (up_usable u m); [|apply mret_Ok in H as [[= -> ->] ->]; auto using winds_down_refl]).
  - destruct (up_no_merge u); [mopen H; apply mret_Ok in H as [[= -> ->] ->]; auto using winds_down_refl|].
    do 2 mopen H. apply mret_Ok in H as [[= -> ->] ->]. eauto using remove_transient_winds_down.
  - apply mbind_Ok in H as (b & s1 & Hb & H). mopen H. apply mret_Ok in H as [[= -> ->] ->].
    split; [|by right]. destruct (up_no_merge u); [|by eapply merge_transient_Ok].
    apply mret_Ok in Hb as [-> _]. by apply winds_down_refl.
Qed.

Lemma stake_state_of_Ok i s o s' :
  stake_state_of i s = Ok (o, s') ->
  s' = s /\ forall st, unpack_stake_state (acc_data (account_at (ledger s) (key i))) = Ok st -> o = Some st.
Proof.
  intros H. pose proof (read_only _ _ _ H) as ->. split; [done|]. unfold stake_state_of in H. mopen H.
  intros st E'. unfold attempt, lift in H. rewrite E' in H. apply Ok_inj in H. by injection H as ->.
Qed.

Lemma update_active_Ok u vi st0 n s st a s' :
  in_range 8 st0 -> update_active u vi st0 n s = Ok ((st, a), s') ->
  winds_down st0 st /\ (a = 0 \/ a = acc_lamports (account_at (ledger s') (key vi))) /\
  (st = status_byte ReadyForRemoval -> a = 0).
Proof.
  intros Hst H. unfold update_active in H. apply mbind_Ok in H as (o & s1 & _ & H).
  assert (Hn : winds_down st0 st0) by (by apply winds_down_refl).
  destruct o as [[|m|m g|]|]; try (apply mret_Ok in H as [[= -> ->] ->]; by auto);
    (destruct (up_usable u m); [|apply mret_Ok in H as [[= -> ->] ->]; by auto]).
  - mopen H. apply mret_Ok in H as [[= -> ->] ->]. split; [|by auto].
    apply winds_down_ready. destruct (n =? 0); auto.
  - mopen H. cbv zeta in H. mopen H. mopen H.
    match goal with E : status_try_from _ = Ok _ |- _ =>
      unfold status_try_from in E; apply ok_or_Ok, status_from_u8_byte in E as -> end.
    match goal with x : StakeStatus |- _ => destruct x end;
      try (destruct (up_no_merge u)); try (destruct (stake_is_inactive_without_history _ _));
      repeat mopen H; apply mret_Ok in H as [[= -> ->] ->]; eauto using remove_validator_winds_down;
      (split; [done|]; split; [by right|]; discriminate).
Qed.

(** The stake of an active validator is accounted in full. *)
Lemma update_active_accounts u vi n s st a s' m g :
  unpack_stake_state (acc_data (account_at (ledger s) (key vi))) = Ok (StakeStake m g) ->
  up_usable u m = true -> update_active u vi (status_byte Active) n s = Ok ((st, a), s') ->
  st = status_byte Active /\ a = acc_lamports (account_at (ledger s') (key vi)).
Proof.
  intros E Hu H. unfold update_active in H. apply mbind_Ok in H as (o & s1 & Ho & H).
  apply stake_state_of_Ok in Ho as [-> Ho]. rewrite (Ho _ E), Hu in H. mopen H. cbv zeta in H. do 2 mopen H.
  match goal with E : status_try_from _ = Ok _ |- _ => apply Ok_inj in E as <- end.
  mopen H. by apply mret_Ok in H as [[= -> ->] ->].
Qed.

(** ** One entry, and the entries of a slice *)
(** [y] is [v] after it was refreshed at the epoch of [u] with these lamports. *)
Definition refreshed (u : UpdateContext) (v y : ValidatorStakeInfo) : Prop :=
  exists st n a, winds_down (status v) st /\ in_range 64 n /\ in_range 64 a /\
    (st = status_byte ReadyForRemoval -> a = 0) /\ (transient_stake_lamports v = 0 -> n = 0) /\
    y = set_transient_stake_lamports n (set_active_stake_lamports a
          (set_vsi_last_update_epoch (up_epoch u) (set_status st v))).

Lemma refreshed_wf u v y : wf vsi_codec v -> in_range 64 (up_epoch u) -> refreshed u v y -> wf vsi_codec y.
Proof. intros Hv Hu (st & n & a & [? _] & ? & ? & _ & _ & ->). auto with sp_math. Qed.

Lemma zero_or_lamports l k n : wf_ledger l -> n = 0 \/ n = acc_lamports (account_at l k) -> in_range 64 n.
Proof. intros Hw [-> | ->]; [unfold in_range; lia | by apply wf_ledger_at]. Qed.

(** The accounts passed for the entry [v] are its own. *)
Definition here (u : UpdateContext) (v : ValidatorStakeInfo) (infos : AccountInfo * AccountInfo) : Prop :=
  source_address program_id (up_pool_key u) v SourceActive = key (fst infos) /\
  source_address program_id (up_pool_key u) v SourceTransient = key (snd infos).

Lemma check_fails_true m s s' : check_fails m s = Ok (true, s') -> exists e, m s = Err e.
Proof. unfold check_fails. destruct (m s) as [[]| |]; try done. eauto. Qed.

Lemma here_passes u v vi ti s :
  here u v (vi, ti) ->
  (forall e, check_validator_stake_address program_id (up_pool_key u) (key vi) (vote_account_address v)
     (NonZeroU32_new (validator_seed_suffix v)) s <> Err e) /\
  (forall e, (let! _ := check_transient_stake_address program_id (up_pool_key u) (key ti)
     (vote_account_address v) (transient_seed_suffix v) in mret tt) s <> Err e).
Proof.
  intros [Hv Ht]. cbn [source_address fst snd] in Hv, Ht.
  unfold check_validator_stake_address, check_transient_stake_address.
  destruct (find_stake_program_address _ _ _ _), (find_transient_stake_program_address _ _ _ _).
  cbn [fst] in Hv, Ht. by rewrite Hv, Ht, !key_eqb_refl.
Qed.

Lemma update_record_Ok u v vi ti s o s' :
  wf_ledger (ledger s) -> in_range 8 (status v) -> update_record program_id u v vi ti s = Ok (o, s') ->
  exists ixs, invokes s ixs s' /\ Forall (inside_pool u v) ixs /\
  match o with
  | None => ~ here u v (vi, ti)
  | Some y => refreshed u v y
  end.
Proof.
  intros Hw Hst H. unfold update_record in H.
  apply mbind_Ok in H as (b & s1 & Hb & H). pose proof Hb as Hskip. apply check_fails_Ok in Hb as [-> Hb]; [|apply _].
  destruct b.
  { apply mret_Ok in H as [-> ->]. exists []. do 2 (split; [constructor|]). apply check_fails_true in Hskip as [e He].
    intros Hh. by apply (proj1 (here_passes _ _ _ _ s Hh) e). }
  destruct (Hb eq_refl) as [r Hv]. apply check_validator_stake_address_Ok in Hv as [_ Hv].
  clear Hskip. apply mbind_Ok in H as (b & s1 & Hb' & H). pose proof Hb' as Hskip.
  apply check_fails_Ok in Hb' as [-> Hb']; [|apply _]. destruct b.
  { apply mret_Ok in H as [-> ->]. exists []. do 2 (split; [constructor|]). apply check_fails_true in Hskip as [e He].
    intros Hh. by apply (proj2 (here_passes _ _ _ _ s Hh) e). }
  destruct (Hb' eq_refl) as [r' Ht]. apply mbind_Ok in Ht as (r'' & s3 & Ht & _).
  apply check_transient_stake_address_Ok in Ht as (_ & Ht & _).
  apply mbind_Ok in H as (vst & s1 & E1 & H). apply read_only in E1 as ->.
  apply mbind_Ok in H as (tst & s1 & E1 & H). apply read_only in E1 as ->.
  apply mbind_Ok in H as ([st n] & s1 & H1 & H). apply mbind_Ok in H as ([st' a] & s2 & H2 & H).
  apply mret_Ok in H as [-> ->].
  destruct (update_transient_runs u v vi ti Hv Ht _ _ _ _ _ H1) as (xs & Hi1 & Hx).
  destruct (update_active_runs u v vi ti Hv Ht _ _ _ _ _ H2) as (ys & Hi2 & Hy).
  apply update_transient_Ok in H1 as (Hw1 & Hn & Hn0); [|done].
  apply update_active_Ok in H2 as (Hw2 & Ha & Ha0); [|apply Hw1].
  exists (xs ++ ys). split; [by eapply invokes_app|]. split; [by apply Forall_app|].
  exists st', n, a. split; [by eapply winds_down_trans|].
  pose proof (invokes_types _ _ _ Hi1 Hw) as Hwf1. pose proof (invokes_types _ _ _ Hi2 Hwf1) as Hwf2.
  split; [exact (zero_or_lamports _ _ _ Hwf1 Hn)|]. split; [exact (zero_or_lamports _ _ _ Hwf2 Ha)|].
  split; [done|]. split; [tauto | done].
Qed.

(** A skipped entry stays as it is. *)
Definition kept_or_refreshed (u : UpdateContext) (v y : ValidatorStakeInfo) : Prop := y = v \/ refreshed u v y.
(** Only an entry passed with other accounts than its own is skipped. *)
Definition entry_updated (u : UpdateContext) (e : ValidatorStakeInfo * (AccountInfo * AccountInfo))
    (y : ValidatorStakeInfo) : Prop :=
  kept_or_refreshed u (fst e) y /\ (here u (fst e) (snd e) -> refreshed u (fst e) y).

(** Invocations, oldest first, between writes to the account [k]. *)
Inductive interleaves (k : Pubkey) : RState -> list Cpi -> RState -> Prop :=
| interleaves_nil s : interleaves k s [] s
| interleaves_invoke s xs s1 ys s' : invokes s xs s1 -> interleaves k s1 ys s' -> interleaves k s (xs ++ ys) s'
| interleaves_write s d ys s' : interleaves k (set_data k d s) ys s' -> interleaves k s ys s'.

Lemma interleaves_log k s ixs s' : interleaves k s ixs s' -> cpi_log s' = cpi_log s ++ ixs /\ borrowed s' = borrowed s.
Proof.
  induction 1 as [s|s xs s1 ys s' Hi _ [IH1 IH2]|s d ys s' _ [IH1 IH2]]; [by rewrite app_nil_r| |done].
  apply invokes_log in Hi as [E1 E2]. by rewrite IH1, E1, app_assoc, IH2.
Qed.

Lemma update_records_Ok u li infos xs ys zs s r s' h :
  update_records program_id u li (length ys) xs infos s = Ok (r, s') -> length infos = length xs ->
  in_range 64 (up_epoch u) -> wf_ledger (ledger s) -> In (key li) (borrowed s) ->
  list_at s (key li) h (ys ++ xs ++ zs) ->
  exists xs' ixs, Forall2 (entry_updated u) (zip xs infos) xs' /\ list_at s' (key li) h (ys ++ xs' ++ zs) /\
    interleaves (key li) s ixs s' /\
    Forall (fun ix => exists v, In v xs /\ inside_pool u v ix) ixs.
Proof.
  intros H Hlen He. revert ys xs s Hlen H. induction infos as [|[vi ti] infos IH]; intros ys xs s Hlen H Hw Hb Hl;
    destruct xs as [|v xs]; try discriminate Hlen.
  { apply mret_Ok in H as [_ ->]. exists [], []. split; [constructor|]. split; [exact Hl|]. split; constructor. }
  cbn [update_records] in H. apply mbind_Ok in H as (o & s1 & H1 & H). apply mbind_Ok in H as (u' & s2 & H2 & H).
  pose proof Hl as (_ & [Hwf _] & _). apply Forall_app in Hwf as [_ Hwf]. inversion Hwf as [|? ? Hv _]; subst.
  assert (Hst : in_range 8 (status v)) by (unfold vsi_codec in Hv; cbn [wf] in Hv; tauto).
  apply update_record_Ok in H1 as (ixs & Hi & Hin & Ho); [|done|done].
  pose proof (invokes_log _ _ _ Hi) as [_ Hbor]. pose proof (invokes_types _ _ _ Hi Hw) as Hw1.
  assert (Hl1 : list_at s1 (key li) h (ys ++ (v :: xs) ++ zs)).
  { eapply list_at_same; [|exact Hl]. by apply (invokes_borrowed _ _ _ _ Hi). }
  assert (Hstep : exists y, entry_updated u (v, (vi, ti)) y /\ list_at s2 (key li) h (ys ++ (y :: xs) ++ zs) /\
    (s2 = s1 \/ exists d, s2 = set_data (key li) d s1) /\ borrowed s2 = borrowed s1 /\ wf_ledger (ledger s2)).
  { destruct o as [y|]; [|apply mret_Ok in H2 as [_ ->]; exists v; unfold entry_updated, kept_or_refreshed; tauto].
    assert (Hy : wf vsi_codec y) by (by eapply refreshed_wf).
    pose proof (list_store_types _ _ _ _ _ _ Hy H2 Hw1) as Hw2.
    apply (list_store_Ok _ _ _ _ _ h ys v (xs ++ zs) Hl1) in H2 as [Hl2 [d ->]]; [|done].
    exists y. unfold entry_updated, kept_or_refreshed. eauto 10. }
  destruct Hstep as (y & Hy & Hl2 & Hs2 & Hbor2 & Hw2).
  replace (S (length ys)) with (length (ys ++ [y])) in H by (rewrite length_app; simpl; lia).
  apply IH in H as (xs' & ixs' & Hxs & Hl3 & Hi3 & Hin3).
  - exists (y :: xs'), (ixs ++ ixs'). split; [by constructor|].
    rewrite <- app_assoc in Hl3. split; [exact Hl3|].
    split. { apply (interleaves_invoke _ _ _ s1); [done|]. destruct Hs2 as [-> | [d ->]]; eauto using interleaves. }
    apply Forall_app. split.
    + eapply List.Forall_impl; [|exact Hin]. intros ix Hix. exists v. split; [by left | done].
    + eapply List.Forall_impl; [|exact Hin3]. intros ix (w & Hw' & Hix). exists w. split; [by right | done].
  - by injection Hlen.
  - done.
  - congruence.
  - rewrite <- app_assoc. exact Hl2.
Qed.

Lemma length_pairs {A} (l : list A) :
  Z.of_nat (length l) mod 2 = 0 -> Z.of_nat (length (pairs l)) = Z.of_nat (length l) / 2.
Proof.
  revert l. fix IH 1. intros [|a [|b l]] H; [done | done |]. cbn [pairs length] in *.
  replace (Z.of_nat (S (S (length l)))) with (Z.of_nat (length l) + 1 * 2) in * by lia.
  rewrite Z.mod_add in H by lia. rewrite Z.div_add by lia. apply IH in H. lia.
Qed.

(** The run of [UpdateValidatorListBalance]. *)
Lemma update_list_run accounts start no_merge s r s' h xs :
  process_update_validator_list_balance program_id accounts start no_merge s = Ok (r, s') ->
  wf_ledger (ledger s) -> in_range 32 start ->
  (forall li, accounts !! 2%nat = Some li -> list_at s (key li) h xs) ->
  exists pool auth li reserve clock hist sp infos p u ys ms zs ms' ixs,
    accounts = pool :: auth :: li :: reserve :: clock :: hist :: sp :: infos /\
    pool_at program_id (ledger s) (key pool) p /\ key li = validator_list p /\ key reserve = reserve_stake p /\
    create_program_address [enc pubkey (key pool); AUTHORITY_WITHDRAW; [stake_withdraw_bump_seed p]] program_id =
      Ok (key auth) /\
    up_pool u = p /\ up_pool_key u = key pool /\ up_reserve u = reserve /\ up_authority u = auth /\
    up_no_merge u = no_merge /\ (exists c, clock_of clock s = Ok (c, s) /\ up_epoch u = epoch c) /\
    epoch_rewards_active = Ok false /\
    xs = ys ++ ms ++ zs /\ Z.of_nat (length ys) = start /\
    length (pairs infos) = length ms /\ Forall2 (entry_updated u) (zip ms (pairs infos)) ms' /\
    list_at s' (key li) h (ys ++ ms' ++ zs) /\
    interleaves (key li) (mkRState (ledger s) (key li :: borrowed s) (cpi_log s)) ixs s' /\ Forall (fun ix => exists v, In v ms /\ inside_pool u v ix) ixs.
Proof.
  intros H Hw Hstart Hl0. unfold process_update_validator_list_balance in H. do 5 mopen H.
  match type of Hl0 with forall _, (_ :: _ :: ?linfo :: _) !! _ = _ -> _ => pose proof (Hl0 linfo eq_refl) as Hl; clear Hl0 end.
  apply mbind_Ok in H as (c & s1 & Hc & H). pose proof (clock_of_Ok _ _ _ _ Hc) as [-> Hce].
  do 7 mopen H. apply mbind_Ok in H as (act & s1 & Hact & H). minv_leaf Hact. do 3 mopen H.
  apply mbind_Ok in H as (w & sb & Hbw & H). apply borrow_mut_data_Ok in Hbw as [Hnb ->].
  do 2 mopen H. apply mbind_Ok in H as (ms & sb & Hms & H). check_facts.
  set (s0 := mkRState (ledger s) (key a1 :: borrowed s) (cpi_log s)) in *.
  assert (Hl0 : list_at s0 (key a1) h xs) by (eapply list_at_same; [|exact Hl]; done).
  apply (list_slice_Ok _ _ _ _ _ _ _ _ Hl0) in Hms as (-> & ys & zs & -> & Hys & Hlen);
    [|unfold in_range in Hstart; lia | apply Z.div_pos; lia].
  mopen H. rewrite Nat2Z.id in H.
  match type of H with update_records _ ?u _ _ _ _ _ = _ => rename H into Hr; set (u0 := u) in * end.
  apply (update_records_Ok _ _ _ _ _ zs _ _ _ h) in Hr as (ms' & ixs & Hms & Hl' & Hi & Hin); try done.
  - exists a, a0, a1, a2, a3, a4, a5. eexists. exists a6, u0, ys, ms, zs, ms', ixs.
    split; [reflexivity|]. do 4 (split; [eassumption|]). do 5 (split; [reflexivity|]).
    split; [eauto|]. split; [assumption|]. split; [reflexivity|]. split; [done|].
    split; [by apply Nat2Z.inj; rewrite Hlen; apply length_pairs|].
    split; [exact Hms|]. split; [exact Hl'|]. split; [exact Hi | exact Hin].
  - apply Nat2Z.inj. rewrite Hlen. by apply length_pairs.
  - by left.
Qed.

(** C8: [UpdateValidatorListBalance] needs no signature and yet cannot move stake out
    of the pool. A successful run, only outside of reward distribution, invokes
    nothing but merges and withdrawals between the derived accounts of its entries and
    the pool's reserve, and deactivations of transient stake, all under the pool's
    authority. Each entry of the slice is kept or refreshed: it carries the current
    epoch, its vote account and seeds are the same, a removal is never undone, an
    entry that becomes ready for removal records no active stake, and no transient
    stake appears where there was none. It is refreshed whenever the two accounts
    passed for it are its own. All other entries and the header stay. *)
Theorem update_list_safe accounts start no_merge s r s' h xs :
  process_update_validator_list_balance program_id accounts start no_merge s = Ok (r, s') ->
  wf_ledger (ledger s) -> in_range 32 start ->
  (forall li, accounts !! 2%nat = Some li -> list_at s (key li) h xs) ->
  exists pool auth li reserve clock hist sp infos p u ys ms zs ms' ixs,
    accounts = pool :: auth :: li :: reserve :: clock :: hist :: sp :: infos /\
    pool_at program_id (ledger s) (key pool) p /\ key li = validator_list p /\ key reserve = reserve_stake p /\
    create_program_address [enc pubkey (key pool); AUTHORITY_WITHDRAW; [stake_withdraw_bump_seed p]] program_id =
      Ok (key auth) /\
    up_pool u = p /\ up_pool_key u = key pool /\ up_reserve u = reserve /\ up_authority u = auth /\
    up_no_merge u = no_merge /\ (exists c, clock_of clock s = Ok (c, s) /\ up_epoch u = epoch c) /\
    epoch_rewards_active = Ok false /\
    xs = ys ++ ms ++ zs /\ Z.of_nat (length ys) = start /\
    length (pairs infos) = length ms /\ Forall2 (entry_updated u) (zip ms (pairs infos)) ms' /\
    list_at s' (key li) h (ys ++ ms' ++ zs) /\
    cpi_log s' = cpi_log s ++ ixs /\ Forall (fun ix => exists v, In v ms /\ inside_pool u v ix) ixs.
Proof.
  intros H Hw Hstart Hl. destruct (update_list_run _ _ _ _ _ _ _ _ H Hw Hstart Hl) as
    (pool & auth & li & reserve & clock & hist & sp & infos & p & u & ys & ms & zs & ms' & ixs & Rest).
  do 15 eexists. repeat (destruct Rest as [? Rest]; split; [eassumption|]).
  destruct Rest as [Hi Hin]. split; [exact (proj1 (interleaves_log _ _ _ _ Hi)) | exact Hin].
Qed.

(** What refreshing does to an entry of a validator in good standing (active, no
    transient stake, its stake account delegated and usable by the pool): every
    lamport above the delegation and the rent goes back to the reserve, by one
    withdrawal and only if there is any, and the entry stays active, without transient
    stake, at the current epoch, with exactly the lamports its account then holds. *)
Theorem active_entry_refreshed u v vi ti s o s' m g :
  update_record program_id u v vi ti s = Ok (o, s') ->
  source_address program_id (up_pool_key u) v SourceActive = key vi ->
  source_address program_id (up_pool_key u) v SourceTransient = key ti ->
  status v = status_byte Active -> transient_stake_lamports v = 0 ->
  unpack_stake_state (acc_data (account_at (ledger s) (key vi))) = Ok (StakeStake m g) -> up_usable u m = true ->
  let extra := saturating_sub (saturating_sub (acc_lamports (account_at (ledger s) (key vi))) (deleg_stake g))
                 (rent_exempt_reserve m) in
  invokes s (when (0 <? extra) (StakeWithdraw (key vi) (key (up_authority u)) (key (up_reserve u)) extra)) s' /\
  o = Some (set_transient_stake_lamports 0
        (set_active_stake_lamports (acc_lamports (account_at (ledger s') (key vi)))
          (set_vsi_last_update_epoch (up_epoch u) v))).
Proof.
  intros H Hv Ht Hst Htr E Hu extra. unfold update_record in H. cbn [source_address] in Hv, Ht.
  unfold check_validator_stake_address, check_transient_stake_address in H.
  destruct (find_stake_program_address _ _ _ _) as [va vb]. cbn [fst] in Hv. subst va.
  destruct (find_transient_stake_program_address _ _ _ _) as [ta tb]. cbn [fst] in Ht. subst ta.
  rewrite !key_eqb_refl in H. unfold check_fails at 1 in H. cbn [negb fail_if_sp fail_if mret mbind] in H.
  unfold fail_if_sp, fail_if, mbind at 1 in H. cbn [mret] in H.
  unfold mbind at 1, check_fails at 1, mbind at 1, mbind at 1, mret at 1, mret at 1, mret at 1 in H.
  apply mbind_Ok in H as (vst & s1 & E1 & H). apply read_only in E1 as ->.
  apply mbind_Ok in H as (tst & s1 & E1 & H). apply read_only in E1 as ->.
  unfold update_transient in H. rewrite Htr in H. cbn [Z.eqb] in H.
  apply mbind_Ok in H as ([st n] & s1 & E1 & H). apply mret_Ok in E1 as [[= -> ->] ->].
  apply mbind_Ok in H as ([st a] & s1 & E1 & H). apply mret_Ok in H as [-> ->]. rewrite Hst in E1.
  pose proof (update_active_accounts _ _ _ _ _ _ _ _ _ E Hu E1) as [-> ->].
  split; [|by rewrite <- Hst; destruct v].
  unfold update_active in E1. apply mbind_Ok in E1 as (x & s1' & Hx & E1).
  apply stake_state_of_Ok in Hx as [-> Hx]. rewrite (Hx _ E), Hu in E1. mopen E1. cbv zeta in E1.
  apply mbind_Ok in E1 as (w & s2 & Hwd & E1). unfold up_withdraw in Hwd. to_invokes Hwd. mopen E1.
  match goal with E : status_try_from _ = Ok _ |- _ => apply Ok_inj in E as <- end.
  mopen E1. apply mret_Ok in E1 as [_ ->]. exact Hwd.
Qed.
End UpdateListFacts.

(** ** The concrete list is refreshed *)
Definition toy_update_accounts : list AccountInfo :=
  [plain toy_pool_key; plain toy_authority; plain toy_list_key; plain toy_reserve_key; plain 1; plain 2;
   plain toy_stake_program; plain toy_validator_stake;
   plain (source_address (RT := toy) toy_program toy_pool_key toy_entry SourceTransient)].
Definition toy_update_run : outcome (unit * RState) :=
  process_update_validator_list_balance (RT := toy) toy_program toy_update_accounts 0 false toy_state.

Lemma update_list_safe_witness :
  is_ok toy_update_run = true /\
  exists li u ys ms zs ms' infos, [toy_entry] = ys ++ ms ++ zs /\
    Forall2 (entry_updated (RT := toy) toy_program u) (zip ms (pairs infos)) ms' /\
    list_at (RT := toy) (final toy_state toy_update_run) (key li) toy_header (ys ++ ms' ++ zs).
Proof.
  assert (H : is_ok toy_update_run = true) by (vm_compute; reflexivity). split; [exact H|].
  destruct (update_list_safe (RT := toy) toy_program toy_update_accounts 0 false toy_state tt _ toy_header [toy_entry]
    (ran toy_state _ H) toy_state_wf) as (pool & au & li & re & cl & hi & sp & infos & p & u & ys & ms & zs & ms' & ixs & Rest).
  - unfold in_range. lia.
  - intros li E. injection E as <-. exact toy_list_at.
  - skip 12 Rest; destruct Rest as (Hxs & Rest); skip 2 Rest; destruct Rest as (Hms & Hl & Rest).
    exists li, u, ys, ms, zs, ms', infos. auto.
Defined.

Definition toy_update_context : UpdateContext :=
  mkUpdateContext toy_pool toy_pool_key (plain toy_authority) (plain toy_reserve_key) (plain 1) (plain 2) 6 false.
(** The validator account has earned 1000 lamports that are not delegated. *)
Definition toy_rewarded : RState :=
  mkRState (<[toy_validator_stake := mkAccount 4000001000
     (pack_stake (StakeStake toy_meta (mkDelegation toy_vote 3999999800 1 u64_max))) toy_stake_program]>
     (ledger toy_state)) [] [].
Definition toy_entry_run : outcome (option ValidatorStakeInfo * RState) :=
  update_record (RT := toy) toy_program toy_update_context toy_entry (plain toy_validator_stake)
    (plain (source_address (RT := toy) toy_program toy_pool_key toy_entry SourceTransient)) toy_rewarded.

Lemma active_entry_refreshed_witness :
  exists o s', toy_entry_run = Ok (o, s') /\
  invokes (RT := toy) toy_rewarded
    (when (0 <? 1000) (StakeWithdraw toy_validator_stake toy_authority toy_reserve_key 1000)) s' /\
  o = Some (set_transient_stake_lamports 0
        (set_active_stake_lamports (acc_lamports (account_at (RT := toy) (ledger s') toy_validator_stake))
          (set_vsi_last_update_epoch 6 toy_entry))).
Proof.
  destruct toy_entry_run as [[o s']| |] eqn:E; [|vm_compute in E; discriminate E..].
  exists o, s'. split; [reflexivity|].
  apply (active_entry_refreshed (RT := toy) toy_program toy_update_context toy_entry (plain toy_validator_stake)
    (plain (source_address (RT := toy) toy_program toy_pool_key toy_entry SourceTransient)) toy_rewarded o s' toy_meta
    (mkDelegation toy_vote 3999999800 1 u64_max) E); vm_compute; reflexivity.
Defined.
