(* ===== verification/UpdatePool.v ===== *)
(** * Refreshing the pool (program/src/processor.rs)
    [UpdateStakePoolBalance], which recomputes what the pool is worth, mints the
    manager's share of the rewards and advances the announced fees, and
    [CleanupRemovedValidatorEntries]. *)
From S2P Require Import Prelude Error Fees State Borsh Layout BigVec Entries PoolMath Runtime Checks ListAccess Concrete.

(** ** The pool at a new epoch *)
(** [if let Some(fee) = next.get() { current = *fee }], then [next.update_epoch()]. *)
Definition advance_fee (current : Fee) (next : FutureEpoch Fee) : Fee * FutureEpoch Fee :=
  (match FutureEpoch_get next with Some fee => fee | None => current end, update_epoch next).

(** The block guarded by [stake_pool.last_update_epoch < clock.epoch]. *)
Definition advance_epoch (epoch previous_lamports previous_pool_token_supply : Z) (p : StakePool) : StakePool :=
  if last_update_epoch p <? epoch then
    let '(fee, next) := advance_fee (epoch_fee p) (next_epoch_fee p) in
    let p := set_next_epoch_fee next (set_epoch_fee fee p) in
    let '(fee, next) := advance_fee (stake_withdrawal_fee p) (next_stake_withdrawal_fee p) in
    let p := set_next_stake_withdrawal_fee next (set_stake_withdrawal_fee fee p) in
    let '(fee, next) := advance_fee (sol_withdrawal_fee p) (next_sol_withdrawal_fee p) in
    let p := set_next_sol_withdrawal_fee next (set_sol_withdrawal_fee fee p) in
    let p := set_last_update_epoch epoch p in
    let p := set_last_epoch_total_lamports previous_lamports p in
    set_last_epoch_pool_token_supply previous_pool_token_supply p
  else p.

Section UpdatePool.
Context `{RT : Runtime}.
Variable program_id : Pubkey.

(** The reserve's lamports above its minimum. *)
Definition reserve_total (reserve_stake_info : AccountInfo) : M Z :=
  let! data := borrow_data reserve_stake_info in
  let! reserve_stake := lift (unpack_stake_state data) in
  match reserve_stake with
  | StakeInitialized meta =>
      let! lamports := lamports_of reserve_stake_info in
      get_or (checked_sub 64 lamports (minimum_reserve_lamports meta)) CalculationFailure
  | _ => mfail (into_program_error WrongStakeStake)
  end.

(** One entry of the sum: up to date, and added without overflow. *)
Definition add_record (epoch : Z) (total_lamports : Z) (v : ValidatorStakeInfo) : M Z :=
  do! fail_if_sp (vsi_last_update_epoch v <? epoch) StakeListOutOfDate in
  let! n := lift (stake_lamports v) in
  get_or (checked_add 64 total_lamports n) CalculationFailure.

Definition epoch_fee_tokens (stake_pool : StakePool) (manager_fee_info : AccountInfo) (reward_lamports : Z) : M Z :=
  let! invalid := check_fails (check_manager_fee_info stake_pool manager_fee_info) in
  if invalid then mret 0 else get_or (calc_epoch_fee_amount stake_pool reward_lamports) CalculationFailure.

Definition process_update_stake_pool_balance (accounts : list AccountInfo) : M unit :=
  let! (stake_pool_info, it) := next_account_info accounts in
  let! (withdraw_info, it) := next_account_info it in
  let! (validator_list_info, it) := next_account_info it in
  let! (reserve_stake_info, it) := next_account_info it in
  let! (manager_fee_info, it) := next_account_info it in
  let! (pool_mint_info, it) := next_account_info it in
  let! (token_program_info, it) := next_account_info it in
  let! clock := lift Clock_get in
  let! stake_pool := load_stake_pool program_id stake_pool_info in
  let! _ := check_mint stake_pool pool_mint_info in
  do! check_authority_withdraw stake_pool (key withdraw_info) program_id (key stake_pool_info) in
  do! check_reserve_stake stake_pool reserve_stake_info in
  do! fail_if_sp (negb (key_eqb (manager_fee_account stake_pool) (key manager_fee_info))) InvalidFeeAccount in
  do! fail_if_sp (negb (key_eqb (key validator_list_info) (validator_list stake_pool))) InvalidValidatorStakeList in
  do! fail_if (negb (key_eqb (token_program_id stake_pool) (key token_program_info))) IncorrectProgramId in
  let! _ := load_validator_list program_id validator_list_info in
  let previous_lamports := total_lamports stake_pool in
  let previous_pool_token_supply := pool_token_supply stake_pool in
  let! total := reserve_total reserve_stake_info in
  let! n := list_len validator_list_info in
  let! records := list_slice validator_list_info 0 n in
  let! total := mfold (add_record (epoch clock)) records total in
  let reward_lamports := saturating_sub total previous_lamports in
  let! fee := epoch_fee_tokens stake_pool manager_fee_info reward_lamports in
  do! mwhen (0 <? fee)
        (token_mint_to (key stake_pool_info) token_program_info pool_mint_info manager_fee_info withdraw_info
           AUTHORITY_WITHDRAW (stake_withdraw_bump_seed stake_pool) fee) in
  let stake_pool := advance_epoch (epoch clock) previous_lamports previous_pool_token_supply stake_pool in
  let stake_pool := set_total_lamports total stake_pool in
  let! pool_mint_data := try_borrow_data pool_mint_info in
  let! pool_mint := lift (unpack_mint pool_mint_data) in
  write_data stake_pool_codec stake_pool_info (set_pool_token_supply (mint_supply pool_mint) stake_pool).

(** ** Cleanup *)
(** Whether a preference must be reset: its validator is gone or not active. *)
Definition preferred_is_stale (validator_list_info : AccountInfo) (preferred : Pubkey) : M bool :=
  let! maybe_validator := list_find validator_list_info (fun x => memcmp_pubkey x preferred) in
  mret match maybe_validator with
       | Some validator => negb (bool_decide (status_from_u8 (status validator) = Some Active))
       | None => true
       end.

Definition process_cleanup_removed_validator_entries (accounts : list AccountInfo) : M unit :=
  let! (stake_pool_info, it) := next_account_info accounts in
  let! (validator_list_info, it) := next_account_info it in
  let! stake_pool := load_stake_pool program_id stake_pool_info in
  do! check_validator_list stake_pool validator_list_info in
  let! _ := load_validator_list program_id validator_list_info in
  do! list_retain validator_list_info (fun x => let* b := is_removed x in Ok (negb b)) in
  mwhen (is_writable stake_pool_info)
    (let! data := borrow_data stake_pool_info in
     let! stake_pool := lift (try_from_slice_unchecked stake_pool_codec data) in
     let! stake_pool :=
       match preferred_deposit_validator_vote_address stake_pool with
       | Some preferred =>
           let! stale := preferred_is_stale validator_list_info preferred in
           mret (if stale then set_preferred_deposit_validator_vote_address None stake_pool else stake_pool)
       | None => mret stake_pool
       end in
     let! stake_pool :=
       match preferred_withdraw_validator_vote_address stake_pool with
       | Some preferred =>
           let! stale := preferred_is_stale validator_list_info preferred in
           mret (if stale then set_preferred_withdraw_validator_vote_address None stake_pool else stake_pool)
       | None => mret stake_pool
       end in
     write_data stake_pool_codec stake_pool_info stake_pool).
End UpdatePool.

(** ** What a refreshed pool is *)
(** All stake the list records. *)
Definition total_stake (xs : list ValidatorStakeInfo) : Z :=
  fold_right (fun v n => active_stake_lamports v + transient_stake_lamports v + n) 0 xs.

Definition refreshed_pool (epoch total supply : Z) (p : StakePool) : StakePool :=
  set_pool_token_supply supply
    (set_total_lamports total (advance_epoch epoch (total_lamports p) (pool_token_supply p) p)).

(** Assigning a field a value of its type. *)
Ltac wf_pool_set :=
  unfold stake_pool_codec in *; cbn [wf] in *; deex;
  repeat (split; [first [assumption | exact I]|]); assumption.

Lemma wf_advance_fee f n f' n' :
  wf fee_codec f -> wf (future fee_codec) n -> advance_fee f n = (f', n') ->
  wf fee_codec f' /\ wf (future fee_codec) n'.
Proof. intros Hf Hn [= <- <-]. by destruct n. Qed.

Lemma wf_advance_epoch e l t p :
  wf stake_pool_codec p -> in_range 64 e -> in_range 64 l -> in_range 64 t ->
  wf stake_pool_codec (advance_epoch e l t p).
Proof.
  intros Hp He Hl Ht. unfold advance_epoch. destruct (last_update_epoch p <? e); [|done].
  destruct (advance_fee (epoch_fee p) _) as [f1 n1] eqn:E1.
  destruct (advance_fee (stake_withdrawal_fee _) _) as [f2 n2] eqn:E2.
  destruct (advance_fee (sol_withdrawal_fee _) _) as [f3 n3] eqn:E3.
  assert (H : wf fee_codec f1 /\ wf (future fee_codec) n1 /\ wf fee_codec f2 /\ wf (future fee_codec) n2 /\
              wf fee_codec f3 /\ wf (future fee_codec) n3).
  { unfold stake_pool_codec in Hp. cbn [wf] in Hp. deex.
    apply wf_advance_fee in E1 as [? ?]; [|assumption..]. apply wf_advance_fee in E2 as [? ?]; [|assumption..].
    apply wf_advance_fee in E3 as [? ?]; [|assumption..]. auto 10. }
  change (wf u64 e) in He. change (wf u64 l) in Hl. change (wf u64 t) in Ht.
  destruct H as (? & ? & ? & ? & ? & ?). wf_pool_set.
Qed.

Lemma wf_refreshed_pool e total supply p :
  wf stake_pool_codec p -> in_range 64 e -> in_range 64 total -> in_range 64 supply ->
  wf stake_pool_codec (refreshed_pool e total supply p).
Proof.
  intros Hp He Ht Hs. pose proof (wf_pool_amounts _ Hp) as [Hl Hn].
  pose proof (wf_advance_epoch e _ _ p Hp He Hl Hn) as Ha.
  unfold refreshed_pool. set (q := advance_epoch _ _ _ p) in *. clearbody q. clear Hp.
  change (wf u64 total) in Ht. change (wf u64 supply) in Hs. wf_pool_set.
Qed.

Section UpdatePoolFacts.
Context `{RT : Runtime} `{!RuntimeLaws RT}.
Variable program_id : Pubkey.

Lemma reserve_total_Ok i s n s' :
  reserve_total i s = Ok (n, s') ->
  s' = s /\ exists m, unpack_stake_state (acc_data (account_at (ledger s) (key i))) = Ok (StakeInitialized m) /\
    n = acc_lamports (account_at (ledger s) (key i)) - minimum_reserve_lamports m /\ in_range 64 n.
Proof.
  unfold reserve_total. intros H. do 2 mopen H.
  match goal with st : StakeStateV2 |- _ => destruct st; try (minv_leaf H; done) end.
  mopen H. minv_leaf H. checked_inv. eauto.
Qed.

Lemma sum_records_Ok e xs n s m s' :
  mfold (add_record e) xs n s = Ok (m, s') -> in_range 64 n ->
  s' = s /\ m = n + total_stake xs /\ in_range 64 m /\ Forall (fun v => e <= vsi_last_update_epoch v) xs.
Proof.
  revert n s. induction xs as [|v xs IH]; intros n s H Hn.
  { apply mret_Ok in H as [-> ->]. simpl. rewrite Z.add_0_r. auto. }
  cbn [mfold] in H. apply mbind_Ok in H as (k & s1 & H1 & H). unfold add_record in H1. do 2 mopen H1. minv_leaf H1.
  unfold stake_lamports in *.
  match goal with H : ok_or_sp _ _ = Ok _ |- _ => apply ok_or_sp_Ok in H end. checked_inv. check_facts.
  apply IH in H as (-> & -> & Hm & Hf); [|assumption]. cbn [total_stake fold_right]. fold (total_stake xs).
  split; [done|]. split; [lia|]. split; [done|]. by constructor.
Qed.

Lemma epoch_fee_tokens_Ok p i n s f s' :
  epoch_fee_tokens p i n s = Ok (f, s') ->
  s' = s /\ ((f = 0 /\ check_fails (check_manager_fee_info p i) s = Ok (true, s)) \/
             ((exists u, check_manager_fee_info p i s = Ok (u, s)) /\ calc_epoch_fee_amount p n = Some f)).
Proof.
  unfold epoch_fee_tokens. intros H. apply mbind_Ok in H as (b & s1 & Hb & H).
  pose proof Hb as Hb'. apply check_fails_Ok in Hb as [-> Hb]; [|apply _]. destruct b.
  - apply mret_Ok in H as [-> ->]. auto.
  - minv_leaf H. split; [done|]. right. eauto.
Qed.

(** The run of the handler: [update_pool_balance_correct] below. *)
Lemma update_pool_run accounts s r s' h xs :
  process_update_stake_pool_balance program_id accounts s = Ok (r, s') -> wf_ledger (ledger s) ->
  (forall li, accounts !! 2%nat = Some li -> list_at s (key li) h xs) ->
  exists pool auth li reserve fee_info mint token rest p c meta total fee view s1,
    accounts = pool :: auth :: li :: reserve :: fee_info :: mint :: token :: rest /\
    pool_at program_id (ledger s) (key pool) p /\ key li = validator_list p /\ key reserve = reserve_stake p /\
    key fee_info = manager_fee_account p /\ key mint = pool_mint p /\ Clock_get = Ok c /\
    Forall (fun v => epoch c <= vsi_last_update_epoch v) xs /\
    unpack_stake_state (acc_data (account_at (ledger s) (key reserve))) = Ok (StakeInitialized meta) /\
    total = acc_lamports (account_at (ledger s) (key reserve)) - minimum_reserve_lamports meta + total_stake xs /\
    in_range 64 total /\
    let s0 := mkRState (ledger s) (key li :: borrowed s) (cpi_log s) in
    ((fee = 0 /\ check_fails (check_manager_fee_info p fee_info) s0 = Ok (true, s0)) \/
     calc_epoch_fee_amount p (Z.max (total - total_lamports p) 0) = Some fee) /\
    invokes s0
      (when (0 <? fee) (TokenMintTo (key token) (key mint) (key fee_info) (key auth) fee)) s1 /\
    unpack_mint (acc_data (account_at (ledger s1) (key mint))) = Ok view /\
    stored_pool s' (key pool) = Ok (refreshed_pool (epoch c) total (mint_supply view) p) /\
    cpi_log s' = cpi_log s1 /\ list_at s' (key li) h xs /\ exists d, s' = set_data (key pool) d s1.
Proof.
  intros H Hw Hl0. unfold process_update_stake_pool_balance in H. do 7 mopen H.
  match type of Hl0 with forall _, (_ :: _ :: ?linfo :: _) !! _ = _ -> _ => pose proof (Hl0 linfo eq_refl) as Hl; clear Hl0 end.
  apply mbind_Ok in H as (c & s1 & Hc & H). minv_leaf Hc. do 7 mopen H.
  apply mbind_Ok in H as (hd & sb & Hload & H).
  apply (load_validator_list_Ok _ _ _ _ _ _ _ Hload) in Hl as (-> & _ & _ & Hnb & -> & Hl). cbv zeta in H.
  apply mbind_Ok in H as (t0 & s1 & Hres & H). apply reserve_total_Ok in Hres as (-> & meta & Hmeta & -> & Hr0).
  apply mbind_Ok in H as (n & s1 & Hn & H). apply (list_len_Ok _ _ _ _ _ _ Hl) in Hn as [-> ->].
  apply mbind_Ok in H as (ms & s1 & Hms & H).
  apply (list_slice_Ok _ _ _ _ _ _ _ _ Hl) in Hms as (-> & ys & zs & Hxs & Hy & Hz); [|lia|lia].
  assert (ms = xs) as ->.
  { destruct ys; [|simpl in Hy; lia]. rewrite Hxs in Hz. rewrite !length_app in Hz. destruct zs; [|simpl in Hz; lia].
    rewrite Hxs. simpl. by rewrite app_nil_r. }
  apply mbind_Ok in H as (total & s1 & Hsum & H). apply sum_records_Ok in Hsum as (-> & -> & Ht & Hfresh); [|done].
  apply mbind_Ok in H as (fee & s1 & Hfee & H). apply epoch_fee_tokens_Ok in Hfee as (-> & Hfee).
  apply mbind_Ok in H as (w & s1 & Hmint & H). to_invokes Hmint.
  apply mbind_Ok in H as (md & s2 & Hmd & H).
  apply try_borrow_data_Ok in Hmd as (_ & -> & ->).
  apply mbind_Ok in H as (view & s2 & Hview & H). minv_leaf Hview. minv_leaf H. check_facts. cbn [ledger] in *.
  pose proof (invokes_types _ _ _ Hmint Hw) as Hw1.
  pose proof (invokes_log _ _ _ Hmint) as [_ Hbor]. cbn [borrowed] in Hbor.
  assert (Hsup : in_range 64 (mint_supply view)).
  { eapply mint_types; [|exact Hview]. by apply wf_ledger_at. }
  match goal with H : pool_at _ _ (key a) ?q |- _ => rename q into p; pose proof (pool_at_wf _ _ _ _ Hw H) as Hwf end.
  assert (Hne : key a <> key a1).
  { apply (borrowed_ne s1); [rewrite Hbor; by left | assumption]. }
  exists a, a0, a1, a2, a3, a4, a5. do 2 eexists. exists c, meta. eexists. exists fee, view, s1.
  split; [reflexivity|]. do 2 (split; [eassumption|]). split; [eassumption|]. split; [done|]. split; [eassumption|].
  split; [exact Hc|]. split; [exact Hfresh|]. split; [exact Hmeta|]. split; [reflexivity|]. split; [exact Ht|].
  cbv zeta. split; [destruct Hfee as [[-> Hf]|[_ Hf]]; [by left | right; exact Hf]|]. split; [exact Hmint|].
  split; [exact Hview|]. split.
  { apply stored_after_write; [|eassumption]. apply wf_refreshed_pool; try done. by eapply clock_types. }
  split; [done|]. split; [|eauto]. eapply list_at_same; [|exact Hl]. rewrite set_data_at_ne by done.
  apply (invokes_borrowed _ _ _ _ Hmint). by left.
Qed.

(** C7: a successful [UpdateStakePoolBalance] makes the pool worth exactly its assets:
    its total is the reserve above the reserve's minimum plus all active and transient
    stake of the list, whose entries are all at the current epoch, without overflow.
    The manager's account receives the epoch fee of what the total grew by, minted
    once and only if that account can take fees, and nothing else is invoked; the
    supply recorded is the mint's afterwards, and the announced fees advance as
    [refreshed_pool] says. The list stays. *)
Theorem update_pool_balance_correct accounts s r s' h xs :
  process_update_stake_pool_balance program_id accounts s = Ok (r, s') -> wf_ledger (ledger s) ->
  (forall li, accounts !! 2%nat = Some li -> list_at s (key li) h xs) ->
  exists pool auth li reserve fee_info mint token rest p c meta total fee view s1,
    accounts = pool :: auth :: li :: reserve :: fee_info :: mint :: token :: rest /\
    pool_at program_id (ledger s) (key pool) p /\ key li = validator_list p /\ key reserve = reserve_stake p /\
    key fee_info = manager_fee_account p /\ key mint = pool_mint p /\ Clock_get = Ok c /\
    Forall (fun v => epoch c <= vsi_last_update_epoch v) xs /\
    unpack_stake_state (acc_data (account_at (ledger s) (key reserve))) = Ok (StakeInitialized meta) /\
    total = acc_lamports (account_at (ledger s) (key reserve)) - minimum_reserve_lamports meta + total_stake xs /\
    in_range 64 total /\
    let s0 := mkRState (ledger s) (key li :: borrowed s) (cpi_log s) in
    ((fee = 0 /\ check_fails (check_manager_fee_info p fee_info) s0 = Ok (true, s0)) \/
     calc_epoch_fee_amount p (Z.max (total - total_lamports p) 0) = Some fee) /\
    invokes s0
      (when (0 <? fee) (TokenMintTo (key token) (key mint) (key fee_info) (key auth) fee)) s1 /\
    unpack_mint (acc_data (account_at (ledger s1) (key mint))) = Ok view /\
    stored_pool s' (key pool) = Ok (refreshed_pool (epoch c) total (mint_supply view) p) /\
    cpi_log s' = cpi_log s1 /\ list_at s' (key li) h xs /\ exists d, s' = set_data (key pool) d s1.
Proof. apply update_pool_run. Qed.

(** ** Cleanup *)
(** Whether the first entry of the vote account is missing or not active. *)
Definition stale (xs : list ValidatorStakeInfo) (vote : Pubkey) : bool :=
  match List.find (votes_for vote) xs with Some v => negb (entry_active v) | None => true end.
Definition keep_preferred (xs : list ValidatorStakeInfo) (o : option Pubkey) : option Pubkey :=
  match o with Some vote => if stale xs vote then None else Some vote | None => None end.
Definition reset_stale (xs : list ValidatorStakeInfo) (p : StakePool) : StakePool :=
  set_preferred_withdraw_validator_vote_address (keep_preferred xs (preferred_withdraw_validator_vote_address p))
    (set_preferred_deposit_validator_vote_address (keep_preferred xs (preferred_deposit_validator_vote_address p)) p).

Lemma preferred_is_stale_Ok li vote s b s' h xs :
  preferred_is_stale li vote s = Ok (b, s') -> list_at s (key li) h xs -> in_range 256 vote ->
  s' = s /\ b = stale xs vote.
Proof.
  intros H Hl Hv. unfold preferred_is_stale in H. apply mbind_Ok in H as (o & s1 & Ho & H).
  apply (list_find_Ok _ _ _ _ _ _ _ _ Hl (memcmp_decides vote Hv)) in Ho as [-> ->].
  apply mret_Ok in H as [-> ->]. split; [done|]. unfold stale, votes_for.
  destruct (List.find _ xs) as [v|]; [|done]. f_equal. unfold entry_active. apply eq_true_iff_eq.
  rewrite bool_decide_eq_true, status_from_u8_byte, Z.eqb_eq. done.
Qed.

Lemma wf_pool_preferred p vote :
  wf stake_pool_codec p ->
  preferred_deposit_validator_vote_address p = Some vote \/
  preferred_withdraw_validator_vote_address p = Some vote -> in_range 256 vote.
Proof.
  unfold stake_pool_codec. cbn [wf]. intros H [E | E]; deex.
  - match goal with H : wf _ (preferred_deposit_validator_vote_address p) |- _ => rewrite E in H; exact H end.
  - match goal with H : wf _ (preferred_withdraw_validator_vote_address p) |- _ => rewrite E in H; exact H end.
Qed.

Lemma wf_keep_preferred xs o : wf (opt pubkey) o -> wf (opt pubkey) (keep_preferred xs o).
Proof. intros H. destruct o as [vote|]; [|exact I]. simpl. by destruct (stale xs vote). Qed.

Lemma wf_reset_stale xs p : wf stake_pool_codec p -> wf stake_pool_codec (reset_stale xs p).
Proof.
  intros H.
  assert (Hd : wf (opt pubkey) (keep_preferred xs (preferred_deposit_validator_vote_address p)) /\
               wf (opt pubkey) (keep_preferred xs (preferred_withdraw_validator_vote_address p))).
  { unfold stake_pool_codec in H. cbn [wf] in H. deex. split; apply wf_keep_preferred; assumption. }
  destruct Hd as [Hd Hw]. unfold reset_stale. revert Hd Hw.
  generalize (keep_preferred xs (preferred_deposit_validator_vote_address p)) as d.
  generalize (keep_preferred xs (preferred_withdraw_validator_vote_address p)) as w.
  intros. wf_pool_set.
Qed.

(** The two resets of the handler are [reset_stale]. *)
Lemma reset_run li p q1 q s s1 s' h xs :
  list_at s (key li) h xs -> wf stake_pool_codec p ->
  (match preferred_deposit_validator_vote_address p with
   | Some preferred => let! b := preferred_is_stale li preferred in
       mret (if b then set_preferred_deposit_validator_vote_address None p else p)
   | None => mret p
   end) s = Ok (q1, s1) ->
  (match preferred_withdraw_validator_vote_address q1 with
   | Some preferred => let! b := preferred_is_stale li preferred in
       mret (if b then set_preferred_withdraw_validator_vote_address None q1 else q1)
   | None => mret q1
   end) s1 = Ok (q, s') -> s' = s /\ q = reset_stale xs p.
Proof.
  intros Hl Hp H1 H2.
  assert (A1 : s1 = s /\ q1 = set_preferred_deposit_validator_vote_address
                        (keep_preferred xs (preferred_deposit_validator_vote_address p)) p).
  { destruct (preferred_deposit_validator_vote_address p) as [k|] eqn:E.
    - apply mbind_Ok in H1 as (b & s2 & Hb & H1). apply mret_Ok in H1 as [-> ->].
      eapply preferred_is_stale_Ok in Hb as [-> ->]; [|exact Hl | eapply wf_pool_preferred; eauto].
      split; [done|]. simpl. destruct (stale xs k); [done|]. rewrite <- E. by destruct p.
    - apply mret_Ok in H1 as [-> ->]. split; [done|]. simpl. rewrite <- E. by destruct p. }
  destruct A1 as [-> ->]. clear H1.
  change (preferred_withdraw_validator_vote_address (set_preferred_deposit_validator_vote_address _ p))
    with (preferred_withdraw_validator_vote_address p) in H2. unfold reset_stale.
  set (q1 := set_preferred_deposit_validator_vote_address _ p) in *.
  assert (Eq : preferred_withdraw_validator_vote_address q1 = preferred_withdraw_validator_vote_address p) by done.
  clearbody q1. destruct (preferred_withdraw_validator_vote_address p) as [k|] eqn:E.
  - apply mbind_Ok in H2 as (b & s2 & Hb & H2). apply mret_Ok in H2 as [-> ->].
    eapply preferred_is_stale_Ok in Hb as [-> ->]; [|exact Hl | eapply wf_pool_preferred; eauto].
    split; [done|]. simpl. destruct (stale xs k); [done|]. rewrite <- Eq. by destruct q1.
  - apply mret_Ok in H2 as [-> ->]. split; [done|]. simpl. rewrite <- Eq. by destruct q1.
Qed.

(** The run of the handler: [cleanup_correct] below. *)
Lemma cleanup_run accounts s r s' h xs :
  process_cleanup_removed_validator_entries program_id accounts s = Ok (r, s') -> wf_ledger (ledger s) ->
  (forall li, accounts !! 1%nat = Some li -> list_at s (key li) h xs) ->
  exists pool li rest p,
    let kept := List.filter (fun v => negb (entry_removed v)) xs in
    accounts = pool :: li :: rest /\ pool_at program_id (ledger s) (key pool) p /\ key li = validator_list p /\
    list_at s' (key li) h kept /\ cpi_log s' = cpi_log s /\
    exists d, let s1 := set_data (key li) d (mkRState (ledger s) (key li :: borrowed s) (cpi_log s)) in
    if is_writable pool then
      stored_pool s' (key pool) = Ok (reset_stale kept p) /\ exists d', s' = set_data (key pool) d' s1
    else s' = s1.
Proof.
  intros H Hw Hl0. unfold process_cleanup_removed_validator_entries in H. do 2 mopen H.
  match type of Hl0 with forall _, (_ :: ?linfo :: _) !! _ = _ -> _ => pose proof (Hl0 linfo eq_refl) as Hl; clear Hl0 end.
  do 2 mopen H. apply mbind_Ok in H as (hd & sb & Hload & H).
  apply (load_validator_list_Ok _ _ _ _ _ _ _ Hload) in Hl as (-> & _ & _ & Hnb & -> & Hl).
  apply mbind_Ok in H as (w & s1 & Hret & H).
  apply (list_retain_Ok _ _ _ _ _ _ _ _ Hl not_removed_decides) in Hret as [Hl' [d ->]]. check_facts.
  match goal with H : pool_at _ _ (key a) ?q |- _ => rename q into p; rename H into Hp end.
  pose proof (pool_at_wf _ _ _ _ Hw Hp) as Hwf. exists a, a0. eexists. exists p. cbv zeta.
  split; [reflexivity|]. split; [exact Hp|]. split; [done|]. unfold mwhen in H.
  assert (Hne : is_writable a = true -> key a <> key a0).
  { intros E. rewrite E in H. apply mbind_Ok in H as (x & s1 & Hx & _). apply borrow_data_Ok in Hx as (Hx & _).
    apply (borrowed_ne (set_data (key a0) d (mkRState (ledger s) (key a0 :: borrowed s) (cpi_log s)))); [by left | done]. }
  destruct (is_writable a) eqn:Ew; [|apply mret_Ok in H as [_ ->]; split; [exact Hl'|]; split; [done|]; eauto].
  apply mbind_Ok in H as (x & s1 & Hx & H). apply borrow_data_Ok in Hx as (_ & -> & ->).
  specialize (Hne eq_refl). rewrite set_data_at_ne in H by congruence. mopen H.
  match goal with H : try_from_slice_unchecked _ (acc_data (account_at _ (key a))) = Ok ?q |- _ =>
    assert (q = p) as -> by (destruct Hp as (_ & Hp & _); cbn [ledger] in H; congruence); clear H end.
  apply mbind_Ok in H as (q1 & s1 & H1 & H). apply mbind_Ok in H as (q & s2 & H2 & H).
  destruct (reset_run _ _ _ _ _ _ _ _ _ Hl' Hwf H1 H2) as [-> ->]. minv_leaf H.
  split; [eapply list_at_same; [|exact Hl']; by rewrite set_data_at_ne by auto|]. split; [done|]. exists d.
  split; [by apply stored_after_write; [apply wf_reset_stale|] | eauto].
Qed.

(** C28: a successful [CleanupRemovedValidatorEntries] keeps, in order, exactly the
    entries that are not ready for removal with nothing left in them, and invokes
    nothing. If the pool account is writable, each preferred validator that is not,
    as the first entry of its vote account, an active entry of the cleaned list is
    reset, and nothing else of the pool changes; otherwise the list
    account is all that changes. *)
Theorem cleanup_correct accounts s r s' h xs :
  process_cleanup_removed_validator_entries program_id accounts s = Ok (r, s') -> wf_ledger (ledger s) ->
  (forall li, accounts !! 1%nat = Some li -> list_at s (key li) h xs) ->
  exists pool li rest p,
    let kept := List.filter (fun v => negb (entry_removed v)) xs in
    accounts = pool :: li :: rest /\ pool_at program_id (ledger s) (key pool) p /\ key li = validator_list p /\
    list_at s' (key li) h kept /\ cpi_log s' = cpi_log s /\
    exists d, let s1 := set_data (key li) d (mkRState (ledger s) (key li :: borrowed s) (cpi_log s)) in
    if is_writable pool then
      stored_pool s' (key pool) = Ok (reset_stale kept p) /\ exists d', s' = set_data (key pool) d' s1
    else s' = s1.
Proof. apply cleanup_run. Qed.

(** C32: a withdrawal fee the manager announces is in force only after two epochs have
    begun: at the first update of a later epoch the old fee still holds, and the new
    one holds from the first update of an epoch after that; updates within one epoch
    change no fee. The same holds for the other withdrawal fee and the epoch fee. *)
Theorem announced_fee_waits_two_epochs p f q e1 e2 l1 t1 l2 t2 :
  update_fee p (StakeWithdrawal f) = Ok q -> last_update_epoch p < e1 -> e1 < e2 ->
  stake_withdrawal_fee q = stake_withdrawal_fee p /\
  let q1 := advance_epoch e1 l1 t1 q in
  stake_withdrawal_fee q1 = stake_withdrawal_fee p /\ advance_epoch e1 l2 t2 q1 = q1 /\
  let q2 := advance_epoch e2 l2 t2 q1 in
  stake_withdrawal_fee q2 = f /\ next_stake_withdrawal_fee q2 = FutureNone /\
  (forall g q', update_fee p (EpochFee g) = Ok q' ->
     epoch_fee (advance_epoch e1 l1 t1 q') = epoch_fee p /\
     epoch_fee (advance_epoch e2 l2 t2 (advance_epoch e1 l1 t1 q')) = g) /\
  (forall g q', update_fee p (SolWithdrawal g) = Ok q' ->
     sol_withdrawal_fee (advance_epoch e1 l1 t1 q') = sol_withdrawal_fee p /\
     sol_withdrawal_fee (advance_epoch e2 l2 t2 (advance_epoch e1 l1 t1 q')) = g).
Proof.
  intros H H1 H2.
  assert (Hadv : forall e l t q, last_update_epoch q < e -> last_update_epoch (advance_epoch e l t q) = e /\
    stake_withdrawal_fee (advance_epoch e l t q) = fst (advance_fee (stake_withdrawal_fee q) (next_stake_withdrawal_fee q)) /\
    next_stake_withdrawal_fee (advance_epoch e l t q) = update_epoch (next_stake_withdrawal_fee q) /\
    epoch_fee (advance_epoch e l t q) = fst (advance_fee (epoch_fee q) (next_epoch_fee q)) /\
    next_epoch_fee (advance_epoch e l t q) = update_epoch (next_epoch_fee q) /\
    sol_withdrawal_fee (advance_epoch e l t q) = fst (advance_fee (sol_withdrawal_fee q) (next_sol_withdrawal_fee q)) /\
    next_sol_withdrawal_fee (advance_epoch e l t q) = update_epoch (next_sol_withdrawal_fee q)).
  { intros e l t x Hx. unfold advance_epoch. destruct (Z.ltb_spec (last_update_epoch x) e); [|lia]. done. }
  assert (Hsame : forall l t x, last_update_epoch x = e1 -> advance_epoch e1 l t x = x).
  { intros l t x Hx. unfold advance_epoch. destruct (Z.ltb_spec (last_update_epoch x) e1); [lia|done]. }
  assert (Hq : forall x, last_update_epoch x = last_update_epoch p ->
    last_update_epoch (advance_epoch e1 l1 t1 x) < e2 /\ last_update_epoch x < e1).
  { intros x Hx. destruct (Hadv e1 l1 t1 x) as [-> _]; lia. }
  cbn [update_fee] in H. apply obind_Ok in H as (w & _ & H). apply Ok_inj in H as <-.
  set (q := set_next_stake_withdrawal_fee _ p). destruct (Hq q eq_refl) as [L2 L1].
  pose proof (Hadv e1 l1 t1 q L1) as (Ee & Ef & En & _). pose proof (Hadv e2 l2 t2 _ L2) as (_ & Ef2 & En2 & _).
  split; [done|]. split; [exact Ef|]. split; [by apply Hsame|].
  split; [rewrite Ef2, En, Ef; reflexivity|]. split; [rewrite En2, En; reflexivity|]. split.
  - intros g q' E. apply Ok_inj in E as <-. set (q' := set_next_epoch_fee _ p). destruct (Hq q' eq_refl) as [M2 M1].
    pose proof (Hadv e1 l1 t1 q' M1) as (_ & _ & _ & A & B & _). pose proof (Hadv e2 l2 t2 _ M2) as (_ & _ & _ & C & _).
    split; [exact A|]. rewrite C, A, B. reflexivity.
  - intros g q' E. cbn [update_fee] in E. apply obind_Ok in E as (w' & _ & E). apply Ok_inj in E as <-.
    set (q' := set_next_sol_withdrawal_fee _ p). destruct (Hq q' eq_refl) as [M2 M1].
    pose proof (Hadv e1 l1 t1 q' M1) as (_ & _ & _ & _ & _ & A & B).
    pose proof (Hadv e2 l2 t2 _ M2) as (_ & _ & _ & _ & _ & C & _).
    split; [exact A|]. rewrite C, A, B. reflexivity.
Qed.
End UpdatePoolFacts.

(** ** The concrete pool is refreshed and cleaned *)
Definition toy_balance_accounts : list AccountInfo :=
  [plain toy_pool_key; plain toy_authority; plain toy_list_key; plain toy_reserve_key; plain toy_fee_key;
   plain toy_mint_key; plain toy_token_program].
Definition toy_balance_run : outcome (unit * RState) :=
  process_update_stake_pool_balance (RT := toy) toy_program toy_balance_accounts toy_state.

(** The reserve holds one billion lamports above its minimum, the list four. *)
Lemma update_pool_balance_correct_witness :
  is_ok toy_balance_run = true /\
  exists pool c view p, Clock_get (Runtime := toy) = Ok c /\
    stored_pool (RT := toy) (final toy_state toy_balance_run) (key pool) =
      Ok (refreshed_pool (epoch c) 5000000000 (mint_supply view) p).
Proof.
  assert (H : is_ok toy_balance_run = true) by (vm_compute; reflexivity). split; [exact H|].
  destruct (update_pool_balance_correct (RT := toy) toy_program toy_balance_accounts toy_state tt _ toy_header
    [toy_entry] (ran toy_state _ H) toy_state_wf) as (pool & au & li & re & fi & mi & tp & rest & p & c & meta & total &
    fee & view & s1 & Ha & _ & _ & _ & _ & _ & Hc & _ & Hm & Ht & _ & _ & _ & _ & Hp & _).
  - intros li E. injection E as <-. exact toy_list_at.
  - exists pool, c, view, p. split; [exact Hc|]. rewrite Hp. injection Ha as _ _ _ <- _ _ _ _.
    vm_compute in Hm. injection Hm as <-. rewrite Ht. vm_compute. reflexivity.
Defined.

(** A pool that prefers a validator the list does not have. *)
Definition toy_preferring : RState :=
  set_data (RT := toy) toy_pool_key
    (pad 1000 (enc stake_pool_codec (set_preferred_deposit_validator_vote_address (Some 99) toy_pool))) toy_state.
Definition toy_cleanup_run : outcome (unit * RState) :=
  process_cleanup_removed_validator_entries (RT := toy) toy_program [plain toy_pool_key; plain toy_list_key]
    toy_preferring.

Lemma cleanup_correct_witness :
  is_ok toy_cleanup_run = true /\
  exists pool li p,
    list_at (RT := toy) (final toy_preferring toy_cleanup_run) (key li) toy_header
      (List.filter (fun v => negb (entry_removed v)) [toy_entry]) /\
    (is_writable pool = true ->
       stored_pool (RT := toy) (final toy_preferring toy_cleanup_run) (key pool) = Ok (reset_stale [toy_entry] p)).
Proof.
  assert (H : is_ok toy_cleanup_run = true) by (vm_compute; reflexivity). split; [exact H|].
  destruct (cleanup_correct (RT := toy) toy_program [plain toy_pool_key; plain toy_list_key] toy_preferring tt _
    toy_header [toy_entry] (ran toy_preferring _ H)) as (pool & li & rest & p & _ & _ & _ & Hl & _ & d & Hp).
  - apply (wf_ledger_set (RT := toy)); [exact toy_state_wf | apply bytesb_bytes; vm_compute; reflexivity].
  - intros li E. injection E as <-. eapply list_at_same; [|exact toy_list_at]. vm_compute. reflexivity.
  - exists pool, li, p. split; [exact Hl|]. intros E. rewrite E in Hp. exact (proj1 Hp).
Defined.

Lemma announced_fee_waits_two_epochs_witness :
  exists q, update_fee toy_pool (StakeWithdrawal (mkFee 1000 4)) = Ok q /\
    stake_withdrawal_fee (advance_epoch 6 0 0 q) = mkFee 1000 3 /\
    stake_withdrawal_fee (advance_epoch 7 0 0 (advance_epoch 6 0 0 q)) = mkFee 1000 4.
Proof.
  destruct (update_fee toy_pool (StakeWithdrawal (mkFee 1000 4))) as [q| |] eqn:E;
    [|vm_compute in E; discriminate E..].
  exists q. split; [reflexivity|].
  destruct (announced_fee_waits_two_epochs toy_pool (mkFee 1000 4) q 6 7 0 0 0 0 E) as (_ & H1 & _ & H2 & _);
    [vm_compute; reflexivity | lia |]. split; [exact H1 | exact H2].
Defined.
