(* ===== verification/Initialize.v ===== *)
(** * Creating a pool (program/src/processor.rs)
    [Initialize]: the checks on every account of a new pool, the pool and the empty
    list it stores; and what the order of the first two fields of [StakePool] means
    for the test that an account is unused when it is given a validator list. *)
From S2P Require Import Prelude Error Fees State Borsh Layout BigVec Entries Runtime Checks ListAccess UpdatePool Concrete.

Section Initialize.
Context `{RT : Runtime}.
Variable program_id : Pubkey.

(** The list: unused, as large as [max_validators] says, and not too large. *)
Definition check_new_list (validator_list_info : AccountInfo) (max_validators : Z) : M unit :=
  do! check_account_owner validator_list_info program_id in
  let! data := borrow_data validator_list_info in
  let! validator_list := lift (try_from_slice_unchecked validator_list_codec data) in
  do! fail_if_sp (negb (header_is_uninitialized (header validator_list))) AlreadyInUse in
  let! data_length := data_len validator_list_info in
  do! fail_if_sp (negb (calculate_max_validators data_length =? max_validators) || (max_validators =? 0))
        UnexpectedValidatorListAccountSize in
  fail_if_sp (MAX_VALIDATORS_IN_POOL <? max_validators) TooManyValidatorsInPool.

Definition check_rent_exempt (rent : Rent) (info : AccountInfo) : M unit :=
  let! lamports := lamports_of info in
  let! n := data_len info in
  fail_if (negb (is_exempt rent lamports n)) AccountNotRentExempt.

Definition initial_fees_too_high (epoch_fee withdrawal_fee deposit_fee : Fee) (referral_fee : Z) : bool :=
  (denominator epoch_fee <? numerator epoch_fee) || (denominator withdrawal_fee <? numerator withdrawal_fee) ||
  (denominator deposit_fee <? numerator deposit_fee) || (100 <? referral_fee).

(** The mint: no supply, the native decimals, minted by the pool alone, never frozen. *)
Definition check_new_mint (pool_mint_info : AccountInfo) (withdraw_authority_key : Pubkey) : M unit :=
  let! pool_mint_data := try_borrow_data pool_mint_info in
  let! pool_mint := lift (unpack_mint pool_mint_data) in
  do! fail_if_sp (negb (mint_supply pool_mint =? 0)) NonZeroPoolTokenSupply in
  do! fail_if_sp (negb (mint_decimals pool_mint =? native_mint_decimals)) IncorrectMintDecimals in
  do! fail_if_sp (negb (opt_key_eqb (mint_authority pool_mint) withdraw_authority_key)) WrongMintingAuthority in
  do! fail_if_sp (bool_decide (is_Some (freeze_authority pool_mint))) InvalidMintFreezeAuthority in
  let! extensions := lift (mint_extensions pool_mint) in
  fail_if_sp (existsb (fun x => negb (is_extension_supported_for_mint x)) extensions) UnsupportedMintExtension.

(** The reserve: a stake account of the pool, and its lamports above the minimum. *)
Definition new_reserve_lamports (reserve_stake_info : AccountInfo) (withdraw_authority_key : Pubkey) : M Z :=
  let! owner := owner_of reserve_stake_info in
  do! fail_if (negb (key_eqb owner stake_program_id)) IncorrectProgramId in
  let! data := borrow_data reserve_stake_info in
  let! stake_state := lift (unpack_stake_state data) in
  match stake_state with
  | StakeInitialized meta =>
      do! fail_if_sp (negb (bool_decide (meta_lockup meta = Lockup_default))) WrongStakeStake in
      do! fail_if_sp (negb (key_eqb (auth_staker (authorized meta)) withdraw_authority_key)) WrongStakeStake in
      do! fail_if_sp (negb (key_eqb (auth_withdrawer (authorized meta)) withdraw_authority_key)) WrongStakeStake in
      let! lamports := lamports_of reserve_stake_info in
      get_or (checked_sub 64 lamports (minimum_reserve_lamports meta)) CalculationFailure
  | _ => mfail (into_program_error WrongStakeStake)
  end.

(** The pool that is stored. [self] is what the account held: [max_validator_stake]
    is the one field that is not assigned. *)
Definition initialized_pool (self : StakePool) (manager_key staker_key deposit_authority : Pubkey) (bump : Z)
    (list_key reserve_key mint_key fee_key token_key : Pubkey) (lamports epoch : Z)
    (new_epoch_fee withdrawal_fee deposit_fee : Fee) (referral_fee : Z) (sol_authority : option Pubkey) : StakePool := {|
  version := 1;
  account_type := AccStakePool;
  manager := manager_key;
  staker := staker_key;
  stake_deposit_authority := deposit_authority;
  stake_withdraw_bump_seed := bump;
  validator_list := list_key;
  reserve_stake := reserve_key;
  pool_mint := mint_key;
  manager_fee_account := fee_key;
  token_program_id := token_key;
  total_lamports := lamports;
  pool_token_supply := lamports;
  last_update_epoch := epoch;
  lockup := Lockup_default;
  epoch_fee := new_epoch_fee;
  next_epoch_fee := FutureNone;
  preferred_deposit_validator_vote_address := None;
  preferred_withdraw_validator_vote_address := None;
  stake_deposit_fee := deposit_fee;
  stake_withdrawal_fee := withdrawal_fee;
  next_stake_withdrawal_fee := FutureNone;
  stake_referral_fee := referral_fee;
  sol_deposit_authority := sol_authority;
  sol_deposit_fee := deposit_fee;
  sol_referral_fee := referral_fee;
  sol_withdraw_authority := None;
  sol_withdrawal_fee := withdrawal_fee;
  next_sol_withdrawal_fee := FutureNone;
  last_epoch_pool_token_supply := 0;
  last_epoch_total_lamports := 0;
  max_validator_stake := max_validator_stake self;
  reserved := replicate 256 0
|}.

Definition process_initialize (accounts : list AccountInfo) (epoch_fee withdrawal_fee deposit_fee : Fee)
    (referral_fee max_validators : Z) : M unit :=
  let! (stake_pool_info, it) := next_account_info accounts in
  let! (manager_info, it) := next_account_info it in
  let! (staker_info, it) := next_account_info it in
  let! (withdraw_authority_info, it) := next_account_info it in
  let! (validator_list_info, it) := next_account_info it in
  let! (reserve_stake_info, it) := next_account_info it in
  let! (pool_mint_info, it) := next_account_info it in
  let! (manager_fee_info, it) := next_account_info it in
  let! (token_program_info, it) := next_account_info it in
  let! rent := lift Rent_get in
  do! fail_if_sp (negb (is_signer manager_info)) SignatureMissing in
  do! fail_if_sp (key_eqb (key stake_pool_info) (key validator_list_info)) AlreadyInUse in
  do! check_account_owner stake_pool_info program_id in
  let! data := borrow_data stake_pool_info in
  let! stake_pool := lift (try_from_slice_unchecked stake_pool_codec data) in
  do! fail_if_sp (negb (StakePool_is_uninitialized stake_pool)) AlreadyInUse in
  do! check_new_list validator_list_info max_validators in
  do! check_rent_exempt rent stake_pool_info in
  do! check_rent_exempt rent validator_list_info in
  do! fail_if_sp (initial_fees_too_high epoch_fee withdrawal_fee deposit_fee referral_fee) FeeTooHigh in
  do! lift (check_spl_token_program_account (key token_program_info)) in
  let! mint_owner := owner_of pool_mint_info in
  do! fail_if (negb (key_eqb mint_owner (key token_program_info))) IncorrectProgramId in
  let stake_pool := set_pool_mint (key pool_mint_info) (set_token_program_id (key token_program_info) stake_pool) in
  let '(stake_deposit_authority, sol_deposit_authority) :=
    match it with
    | deposit_authority_info :: _ => (key deposit_authority_info, Some (key deposit_authority_info))
    | [] => (fst (find_deposit_authority_program_address program_id (key stake_pool_info)), None)
    end in
  let '(withdraw_authority_key, stake_withdraw_bump_seed) :=
    find_withdraw_authority_program_address program_id (key stake_pool_info) in
  do! fail_if_sp (negb (key_eqb withdraw_authority_key (key withdraw_authority_info))) InvalidProgramAddress in
  do! check_new_mint pool_mint_info withdraw_authority_key in
  do! check_manager_fee_info stake_pool manager_fee_info in
  let! total_lamports := new_reserve_lamports reserve_stake_info withdraw_authority_key in
  do! mwhen (0 <? total_lamports)
        (token_mint_to (key stake_pool_info) token_program_info pool_mint_info manager_fee_info
           withdraw_authority_info AUTHORITY_WITHDRAW stake_withdraw_bump_seed total_lamports) in
  do! write_data validator_list_codec validator_list_info
        (mkValidatorList (mkHeader AccValidatorList max_validators) []) in
  let! clock := lift Clock_get in
  write_data stake_pool_codec stake_pool_info
    (initialized_pool stake_pool (key manager_info) (key staker_info) stake_deposit_authority
       stake_withdraw_bump_seed (key validator_list_info) (key reserve_stake_info) (key pool_mint_info)
       (key manager_fee_info) (key token_program_info) total_lamports (epoch clock)
       epoch_fee withdrawal_fee deposit_fee referral_fee sol_deposit_authority).
End Initialize.

Section InitializeFacts.
Context `{RT : Runtime} `{!RuntimeLaws RT}.
Variable program_id : Pubkey.

Lemma check_new_list_Ok i n s r s' :
  check_new_list program_id i n s = Ok (r, s') ->
  s' = s /\ acc_owner (account_at (ledger s) (key i)) = program_id /\ 1 <= n <= MAX_VALIDATORS_IN_POOL /\
  calculate_max_validators (Z.of_nat (length (acc_data (account_at (ledger s) (key i))))) = n /\
  exists l, try_from_slice_unchecked validator_list_codec (acc_data (account_at (ledger s) (key i))) = Ok l /\
    header_is_uninitialized (header l) = true.
Proof.
  unfold check_new_list. intros H. do 4 mopen H.
  apply mbind_Ok in H as (k & s1 & Hk & H). unfold data_len in Hk. mopen Hk. minv_leaf Hk.
  mopen H. minv_leaf H. check_facts.
  match goal with H : _ || _ = false |- _ => apply orb_false_iff in H as [Hc Hz] end. check_facts.
  split; [done|]. split; [done|]. split; [|by eauto].
  subst n. unfold calculate_max_validators, saturating_sub, saturating_div in *.
  assert (0 <= Z.max (Z.of_nat (length (acc_data (account_at (ledger s) (key i)))) - saturating_add 64 HEADER_LEN 4) 0
            / VSI_LEN) by (apply Z.div_pos; unfold VSI_LEN; lia). lia.
Qed.

#[export] Instance read_only_check_new_list i n : ReadOnly (check_new_list program_id i n).
Proof. unfold check_new_list. apply _. Qed.
#[export] Instance read_only_check_rent_exempt r i : ReadOnly (check_rent_exempt r i).
Proof. unfold check_rent_exempt. apply _. Qed.
#[export] Instance read_only_check_new_mint i k : ReadOnly (check_new_mint i k).
Proof. unfold check_new_mint. apply _. Qed.

Lemma initial_fees_ok ef wf df rf :
  initial_fees_too_high ef wf df rf = false -> fee_le_one ef /\ fee_le_one wf /\ fee_le_one df /\ rf <= 100.
Proof.
  unfold initial_fees_too_high, fee_le_one. rewrite !orb_false_iff, !Z.ltb_ge. intros [[[? ?] ?] ?]. auto.
Qed.

(** A mint a new pool accepts. *)
Definition fresh_mint (m : MintView) (authority : Pubkey) : Prop :=
  mint_supply m = 0 /\ mint_decimals m = native_mint_decimals /\ mint_authority m = Some authority /\
  freeze_authority m = None /\
  exists xs, mint_extensions m = Ok xs /\ Forall (fun x => is_extension_supported_for_mint x = true) xs.

Lemma check_new_mint_Ok i k s r s' :
  check_new_mint i k s = Ok (r, s') ->
  exists m, unpack_mint (acc_data (account_at (ledger s) (key i))) = Ok m /\ fresh_mint m k.
Proof.
  unfold check_new_mint. intros H. apply mbind_Ok in H as (d & s1 & Hd & H). apply try_borrow_data_Ok in Hd as (_ & -> & ->).
  do 6 mopen H. minv_leaf H. check_facts. eexists. split; [eassumption|].
  split; [assumption|]. split; [assumption|]. split.
  { destruct (mint_authority a) as [x|]; [|done]. simpl in *.
    match goal with H : key_eqb x k = true |- _ => apply key_eqb_eq in H as -> end. done. }
  split.
  { destruct (freeze_authority a); [|done].
    match goal with H : bool_decide _ = false |- _ => apply bool_decide_eq_false in H; by destruct H end. }
  eexists. split; [eassumption|]. apply List.Forall_forall. intros x Hx.
  destruct (is_extension_supported_for_mint x) eqn:E'; [done|]. exfalso.
  match goal with H : existsb _ _ = false |- _ => apply not_true_iff_false in H; apply H end.
  apply existsb_exists. exists x. by rewrite E'.
Qed.

Lemma new_reserve_lamports_Ok i k s n s' :
  new_reserve_lamports i k s = Ok (n, s') ->
  s' = s /\ acc_owner (account_at (ledger s) (key i)) = stake_program_id /\ exists m,
    unpack_stake_state (acc_data (account_at (ledger s) (key i))) = Ok (StakeInitialized m) /\
    stake_is_usable_by_pool m k Lockup_default = true /\
    n = acc_lamports (account_at (ledger s) (key i)) - minimum_reserve_lamports m /\ in_range 64 n.
Proof.
  unfold new_reserve_lamports. intros H. do 4 mopen H.
  match goal with st : StakeStateV2 |- _ => destruct st; try (minv_leaf H; done) end.
  do 4 mopen H. minv_leaf H. checked_inv. check_facts.
  split; [done|]. split; [done|]. eexists. split; [eassumption|]. split; [|done].
  unfold stake_is_usable_by_pool. rewrite !andb_true_iff, !key_eqb_eq. auto.
Qed.

Lemma wf_initialized_pool self mk sk dk bump lk rk tk fk pk n e ef wf_ df rf sol :
  wf stake_pool_codec self ->
  Forall (in_range 256) [mk; sk; dk; lk; rk; tk; fk; pk] -> in_range 8 bump -> in_range 64 n -> in_range 64 e ->
  wf_Fee ef -> wf_Fee wf_ -> wf_Fee df -> in_range 8 rf -> from_option (in_range 256) True sol ->
  wf stake_pool_codec (initialized_pool self mk sk dk bump lk rk tk fk pk n e ef wf_ df rf sol).
Proof.
  intros Hp Hk Hb Hn He [] [] [] Hrf Hs. rewrite !List.Forall_cons_iff in Hk. destruct Hk as (?&?&?&?&?&?&?&?&_).
  assert (Hsol : wf (opt pubkey) sol) by (by destruct sol).
  assert (Hmx : wf (opt u64) (max_validator_stake self)).
  { unfold stake_pool_codec in Hp. cbn [wf] in Hp. deex. assumption. }
  assert (Hr : wf (byte_array 256) (replicate 256 0)).
  { split; [reflexivity | apply Forall_replicate; unfold is_byte; lia]. }
  assert (Hz : in_range 64 0 /\ in_range 8 1 /\ wf lockup_codec Lockup_default)
    by (unfold lockup_codec, Lockup_default; cbn [wf unix_timestamp lockup_epoch custodian]; unfold in_range;
        repeat split; try done; lia).
  destruct Hz as (? & ? & ?). clear Hp.
  unfold stake_pool_codec, initialized_pool. cbn [wf version account_type manager staker stake_deposit_authority
    stake_withdraw_bump_seed validator_list reserve_stake pool_mint manager_fee_account token_program_id
    total_lamports pool_token_supply last_update_epoch lockup epoch_fee next_epoch_fee
    preferred_deposit_validator_vote_address preferred_withdraw_validator_vote_address stake_deposit_fee
    stake_withdrawal_fee next_stake_withdrawal_fee stake_referral_fee sol_deposit_authority sol_deposit_fee
    sol_referral_fee sol_withdraw_authority sol_withdrawal_fee next_sol_withdrawal_fee
    last_epoch_pool_token_supply last_epoch_total_lamports max_validator_stake reserved].
  repeat (split; [first [assumption | exact I | (split; assumption)]|]). exact (proj2 Hr).
Qed.

(** Writing an empty list leaves the header and no entry. *)
Lemma list_at_empty k n d d' s :
  in_range 32 n -> to_writer validator_list_codec (mkValidatorList (mkHeader AccValidatorList n) []) d = Ok d' ->
  list_at (set_data k d' s) k (mkHeader AccValidatorList n) [].
Proof.
  intros Hn [_ ->]%to_writer_Ok. split; [split; [exact I | exact Hn]|].
  split; [split; [constructor | unfold in_range; simpl; lia]|]. eexists _, _. split; [|reflexivity].
  rewrite set_data_at. cbn [acc_data]. unfold validator_list_codec, vec. cbn [enc header validators].
  rewrite <- !app_assoc. reflexivity.
Qed.

(** The types of the derived parts of a new pool. *)
Lemma deposit_authorities_types pid k dep sol rest :
  match rest with
  | i :: _ => (key i, Some (key i))
  | [] => (fst (find_deposit_authority_program_address pid k), None)
  end = (dep, sol) ->
  Forall (fun i => in_range 256 (key i)) rest -> in_range 256 dep /\ from_option (in_range 256) True sol.
Proof.
  intros E Hr. destruct rest as [|i rest]; injection E as <- <-; [split; [apply pda_types | exact I]|].
  by apply Forall_inv in Hr.
Qed.
Lemma withdraw_bump_type pid k wk bump :
  find_withdraw_authority_program_address pid k = (wk, bump) -> in_range 8 bump.
Proof.
  intros E. pose proof (pda_types (withdraw_authority_seeds k) pid) as [_ H].
  unfold find_withdraw_authority_program_address in E. by rewrite E in H.
Qed.

(** The run of the handler: [initialize_correct] below. *)
Lemma initialize_done accounts ef wf_ df rf n s r s' :
  process_initialize program_id accounts ef wf_ df rf n s = Ok (r, s') -> wf_ledger (ledger s) ->
  wf_Fee ef -> wf_Fee wf_ -> wf_Fee df -> in_range 8 rf -> in_range 32 n ->
  Forall (fun i => in_range 256 (key i)) accounts ->
  exists pool mi si auth li re mint fi token rest p0 l0 m meta total dep sol bump c q s1,
    accounts = pool :: mi :: si :: auth :: li :: re :: mint :: fi :: token :: rest /\
    is_signer mi = true /\ key pool <> key li /\
    acc_owner (account_at (ledger s) (key pool)) = program_id /\
    acc_owner (account_at (ledger s) (key li)) = program_id /\
    stored_pool s (key pool) = Ok p0 /\ StakePool_is_uninitialized p0 = true /\
    try_from_slice_unchecked validator_list_codec (acc_data (account_at (ledger s) (key li))) = Ok l0 /\
    header_is_uninitialized (header l0) = true /\
    calculate_max_validators (Z.of_nat (length (acc_data (account_at (ledger s) (key li))))) = n /\
    1 <= n <= MAX_VALIDATORS_IN_POOL /\
    fee_le_one ef /\ fee_le_one wf_ /\ fee_le_one df /\ rf <= 100 /\
    find_withdraw_authority_program_address program_id (key pool) = (key auth, bump) /\
    unpack_mint (acc_data (account_at (ledger s) (key mint))) = Ok m /\ fresh_mint m (key auth) /\
    acc_owner (account_at (ledger s) (key re)) = stake_program_id /\
    unpack_stake_state (acc_data (account_at (ledger s) (key re))) = Ok (StakeInitialized meta) /\
    stake_is_usable_by_pool meta (key auth) Lockup_default = true /\
    total = acc_lamports (account_at (ledger s) (key re)) - minimum_reserve_lamports meta /\
    invokes s (when (0 <? total) (TokenMintTo (key token) (key mint) (key fi) (key auth) total)) s1 /\
    cpi_log s' = cpi_log s1 /\ Clock_get = Ok c /\
    q = initialized_pool p0 (key mi) (key si) dep bump (key li) (key re) (key mint) (key fi) (key token) total
          (epoch c) ef wf_ df rf sol /\
    stored_pool s' (key pool) = Ok q /\ list_at s' (key li) (mkHeader AccValidatorList n) [].
Proof.
  intros H Hw Hef Hwf Hdf Hrf Hn Hk. unfold process_initialize in H. do 16 mopen H.
  apply mbind_Ok in H as (u1 & sx & Hl & H). apply check_new_list_Ok in Hl as (-> & Hlo & Hmax & Hcap & l0 & Hl0 & Hlu).
  do 6 mopen H. cbv zeta in H. check_facts.
  match type of H with (let '(_, _) := ?e in _) _ = _ => destruct e as [dep sol] eqn:Edep end.
  destruct (find_withdraw_authority_program_address _ _) as [wk bump] eqn:Ewk.
  mopen H. check_facts. subst wk. apply mbind_Ok in H as (u2 & sx & Hm & H).
  pose proof (read_only _ _ _ Hm) as ->. apply check_new_mint_Ok in Hm as (m & Hm & Hfm). mopen H.
  apply mbind_Ok in H as (total & sx & Hre & H). apply new_reserve_lamports_Ok in Hre as (-> & Hro & meta & Hmeta & Hus & -> & Ht).
  apply mbind_Ok in H as (u3 & s1 & Hi & H). to_invokes Hi.
  apply mbind_Ok in H as (u4 & s2 & Hwl & H). minv_leaf Hwl. apply mbind_Ok in H as (c & sx & Hc & H). minv_leaf Hc. minv_leaf H.
  pose proof (initial_fees_ok _ _ _ _ ltac:(eassumption)) as (F1 & F2 & F3 & F4).
  assert (Hne : key a <> key a3) by (intros E'; rewrite E', key_eqb_refl in *; done).
  assert (Hp0 : wf stake_pool_codec a9).
  { match goal with H : try_from_slice_unchecked stake_pool_codec _ = Ok _ |- _ =>
      exact (try_from_slice_unchecked_wf _ _ _ (proj2 (wf_ledger_at _ (key a) Hw)) H) end. }
  rewrite !List.Forall_cons_iff in Hk. destruct Hk as (K0 & K1 & K2 & K3 & K4 & K5 & K6 & K7 & K8 & K9).
  pose proof (deposit_authorities_types _ _ _ _ _ Edep K9) as [Hdep Hsol].
  pose proof (withdraw_bump_type _ _ _ _ Ewk) as Hbump.
  exists a, a0, a1, a2, a3, a4, a5, a6, a7, l, a9, l0, m, meta. eexists. exists dep, sol, bump, c. do 2 eexists.
  split; [reflexivity|]. split; [assumption|]. split; [exact Hne|]. split; [assumption|]. split; [reflexivity|].
  split; [eassumption|]. split; [assumption|]. split; [eassumption|]. split; [assumption|]. split; [reflexivity|].
  split; [exact Hmax|]. do 4 (split; [assumption|]). split; [exact Ewk|]. split; [exact Hm|]. split; [exact Hfm|].
  split; [exact Hro|]. split; [exact Hmeta|]. split; [exact Hus|]. split; [reflexivity|]. split; [exact Hi|].
  split; [done|]. split; [eassumption|]. split; [reflexivity|]. split.
  - apply stored_after_write; [|eassumption]. apply (wf_initialized_pool a9); auto; [|by eapply clock_types].
    do 8 (apply List.Forall_cons; [assumption|]). apply List.Forall_nil.
  - eapply list_at_same; [|eapply list_at_empty; eassumption]. by rewrite set_data_at_ne.
Qed.

(** A validator list whose account decodes as an unused pool. *)
Lemma list_read_as_pool data h xs p :
  bytes data -> try_from_slice_unchecked validator_list_codec data = Ok (mkValidatorList h xs) ->
  header_is_valid h = true -> try_from_slice_unchecked stake_pool_codec data = Ok p ->
  StakePool_is_uninitialized p = true -> max_validators h mod 256 = 0.
Proof.
  intros Hb Hl Hv Hp Hu. apply (decodes_iff validator_list_codec) in Hl as [_ [r1 ->]]; [|done].
  apply (decodes_iff stake_pool_codec) in Hp as [_ [r2 E]]; [|done].
  rewrite enc_validator_list, enc_pool in E. unfold StakePool_is_uninitialized in Hu.
  apply (f_equal (fun l => l !! 1%nat)) in E. cbn in E. destruct (account_type p); try done.
  rewrite Z.div_1_r in E. by injection E.
Qed.

(** The first byte of a pool is its version. *)
Lemma version_first b l p : try_from_slice_unchecked stake_pool_codec (b :: l) = Ok p -> version p = b.
Proof.
  unfold try_from_slice_unchecked, stake_pool_codec. cbn [dec]. unfold u8 at 1, uint at 1. cbn [dec le_dec]. intros H.
  repeat match type of H with
  | context [match dec ?c ?l with Some _ => _ | None => None end] => destruct (dec c l) as [[? ?]|]; [|done]
  end.
  injection H as <-. cbn [version]. lia.
Qed.

(** An account that holds a pool of version 1 holds no valid list. *)
Lemma pool_no_list s k p h xs :
  stored_pool s k = Ok p -> version p = 1 -> list_at s k h xs -> header_is_valid h = false.
Proof.
  unfold stored_pool. intros Hp Hv (_ & _ & spare & d & Hd & _). rewrite Hd in Hp.
  unfold header_codec in Hp. cbn [enc] in Hp. unfold header_is_valid.
  destruct (header_account_type h); [done | done|]. apply version_first in Hp. by rewrite Hp in Hv.
Qed.

(** C23: a successful [Initialize] was signed by the manager and took two different
    unused accounts of the program; it stores an empty list of the declared capacity,
    which fits the account and its limit, and a pool whose fees are at most one, whose
    mint had no supply, has the native decimals, supported extensions and no freeze
    authority and is minted by the pool's derived authority alone, and whose reserve is
    that authority's stake account without lockup. The pool starts at one token per
    lamport above the reserve's minimum: exactly those tokens are minted, to the
    manager's account. *)
Theorem initialize_correct accounts ef wf_ df rf n s r s' :
  process_initialize program_id accounts ef wf_ df rf n s = Ok (r, s') -> wf_ledger (ledger s) ->
  wf_Fee ef -> wf_Fee wf_ -> wf_Fee df -> in_range 8 rf -> in_range 32 n ->
  Forall (fun i => in_range 256 (key i)) accounts ->
  exists pool mi si auth li re mint fi token rest p0 l0 m meta total dep sol bump c q s1,
    accounts = pool :: mi :: si :: auth :: li :: re :: mint :: fi :: token :: rest /\
    is_signer mi = true /\ key pool <> key li /\
    acc_owner (account_at (ledger s) (key pool)) = program_id /\
    acc_owner (account_at (ledger s) (key li)) = program_id /\
    stored_pool s (key pool) = Ok p0 /\ StakePool_is_uninitialized p0 = true /\
    try_from_slice_unchecked validator_list_codec (acc_data (account_at (ledger s) (key li))) = Ok l0 /\
    header_is_uninitialized (header l0) = true /\
    calculate_max_validators (Z.of_nat (length (acc_data (account_at (ledger s) (key li))))) = n /\
    1 <= n <= MAX_VALIDATORS_IN_POOL /\
    fee_le_one ef /\ fee_le_one wf_ /\ fee_le_one df /\ rf <= 100 /\
    find_withdraw_authority_program_address program_id (key pool) = (key auth, bump) /\
    unpack_mint (acc_data (account_at (ledger s) (key mint))) = Ok m /\ fresh_mint m (key auth) /\
    acc_owner (account_at (ledger s) (key re)) = stake_program_id /\
    unpack_stake_state (acc_data (account_at (ledger s) (key re))) = Ok (StakeInitialized meta) /\
    stake_is_usable_by_pool meta (key auth) Lockup_default = true /\
    total = acc_lamports (account_at (ledger s) (key re)) - minimum_reserve_lamports meta /\
    invokes s (when (0 <? total) (TokenMintTo (key token) (key mint) (key fi) (key auth) total)) s1 /\
    cpi_log s' = cpi_log s1 /\ Clock_get = Ok c /\
    q = initialized_pool p0 (key mi) (key si) dep bump (key li) (key re) (key mint) (key fi) (key token) total
          (epoch c) ef wf_ df rf sol /\
    stored_pool s' (key pool) = Ok q /\ list_at s' (key li) (mkHeader AccValidatorList n) [].
Proof. apply initialize_done. Qed.

(** C25: [StakePool] stores [version] before [account_type], a validator list its account
    type first, so the test that the new pool's account is unused looks at the low byte
    of the capacity when that account is a validator list. [Initialize] refuses a list of
    any other capacity; but when the capacity is a multiple of 256 the test passes for a
    list in use, and a run that succeeds replaces the list by a valid pool whose
    manager is whoever signed, after which the account is no valid list any more. *)
Theorem initialize_over_list accounts ef wf_ df rf n s r s' info h xs :
  process_initialize program_id accounts ef wf_ df rf n s = Ok (r, s') -> wf_ledger (ledger s) ->
  wf_Fee ef -> wf_Fee wf_ -> wf_Fee df -> in_range 8 rf -> in_range 32 n ->
  Forall (fun i => in_range 256 (key i)) accounts -> head accounts = Some info ->
  try_from_slice_unchecked validator_list_codec (acc_data (account_at (ledger s) (key info)))
    = Ok (mkValidatorList h xs) ->
  header_is_valid h = true ->
  max_validators h mod 256 = 0 /\
  (exists q mi, accounts !! 1%nat = Some mi /\ is_signer mi = true /\
     stored_pool s' (key info) = Ok q /\ StakePool_is_valid q = true /\ manager q = key mi) /\
  (forall h' xs', list_at s' (key info) h' xs' -> header_is_valid h' = false).
Proof.
  intros H Hw Hef Hwf Hdf Hrf Hn Hk Hi Hl Hv.
  destruct (initialize_done _ _ _ _ _ _ _ _ _ H Hw Hef Hwf Hdf Hrf Hn Hk) as (pool & mi & si & auth & li & re & mint &
    fi & token & rest & p0 & l0 & m & meta & total & dep & sol & bump & c & q & s1 & -> & Hs & _ & _ & _ & Hp0 & Hu &
    _ & _ & _ & _ & _ & _ & _ & _ & _ & _ & _ & _ & _ & _ & _ & _ & _ & _ & Eq & Hq & _).
  injection Hi as <-. pose proof (proj2 (wf_ledger_at _ (key pool) Hw)) as Hb. split; [|split].
  - exact (list_read_as_pool _ _ _ _ Hb Hl Hv Hp0 Hu).
  - exists q, mi. by subst q.
  - intros h' xs' Hl'. by apply (pool_no_list s' (key pool) q h' xs'); [|subst q|].
Qed.
End InitializeFacts.

(** ** A pool is created at the concrete runtime *)
(** The accounts someone prepares for a pool at [pool]: a list for one validator, a
    mint, a fee account and a reserve of that pool's authority. *)
Definition new_authority (pool : Pubkey) : Pubkey :=
  fst (find_withdraw_authority_program_address (RT := toy) toy_program pool).
Definition prepared (pool : Pubkey) : list (Pubkey * Account) := [
  (61, mkAccount 1000 (replicate 82 0) toy_program);
  (62, mkAccount 100 (enc mint_codec (mkMint 0 9 (Some (new_authority pool)) None (Ok []))) toy_token_program);
  (63, mkAccount 100 (enc token_codec (62, 0)) toy_token_program);
  (64, mkAccount 5200 (pack_stake (StakeInitialized
         (mkMeta 200 (mkAuthorized (new_authority pool) (new_authority pool)) Lockup_default))) toy_stake_program)
].
Definition initialize_accounts (pool : Pubkey) : list AccountInfo :=
  [plain pool; signer 65; plain 66; plain (new_authority pool); plain 61; plain 64; plain 62; plain 63;
   plain toy_token_program].
Definition initialize_run (pool : Pubkey) (s : RState) : outcome (unit * RState) :=
  process_initialize (RT := toy) toy_program (initialize_accounts pool) (mkFee 100 3) (mkFee 1000 1) (mkFee 0 0) 10 1 s.

Definition toy_unused_pool : list (Pubkey * Account) := [(60, mkAccount 1000 (replicate 900 0) toy_program)].
Definition toy_before : RState := mkRState (list_to_map (toy_unused_pool ++ prepared 60)) [] [].

Lemma initialize_correct_witness :
  is_ok (initialize_run 60 toy_before) = true /\
  exists pool li q, stored_pool (RT := toy) (final toy_before (initialize_run 60 toy_before)) (key pool) = Ok q /\
    total_lamports q = pool_token_supply q /\
    list_at (RT := toy) (final toy_before (initialize_run 60 toy_before)) (key li) (mkHeader AccValidatorList 1) [].
Proof.
  assert (H : is_ok (initialize_run 60 toy_before) = true) by (vm_compute; reflexivity). split; [exact H|].
  destruct (initialize_correct (RT := toy) toy_program (initialize_accounts 60) (mkFee 100 3) (mkFee 1000 1) (mkFee 0 0)
    10 1 toy_before tt _ (ran toy_before _ H)) as (pool & mi & si & au & li & re & mint & fi & token & rest & p0 & l0 & m & meta & total & dep & sol & bump & c & q & s1 & Rest).
  - apply wf_of_accounts. vm_compute. reflexivity.
  - unfold wf_Fee, in_range. simpl. lia.
  - unfold wf_Fee, in_range. simpl. lia.
  - unfold wf_Fee, in_range. simpl. lia.
  - unfold in_range. lia.
  - unfold in_range. lia.
  - apply toy_keys. vm_compute. reflexivity.
  - skip 25 Rest; destruct Rest as (Hq & Hp & Hl).
    exists pool, li, q. split; [exact Hp|]. split; [by rewrite Hq | exact Hl].
Defined.

(** ** A list taken for an unused pool *)
(** The concrete pool with a list for 256 validators instead of 3. *)
Definition big_list_data : list Z :=
  enc header_codec (mkHeader AccValidatorList 256) ++
  enc u32 (Z.of_nat 1) ++ enc_list vsi_codec [toy_entry] ++ replicate (255 * 73) 0.
Definition toy_victim : RState :=
  mkRState (<[toy_list_key := mkAccount 20000 big_list_data toy_program]> (ledger toy_state) ∪
            list_to_map (prepared toy_list_key)) [] [].

(** The stranger initializes a pool over the list: the pool's balance could be updated
    before, and cannot be afterwards. *)
Lemma toy_victim_lost :
  let s' := final toy_victim (initialize_run toy_list_key toy_victim) in
  is_ok (process_update_stake_pool_balance (RT := toy) toy_program toy_balance_accounts toy_victim) = true /\
  is_ok (initialize_run toy_list_key toy_victim) = true /\
  process_update_stake_pool_balance (RT := toy) toy_program toy_balance_accounts s' =
    Err (into_program_error InvalidState).
Proof. vm_compute. auto. Qed.

Lemma initialize_over_list_witness :
  is_ok (process_update_stake_pool_balance (RT := toy) toy_program toy_balance_accounts toy_victim) = true /\
  is_ok (initialize_run toy_list_key toy_victim) = true /\
  process_update_stake_pool_balance (RT := toy) toy_program toy_balance_accounts
    (final toy_victim (initialize_run toy_list_key toy_victim)) = Err (into_program_error InvalidState) /\
  exists q, stored_pool (RT := toy) (final toy_victim (initialize_run toy_list_key toy_victim)) toy_list_key = Ok q /\
    manager q = 65.
Proof.
  destruct toy_victim_lost as (H1 & H & H2). split; [exact H1|]. split; [exact H|]. split; [exact H2|].
  destruct (initialize_over_list (RT := toy) toy_program (initialize_accounts toy_list_key) (mkFee 100 3) (mkFee 1000 1)
    (mkFee 0 0) 10 1 toy_victim tt _ (plain toy_list_key) (mkHeader AccValidatorList 256) [toy_entry]
    (ran toy_victim _ H)) as (_ & (q & mi & Hm & _ & Hq & _ & E) & _).
  - rewrite <- (list_to_map_to_list (ledger toy_victim)). apply wf_of_accounts. vm_compute. reflexivity.
  - unfold wf_Fee, in_range. simpl. lia.
  - unfold wf_Fee, in_range. simpl. lia.
  - unfold wf_Fee, in_range. simpl. lia.
  - unfold in_range. lia.
  - unfold in_range. lia.
  - apply toy_keys. vm_compute. reflexivity.
  - reflexivity.
  - vm_compute. reflexivity.
  - reflexivity.
  - exists q. split; [exact Hq|]. injection Hm as <-. exact E.
Defined.
