(* ===== verification/Metadata.v ===== *)
(** * Token metadata (processor.rs, inline_mpl_token_metadata.rs)
    [CreateTokenMetadata] and [UpdateTokenMetadata]: the instructions the program
    assembles for the metadata program byte by byte, and the two handlers that send
    them, for the manager only and for the metadata account of the pool's mint only. *)
From S2P Require Import Prelude Error State Borsh Layout Runtime Checks Concrete.

(** ** inline_mpl_token_metadata.rs *)
(** The 32 bytes of the declared id, little-endian. *)
Definition mpl_id : Pubkey :=
  31736051864343386377140475122520102291351351754714963786985232764708516622347.

(** The fields creators, collection and uses are options of a byte nobody sets. *)
Record DataV2 := mkDataV2 {
  name : list Z; symbol : list Z; uri : list Z; seller_fee_basis_points : Z;
  creators : option Z; collection : option Z; uses : option Z
}.
Definition data_v2_codec : Codec DataV2 :=
  mkCodec
    (fun p => enc string_codec (name p) ++ enc string_codec (symbol p) ++ enc string_codec (uri p) ++
              enc u16 (seller_fee_basis_points p) ++ enc (opt u8) (creators p) ++
              enc (opt u8) (collection p) ++ enc (opt u8) (uses p))
    (fun l => rd x0, l <- string_codec of l in rd x1, l <- string_codec of l in rd x2, l <- string_codec of l in
              rd x3, l <- u16 of l in rd x4, l <- (opt u8) of l in rd x5, l <- (opt u8) of l in
              rd x6, l <- (opt u8) of l in Some (mkDataV2 x0 x1 x2 x3 x4 x5 x6, l))
    (fun p => wf string_codec (name p) /\ wf string_codec (symbol p) /\ wf string_codec (uri p) /\
              wf u16 (seller_fee_basis_points p) /\ wf (opt u8) (creators p) /\
              wf (opt u8) (collection p) /\ wf (opt u8) (uses p)).
#[export] Instance data_v2_codec_ok : CodecOk data_v2_codec.
Proof. codec_record data_v2_codec. Qed.

Record CreateMetadataAccountArgsV3 := mkCreateArgs {
  ca_data : DataV2; ca_is_mutable : bool; collection_details : option Z
}.
Definition create_args_codec : Codec CreateMetadataAccountArgsV3 :=
  mkCodec
    (fun p => enc data_v2_codec (ca_data p) ++ enc boolean (ca_is_mutable p) ++ enc (opt u8) (collection_details p))
    (fun l => rd x0, l <- data_v2_codec of l in rd x1, l <- boolean of l in rd x2, l <- (opt u8) of l in
              Some (mkCreateArgs x0 x1 x2, l))
    (fun p => wf data_v2_codec (ca_data p) /\ wf boolean (ca_is_mutable p) /\ wf (opt u8) (collection_details p)).
#[export] Instance create_args_codec_ok : CodecOk create_args_codec.
Proof. codec_record create_args_codec. Qed.

Record UpdateMetadataAccountArgsV2 := mkUpdateArgs {
  ua_data : option DataV2; ua_update_authority : option Pubkey;
  primary_sale_happened : option bool; ua_is_mutable : option bool
}.
Definition update_args_codec : Codec UpdateMetadataAccountArgsV2 :=
  mkCodec
    (fun p => enc (opt data_v2_codec) (ua_data p) ++ enc (opt pubkey) (ua_update_authority p) ++
              enc (opt boolean) (primary_sale_happened p) ++ enc (opt boolean) (ua_is_mutable p))
    (fun l => rd x0, l <- (opt data_v2_codec) of l in rd x1, l <- (opt pubkey) of l in
              rd x2, l <- (opt boolean) of l in rd x3, l <- (opt boolean) of l in
              Some (mkUpdateArgs x0 x1 x2 x3, l))
    (fun p => wf (opt data_v2_codec) (ua_data p) /\ wf (opt pubkey) (ua_update_authority p) /\
              wf (opt boolean) (primary_sale_happened p) /\ wf (opt boolean) (ua_is_mutable p)).
#[export] Instance update_args_codec_ok : CodecOk update_args_codec.
Proof. codec_record update_args_codec. Qed.

(** [AccountMeta::new] and [AccountMeta::new_readonly]. *)
Definition meta_new (k : Pubkey) (signer : bool) : AccountMeta := mkAccountMeta k signer true.
Definition meta_new_readonly (k : Pubkey) (signer : bool) : AccountMeta := mkAccountMeta k signer false.

(** What the manager chooses; the rest of [DataV2] is fixed. *)
Definition plain_data (name symbol uri : list Z) : DataV2 := mkDataV2 name symbol uri 0 None None None.

Section Metadata.
Context `{RT : Runtime}.

Definition create_metadata_accounts_v3 (program metadata_account mint mint_authority payer
    update_authority : Pubkey) (name symbol uri : list Z) : Cpi :=
  RawInstruction program
    [meta_new metadata_account false; meta_new_readonly mint false; meta_new_readonly mint_authority true;
     meta_new payer true; meta_new_readonly update_authority true; meta_new_readonly system_program_id false]
    (33 :: enc create_args_codec (mkCreateArgs (plain_data name symbol uri) true None)).

Definition update_metadata_accounts_v2 (program metadata_account update_authority : Pubkey)
    (new_update_authority : option Pubkey) (metadata : option DataV2)
    (primary_sale : option bool) (is_mutable : option bool) : Cpi :=
  RawInstruction program
    [meta_new metadata_account false; meta_new_readonly update_authority true]
    (15 :: enc update_args_codec (mkUpdateArgs metadata new_update_authority primary_sale is_mutable)).

(** The seeds are "metadata", the id and the mint. *)
Definition find_metadata_account (mint : Pubkey) : Pubkey * Z :=
  find_program_address [[109; 101; 116; 97; 100; 97; 116; 97]; enc pubkey mpl_id; enc pubkey mint] mpl_id.

(** ** processor.rs *)
Definition check_mpl_metadata_account_address (metadata_address pool_mint : Pubkey) : M unit :=
  fail_if_sp (negb (key_eqb (fst (find_metadata_account pool_mint)) metadata_address)) InvalidMetadataAccount.
Definition check_mpl_metadata_program (program_id : Pubkey) : M unit :=
  fail_if (negb (key_eqb program_id mpl_id)) IncorrectProgramId.

Variable program_id : Pubkey.

Definition process_create_pool_token_metadata (accounts : list AccountInfo) (name symbol uri : list Z) : M unit :=
  let! (stake_pool_info, it) := next_account_info accounts in
  let! (manager_info, it) := next_account_info it in
  let! (withdraw_authority_info, it) := next_account_info it in
  let! (pool_mint_info, it) := next_account_info it in
  let! (payer_info, it) := next_account_info it in
  let! (metadata_info, it) := next_account_info it in
  let! (mpl_token_metadata_program_info, it) := next_account_info it in
  let! (system_program_info, it) := next_account_info it in
  do! fail_if_sp (negb (is_signer payer_info)) SignatureMissing in
  do! check_system_program (key system_program_info) in
  do! check_account_owner payer_info system_program_id in
  do! check_account_owner stake_pool_info program_id in
  do! check_mpl_metadata_program (key mpl_token_metadata_program_info) in
  let! data := borrow_data stake_pool_info in
  let! stake_pool := lift (try_from_slice_unchecked stake_pool_codec data) in
  do! fail_if_sp (negb (StakePool_is_valid stake_pool)) InvalidState in
  do! check_manager stake_pool manager_info in
  do! check_authority_withdraw stake_pool (key withdraw_authority_info) program_id (key stake_pool_info) in
  let! _ := check_mint stake_pool pool_mint_info in
  do! check_mpl_metadata_account_address (key metadata_info) (pool_mint stake_pool) in
  let token_mint_authority := withdraw_authority_info in
  let new_metadata_instruction :=
    create_metadata_accounts_v3 (key mpl_token_metadata_program_info) (key metadata_info) (key pool_mint_info)
      (key token_mint_authority) (key payer_info) (key token_mint_authority) name symbol uri in
  let stake_withdraw_bump_seed := snd (find_withdraw_authority_program_address program_id (key stake_pool_info)) in
  let token_mint_authority_signer_seeds :=
    [enc pubkey (key stake_pool_info); AUTHORITY_WITHDRAW; [stake_withdraw_bump_seed]] in
  invoke_signed new_metadata_instruction
    [metadata_info; pool_mint_info; withdraw_authority_info; payer_info; withdraw_authority_info;
     system_program_info] [token_mint_authority_signer_seeds].

Definition process_update_pool_token_metadata (accounts : list AccountInfo) (name symbol uri : list Z) : M unit :=
  let! (stake_pool_info, it) := next_account_info accounts in
  let! (manager_info, it) := next_account_info it in
  let! (withdraw_authority_info, it) := next_account_info it in
  let! (metadata_info, it) := next_account_info it in
  let! (mpl_token_metadata_program_info, it) := next_account_info it in
  do! check_account_owner stake_pool_info program_id in
  do! check_mpl_metadata_program (key mpl_token_metadata_program_info) in
  let! data := borrow_data stake_pool_info in
  let! stake_pool := lift (try_from_slice_unchecked stake_pool_codec data) in
  do! fail_if_sp (negb (StakePool_is_valid stake_pool)) InvalidState in
  do! check_manager stake_pool manager_info in
  do! check_authority_withdraw stake_pool (key withdraw_authority_info) program_id (key stake_pool_info) in
  do! check_mpl_metadata_account_address (key metadata_info) (pool_mint stake_pool) in
  let token_mint_authority := withdraw_authority_info in
  let update_metadata_accounts_instruction :=
    update_metadata_accounts_v2 (key mpl_token_metadata_program_info) (key metadata_info)
      (key token_mint_authority) None (Some (plain_data name symbol uri)) None (Some true) in
  let stake_withdraw_bump_seed := snd (find_withdraw_authority_program_address program_id (key stake_pool_info)) in
  let token_mint_authority_signer_seeds :=
    [enc pubkey (key stake_pool_info); AUTHORITY_WITHDRAW; [stake_withdraw_bump_seed]] in
  invoke_signed update_metadata_accounts_instruction [metadata_info; withdraw_authority_info]
    [token_mint_authority_signer_seeds].
End Metadata.

#[export] Instance read_only_check_mpl_account `{RT : Runtime} a m :
  ReadOnly (check_mpl_metadata_account_address a m).
Proof. apply _. Qed.
#[export] Instance read_only_check_mpl_program k : ReadOnly (check_mpl_metadata_program k).
Proof. apply _. Qed.

(** ** Specification *)
Inductive MetadataCmd : Type := CreateMetadata | UpdateMetadata.

(** What a reader of the instruction's bytes finds: the tag and the new data. *)
Definition metadata_read (data : list Z) : option (MetadataCmd * DataV2) :=
  match data with
  | 33 :: l => match dec_all create_args_codec l with
               | Some a => Some (CreateMetadata, ca_data a)
               | None => None
               end
  | 15 :: l => match dec_all update_args_codec l with
               | Some a => option_map (pair UpdateMetadata) (ua_data a)
               | None => None
               end
  | _ => None
  end.

Definition wf_text (xs : list Z) : Prop := wf string_codec xs.

Lemma wf_plain_data n sy u : wf_text n -> wf_text sy -> wf_text u -> wf data_v2_codec (plain_data n sy u).
Proof.
  intros Hn Hs Hu. refine (conj Hn (conj Hs (conj Hu _))).
  split; [change (in_range 16 0); unfold in_range; lia | done].
Qed.

Lemma create_data_read n sy u :
  wf data_v2_codec (plain_data n sy u) ->
  metadata_read (33 :: enc create_args_codec (mkCreateArgs (plain_data n sy u) true None)) =
    Some (CreateMetadata, plain_data n sy u).
Proof.
  intros H. cbv beta iota delta [metadata_read]. rewrite (dec_all_enc create_args_codec); [done|].
  by repeat (split; [done|]).
Qed.
Lemma update_data_read n sy u :
  wf data_v2_codec (plain_data n sy u) ->
  metadata_read (15 :: enc update_args_codec (mkUpdateArgs (Some (plain_data n sy u)) None None (Some true))) =
    Some (UpdateMetadata, plain_data n sy u).
Proof.
  intros H. cbv beta iota delta [metadata_read]. rewrite (dec_all_enc update_args_codec); [done|].
  by repeat (split; [done|]).
Qed.

Section MetadataRuns.
Context `{RT : Runtime}.
Variable program_id : Pubkey.

Definition run_metadata (cmd : MetadataCmd) (accounts : list AccountInfo) (n sy u : list Z) : M unit :=
  match cmd with
  | CreateMetadata => process_create_pool_token_metadata program_id accounts n sy u
  | UpdateMetadata => process_update_pool_token_metadata program_id accounts n sy u
  end.

(** Who signs the creation besides the manager: the payer, a system account. *)
Definition metadata_payer (cmd : MetadataCmd) (l : Ledger) (rest : list AccountInfo) : Prop :=
  match cmd with
  | CreateMetadata => exists mint payer rest', rest = mint :: payer :: rest' /\ is_signer payer = true /\
      acc_owner (account_at l (key payer)) = system_program_id
  | UpdateMetadata => True
  end.

Lemma check_mpl_metadata_account_address_Ok a m s r s' :
  check_mpl_metadata_account_address a m s = Ok (r, s') -> a = fst (find_metadata_account m).
Proof. intros [H _]%fail_if_sp_Ok. by apply negb_key_eqb in H. Qed.
Lemma check_mpl_metadata_program_Ok k s r s' : check_mpl_metadata_program k s = Ok (r, s') -> k = mpl_id.
Proof. intros [H _]%fail_if_Ok. by apply negb_key_eqb in H. Qed.

Lemma create_metadata_run accounts n sy u s r s' :
  process_create_pool_token_metadata program_id accounts n sy u s = Ok (r, s') ->
  exists pool mgr auth rest p metas,
    accounts = pool :: mgr :: auth :: rest /\ pool_at program_id (ledger s) (key pool) p /\
    key mgr = manager p /\ is_signer mgr = true /\ metadata_payer CreateMetadata (ledger s) rest /\
    create_program_address [enc pubkey (key pool); AUTHORITY_WITHDRAW; [stake_withdraw_bump_seed p]] program_id =
      Ok (key auth) /\
    invokes s [RawInstruction mpl_id (meta_new (fst (find_metadata_account (pool_mint p))) false :: metas)
                 (33 :: enc create_args_codec (mkCreateArgs (plain_data n sy u) true None))] s'.
Proof.
  intros H. unfold process_create_pool_token_metadata in H. do 8 mopen H. mopen H. mopen H.
  mopen H. match goal with E : check_account_owner _ _ _ = _ |- _ => apply check_account_owner_Ok in E as [Ep _] end.
  mopen H. match goal with E : check_account_owner _ _ _ = _ |- _ => apply check_account_owner_Ok in E as [Eo _] end.
  mopen H. match goal with E : check_mpl_metadata_program _ _ = _ |- _ => apply check_mpl_metadata_program_Ok in E as Em end.
  do 3 mopen H. mopen H. match goal with E : check_manager _ _ _ = _ |- _ => apply check_manager_Ok in E as [Emk Ems] end.
  mopen H. match goal with E : check_authority_withdraw _ _ _ _ _ = _ |- _ => apply check_authority_withdraw_Ok in E as Ea end.
  mopen H. match goal with E : check_mint _ _ _ = _ |- _ => apply check_mint_Ok in E as Emint end.
  mopen H. match goal with E : check_mpl_metadata_account_address _ _ _ = _ |- _ =>
    apply check_mpl_metadata_account_address_Ok in E as Eacc end.
  repeat match goal with D : negb _ = false |- _ => apply negb_false_iff in D end.
  apply invoke_signed_invokes in H. unfold create_metadata_accounts_v3 in H. rewrite Em, Eacc in H.
  do 6 eexists. split; [reflexivity|]. split; [by repeat split|]. split; [done|]. split; [done|].
  split; [by do 3 eexists|]. split; [done|]. exact H.
Qed.

Lemma update_metadata_run accounts n sy u s r s' :
  process_update_pool_token_metadata program_id accounts n sy u s = Ok (r, s') ->
  exists pool mgr auth rest p metas,
    accounts = pool :: mgr :: auth :: rest /\ pool_at program_id (ledger s) (key pool) p /\
    key mgr = manager p /\ is_signer mgr = true /\
    create_program_address [enc pubkey (key pool); AUTHORITY_WITHDRAW; [stake_withdraw_bump_seed p]] program_id =
      Ok (key auth) /\
    invokes s [RawInstruction mpl_id (meta_new (fst (find_metadata_account (pool_mint p))) false :: metas)
      (15 :: enc update_args_codec (mkUpdateArgs (Some (plain_data n sy u)) None None (Some true)))] s'.
Proof.
  intros H. unfold process_update_pool_token_metadata in H. do 5 mopen H.
  mopen H. match goal with E : check_account_owner _ _ _ = _ |- _ => apply check_account_owner_Ok in E as [Eo _] end.
  mopen H. match goal with E : check_mpl_metadata_program _ _ = _ |- _ => apply check_mpl_metadata_program_Ok in E as Em end.
  do 3 mopen H. mopen H. match goal with E : check_manager _ _ _ = _ |- _ => apply check_manager_Ok in E as [Emk Ems] end.
  mopen H. match goal with E : check_authority_withdraw _ _ _ _ _ = _ |- _ => apply check_authority_withdraw_Ok in E as Ea end.
  mopen H. match goal with E : check_mpl_metadata_account_address _ _ _ = _ |- _ =>
    apply check_mpl_metadata_account_address_Ok in E as Eacc end.
  repeat match goal with D : negb _ = false |- _ => apply negb_false_iff in D end.
  apply invoke_signed_invokes in H. unfold update_metadata_accounts_v2 in H. rewrite Em, Eacc in H.
  do 6 eexists. split; [reflexivity|]. split; [by repeat split|]. split; [done|]. split; [done|].
  split; [done|]. exact H.
Qed.

(** C39: metadata is created and updated for the signing manager of the pool only (a
    creation is also signed by the system account that pays for it), by exactly one
    invocation, of the metadata program, which names the metadata account derived
    from the pool's mint first; the bytes sent decode to the given name, symbol and
    uri and to nothing else. *)
Theorem metadata_correct cmd accounts n sy u s r s' :
  run_metadata cmd accounts n sy u s = Ok (r, s') -> wf_text n -> wf_text sy -> wf_text u ->
  exists pool mgr auth rest p metas data,
    accounts = pool :: mgr :: auth :: rest /\ pool_at program_id (ledger s) (key pool) p /\
    key mgr = manager p /\ is_signer mgr = true /\ metadata_payer cmd (ledger s) rest /\
    create_program_address [enc pubkey (key pool); AUTHORITY_WITHDRAW; [stake_withdraw_bump_seed p]] program_id =
      Ok (key auth) /\
    invokes s [RawInstruction mpl_id (meta_new (fst (find_metadata_account (pool_mint p))) false :: metas) data] s' /\
    metadata_read data = Some (cmd, plain_data n sy u).
Proof.
  intros H Hn Hs Hu. pose proof (wf_plain_data _ _ _ Hn Hs Hu) as Hw. destruct cmd; simpl in H.
  - apply create_metadata_run in H as (pool & mgr & auth & rest & p & metas & ? & ? & ? & ? & ? & ? & ?).
    exists pool, mgr, auth, rest, p, metas. eexists. do 7 (split; [eassumption|]). by apply create_data_read.
  - apply update_metadata_run in H as (pool & mgr & auth & rest & p & metas & ? & ? & ? & ? & ? & ?).
    exists pool, mgr, auth, rest, p, metas. eexists. do 4 (split; [eassumption|]). split; [exact I|].
    do 2 (split; [eassumption|]). by apply update_data_read.
Qed.
End MetadataRuns.

(** The manager of the concrete pool names its token. *)
Definition toy_metadata_accounts : list AccountInfo :=
  [plain toy_pool_key; signer toy_manager; plain toy_authority; plain toy_mint_key; signer toy_user;
   plain (fst (find_metadata_account (RT := toy) toy_mint_key)); plain mpl_id; plain toy_system].
Definition toy_text : list Z := [226; 151; 142; 83; 79; 76].
Definition toy_metadata_run : outcome (unit * RState) :=
  run_metadata (RT := toy) toy_program CreateMetadata toy_metadata_accounts toy_text toy_text toy_text toy_state.

Lemma metadata_correct_witness :
  is_ok toy_metadata_run = true /\
  exists pool mgr auth rest p metas data,
    toy_metadata_accounts = pool :: mgr :: auth :: rest /\
    pool_at (RT := toy) toy_program (ledger toy_state) (key pool) p /\
    key mgr = manager p /\ is_signer mgr = true /\
    metadata_payer (RT := toy) CreateMetadata (ledger toy_state) rest /\
    create_program_address (Runtime := toy)
      [enc pubkey (key pool); AUTHORITY_WITHDRAW; [stake_withdraw_bump_seed p]] toy_program = Ok (key auth) /\
    invokes (RT := toy) toy_state
      [RawInstruction mpl_id (meta_new (fst (find_metadata_account (RT := toy) (pool_mint p))) false :: metas) data]
      (final toy_state toy_metadata_run) /\
    metadata_read data = Some (CreateMetadata, plain_data toy_text toy_text toy_text).
Proof.
  assert (H : is_ok toy_metadata_run = true) by (vm_compute; reflexivity). split; [exact H|].
  assert (Ht : wf_text toy_text).
  { split; [|split; [reflexivity | unfold in_range; simpl; lia]]. repeat constructor; lia. }
  exact (metadata_correct (RT := toy) toy_program CreateMetadata _ _ _ _ _ _ _ (ran toy_state _ H) Ht Ht Ht).
Defined.
