(* ===== verification/Instruction.v ===== *)
(** * Instructions (program/src/instruction.rs)
    [StakePoolInstruction] with the bytes its Borsh derives give it: 28 variants, each
    a position byte and its fields. The input of a transaction decodes to at most one
    instruction, and the bytes the builders write decode to the instruction they name. *)
From S2P Require Import Prelude Error Fees State Borsh Layout Admin.

(** ** The enums of the arguments *)
Definition preferred_type_codec : Codec PreferredValidatorType :=
  enum (fun t => match t with PreferDeposit => 0 | PreferWithdraw => 1 end)
    (fun b => if b =? 0 then Some PreferDeposit else if b =? 1 then Some PreferWithdraw else None).
#[export] Instance preferred_type_codec_ok : CodecOk preferred_type_codec.
Proof.
  apply enum_ok; [by intros [] | | intros []; unfold is_byte; lia].
  intros b x. repeat (case Z.eqb_spec; [intros -> [= <-]; reflexivity | intros _]). done.
Qed.

Definition funding_type_codec : Codec FundingType :=
  enum (fun t => match t with FundStakeDeposit => 0 | FundSolDeposit => 1 | FundSolWithdraw => 2 end)
    (fun b => if b =? 0 then Some FundStakeDeposit else if b =? 1 then Some FundSolDeposit
              else if b =? 2 then Some FundSolWithdraw else None).
#[export] Instance funding_type_codec_ok : CodecOk funding_type_codec.
Proof.
  apply enum_ok; [by intros [] | | intros []; unfold is_byte; lia].
  intros b x. repeat (case Z.eqb_spec; [intros -> [= <-]; reflexivity | intros _]). done.
Qed.

(** [variant_codec]: proves [CodecOk] of an enum whose variants carry fields, its
    decoder a chain of tests on the position byte. *)
Ltac open_variant :=
  lazymatch goal with
  | H : context [if ?t =? ?k then _ else _] |- _ =>
      destruct (Z.eqb_spec t k) as [->|_];
      [ open_fields; injection H as <- <-; split;
        [ match goal with |- _ = ?e ++ _ => let e' := eval hnf in e in change e with e' end;
          rewrite <- ?app_comm_cons, <- ?app_assoc; reflexivity
        | repeat first [assumption | exact I | split] ]
      | open_variant ]
  | H : None = Some _ |- _ => discriminate H
  end.

Definition fee_type_codec : Codec FeeType :=
  mkCodec
    (fun f => match f with
              | SolReferral n => 0 :: enc u8 n
              | StakeReferral n => 1 :: enc u8 n
              | EpochFee x => 2 :: enc fee_codec x
              | StakeWithdrawal x => 3 :: enc fee_codec x
              | SolDeposit x => 4 :: enc fee_codec x
              | StakeDeposit x => 5 :: enc fee_codec x
              | SolWithdrawal x => 6 :: enc fee_codec x
              end)
    (fun l => match l with
              | [] => None
              | t :: l =>
                  if t =? 0 then rd a, l <- u8 of l in Some (SolReferral a, l) else
                  if t =? 1 then rd a, l <- u8 of l in Some (StakeReferral a, l) else
                  if t =? 2 then rd a, l <- fee_codec of l in Some (EpochFee a, l) else
                  if t =? 3 then rd a, l <- fee_codec of l in Some (StakeWithdrawal a, l) else
                  if t =? 4 then rd a, l <- fee_codec of l in Some (SolDeposit a, l) else
                  if t =? 5 then rd a, l <- fee_codec of l in Some (StakeDeposit a, l) else
                  if t =? 6 then rd a, l <- fee_codec of l in Some (SolWithdrawal a, l) else
                  None
              end)
    (fun f => match f with
              | SolReferral n | StakeReferral n => wf u8 n
              | EpochFee x | StakeWithdrawal x | SolDeposit x | StakeDeposit x | SolWithdrawal x => wf fee_codec x
              end).
#[export] Instance fee_type_codec_ok : CodecOk fee_type_codec.
Proof.
  split.
  - intros x rest Hwf. destruct x; cbn in Hwf; unfold fee_type_codec; cbn [enc dec app]; cbn [Z.eqb Pos.eqb];
      by rewrite dec_enc.
  - intros l x rest Hl H. unfold fee_type_codec in *. cbn [enc dec wf] in *. destruct l as [|t l]; [done|].
    apply bytes_tail in Hl. open_variant.
  - intros x Hwf. destruct x; cbn in Hwf; unfold fee_type_codec; cbn [enc]; constructor;
      try (unfold is_byte; lia); by apply enc_bytes.
Qed.

(** ** The instructions *)
Inductive StakePoolInstruction : Type :=
| Initialize (fee withdrawal_fee deposit_fee : Fee) (referral_fee max_validators : Z)
| AddValidatorToPool (seed : Z)
| RemoveValidatorFromPool
| DecreaseValidatorStake (lamports transient_stake_seed : Z)
| IncreaseValidatorStake (lamports transient_stake_seed : Z)
| SetPreferredValidator (validator_type : PreferredValidatorType) (validator_vote_address : option Pubkey)
| UpdateValidatorListBalance (start_index : Z) (no_merge : bool)
| UpdateStakePoolBalance
| CleanupRemovedValidatorEntries
| DepositStake
| WithdrawStake (amount : Z)
| SetManager
| SetFee (fee : FeeType)
| SetStaker
| DepositSol (lamports : Z)
| SetFundingAuthority (funding_type : FundingType)
| WithdrawSol (pool_tokens : Z)
| CreateTokenMetadata (name symbol uri : list Z)
| UpdateTokenMetadata (name symbol uri : list Z)
| IncreaseAdditionalValidatorStake (lamports transient_stake_seed ephemeral_stake_seed : Z)
| DecreaseAdditionalValidatorStake (lamports transient_stake_seed ephemeral_stake_seed : Z)
| DecreaseValidatorStakeWithReserve (lamports transient_stake_seed : Z)
| Redelegate (lamports source_transient_stake_seed ephemeral_stake_seed destination_transient_stake_seed : Z)
| DepositStakeWithSlippage (minimum_pool_tokens_out : Z)
| WithdrawStakeWithSlippage (pool_tokens_in minimum_lamports_out : Z)
| DepositSolWithSlippage (lamports_in minimum_pool_tokens_out : Z)
| WithdrawSolWithSlippage (pool_tokens_in minimum_lamports_out : Z)
| SetMaxValidatorStake (max_stake : option Z).

(** The encoding: the position of the variant, then its fields. *)
Definition enc_instruction (i : StakePoolInstruction) : list Z :=
  match i with
  | Initialize a b c d e => 0 :: enc fee_codec a ++ enc fee_codec b ++ enc fee_codec c ++ enc u8 d ++ enc u32 e
  | AddValidatorToPool a => 1 :: enc u32 a
  | RemoveValidatorFromPool => [2]
  | DecreaseValidatorStake a b => 3 :: enc u64 a ++ enc u64 b
  | IncreaseValidatorStake a b => 4 :: enc u64 a ++ enc u64 b
  | SetPreferredValidator a b => 5 :: enc preferred_type_codec a ++ enc (opt pubkey) b
  | UpdateValidatorListBalance a b => 6 :: enc u32 a ++ enc boolean b
  | UpdateStakePoolBalance => [7]
  | CleanupRemovedValidatorEntries => [8]
  | DepositStake => [9]
  | WithdrawStake a => 10 :: enc u64 a
  | SetManager => [11]
  | SetFee a => 12 :: enc fee_type_codec a
  | SetStaker => [13]
  | DepositSol a => 14 :: enc u64 a
  | SetFundingAuthority a => 15 :: enc funding_type_codec a
  | WithdrawSol a => 16 :: enc u64 a
  | CreateTokenMetadata a b c => 17 :: enc string_codec a ++ enc string_codec b ++ enc string_codec c
  | UpdateTokenMetadata a b c => 18 :: enc string_codec a ++ enc string_codec b ++ enc string_codec c
  | IncreaseAdditionalValidatorStake a b c => 19 :: enc u64 a ++ enc u64 b ++ enc u64 c
  | DecreaseAdditionalValidatorStake a b c => 20 :: enc u64 a ++ enc u64 b ++ enc u64 c
  | DecreaseValidatorStakeWithReserve a b => 21 :: enc u64 a ++ enc u64 b
  | Redelegate a b c d => 22 :: enc u64 a ++ enc u64 b ++ enc u64 c ++ enc u64 d
  | DepositStakeWithSlippage a => 23 :: enc u64 a
  | WithdrawStakeWithSlippage a b => 24 :: enc u64 a ++ enc u64 b
  | DepositSolWithSlippage a b => 25 :: enc u64 a ++ enc u64 b
  | WithdrawSolWithSlippage a b => 26 :: enc u64 a ++ enc u64 b
  | SetMaxValidatorStake a => 27 :: enc (opt u64) a
  end.

(** The decoding: the fields are read in declaration order, an unknown position is refused. *)
Definition dec_instruction (l : list Z) : option (StakePoolInstruction * list Z) :=
  match l with
  | [] => None
  | t :: l =>
      if t =? 0 then rd a, l <- fee_codec of l in rd b, l <- fee_codec of l in
        rd c, l <- fee_codec of l in rd d, l <- u8 of l in rd e, l <- u32 of l in Some (Initialize a b c d e, l) else
      if t =? 1 then rd a, l <- u32 of l in Some (AddValidatorToPool a, l) else
      if t =? 2 then Some (RemoveValidatorFromPool, l) else
      if t =? 3 then rd a, l <- u64 of l in rd b, l <- u64 of l in Some (DecreaseValidatorStake a b, l) else
      if t =? 4 then rd a, l <- u64 of l in rd b, l <- u64 of l in Some (IncreaseValidatorStake a b, l) else
      if t =? 5 then rd a, l <- preferred_type_codec of l in rd b, l <- (opt pubkey) of l in
        Some (SetPreferredValidator a b, l) else
      if t =? 6 then rd a, l <- u32 of l in rd b, l <- boolean of l in Some (UpdateValidatorListBalance a b, l) else
      if t =? 7 then Some (UpdateStakePoolBalance, l) else
      if t =? 8 then Some (CleanupRemovedValidatorEntries, l) else
      if t =? 9 then Some (DepositStake, l) else
      if t =? 10 then rd a, l <- u64 of l in Some (WithdrawStake a, l) else
      if t =? 11 then Some (SetManager, l) else
      if t =? 12 then rd a, l <- fee_type_codec of l in Some (SetFee a, l) else
      if t =? 13 then Some (SetStaker, l) else
      if t =? 14 then rd a, l <- u64 of l in Some (DepositSol a, l) else
      if t =? 15 then rd a, l <- funding_type_codec of l in Some (SetFundingAuthority a, l) else
      if t =? 16 then rd a, l <- u64 of l in Some (WithdrawSol a, l) else
      if t =? 17 then rd a, l <- string_codec of l in rd b, l <- string_codec of l in
        rd c, l <- string_codec of l in Some (CreateTokenMetadata a b c, l) else
      if t =? 18 then rd a, l <- string_codec of l in rd b, l <- string_codec of l in
        rd c, l <- string_codec of l in Some (UpdateTokenMetadata a b c, l) else
      if t =? 19 then rd a, l <- u64 of l in rd b, l <- u64 of l in
        rd c, l <- u64 of l in Some (IncreaseAdditionalValidatorStake a b c, l) else
      if t =? 20 then rd a, l <- u64 of l in rd b, l <- u64 of l in
        rd c, l <- u64 of l in Some (DecreaseAdditionalValidatorStake a b c, l) else
      if t =? 21 then rd a, l <- u64 of l in rd b, l <- u64 of l in
        Some (DecreaseValidatorStakeWithReserve a b, l) else
      if t =? 22 then rd a, l <- u64 of l in rd b, l <- u64 of l in
        rd c, l <- u64 of l in rd d, l <- u64 of l in Some (Redelegate a b c d, l) else
      if t =? 23 then rd a, l <- u64 of l in Some (DepositStakeWithSlippage a, l) else
      if t =? 24 then rd a, l <- u64 of l in rd b, l <- u64 of l in Some (WithdrawStakeWithSlippage a b, l) else
      if t =? 25 then rd a, l <- u64 of l in rd b, l <- u64 of l in Some (DepositSolWithSlippage a b, l) else
      if t =? 26 then rd a, l <- u64 of l in rd b, l <- u64 of l in Some (WithdrawSolWithSlippage a b, l) else
      if t =? 27 then rd a, l <- (opt u64) of l in Some (SetMaxValidatorStake a, l) else
      None
  end.

(** Fields within their Rust types. *)
Definition wf_instruction (i : StakePoolInstruction) : Prop :=
  match i with
  | Initialize a b c d e => wf fee_codec a /\ wf fee_codec b /\ wf fee_codec c /\ wf u8 d /\ wf u32 e
  | AddValidatorToPool a => wf u32 a
  | DecreaseValidatorStake a b => wf u64 a /\ wf u64 b
  | IncreaseValidatorStake a b => wf u64 a /\ wf u64 b
  | SetPreferredValidator a b => wf preferred_type_codec a /\ wf (opt pubkey) b
  | UpdateValidatorListBalance a b => wf u32 a /\ wf boolean b
  | WithdrawStake a => wf u64 a
  | SetFee a => wf fee_type_codec a
  | DepositSol a => wf u64 a
  | SetFundingAuthority a => wf funding_type_codec a
  | WithdrawSol a => wf u64 a
  | CreateTokenMetadata a b c => wf string_codec a /\ wf string_codec b /\ wf string_codec c
  | UpdateTokenMetadata a b c => wf string_codec a /\ wf string_codec b /\ wf string_codec c
  | IncreaseAdditionalValidatorStake a b c => wf u64 a /\ wf u64 b /\ wf u64 c
  | DecreaseAdditionalValidatorStake a b c => wf u64 a /\ wf u64 b /\ wf u64 c
  | DecreaseValidatorStakeWithReserve a b => wf u64 a /\ wf u64 b
  | Redelegate a b c d => wf u64 a /\ wf u64 b /\ wf u64 c /\ wf u64 d
  | DepositStakeWithSlippage a => wf u64 a
  | WithdrawStakeWithSlippage a b => wf u64 a /\ wf u64 b
  | DepositSolWithSlippage a b => wf u64 a /\ wf u64 b
  | WithdrawSolWithSlippage a b => wf u64 a /\ wf u64 b
  | SetMaxValidatorStake a => wf (opt u64) a
  | _ => True
  end.
Definition instruction_codec : Codec StakePoolInstruction :=
  mkCodec enc_instruction dec_instruction wf_instruction.

#[export] Instance instruction_codec_ok : CodecOk instruction_codec.
Proof.
  split.
  - intros x rest Hwf. destruct x; cbn [instruction_codec wf wf_instruction] in Hwf;
      cbn [instruction_codec enc dec enc_instruction]; rewrite <- ?app_comm_cons, <- ?app_assoc;
      cbn [dec_instruction app]; cbn [Z.eqb Pos.eqb]; deex; dec_fields; reflexivity.
  - intros l x rest Hl H. cbn [instruction_codec enc dec wf] in *. unfold dec_instruction in H.
    destruct l as [|t l]; [done|].
    apply bytes_tail in Hl. open_variant.
  - intros x Hwf. destruct x; cbn [instruction_codec wf wf_instruction] in Hwf;
      cbn [instruction_codec enc enc_instruction]; apply bytes_cons; try (unfold is_byte; lia);
      deex; repeat match goal with |- bytes (_ ++ _) => apply bytes_app; split end;
      first [by apply enc_bytes | constructor].
Qed.

(** [StakePoolInstruction::try_from_slice(input)?]. *)
Definition instruction_of (input : list Z) : outcome StakePoolInstruction :=
  ok_or (dec_all instruction_codec input) BorshIoError.

(** C37: the wire format is unambiguous and exact: the bytes of every well-typed
    instruction decode to that instruction; input that decodes is the one spelling of
    a well-typed instruction, with nothing left over; empty input and position bytes
    from 28 on are refused. *)
Theorem instruction_round_trip :
  (forall i, wf_instruction i -> instruction_of (enc instruction_codec i) = Ok i) /\
  (forall input i, bytes input -> instruction_of input = Ok i ->
     input = enc instruction_codec i /\ wf_instruction i) /\
  instruction_of [] = Err BorshIoError /\
  (forall t input, 28 <= t -> instruction_of (t :: input) = Err BorshIoError).
Proof.
  unfold instruction_of. split; [|split; [|split]].
  - intros i Hi. by rewrite (dec_all_enc instruction_codec).
  - intros input i Hb H. apply ok_or_Ok in H. by apply (dec_all_Some instruction_codec) in H.
  - reflexivity.
  - intros t input Ht. unfold dec_all. cbn [instruction_codec dec]. unfold dec_instruction.
    repeat match goal with |- context [t =? ?k] => replace (t =? k) with false by (symmetry; lia) end.
    reflexivity.
Qed.
