(* ===== verification/Processor.v ===== *)
(** * The processor (program/src/processor.rs, entrypoint.rs)
    [Processor::process]: decodes the input of a transaction and runs the handler of
    the instruction. Who must have signed for each instruction, and that nothing runs
    on input that is not exactly one instruction. *)
From S2P Require Import Prelude Error Fees State Borsh Layout Entries Runtime Checks Concrete Admin Funds ListAccess DepositStake WithdrawStake Validators Rebalance UpdateList UpdatePool Initialize Metadata Instruction.

Section Processor.
Context `{RT : Runtime}.
Variable program_id : Pubkey.

(** The match of [process]: deprecated variants run the same handlers with fixed
    arguments, [Redelegate] is refused. *)
Definition run_instruction (accounts : list AccountInfo) (instruction : StakePoolInstruction) : M unit :=
  match instruction with
  | Initialize fee withdrawal_fee deposit_fee referral_fee max_validators =>
      process_initialize program_id accounts fee withdrawal_fee deposit_fee referral_fee max_validators
  | AddValidatorToPool seed => process_add_validator_to_pool program_id accounts seed
  | RemoveValidatorFromPool => process_remove_validator_from_pool program_id accounts
  | DecreaseValidatorStake lamports transient_stake_seed =>
      process_decrease_validator_stake program_id accounts lamports transient_stake_seed None false
  | DecreaseValidatorStakeWithReserve lamports transient_stake_seed =>
      process_decrease_validator_stake program_id accounts lamports transient_stake_seed None true
  | DecreaseAdditionalValidatorStake lamports transient_stake_seed ephemeral_stake_seed =>
      process_decrease_validator_stake program_id accounts lamports transient_stake_seed
        (Some ephemeral_stake_seed) true
  | IncreaseValidatorStake lamports transient_stake_seed =>
      process_increase_validator_stake program_id accounts lamports transient_stake_seed None
  | IncreaseAdditionalValidatorStake lamports transient_stake_seed ephemeral_stake_seed =>
      process_increase_validator_stake program_id accounts lamports transient_stake_seed
        (Some ephemeral_stake_seed)
  | SetPreferredValidator validator_type validator_vote_address =>
      process_set_preferred_validator program_id accounts validator_type validator_vote_address
  | UpdateValidatorListBalance start_index no_merge =>
      process_update_validator_list_balance program_id accounts start_index no_merge
  | UpdateStakePoolBalance => process_update_stake_pool_balance program_id accounts
  | CleanupRemovedValidatorEntries => process_cleanup_removed_validator_entries program_id accounts
  | DepositStake => process_deposit_stake program_id accounts None
  | WithdrawStake amount => process_withdraw_stake program_id accounts amount None
  | SetFee fee => process_set_fee program_id accounts fee
  | SetManager => process_set_manager program_id accounts
  | SetStaker => process_set_staker program_id accounts
  | SetFundingAuthority funding_type => process_set_funding_authority program_id accounts funding_type
  | DepositSol lamports => process_deposit_sol program_id accounts lamports None
  | WithdrawSol pool_tokens => process_withdraw_sol program_id accounts pool_tokens None
  | CreateTokenMetadata name symbol uri => process_create_pool_token_metadata program_id accounts name symbol uri
  | UpdateTokenMetadata name symbol uri => process_update_pool_token_metadata program_id accounts name symbol uri
  | Redelegate _ _ _ _ => mfail InvalidInstructionData
  | DepositStakeWithSlippage minimum_pool_tokens_out =>
      process_deposit_stake program_id accounts (Some minimum_pool_tokens_out)
  | WithdrawStakeWithSlippage pool_tokens_in minimum_lamports_out =>
      process_withdraw_stake program_id accounts pool_tokens_in (Some minimum_lamports_out)
  | DepositSolWithSlippage lamports_in minimum_pool_tokens_out =>
      process_deposit_sol program_id accounts lamports_in (Some minimum_pool_tokens_out)
  | WithdrawSolWithSlippage pool_tokens_in minimum_lamports_out =>
      process_withdraw_sol program_id accounts pool_tokens_in (Some minimum_lamports_out)
  | SetMaxValidatorStake max_stake => process_set_max_validator_stake program_id accounts max_stake
  end.

Definition process (accounts : list AccountInfo) (input : list Z) : M unit :=
  let! instruction := lift (instruction_of input) in
  run_instruction accounts instruction.
End Processor.

(** ** Who must sign *)
(** [open_to H stop]: opens the run [H] bind by bind until [stop] succeeds. *)
Ltac open_to H stop :=
  first
  [ stop tt
  | progress (repeat match type of H with context [match ?a with pair _ _ => _ end] => is_var a; destruct a end;
      cbv beta iota zeta in H); open_to H stop
  | mopen H;
    try match goal with
    | D : load_stake_pool _ _ _ = Ok _ |- _ => apply load_stake_pool_Ok in D as (? & _ & _)
    end;
    open_to H stop ].
Ltac at_staker _ :=
  lazymatch goal with D : check_staker _ _ _ = Ok _ |- _ => apply check_staker_Ok in D as [? ?] end.
Ltac at_deposit_authority _ :=
  lazymatch goal with D : check_stake_deposit_authority _ _ _ = Ok _ |- _ => apply check_stake_deposit_authority_Ok in D end.
Ltac at_pool _ := lazymatch goal with D : pool_at _ _ _ _ |- _ => idtac end.
Ltac at_signer _ := lazymatch goal with D : negb (is_signer _) = false |- _ => apply negb_false_iff in D end.

Section Authority.
Context `{RT : Runtime}.
Variable program_id : Pubkey.

(** The account at position 1 signed, and its key is as required. *)
Definition second_signs (accounts : list AccountInfo) (ok : Pubkey -> Prop) : Prop :=
  exists info, accounts !! 1%nat = Some info /\ is_signer info = true /\ ok (key info).

Definition signed_by_all (o : option Pubkey) (accounts : list AccountInfo) : Prop :=
  forall k, o = Some k -> exists info, In info accounts /\ key info = k /\ is_signer info = true.

(** What the pool [p] demands of the accounts. *)
Definition authorized (instruction : StakePoolInstruction) (p : StakePool) (accounts : list AccountInfo) : Prop :=
  match instruction with
  | AddValidatorToPool _ | RemoveValidatorFromPool | DecreaseValidatorStake _ _
  | DecreaseValidatorStakeWithReserve _ _ | DecreaseAdditionalValidatorStake _ _ _
  | IncreaseValidatorStake _ _ | IncreaseAdditionalValidatorStake _ _ _ | SetPreferredValidator _ _ =>
      second_signs accounts (eq (staker p))
  | SetManager | SetFee _ | SetFundingAuthority _ | SetMaxValidatorStake _ | CreateTokenMetadata _ _ _
  | UpdateTokenMetadata _ _ _ => second_signs accounts (eq (manager p))
  | SetStaker => second_signs accounts (fun k => k = staker p \/ k = manager p)
  | DepositSol _ | DepositSolWithSlippage _ _ => signed_by_all (sol_deposit_authority p) accounts
  | WithdrawSol _ | WithdrawSolWithSlippage _ _ => signed_by_all (sol_withdraw_authority p) accounts
  | DepositStake | DepositStakeWithSlippage _ =>
      exists info, accounts !! 2%nat = Some info /\ key info = stake_deposit_authority p
  | Redelegate _ _ _ _ => False
  | _ => True
  end.

(** The first account is a pool [p] of the program, and [Q p]. *)
Definition opens_pool (accounts : list AccountInfo) (s : RState) (Q : StakePool -> Prop) : Prop :=
  exists info p, head accounts = Some info /\ pool_at program_id (ledger s) (key info) p /\ Q p.

Ltac opened := do 2 eexists; split; [reflexivity|]; split; [eassumption|].

Lemma add_validator_signed accounts seed s r s' :
  process_add_validator_to_pool program_id accounts seed s = Ok (r, s') ->
  opens_pool accounts s (fun p => second_signs accounts (eq (staker p))).
Proof. intros H. unfold process_add_validator_to_pool in H. open_to H at_staker. opened. by eexists. Qed.
Lemma remove_validator_signed accounts s r s' :
  process_remove_validator_from_pool program_id accounts s = Ok (r, s') ->
  opens_pool accounts s (fun p => second_signs accounts (eq (staker p))).
Proof. intros H. unfold process_remove_validator_from_pool in H. open_to H at_staker. opened. by eexists. Qed.
Lemma decrease_signed accounts n seed eph fund s r s' :
  process_decrease_validator_stake program_id accounts n seed eph fund s = Ok (r, s') ->
  opens_pool accounts s (fun p => second_signs accounts (eq (staker p))).
Proof. intros H. unfold process_decrease_validator_stake in H. open_to H at_staker. opened. by eexists. Qed.
Lemma increase_signed accounts n seed eph s r s' :
  process_increase_validator_stake program_id accounts n seed eph s = Ok (r, s') ->
  opens_pool accounts s (fun p => second_signs accounts (eq (staker p))).
Proof. intros H. unfold process_increase_validator_stake in H. open_to H at_staker. opened. by eexists. Qed.
Lemma deposit_stake_signed accounts m s r s' :
  process_deposit_stake program_id accounts m s = Ok (r, s') ->
  opens_pool accounts s (fun p => exists info, accounts !! 2%nat = Some info /\ key info = stake_deposit_authority p).
Proof. intros H. unfold process_deposit_stake in H. open_to H at_deposit_authority. opened. by eexists. Qed.
Lemma withdraw_stake_opens accounts n m s r s' :
  process_withdraw_stake program_id accounts n m s = Ok (r, s') -> opens_pool accounts s (fun _ => True).
Proof. intros H. unfold process_withdraw_stake in H. open_to H at_pool. by opened. Qed.
Lemma update_list_opens accounts n b s r s' :
  process_update_validator_list_balance program_id accounts n b s = Ok (r, s') ->
  opens_pool accounts s (fun _ => True).
Proof. intros H. unfold process_update_validator_list_balance in H. open_to H at_pool. by opened. Qed.
Lemma update_pool_opens accounts s r s' :
  process_update_stake_pool_balance program_id accounts s = Ok (r, s') -> opens_pool accounts s (fun _ => True).
Proof. intros H. unfold process_update_stake_pool_balance in H. open_to H at_pool. by opened. Qed.
Lemma cleanup_opens accounts s r s' :
  process_cleanup_removed_validator_entries program_id accounts s = Ok (r, s') ->
  opens_pool accounts s (fun _ => True).
Proof. intros H. unfold process_cleanup_removed_validator_entries in H. open_to H at_pool. by opened. Qed.
Lemma initialize_signed accounts a b c d e s r s' :
  process_initialize program_id accounts a b c d e s = Ok (r, s') -> second_signs accounts (fun _ => True).
Proof. intros H. unfold process_initialize in H. open_to H at_signer. by eexists. Qed.

Lemma admin_signed cmd accounts s s' (Q : StakePool -> Prop) :
  (forall p i0 i1 rest, accounts = i0 :: i1 :: rest -> admin_authority cmd p i1 -> Q p) ->
  (exists i0 i1 rest p p', accounts = i0 :: i1 :: rest /\ pool_at program_id (ledger s) (key i0) p /\
    admin_authority cmd p i1 /\ admin_effect program_id cmd (key i0) rest p p' /\
    only_pool_changed (key i0) p' s s') -> opens_pool accounts s Q.
Proof. intros HQ (i0 & i1 & rest & p & p' & -> & Hp & Ha & _). opened. by eapply HQ. Qed.

Lemma second_signs_cons i0 i1 rest (ok : Pubkey -> Prop) :
  is_signer i1 = true -> ok (key i1) -> second_signs (i0 :: i1 :: rest) ok.
Proof. by exists i1. Qed.

Lemma run_admin_signed cmd accounts s r s' (ok : StakePool -> Pubkey -> Prop) :
  run_admin program_id accounts cmd s = Ok (r, s') ->
  (forall p i, admin_authority cmd p i -> ok p (key i)) ->
  opens_pool accounts s (fun p => second_signs accounts (ok p)).
Proof.
  intros H Hok. apply (admin_signed cmd accounts s s').
  - intros p i0 i1 rest -> [Hs Ha]. apply second_signs_cons; [done|]. by apply Hok.
  - destruct cmd; simpl in H; [by apply set_manager_run in H | by apply set_fee_run in H | by apply set_max_run in H
      | by apply set_staker_run in H | by apply set_funding_run in H | by apply set_preferred_run in H].
Qed.

Lemma metadata_signed cmd accounts n sy u s r s' :
  run_metadata program_id cmd accounts n sy u s = Ok (r, s') ->
  opens_pool accounts s (fun p => second_signs accounts (eq (manager p))).
Proof.
  destruct cmd; simpl; intros H;
    [apply create_metadata_run in H as (? & ? & ? & ? & ? & ? & -> & ? & ? & ? & _)
    |apply update_metadata_run in H as (? & ? & ? & ? & ? & ? & -> & ? & ? & ? & _)];
    opened; by apply second_signs_cons.
Qed.

Lemma deposit_sol_signed accounts x m s r s' :
  process_deposit_sol program_id accounts x m s = Ok (r, s') ->
  opens_pool accounts s (fun p => signed_by_all (sol_deposit_authority p) accounts).
Proof.
  intros H. apply deposit_sol_run in H as (pool & auth & reserve & from & user & fee & referrer & mint & sys & tok &
    rest & clock & p & d & s1 & data & -> & Hp & _ & _ & _ & _ & _ & _ & Ha & _).
  opened. intros k Hk. destruct (Ha k Hk) as (i & Hi & ? & ?). exists i. split; [|done].
  destruct rest as [|j rest]; [done|]. injection Hi as ->. simpl. tauto.
Qed.

Lemma withdraw_sol_signed accounts n m s r s' :
  process_withdraw_sol program_id accounts n m s = Ok (r, s') ->
  opens_pool accounts s (fun p => signed_by_all (sol_withdraw_authority p) accounts).
Proof.
  intros H. apply withdraw_sol_run in H as (pool & auth & user & burn & reserve & dest & fee & mint & rest & clock &
    p & f & l & dec & tp & s1 & data & meta & -> & Hp & _ & _ & _ & _ & _ & _ & Ha & _).
  opened. intros k Hk. destruct (Ha k Hk) as (i & Hi & ? & ?). exists i. split; [simpl; tauto | done].
Qed.

(** C11: the program runs only what it is authorized to: a successful call decoded its
    whole input to one instruction, ran that instruction's handler, and, [Initialize]
    apart, acted on a valid pool of the program at the first account, with the
    signature the pool demands: the staker's to move stake or set preferences, the
    manager's for settings and metadata, the manager's or the staker's for a new
    staker, the funding authorities' where they are set, the stake deposit authority
    named; [Redelegate] never succeeds, and [Initialize] is signed by the manager. *)
Theorem process_authorized accounts input s r s' :
  process program_id accounts input s = Ok (r, s') ->
  exists i, instruction_of input = Ok i /\ run_instruction program_id accounts i s = Ok (r, s') /\
    match i with
    | Initialize _ _ _ _ _ => second_signs accounts (fun _ => True)
    | _ => opens_pool accounts s (fun p => authorized i p accounts)
    end.
Proof.
  intros H. unfold process in H. mopen H. exists a. split; [done|]. split; [done|].
  destruct a; cbn [run_instruction] in H; unfold authorized.
  1: by apply initialize_signed in H.
  all: try (first
    [ simple eapply add_validator_signed; exact H
    | simple eapply remove_validator_signed; exact H
    | simple eapply decrease_signed; exact H
    | simple eapply increase_signed; exact H
    | simple eapply update_list_opens; exact H
    | simple eapply update_pool_opens; exact H
    | simple eapply cleanup_opens; exact H
    | simple eapply deposit_stake_signed; exact H
    | simple eapply withdraw_stake_opens; exact H
    | simple eapply deposit_sol_signed; exact H
    | simple eapply withdraw_sol_signed; exact H ]).
  - eapply (run_admin_signed (CmdSetPreferredValidator _ _)); [exact H|]. by intros p i [_ ->].
  - eapply (run_admin_signed CmdSetManager); [exact H|]. by intros p i [_ ->].
  - eapply (run_admin_signed (CmdSetFee _)); [exact H|]. by intros p i [_ ->].
  - eapply (run_admin_signed CmdSetStaker); [exact H|]. by intros p i [_ ?].
  - eapply (run_admin_signed (CmdSetFundingAuthority _)); [exact H|]. by intros p i [_ ->].
  - eapply (metadata_signed CreateMetadata); exact H.
  - eapply (metadata_signed UpdateMetadata); exact H.
  - done.
  - eapply (run_admin_signed (CmdSetMaxValidatorStake _)); [exact H|]. by intros p i [_ ->].
Qed.
End Authority.

(** The concrete pool takes a deposit sent as bytes. *)
Definition toy_input : list Z := 14 :: enc u64 1000000000.
Definition toy_process_run : outcome (unit * RState) :=
  process (RT := toy) toy_program toy_deposit_accounts toy_input toy_state.

Lemma process_authorized_witness :
  is_ok toy_process_run = true /\
  exists i, instruction_of toy_input = Ok i /\
    run_instruction (RT := toy) toy_program toy_deposit_accounts i toy_state =
      Ok (tt, final toy_state toy_process_run) /\
    match i with
    | Initialize _ _ _ _ _ => second_signs toy_deposit_accounts (fun _ => True)
    | _ => opens_pool (RT := toy) toy_program toy_deposit_accounts toy_state
             (fun p => authorized i p toy_deposit_accounts)
    end.
Proof.
  assert (H : is_ok toy_process_run = true) by (vm_compute; reflexivity). split; [exact H|].
  exact (process_authorized (RT := toy) toy_program _ _ _ _ _ (ran toy_state _ H)).
Defined.
