(* ===== verification/Entrypoint.v ===== *)
(** * The entrypoint (program/src/entrypoint.rs, the end of program/src/processor.rs)
    What the runtime calls: the processor, and the message logged for its error. *)
From S2P Require Import Prelude Error Fees State Borsh Runtime Checks Concrete Instruction Processor.
From stdpp Require Import list strings.
Open Scope string_scope.
Open Scope list_scope.
Open Scope Z_scope.
Open Scope sp_scope.

(** [PrintProgramError for StakePoolError]. *)
Definition print (e : StakePoolError) : string :=
  match e with
  | AlreadyInUse => "Error: The account cannot be initialized because it is already being used"
  | InvalidProgramAddress => "Error: The program address provided doesn't match the value generated by the program"
  | InvalidState => "Error: The stake pool state is invalid"
  | CalculationFailure => "Error: The calculation failed"
  | FeeTooHigh => "Error: Stake pool fee > 1"
  | WrongAccountMint => "Error: Token account is associated with the wrong mint"
  | WrongManager => "Error: Wrong pool manager account"
  | SignatureMissing => "Error: Required signature is missing"
  | InvalidValidatorStakeList => "Error: Invalid validator stake list account"
  | InvalidFeeAccount => "Error: Invalid manager fee account"
  | WrongPoolMint => "Error: Specified pool mint account is wrong"
  | WrongStakeStake => "Error: Stake account is not in the state expected by the program"
  | UserStakeNotActive => "Error: User stake is not active"
  | ValidatorAlreadyAdded => "Error: Stake account voting for this validator already exists in the pool"
  | ValidatorNotFound => "Error: Stake account for this validator not found in the pool"
  | InvalidStakeAccountAddress => "Error: Stake account address not properly derived from the validator address"
  | StakeListOutOfDate => "Error: Identify validator stake accounts with old balances and update them"
  | StakeListAndPoolOutOfDate => "Error: First update old validator stake account balances and then pool stake balance"
  | UnknownValidatorStakeAccount => "Error: Validator stake account is not found in the list storage"
  | WrongMintingAuthority => "Error: Wrong minting authority set for mint pool account"
  | UnexpectedValidatorListAccountSize => "Error: The size of the given validator stake list does match the expected amount"
  | WrongStaker => "Error: Wrong pool staker account"
  | NonZeroPoolTokenSupply => "Error: Pool token supply is not zero on initialization"
  | StakeLamportsNotEqualToMinimum => "Error: The lamports in the validator stake account is not equal to the minimum"
  | IncorrectDepositVoteAddress => "Error: The provided deposit stake account is not delegated to the preferred deposit vote account"
  | IncorrectWithdrawVoteAddress => "Error: The provided withdraw stake account is not the preferred deposit vote account"
  | InvalidMintFreezeAuthority => "Error: The mint has an invalid freeze authority"
  | FeeIncreaseTooHigh => "Error: The fee cannot increase by a factor exceeding the stipulated ratio"
  | WithdrawalTooSmall => "Error: Not enough pool tokens provided to withdraw 1-lamport stake"
  | DepositTooSmall => "Error: Not enough lamports provided for deposit to result in one pool token"
  | InvalidStakeDepositAuthority => "Error: Provided stake deposit authority does not match the program's"
  | InvalidSolDepositAuthority => "Error: Provided sol deposit authority does not match the program's"
  | InvalidPreferredValidator => "Error: Provided preferred validator is invalid"
  | TransientAccountInUse => "Error: Provided validator stake account already has a transient stake account in use"
  | InvalidSolWithdrawAuthority => "Error: Provided sol withdraw authority does not match the program's"
  | SolWithdrawalTooLarge => "Error: Too much SOL withdrawn from the stake pool's reserve account"
  | InvalidMetadataAccount => "Error: Metadata account derived from pool mint account does not match the one passed to program"
  | UnsupportedMintExtension => "Error: mint has an unsupported extension"
  | UnsupportedFeeAccountExtension => "Error: fee account has an unsupported extension"
  | ExceededSlippage => "Error: instruction exceeds desired slippage limit"
  | IncorrectMintDecimals => "Error: Provided mint does not have 9 decimals to match SOL"
  | ReserveDepleted => "Error: Pool reserve does not have enough lamports to fund rent-exempt reserve in split destination. Deposit more SOL in reserve, or pre-fund split destination with the rent-exempt reserve for a stake account."
  | MissingRequiredSysvar => "Missing required sysvar account"
  | EpochRewardDistributionInProgress => "Epoch reward distribution is currently in progress, stakes are still being updated"
  | TooManyValidatorsInPool => "The stake pool has too many validators in the pool"
  | ExceedsMaxValidatorStake => "Error: Validator stake would exceed maximum allowed stake limit"
  end.

(** No two errors have the same message. *)
#[export] Instance print_inj : Inj (=) (=) print.
Proof. intros e1 e2 H. destruct e1, e2; first [reflexivity | discriminate H]. Qed.

(** What the runtime's own [print] logs of an error that is not [Custom], and of a code
    of no variant. *)
Section Entrypoint.
Context `{RT : Runtime}.
Variable library_message : ProgramError -> string.

(** [error.print::<StakePoolError>()]. *)
Definition print_program_error (error : ProgramError) : string :=
  match error with
  | Custom code => match error_from_u32 code with Some e => print e | None => library_message error end
  | _ => library_message error
  end.

(** The result, and the messages of the entrypoint itself. *)
Definition process_instruction (program_id : Pubkey) (accounts : list AccountInfo) (instruction_data : list Z) (s : RState)
    : outcome (unit * RState) * list string :=
  match process program_id accounts instruction_data s with
  | Err error => (Err error, [print_program_error error])
  | r => (r, [])
  end.

(** C36: the result is the processor's, and a failed call of the program's own errors logs
    the message of that error and of no other. *)
Theorem process_instruction_logs program_id accounts data s :
  fst (process_instruction program_id accounts data s) = process program_id accounts data s /\
  (forall e, process program_id accounts data s = fail_with e <->
     snd (process_instruction program_id accounts data s) = [print e] /\
     exists e', process program_id accounts data s = fail_with e').
Proof.
  unfold process_instruction. destruct (process program_id accounts data s) as [r|err|] eqn:E; cbn; (split; [done|]); intros e.
  - split; [done | by intros [? _]].
  - split.
    + intros [= ->]. cbn. rewrite all_errors_lookup. split; [done|]. by exists e.
    + intros (Hm & e' & [= ->]). cbn in Hm. rewrite all_errors_lookup in Hm. injection Hm as Hm%print_inj. by subst.
  - split; [done | by intros [? _]].
Qed.
End Entrypoint.
