(* ===== verification/Keeps.v ===== *)
(** * What a computation of the program keeps
    A small program logic for the handler monad: [keeps m Q] says that a successful
    run of [m] leaves the ledger well typed and a tracked pool as good as it was, and
    that its result satisfies [Q]. [Safe] is the case without a result to remember; it
    is closed under the combinators of the monad, so instance search proves it for
    code that only reads, checks and invokes. *)
From S2P Require Import Prelude Error Fees State Borsh Layout BigVec Entries Runtime Checks ListAccess UpdatePool.

(** ** A good pool *)

Definition next_fee_fits (f : FutureEpoch Fee) : Prop :=
  match f with FutureNone => True | One x | Two x => fee_le_one x end.

(** All fees in force and announced are at most one, all referral shares at most 100. *)
Definition fees_ok (p : StakePool) : Prop :=
  fee_le_one (epoch_fee p) /\ next_fee_fits (next_epoch_fee p) /\
  fee_le_one (stake_deposit_fee p) /\ fee_le_one (sol_deposit_fee p) /\
  fee_le_one (stake_withdrawal_fee p) /\ next_fee_fits (next_stake_withdrawal_fee p) /\
  fee_le_one (sol_withdrawal_fee p) /\ next_fee_fits (next_sol_withdrawal_fee p) /\
  stake_referral_fee p <= 100 /\ sol_referral_fee p <= 100.

(** What never changes in the life of a pool, and the epoch that never goes back. *)
Definition evolves (p0 p : StakePool) : Prop :=
  version p = version p0 /\ account_type p = account_type p0 /\
  stake_withdraw_bump_seed p = stake_withdraw_bump_seed p0 /\ validator_list p = validator_list p0 /\
  reserve_stake p = reserve_stake p0 /\ pool_mint p = pool_mint p0 /\
  token_program_id p = token_program_id p0 /\ lockup p = lockup p0 /\
  last_update_epoch p0 <= last_update_epoch p.

Definition good_pool (p0 p : StakePool) : Prop :=
  version p = 1 /\ account_type p = AccStakePool /\ fees_ok p /\ evolves p0 p.

(** The pool account [k] of the program in good state. *)
Definition pool_kept `{RT : Runtime} (program_id : Pubkey) (l : Ledger) (k : Pubkey) (p0 : StakePool) : Prop :=
  acc_owner (account_at l k) = program_id /\
  exists p, try_from_slice_unchecked stake_pool_codec (acc_data (account_at l k)) = Ok p /\ good_pool p0 p.

(** What the invoked programs leave alone: only the owner of an account changes its
    data or gives it away, a program called by this program cannot call back into it,
    and system, stake and token instructions go to those programs (the token builders
    refuse any other address), so the program's own accounts come back as they were
    unless it invokes itself. *)
Class ProgramLaws (RT : Runtime) (program_id : Pubkey) : Prop := {
  own_accounts held ix infos sg (l l' : Ledger) k :
    cpi_exec held ix infos sg l = Ok l' ->
    (forall p accounts data, ix = RawInstruction p accounts data -> p <> program_id) ->
    acc_owner (account_at l k) = program_id ->
    acc_owner (account_at l' k) = program_id /\ acc_data (account_at l' k) = acc_data (account_at l k)
}.

(** An instruction the program assembled itself is for another program, which matters
    when a pool is tracked. *)
Class Foreign (program_id : Pubkey) (tracked : option Pubkey) (ix : Cpi) : Prop :=
  foreign k p accounts data : tracked = Some k -> ix = RawInstruction p accounts data -> p <> program_id.
#[export] Hint Extern 1 (Foreign _ _ _) => (intros ? ? ? ? _; discriminate) : typeclass_instances.

(** When a pool is tracked, the program's own accounts are left alone. *)
Class Lawful `{RT : Runtime} (program_id : Pubkey) (tracked : option Pubkey) : Prop :=
  lawful k : tracked = Some k -> ProgramLaws RT program_id.
#[export] Instance lawful_untracked `{RT : Runtime} pid : Lawful pid None.
Proof. done. Qed.
#[export] Instance lawful_tracked `{RT : Runtime} pid o : ProgramLaws RT pid -> Lawful pid o.
Proof. by intros H k _. Qed.

(** ** Bytes stay bytes *)
Lemma bytes_splice i new l : bytes new -> bytes l -> bytes (splice i new l).
Proof. intros. unfold splice. repeat (apply bytes_app; split); auto with sp_bytes. Qed.
#[export] Hint Resolve bytes_splice bytes_le_enc : sp_bytes.

Lemma bytes_enc_vsi v : bytes (enc vsi_codec v).
Proof. unfold vsi_codec. cbn [enc]. repeat (apply bytes_app; split); apply bytes_le_enc. Qed.
Lemma memmove_bytes d a b c e n d' : memmove d a b c e n = Ok d' -> bytes d -> bytes d'.
Proof.
  unfold memmove. destruct (slice a b d); [|done]. destruct (slice c e d); [|done].
  intros [= <-] Hd. auto with sp_bytes.
Qed.
Lemma write_len_bytes n d d' : write_len n d = Ok d' -> bytes d -> bytes d'.
Proof.
  unfold write_len. destruct (slice 0 VEC_SIZE_BYTES d) eqn:E; [|done]. intros (b & Hb & H)%obind_Ok Hd.
  apply Ok_inj in H as <-. apply slice_Some in E as [_ ->]. apply to_writer_Ok in Hb as [_ ->].
  apply bytes_splice; [|done]. apply bytes_app. split; [apply bytes_le_enc | auto with sp_bytes].
Qed.
Lemma retain_loop_bytes size predicate idxs st st' :
  retain_loop size predicate idxs st = Ok st' -> bytes (fst (fst (fst st))) -> bytes (fst (fst (fst st'))).
Proof.
  revert st. induction idxs as [|i idxs IH]; intros [[[d r] t] n] H Hd; [by apply Ok_inj in H as <-|].
  cbn [retain_loop] in H. apply obind_Ok in H as (st1 & H1 & H). apply (IH _ H). unfold retain_step in H1.
  destruct (slice _ _ d); [|done]. apply obind_Ok in H1 as (b & _ & H1).
  destruct b; [by apply Ok_inj in H1 as <-|]. apply obind_Ok in H1 as (d1 & H1 & E). apply Ok_inj in E as <-.
  cbn [fst]. destruct (0 <? r)%nat; [by apply memmove_bytes in H1 | by apply Ok_inj in H1 as <-].
Qed.
Lemma retain_bytes size predicate d d' : retain size predicate d = Ok d' -> bytes d -> bytes d'.
Proof.
  unfold retain. intros (n & _ & H)%obind_Ok Hd. apply obind_Ok in H as ([[[d1 r] t] m] & H1 & H).
  apply retain_loop_bytes in H1; [|done]. cbn [fst] in H1. apply obind_Ok in H as (d2 & H2 & H).
  apply (write_len_bytes _ _ _ H). destruct (0 <? r)%nat; [by apply memmove_bytes in H2 | by apply Ok_inj in H2 as <-].
Qed.
Lemma push_bytes v d : bytes d -> bytes (snd (push vsi_codec VSI_SIZE v d)).
Proof.
  intros Hd. unfold push. destruct (slice _ _ d); [|done]. destruct (try_from_slice _ _) as [n| |]; try done.
  destruct (write_len _ d) eqn:E; try done. apply write_len_bytes in E; [|done].
  destruct (_ <? _)%nat; [done|]. apply bytes_splice; [apply bytes_enc_vsi | done].
Qed.

Section Keeps.
Context `{RT : Runtime} `{!RuntimeLaws RT}.
Variable program_id : Pubkey.
(** The tracked pool, if any, and the state it started from. *)
Variable tracked : option Pubkey.
Variable p0 : StakePool.
Context `{!Lawful program_id tracked}.

Definition kept (s : RState) : Prop :=
  wf_ledger (ledger s) /\ forall k, tracked = Some k -> pool_kept program_id (ledger s) k p0.

Definition keeps {A} (m : M A) (Q : A -> Prop) : Prop :=
  forall s a s', kept s -> m s = Ok (a, s') -> kept s' /\ Q a.

Class Safe {A} (m : M A) : Prop := safe : keeps m (fun _ => True).

(** The account [k] is not the tracked pool. *)
Class Untracked (k : Pubkey) : Prop := untracked : tracked <> Some k.

(** ** Rules *)
Lemma keeps_bind {A B} (m : M A) (k : A -> M B) Q R :
  keeps m Q -> (forall a, Q a -> keeps (k a) R) -> keeps (mbind m k) R.
Proof. intros Hm Hk s b s' Hs (a & s1 & H1 & H2)%mbind_Ok. apply Hm in H1 as [? ?]; [|done]. by eapply Hk. Qed.
Lemma keeps_bind_safe {A B} (m : M A) (k : A -> M B) R :
  Safe m -> (forall a, keeps (k a) R) -> keeps (mbind m k) R.
Proof. intros Hm Hk. by apply (keeps_bind m k (fun _ => True)). Qed.
Lemma keeps_ret {A} (a : A) (Q : A -> Prop) : Q a -> keeps (mret a) Q.
Proof. intros Hq s b s' Hs [-> ->]%mret_Ok. done. Qed.
Lemma keeps_weaken {A} (m : M A) (Q R : A -> Prop) : keeps m Q -> (forall a, Q a -> R a) -> keeps m R.
Proof. intros Hm H s a s' Hs Ha. apply Hm in Ha as [? ?]; auto. Qed.
Lemma keeps_safe {A} (m : M A) : Safe m -> keeps m (fun _ => True).
Proof. done. Qed.
Lemma keeps_read_only {A} (m : M A) (Q : A -> Prop) :
  ReadOnly m -> (forall s a s', kept s -> m s = Ok (a, s') -> Q a) -> keeps m Q.
Proof. intros Hm H s a s' Hs Ha. pose proof (Hm _ _ _ Ha) as ->. split; [done|]. by eapply H. Qed.

#[export] Instance safe_read_only {A} (m : M A) : ReadOnly m -> Safe m | 5.
Proof. intros Hm. by apply keeps_read_only. Qed.
#[export] Instance safe_bind {A B} (m : M A) (k : A -> M B) :
  Safe m -> (forall a, Safe (k a)) -> Safe (mbind m k) | 10.
Proof. intros Hm Hk. by apply (keeps_bind_safe m k). Qed.
#[export] Instance safe_if {A} (c : bool) (m n : M A) : Safe m -> Safe n -> Safe (if c then m else n) | 10.
Proof. by destruct c. Qed.
#[export] Instance safe_option {A B} (o : option A) (m : A -> M B) (n : M B) :
  (forall a, Safe (m a)) -> Safe n -> Safe (match o with Some a => m a | None => n end) | 10.
Proof. by destruct o. Qed.
#[export] Instance safe_pair {A B C} (p : A * B) (m : A -> B -> M C) :
  (forall a b, Safe (m a b)) -> Safe (let '(a, b) := p in m a b) | 10.
Proof. by destruct p. Qed.
#[export] Instance safe_mwhen c (m : M unit) : Safe m -> Safe (mwhen c m).
Proof. intros ?. unfold mwhen. apply _. Qed.

Lemma safe_fold {A B} (f : B -> A -> M B) xs b : (forall b a, Safe (f b a)) -> Safe (mfold f xs b).
Proof. intros Hf. revert b. induction xs as [|x xs IH]; intros b; simpl; apply _. Qed.

(** ** Reading the tracked account *)
Definition pool_fact (k : Pubkey) (p : StakePool) : Prop :=
  wf stake_pool_codec p /\ (tracked = Some k -> good_pool p0 p).
Definition data_fact (k : Pubkey) (d : list Z) : Prop :=
  bytes d /\ (tracked = Some k -> exists p, try_from_slice_unchecked stake_pool_codec d = Ok p /\ good_pool p0 p).

Lemma kept_data s k : kept s -> data_fact k (acc_data (account_at (ledger s) k)).
Proof.
  intros [Hw Hk]. split; [by apply wf_ledger_at|]. intros E. by apply Hk in E as (_ & ?).
Qed.
Lemma keeps_borrow_data i : keeps (borrow_data i) (data_fact (key i)).
Proof. apply keeps_read_only; [apply _|]. intros s a s' Hs (_ & -> & _)%borrow_data_Ok. by apply kept_data. Qed.
Lemma keeps_try_borrow_data i : keeps (try_borrow_data i) (data_fact (key i)).
Proof. apply keeps_read_only; [apply _|]. intros s a s' Hs (_ & -> & _)%try_borrow_data_Ok. by apply kept_data. Qed.
Lemma keeps_held_data i : keeps (held_data i) (data_fact (key i)).
Proof. apply keeps_read_only; [apply _|]. intros s a s' Hs [-> _]%held_data_Ok. by apply kept_data. Qed.
Lemma keeps_lift {A} (o : outcome A) : keeps (lift o) (fun a => o = Ok a).
Proof. apply keeps_read_only; [apply _|]. by intros s a s' Hs [? _]%lift_Ok. Qed.
Lemma keeps_get_or {A} (o : option A) e : keeps (get_or o e) (fun a => o = Some a).
Proof. apply keeps_read_only; [apply _|]. by intros s a s' Hs [? _]%get_or_Ok. Qed.
Lemma keeps_fail_if c e : keeps (fail_if c e) (fun _ => c = false).
Proof. apply keeps_read_only; [apply _|]. by intros s a s' Hs [? _]%fail_if_Ok. Qed.
Lemma keeps_fail_if_sp c e : keeps (fail_if_sp c e) (fun _ => c = false).
Proof. apply keeps_fail_if. Qed.
Lemma keeps_next (P : AccountInfo -> Prop) it :
  Forall P it -> keeps (next_account_info it) (fun r => P (fst r) /\ Forall P (snd r)).
Proof.
  intros Hit. apply keeps_read_only; [apply _|]. intros s [i it'] s' _ [-> _]%next_account_info_Ok.
  by inversion Hit.
Qed.

Lemma data_fact_pool k d p :
  data_fact k d -> try_from_slice_unchecked stake_pool_codec d = Ok p -> pool_fact k p.
Proof.
  intros [Hb Hd] H. split; [by apply (try_from_slice_unchecked_wf stake_pool_codec d)|].
  intros E. destruct (Hd E) as (q & Hq & ?). by assert (p = q) as -> by congruence.
Qed.
Lemma keeps_load_stake_pool i : keeps (load_stake_pool program_id i) (pool_fact (key i)).
Proof.
  unfold load_stake_pool. apply keeps_bind_safe; [apply _|]. intros _.
  eapply keeps_bind; [apply keeps_borrow_data|]. intros d Hd. eapply keeps_bind; [apply keeps_lift|].
  intros p Hp. apply keeps_bind_safe; [apply _|]. intros _. apply keeps_ret. by eapply data_fact_pool.
Qed.

(** ** Writing *)
Lemma kept_set_data s k d : kept s -> data_fact k d -> kept (set_data k d s).
Proof.
  intros [Hw Hk] [Hb Hd]. split; [by apply wf_ledger_set|]. intros k' E. destruct (decide (k = k')) as [->|Hne].
  - destruct (Hk _ E) as [Ho _]. unfold pool_kept. rewrite set_data_at. cbn [acc_owner acc_data]. auto.
  - unfold pool_kept. rewrite set_data_at_ne by done. by apply Hk.
Qed.

Lemma kept_borrowed s b log : kept s -> kept (mkRState (ledger s) b log).
Proof. done. Qed.

#[export] Instance safe_borrow_mut_data i : Safe (borrow_mut_data i).
Proof. intros s a s' Hs [_ ->]%borrow_mut_data_Ok. split; [by apply kept_borrowed | done]. Qed.

Lemma safe_set_held_data i d : Untracked (key i) -> bytes d -> Safe (set_held_data i d).
Proof.
  intros Hu Hb s a s' Hs ->%set_held_data_Ok. split; [|done]. apply kept_set_data; [done|].
  split; [done|]. intros E. by apply Hu in E.
Qed.

Lemma keeps_write_pool i p : pool_fact (key i) p -> keeps (write_data stake_pool_codec i p) (fun _ => True).
Proof.
  intros [Hw Hg] s a s' Hs (_ & d & Hd & ->)%write_data_Ok. split; [|done]. apply kept_set_data; [done|].
  pose proof (kept_data s (key i) Hs) as [Hb _]. split.
  - apply to_writer_Ok in Hd as [_ ->]. apply bytes_app. split; [by apply enc_bytes | by apply bytes_drop].
  - intros E. exists p. split; [by apply (read_after_write stake_pool_codec p _ _ Hw Hd) | by apply Hg].
Qed.
Lemma safe_write_list i l :
  Untracked (key i) -> wf validator_list_codec l -> Safe (write_data validator_list_codec i l).
Proof.
  intros Hu Hw s a s' Hs (_ & d & Hd & ->)%write_data_Ok. split; [|done]. apply kept_set_data; [done|].
  pose proof (kept_data s (key i) Hs) as [Hb _]. split; [|by intros E%Hu].
  apply to_writer_Ok in Hd as [_ ->]. apply bytes_app. split; [by apply enc_bytes | by apply bytes_drop].
Qed.

(** ** Invoking *)
Lemma kept_exec s ix infos sg l log :
  kept s -> Foreign program_id tracked ix -> cpi_exec (borrowed s) ix infos sg (ledger s) = Ok l ->
  kept (mkRState l (borrowed s) log).
Proof.
  intros [Hw Hk] Hf He. split; [by apply (cpi_types _ _ _ _ _ _ He)|]. intros k E. cbn [ledger].
  destruct (Hk _ E) as [Ho Hd]. pose proof (lawful _ E).
  destruct (own_accounts _ _ _ _ _ _ k He (fun p a d => Hf k p a d E) Ho) as [Ho' Hd']. split; [done|]. by rewrite Hd'.
Qed.
#[export] Instance safe_invoke_signed ix infos sg : Foreign program_id tracked ix -> Safe (invoke_signed ix infos sg).
Proof.
  intros Hf s a s' Hs (l & Hl & ->)%invoke_signed_Ok. split; [|done]. by apply (kept_exec s ix infos sg l).
Qed.
#[export] Instance safe_invoke ix infos : Foreign program_id tracked ix -> Safe (invoke ix infos).
Proof. apply safe_invoke_signed. Qed.

(** ** The list account *)
(** A pool is not a list: their first bytes differ. *)
Lemma pool_first_byte d p :
  try_from_slice_unchecked stake_pool_codec d = Ok p -> bytes d -> version p = 1 -> exists r, d = 1 :: r.
Proof.
  unfold try_from_slice_unchecked. intros H Hb Hv.
  destruct (dec stake_pool_codec d) as [[q r]|] eqn:E; [|done]. injection H as ->.
  apply enc_dec in E as [-> _]; [|done]. unfold stake_pool_codec. cbn [enc]. rewrite Hv. eauto.
Qed.

Lemma header_first_byte r h l :
  dec header_codec (1 :: r) = Some (h, l) -> header_account_type h = AccStakePool.
Proof.
  unfold header_codec. cbn [dec]. cbn [account_type_codec enum dec]. cbn [account_type_untag Z.eqb Pos.eqb].
  destruct (dec u32 r) as [[n r']|]; [|done]. by intros [= <- <-].
Qed.

Lemma data_fact_byte k d : data_fact k d -> tracked = Some k -> exists r, d = 1 :: r.
Proof.
  intros [Hb Hd] E. destruct (Hd E) as (p & Hp & Hv & _). by apply (pool_first_byte d p).
Qed.
Lemma list_untracked k d h v :
  data_fact k d -> deserialize_vec d = Ok (h, v) -> header_is_valid h = true -> Untracked k.
Proof.
  intros Hd H Hh E. destruct (data_fact_byte _ _ Hd E) as [r ->]. unfold deserialize_vec in H.
  destruct (dec header_codec (1 :: r)) as [[h' l]|] eqn:Eh; [|done]. apply header_first_byte in Eh.
  injection H as -> _. unfold header_is_valid in Hh. by rewrite Eh in Hh.
Qed.
Lemma new_list_untracked k d l :
  data_fact k d -> try_from_slice_unchecked validator_list_codec d = Ok l ->
  header_is_uninitialized (header l) = true -> Untracked k.
Proof.
  intros Hd H Hh E. destruct (data_fact_byte _ _ Hd E) as [r ->]. unfold try_from_slice_unchecked in H.
  destruct (dec validator_list_codec (1 :: r)) as [[l' rest]|] eqn:El; [|done]. injection H as ->.
  unfold validator_list_codec in El. cbn [dec] in El.
  destruct (dec header_codec (1 :: r)) as [[h' l']|] eqn:Eh; [|done]. apply header_first_byte in Eh.
  destruct (dec (vec vsi_codec) l') as [[xs l'']|]; [|done]. injection El as <- _. cbn [header] in Hh.
  unfold header_is_uninitialized in Hh. by rewrite Eh in Hh.
Qed.
Lemma new_pool_untracked k p : pool_fact k p -> StakePool_is_uninitialized p = true -> Untracked k.
Proof.
  intros [_ Hg] H E. destruct (Hg E) as (_ & Ht & _). unfold StakePool_is_uninitialized in H. by rewrite Ht in H.
Qed.

Lemma keeps_load_validator_list i : keeps (load_validator_list program_id i) (fun _ => Untracked (key i)).
Proof.
  unfold load_validator_list. do 2 (apply keeps_bind_safe; [apply _|]; intros _).
  eapply keeps_bind; [apply keeps_held_data|]. intros d Hd.
  eapply keeps_bind; [apply keeps_lift|]. intros [h v] Hh.
  eapply keeps_bind; [apply keeps_fail_if_sp|]. intros _ Hv%negb_false_iff. apply keeps_ret.
  by eapply list_untracked.
Qed.

Lemma keeps_list_bytes i : keeps (list_bytes i) bytes.
Proof.
  unfold list_bytes. eapply keeps_bind; [apply keeps_held_data|]. intros d [Hd _]. apply keeps_ret.
  auto with sp_bytes.
Qed.
Lemma safe_set_list_bytes i d : Untracked (key i) -> bytes d -> Safe (set_list_bytes i d).
Proof.
  intros Hu Hd. unfold set_list_bytes. eapply keeps_bind; [apply keeps_held_data|]. intros d0 [Hd0 _].
  apply safe_set_held_data; [done|]. apply bytes_app. auto with sp_bytes.
Qed.
#[export] Instance safe_list_store i off v : Untracked (key i) -> Safe (list_store i off v).
Proof.
  intros Hu. unfold list_store. eapply keeps_bind; [apply keeps_list_bytes|]. intros d Hd.
  apply safe_set_list_bytes; [done|]. apply bytes_splice; [apply bytes_enc_vsi | done].
Qed.
#[export] Instance safe_list_push i v : Untracked (key i) -> Safe (list_push i v).
Proof.
  intros Hu. unfold list_push. eapply keeps_bind; [apply keeps_list_bytes|]. intros d Hd.
  pose proof (push_bytes v d Hd) as Hp. destruct (push _ _ v d) as [r d']. cbn [snd] in Hp.
  apply keeps_bind_safe; [apply _|]. intros _. by apply safe_set_list_bytes.
Qed.
#[export] Instance safe_list_retain i f : Untracked (key i) -> Safe (list_retain i f).
Proof.
  intros Hu. unfold list_retain. eapply keeps_bind; [apply keeps_list_bytes|]. intros d Hd.
  eapply keeps_bind; [apply keeps_lift|]. intros d' Hd'. apply safe_set_list_bytes; [done|].
  by apply (retain_bytes _ _ _ _ Hd').
Qed.
End Keeps.
