(* ===== verification/Invariants.v ===== *)
(** * Invariants of the program
    Every instruction keeps the ledger well typed, and keeps a good pool good: its
    account stays a valid pool of the program, its fees stay at most one, the
    addresses of its parts never change and its epoch never goes back. *)
From S2P Require Import Prelude Error Fees State Borsh Layout BigVec Entries PoolMath Runtime Checks Concrete Admin Funds ListAccess DepositStake WithdrawStake Validators Rebalance UpdateList UpdatePool Initialize Metadata Instruction Processor Keeps.

(** ** The pieces without a result to remember *)
Section SafePieces.
Context `{RT : Runtime} `{!RuntimeLaws RT}.
Variable program_id : Pubkey.
Variable tracked : option Pubkey.
Variable p0 : StakePool.
Context `{!Lawful program_id tracked}.
Abbreviation Safe := (Safe program_id tracked p0).

#[local] Hint Extern 20 (Keeps.Safe _ _ _ (match ?x with _ => _ end)) => destruct x : typeclass_instances.

#[export] Instance safe_stake_split k a b t n x y : Safe (stake_split k a b t n x y).
Proof. unfold stake_split. apply _. Qed.
#[export] Instance safe_stake_merge k a b t n x y z : Safe (stake_merge k a b t n x y z).
Proof. unfold stake_merge. apply _. Qed.
#[export] Instance safe_stake_delegate a b c d e f k t n : Safe (stake_delegate a b c d e f k t n).
Proof. unfold stake_delegate. apply _. Qed.
#[export] Instance safe_stake_deactivate a b c k t n : Safe (stake_deactivate a b c k t n).
Proof. unfold stake_deactivate. apply _. Qed.
#[export] Instance safe_stake_authorize a b k c : Safe (stake_authorize a b k c).
Proof. unfold stake_authorize. apply _. Qed.
#[export] Instance safe_stake_authorize_signed k a b t n x c : Safe (stake_authorize_signed k a b t n x c).
Proof. unfold stake_authorize_signed. apply _. Qed.
#[export] Instance safe_stake_withdraw k a b t n x y z l : Safe (stake_withdraw k a b t n x y z l).
Proof. unfold stake_withdraw. apply _. Qed.
#[export] Instance safe_token_burn a b c d n : Safe (token_burn a b c d n).
Proof. unfold token_burn. apply _. Qed.
#[export] Instance safe_token_mint_to k a b c d t n x : Safe (token_mint_to k a b c d t n x).
Proof. unfold token_mint_to. apply _. Qed.
#[export] Instance safe_token_transfer a b c d e n x : Safe (token_transfer a b c d e n x).
Proof. unfold token_transfer. apply _. Qed.
#[export] Instance safe_sol_transfer a b n : Safe (sol_transfer a b n).
Proof. unfold sol_transfer. apply _. Qed.
#[export] Instance safe_create_stake_account a sd n : Safe (create_stake_account a sd n).
Proof. unfold create_stake_account. apply _. Qed.
#[export] Instance safe_mint_deposit_tokens k tp mi us fe re au b d : Safe (mint_deposit_tokens k tp mi us fe re au b d).
Proof. unfold mint_deposit_tokens. apply _. Qed.

(** Rebalancing. *)
#[export] Instance read_only_unwrap {A} (o : option A) : ReadOnly (unwrap o).
Proof. intros s a s'. unfold unwrap. destruct o; congruence. Qed.
#[export] Instance safe_create_ephemeral r seed i : Safe (create_ephemeral program_id r seed i).
Proof. unfold create_ephemeral. apply _. Qed.
#[export] Instance safe_create_transient r v seed b : Safe (create_transient r v seed b).
Proof. unfold create_transient. apply _. Qed.
#[export] Instance safe_rb_split r a n b : Safe (rb_split r a n b).
Proof. unfold rb_split. apply _. Qed.
#[export] Instance safe_rb_deactivate r a : Safe (rb_deactivate r a).
Proof. unfold rb_deactivate. apply _. Qed.
#[export] Instance safe_rb_withdraw r a b c n : Safe (rb_withdraw r a b c n).
Proof. unfold rb_withdraw. apply _. Qed.
#[export] Instance safe_rb_merge r a b : Safe (rb_merge r a b).
Proof. unfold rb_merge. apply _. Qed.
#[export] Instance safe_rb_delegate r a b c d : Safe (rb_delegate r a b c d).
Proof. unfold rb_delegate. apply _. Qed.
#[export] Instance safe_decrease_entry r li seed eph ep : Safe (decrease_entry program_id r li seed eph ep).
Proof. unfold decrease_entry, check_transient_use. apply _. Qed.
#[export] Instance safe_check_decrease_amount r m n : Safe (check_decrease_amount r m n).
Proof. unfold check_decrease_amount. apply _. Qed.
#[export] Instance safe_decrease_source r rent n reserve history : Safe (decrease_source program_id r rent n reserve history).
Proof. unfold decrease_source. apply _. Qed.
#[export] Instance safe_decrease_into r v seed b src n rent reserve history :
  Safe (decrease_into_new_transient r v seed b src n rent reserve history).
Proof. unfold decrease_into_new_transient. apply _. Qed.
#[export] Instance safe_decrease_stake r vote v n seed rent reserve history :
  Safe (decrease_stake program_id r vote v n seed rent reserve history).
Proof. unfold decrease_stake. apply _. Qed.
#[export] Instance safe_decrease_validator r li n seed eph ep rent reserve history :
  Untracked tracked (key li) -> Safe (decrease_validator program_id r li n seed eph ep rent reserve history).
Proof. intros Hu. unfold decrease_validator. apply _. Qed.
#[export] Instance safe_increase_entry r li vote n seed eph ep : Safe (increase_entry program_id r li vote n seed eph ep).
Proof. unfold increase_entry, check_transient_use, check_max_validator_stake. apply _. Qed.
#[export] Instance safe_increase_amount reserve n rent : Safe (increase_amount reserve n rent).
Proof. unfold increase_amount. apply _. Qed.
#[export] Instance safe_increase_source r a b c d n : Safe (increase_source program_id r a b c d n).
Proof. unfold increase_source. apply _. Qed.
#[export] Instance safe_increase_into r a b c d seed bump n ep : Safe (increase_into_new_transient r a b c d seed bump n ep).
Proof. unfold increase_into_new_transient. apply _. Qed.
#[export] Instance safe_increase_stake r a b c d v n seed ep : Safe (increase_stake program_id r a b c d v n seed ep).
Proof. unfold increase_stake. apply _. Qed.
#[export] Instance safe_increase_validator r li a b c d n seed eph ep rent :
  Untracked tracked (key li) -> Safe (increase_validator program_id r li a b c d n seed eph ep rent).
Proof. intros Hu. unfold increase_validator. apply _. Qed.

(** Refreshing the list. *)
#[export] Instance safe_merge_transient u a b vst g st : Safe (merge_transient u a b vst g st).
Proof. unfold merge_transient, up_merge, up_deactivate. apply _. Qed.
#[export] Instance safe_update_transient u a b vst tst v : Safe (update_transient u a b vst tst v).
Proof. unfold update_transient, up_merge. apply _. Qed.
#[export] Instance safe_update_active u a st n : Safe (update_active u a st n).
Proof. unfold update_active, up_merge, up_withdraw. apply _. Qed.
#[export] Instance read_only_check_fails m : ReadOnly m -> ReadOnly (check_fails m).
Proof. intros Hm s b s' [? _]%check_fails_Ok; done. Qed.
#[export] Instance safe_update_record u v a b : Safe (update_record program_id u v a b).
Proof. unfold update_record. apply _. Qed.
#[export] Instance safe_update_records u li i vs infos :
  Untracked tracked (key li) -> Safe (update_records program_id u li i vs infos).
Proof.
  intros Hu. revert i infos. induction vs as [|v vs IH]; intros i infos; [apply _|].
  destruct infos as [|[a b] infos]; cbn [update_records]; apply _.
Qed.

(** Deposits, withdrawals and validators. *)
#[export] Instance safe_deposit_validator p k a b vote : Safe (deposit_validator program_id p k a b vote).
Proof. unfold deposit_validator. apply _. Qed.
#[export] Instance safe_take_over_stake p k a b c d e f : Safe (take_over_stake program_id p k a b c d e f).
Proof. unfold take_over_stake. apply _. Qed.
#[export] Instance safe_withdraw_terms p li m n k : Safe (withdraw_terms p li m n k).
Proof. unfold withdraw_terms. apply _. Qed.
#[export] Instance safe_check_reserve_source i m t : Safe (check_reserve_source i m t).
Proof. unfold check_reserve_source. apply _. Qed.
#[export] Instance safe_check_preferred_withdraw p li vote t : Safe (check_preferred_withdraw p li vote t).
Proof. unfold check_preferred_withdraw. apply _. Qed.
#[export] Instance safe_withdraw_source k i vote v t : Safe (withdraw_source program_id k i vote v t).
Proof. unfold withdraw_source. apply _. Qed.
#[export] Instance safe_withdrawal_fee_tokens p a b f n : Safe (withdrawal_fee_tokens p a b f n).
Proof. unfold withdrawal_fee_tokens. apply _. Qed.
#[export] Instance safe_check_reserve_after i n : Safe (check_reserve_after i n).
Proof. unfold check_reserve_after. apply _. Qed.
#[export] Instance safe_check_new_validator h li vote : Safe (check_new_validator h li vote).
Proof. unfold check_new_validator. apply _. Qed.
#[export] Instance safe_check_not_draining i n : Safe (check_not_draining i n).
Proof. unfold check_not_draining. apply _. Qed.
#[export] Instance safe_attempt {A} (m : M A) : Safe m -> Safe (attempt m).
Proof.
  intros Hm s o s' Hs. unfold attempt. destruct (m s) as [[a s1]| |] eqn:E; [|intros [= <- <-]; done|done].
  intros [= <- <-]. split; [|done]. by apply Hm in E as [? _].
Qed.
#[export] Instance safe_remove_transient p k vote v a b c : Safe (remove_transient program_id p k vote v a b c).
Proof. unfold remove_transient. apply _. Qed.
End SafePieces.

(** ** What a handler stores *)
Section Stored.
Variable tracked : option Pubkey.
Variable p0 : StakePool.

(** Assigning fields that no fee and no address of a part is kept in. *)
Lemma fact_set (f : StakePool -> StakePool) k p :
  pool_fact tracked p0 k p -> (wf stake_pool_codec p -> wf stake_pool_codec (f p)) ->
  (good_pool p0 p -> good_pool p0 (f p)) -> pool_fact tracked p0 k (f p).
Proof. intros [Hw Hg] H1 H2. split; [by apply H1 | intros E; by apply H2, Hg]. Qed.

Lemma fact_amounts k p l t :
  pool_fact tracked p0 k p -> in_range 64 l -> in_range 64 t ->
  pool_fact tracked p0 k (set_total_lamports l (set_pool_token_supply t p)).
Proof.
  intros H Hl Ht. apply (fact_set (fun p => set_total_lamports l (set_pool_token_supply t p))); [done| |done].
  intros. by apply wf_set_amounts.
Qed.

Lemma fact_forget_preferred vote k p :
  pool_fact tracked p0 k p -> pool_fact tracked p0 k (forget_preferred vote p).
Proof.
  intros H. apply fact_set; [done | apply wf_forget_preferred|]. intros Hg. unfold forget_preferred.
  by repeat destruct (opt_key_eqb _ _).
Qed.

Lemma fact_no_deposit_preference k p :
  pool_fact tracked p0 k p -> pool_fact tracked p0 k (set_preferred_deposit_validator_vote_address None p).
Proof. intros H. apply fact_set; [done | intros Hw; wf_pool_set | done]. Qed.
Lemma fact_no_withdraw_preference k p :
  pool_fact tracked p0 k p -> pool_fact tracked p0 k (set_preferred_withdraw_validator_vote_address None p).
Proof. intros H. apply fact_set; [done | intros Hw; wf_pool_set | done]. Qed.

(** The announced fees are at most one, so are the fees that come into force. *)
Lemma advance_fee_fits f n f' n' :
  fee_le_one f -> next_fee_fits n -> advance_fee f n = (f', n') -> fee_le_one f' /\ next_fee_fits n'.
Proof. intros Hf Hn [= <- <-]. by destruct n. Qed.

Lemma good_advance_epoch e l t p : good_pool p0 p -> good_pool p0 (advance_epoch e l t p).
Proof.
  intros (Hv & Ha & Hf & He). unfold advance_epoch. destruct (Z.ltb_spec (last_update_epoch p) e) as [Hlt|]; [|done].
  destruct (advance_fee (epoch_fee p) _) as [f1 n1] eqn:E1.
  destruct (advance_fee (stake_withdrawal_fee _) _) as [f2 n2] eqn:E2.
  destruct (advance_fee (sol_withdrawal_fee _) _) as [f3 n3] eqn:E3.
  destruct Hf as (H1 & G1 & Hd & Hs & H2 & G2 & H3 & G3 & Hr).
  apply advance_fee_fits in E1 as [? ?]; [|assumption..]. apply advance_fee_fits in E2 as [? ?]; [|assumption..].
  apply advance_fee_fits in E3 as [? ?]; [|assumption..].
  split; [exact Hv|]. split; [exact Ha|]. split; [by repeat (split; [assumption|])|].
  unfold evolves in *. deex. repeat (split; [assumption|]). cbn. lia.
Qed.

Lemma fact_advance_epoch e total k p :
  pool_fact tracked p0 k p -> in_range 64 e -> in_range 64 total ->
  pool_fact tracked p0 k
    (set_total_lamports total (advance_epoch e (total_lamports p) (pool_token_supply p) p)).
Proof.
  intros H He Ht. apply (fact_set (fun p => set_total_lamports total
    (advance_epoch e (total_lamports p) (pool_token_supply p) p))); [done| |].
  - intros Hw. pose proof (wf_pool_amounts _ Hw) as [Hl Hn].
    pose proof (wf_advance_epoch e _ _ p Hw He Hl Hn) as Ha.
    set (q := advance_epoch _ _ _ p) in *. clearbody q. clear Hw H. change (wf u64 total) in Ht. wf_pool_set.
  - intros Hg. apply (good_advance_epoch e (total_lamports p) (pool_token_supply p)) in Hg.
    set (q := advance_epoch _ _ _ p) in *. exact Hg.
Qed.
Lemma fact_supply k p t :
  pool_fact tracked p0 k p -> in_range 64 t -> pool_fact tracked p0 k (set_pool_token_supply t p).
Proof.
  intros H Ht. apply fact_set; [done| |done]. intros Hw. change (wf u64 t) in Ht. clear H. wf_pool_set.
Qed.

(** A fee that is not too high. *)
Lemma fact_update_fee k p fee p' :
  pool_fact tracked p0 k p -> wf fee_type_codec fee -> check_too_high fee = Ok tt -> update_fee p fee = Ok p' ->
  pool_fact tracked p0 k p'.
Proof.
  intros H Hfee Hc Hu. destruct H as [Hw Hg]. unfold check_too_high in Hc. cbv zeta in Hc.
  destruct fee; cbn [wf fee_type_codec] in Hfee;
    match type of Hc with (if ?b then _ else _) = _ => destruct b eqn:Eb; [done|] end; apply Z.ltb_ge in Eb;
    unfold update_fee in Hu; try (apply obind_Ok in Hu as ([] & _ & Hu)); apply Ok_inj in Hu as <-;
    (split; [|intros E; destruct (Hg E) as (Hv & Ha & Hf & He); split; [exact Hv|]; split; [exact Ha|]; split;
       [|exact He]; clear -Hf Eb; unfold fees_ok in *; deex; repeat (split; [assumption|]); assumption]).
  all: clear Hg.
  all: try match goal with |- context [FutureEpoch_new ?x] =>
         assert (wf (future fee_codec) (FutureEpoch_new x)) by exact Hfee end.
  all: wf_pool_set.
Qed.
End Stored.

(** ** The handlers *)
Section Handlers.
Context `{RT : Runtime} `{!RuntimeLaws RT}.
Variable program_id : Pubkey.
Variable tracked : option Pubkey.
Variable p0 : StakePool.
Context `{!Lawful program_id tracked}.
(** The metadata program is another program, which matters when a pool is tracked. *)
Hypothesis not_metadata : forall k, tracked = Some k -> program_id <> mpl_id.
Abbreviation keeps := (keeps program_id tracked p0).
Abbreviation done_safely m := (keeps m (fun _ => True)).

Abbreviation keyed := (fun i => in_range 256 (key i)).

Lemma keeps_check_mpl k : keeps (check_mpl_metadata_program k) (fun _ => k = mpl_id).
Proof.
  unfold check_mpl_metadata_program. apply keeps_read_only; [apply _|].
  intros s a s' _ [E%negb_false_iff _]%fail_if_Ok. by apply key_eqb_eq.
Qed.
Lemma foreign_create k a b c d e n sy u :
  k = mpl_id -> Foreign program_id tracked (create_metadata_accounts_v3 k a b c d e n sy u).
Proof. intros -> key p x y E [= <- _ _] E'. by apply (not_metadata key E). Qed.
Lemma foreign_update k a b c d e f :
  k = mpl_id -> Foreign program_id tracked (update_metadata_accounts_v2 k a b c d e f).
Proof. intros -> key p x y E [= <- _ _] E'. by apply (not_metadata key E). Qed.
#[local] Hint Extern 2 (Foreign _ _ _) => (first [apply foreign_create | apply foreign_update]; assumption) : typeclass_instances.

Lemma keeps_credit_pool k p n t :
  pool_fact tracked p0 k p -> keeps (credit_pool p n t) (pool_fact tracked p0 k).
Proof.
  intros H. unfold credit_pool. eapply keeps_bind; [apply keeps_get_or|]. intros a Ha. cbv zeta.
  eapply keeps_bind; [apply keeps_get_or|]. intros b Hb. cbv beta in *. checked_inv. apply keeps_ret. by apply fact_amounts.
Qed.
Lemma keeps_debit_pool k p n t :
  pool_fact tracked p0 k p -> keeps (debit_pool p n t) (pool_fact tracked p0 k).
Proof.
  intros H. unfold debit_pool. eapply keeps_bind; [apply keeps_get_or|]. intros a Ha. cbv zeta.
  eapply keeps_bind; [apply keeps_get_or|]. intros b Hb. cbv beta in *. checked_inv. apply keeps_ret. by apply fact_amounts.
Qed.

Lemma keeps_withdraw_amount k p sf vote src t :
  pool_fact tracked p0 k p -> keeps (withdraw_amount p sf vote src t) (fun r => pool_fact tracked p0 k (snd r)).
Proof.
  intros H. unfold withdraw_amount. apply keeps_bind_safe; [apply _|]. intros n. cbv zeta.
  destruct src; (apply keeps_bind_safe; [apply _|]); intros u; apply keeps_ret; try exact H.
  by apply fact_forget_preferred.
Qed.
Lemma keeps_choose_source k p k' li sf st m t :
  pool_fact tracked p0 k p ->
  keeps (choose_source program_id p k' li sf st m t) (fun r => pool_fact tracked p0 k (snd r)).
Proof.
  intros H. unfold choose_source. destruct (key_eqb _ _).
  { apply keeps_bind_safe; [apply _|]. intros u. by apply keeps_ret. }
  do 3 (apply keeps_bind_safe; [apply _|]; intros ?). apply keeps_bind_safe; [apply _|]. intros [off v].
  do 2 (apply keeps_bind_safe; [apply _|]; intros ?). eapply keeps_bind; [by apply keeps_withdraw_amount|].
  intros [n q] Hq. by apply keeps_ret.
Qed.

Lemma keeps_reserve_total i : keeps (reserve_total i) (in_range 64).
Proof. by intros s a s' Hs (-> & _ & _ & _ & H)%reserve_total_Ok. Qed.
Lemma keeps_sum e xs n : in_range 64 n -> keeps (mfold (add_record e) xs n) (in_range 64).
Proof.
  intros Hn s a s' Hs H. pose proof (sum_records_Ok _ _ _ _ _ _ H Hn) as (-> & _ & Ha & _). done.
Qed.

(** [walk]: one bind of a handler, with the fact its first computation gives. *)
Ltac walk :=
  cbv beta zeta;
  lazymatch goal with
  | |- Keeps.keeps _ _ _ (mbind (next_account_info _) _) _ =>
      first
        [ eapply keeps_bind; [apply (keeps_next program_id tracked p0 keyed); eassumption|];
          let i := fresh "i" in let it := fresh "it" in intros [i it] [? ?]; cbn [fst snd] in *
        | apply keeps_bind_safe; [apply _|]; let a := fresh "a" in intros a ]
  | |- Keeps.keeps _ _ _ (mbind (load_stake_pool _ _) _) _ =>
      eapply keeps_bind; [apply keeps_load_stake_pool; apply _|];
      let p := fresh "p" in let H := fresh "Hp" in intros p H
  | |- Keeps.keeps _ _ _ (mbind (load_validator_list _ _) _) _ =>
      eapply keeps_bind; [apply keeps_load_validator_list; apply _|];
      let h := fresh "h" in let H := fresh "Hu" in intros h H; cbv beta in H
  | |- Keeps.keeps _ _ _ (mbind (borrow_data _) _) _ =>
      eapply keeps_bind; [apply keeps_borrow_data|];
      let d := fresh "d" in let H := fresh "Hd" in intros d H
  | |- Keeps.keeps _ _ _ (mbind (held_data _) _) _ =>
      eapply keeps_bind; [apply keeps_held_data|];
      let d := fresh "d" in let H := fresh "Hd" in intros d H
  | |- Keeps.keeps _ _ _ (mbind (try_borrow_data _) _) _ =>
      eapply keeps_bind; [apply keeps_try_borrow_data|];
      let d := fresh "d" in let H := fresh "Hd" in intros d H
  | |- Keeps.keeps _ _ _ (mbind (lift _) _) _ =>
      eapply keeps_bind; [apply keeps_lift|];
      let a := fresh "a" in let H := fresh "E" in intros a H; cbv beta in H;
      try match type of H with
      | try_from_slice_unchecked stake_pool_codec ?d = Ok _ =>
          match goal with D : data_fact _ _ _ d |- _ =>
            let H' := fresh "Hp" in pose proof (data_fact_pool _ _ _ _ _ D H) as H' end
      end
  | |- Keeps.keeps _ _ _ (mbind (fail_if_sp _ _) _) _ =>
      eapply keeps_bind; [apply keeps_fail_if_sp|];
      let u := fresh "u" in let H := fresh "C" in intros u H; cbv beta in H; clear u
  | |- Keeps.keeps _ _ _ (mbind (check_mpl_metadata_program _) _) _ =>
      eapply keeps_bind; [apply keeps_check_mpl|]; let u := fresh "u" in let H := fresh "E" in intros u H;
      cbv beta in H; clear u
  | Hp : pool_fact _ _ ?k ?p |- Keeps.keeps _ _ _ (mbind (credit_pool ?p _ _) _) _ =>
      eapply keeps_bind; [apply (keeps_credit_pool k); exact Hp|];
      let q := fresh "p" in let H := fresh "Hp" in intros q H; cbv beta in H; clear Hp
  | Hp : pool_fact _ _ ?k ?p |- Keeps.keeps _ _ _ (mbind (debit_pool ?p _ _) _) _ =>
      eapply keeps_bind; [apply (keeps_debit_pool k); exact Hp|];
      let q := fresh "p" in let H := fresh "Hp" in intros q H; cbv beta in H; clear Hp
  | Hp : pool_fact _ _ ?k ?p |- Keeps.keeps _ _ _ (mbind (choose_source _ ?p _ _ _ _ _ _) _) _ =>
      eapply keeps_bind; [apply (keeps_choose_source k); exact Hp|];
      let q := fresh "p" in let H := fresh "Hp" in intros [[? ?] q] H; cbv beta in H; cbn [snd] in H; clear Hp
  | |- Keeps.keeps _ _ _ (mbind (reserve_total _) _) _ =>
      eapply keeps_bind; [apply keeps_reserve_total|]; let n := fresh "n" in let H := fresh "Hn" in intros n H
  | Hn : in_range 64 ?n |- Keeps.keeps _ _ _ (mbind (mfold (add_record _) _ ?n) _) _ =>
      eapply keeps_bind; [apply keeps_sum; exact Hn|];
      let n := fresh "n" in let H := fresh "Hn" in intros n H
  | |- Keeps.keeps _ _ _ (mbind (write_data stake_pool_codec _ _) _) _ =>
      eapply keeps_bind; [apply keeps_write_pool; assumption | intros ? _]
  | |- Keeps.keeps _ _ _ (mbind (get_or _ _) _) _ =>
      eapply keeps_bind; [apply keeps_get_or|]; let a := fresh "a" in let H := fresh "E" in intros a H;
      cbv beta in H
  | |- Keeps.keeps _ _ _ (mbind _ _) _ =>
      apply keeps_bind_safe; [apply _|];
      let a := fresh "a" in intros a
  | |- Keeps.keeps _ _ _ (let '(a, b) := ?x in _) _ => destruct x eqn:?
  | |- Keeps.keeps _ _ _ (match ?x with _ => _ end) _ => destruct x eqn:?
  end.
Ltac leaf := first [ apply keeps_safe; apply _ | apply keeps_write_pool ].

(** [list_here]: the header read was valid, so this is not the tracked pool. *)
Ltac list_here :=
  match goal with
  | D : data_fact _ _ ?k ?d, E : deserialize_vec ?d = Ok (_, _), C : negb (header_is_valid _) = false |- _ =>
      apply negb_false_iff in C; pose proof (list_untracked _ _ _ _ _ _ D E C)
  end.

(** Moving stake and metadata write neither the pool nor more than the list. *)
Lemma keeps_decrease accounts n seed eph fund :
  done_safely (process_decrease_validator_stake program_id accounts n seed eph fund).
Proof. unfold process_decrease_validator_stake. repeat walk; leaf. Qed.
Lemma keeps_increase accounts n seed eph :
  done_safely (process_increase_validator_stake program_id accounts n seed eph).
Proof. unfold process_increase_validator_stake. repeat walk; leaf. Qed.
Lemma keeps_add_validator accounts seed : done_safely (process_add_validator_to_pool program_id accounts seed).
Proof. unfold process_add_validator_to_pool. repeat walk; leaf. Qed.
Lemma keeps_remove_validator accounts : done_safely (process_remove_validator_from_pool program_id accounts).
Proof. unfold process_remove_validator_from_pool. repeat walk; leaf. by apply fact_forget_preferred. Qed.
Lemma keeps_update_list accounts n b :
  done_safely (process_update_validator_list_balance program_id accounts n b).
Proof. unfold process_update_validator_list_balance. repeat walk. list_here. leaf. Qed.
Lemma keeps_create_metadata accounts n sy u :
  done_safely (process_create_pool_token_metadata program_id accounts n sy u).
Proof. unfold process_create_pool_token_metadata. repeat walk; leaf. Qed.
Lemma keeps_update_metadata accounts n sy u :
  done_safely (process_update_pool_token_metadata program_id accounts n sy u).
Proof. unfold process_update_pool_token_metadata. repeat walk; leaf. Qed.

(** Deposits and withdrawals. *)
Lemma keeps_deposit_sol accounts n m : done_safely (process_deposit_sol program_id accounts n m).
Proof. unfold process_deposit_sol. repeat walk; leaf. done. Qed.
Lemma keeps_withdraw_sol accounts n m : done_safely (process_withdraw_sol program_id accounts n m).
Proof. unfold process_withdraw_sol. repeat walk; leaf. done. Qed.
Lemma keeps_deposit_stake accounts m : done_safely (process_deposit_stake program_id accounts m).
Proof. unfold process_deposit_stake. repeat walk; leaf. Qed.
Lemma keeps_withdraw_stake accounts n m : done_safely (process_withdraw_stake program_id accounts n m).
Proof. unfold process_withdraw_stake. repeat walk; leaf. Qed.

(** Refreshing the pool. *)
#[local] Instance safe_epoch_fee_tokens p i n : Safe program_id tracked p0 (epoch_fee_tokens p i n).
Proof. unfold epoch_fee_tokens. apply _. Qed.

Lemma keeps_update_pool accounts : done_safely (process_update_stake_pool_balance program_id accounts).
Proof.
  unfold process_update_stake_pool_balance. repeat walk. leaf. apply fact_supply.
  - apply fact_advance_epoch; [done | by eapply clock_types | done].
  - match goal with D : data_fact _ _ _ ?d, E : unpack_mint ?d = Ok _ |- _ => by apply (mint_types d _ (proj1 D)) end.
Qed.

(** A stale preference is reset, any other kept. *)
Lemma keeps_reset k li o (f : StakePool -> StakePool) p :
  pool_fact tracked p0 k p -> pool_fact tracked p0 k (f p) ->
  keeps (match o with
         | Some preferred => let! stale := preferred_is_stale li preferred in mret (if stale then f p else p)
         | None => mret p
         end) (pool_fact tracked p0 k).
Proof.
  intros Hp Hf. destruct o as [vote|]; [|by apply keeps_ret].
  apply keeps_bind_safe; [unfold preferred_is_stale; apply _|]. intros []; by apply keeps_ret.
Qed.

Lemma keeps_cleanup accounts : done_safely (process_cleanup_removed_validator_entries program_id accounts).
Proof.
  unfold process_cleanup_removed_validator_entries. do 8 walk. unfold mwhen. walk; [|leaf]. do 2 walk.
  eapply keeps_bind.
  { eapply (keeps_reset _ _ _ (set_preferred_deposit_validator_vote_address None)); [eassumption|].
    by apply fact_no_deposit_preference. }
  intros q Hq. eapply keeps_bind.
  { eapply (keeps_reset _ _ _ (set_preferred_withdraw_validator_vote_address None)); [eassumption|].
    by apply fact_no_withdraw_preference. }
  intros q' Hq'. by leaf.
Qed.

(** Settings. *)
(** [stored]: the pool that is written is the one read with fields of their types. *)
Ltac stored :=
  match goal with H : pool_fact _ _ ?k ?p |- pool_fact _ _ ?k _ =>
    destruct H as [? ?]; split; [wf_pool_set | assumption]
  end.
Lemma keeps_set_manager accounts : Forall keyed accounts -> done_safely (process_set_manager program_id accounts).
Proof. intros Hk. unfold process_set_manager. repeat walk. leaf. stored. Qed.
Lemma keeps_set_fee accounts fee : wf fee_type_codec fee -> done_safely (process_set_fee program_id accounts fee).
Proof.
  intros Hk. unfold process_set_fee. repeat walk. leaf. eapply fact_update_fee; try eassumption.
  by match goal with E : check_too_high _ = Ok ?u |- _ => destruct u end.
Qed.
Lemma keeps_set_max accounts m : wf (opt u64) m -> done_safely (process_set_max_validator_stake program_id accounts m).
Proof. intros Hm. unfold process_set_max_validator_stake. repeat walk. leaf. stored. Qed.
Lemma keeps_set_staker accounts : Forall keyed accounts -> done_safely (process_set_staker program_id accounts).
Proof. intros Hk. unfold process_set_staker. repeat walk. leaf. stored. Qed.
Lemma wf_head_key it : Forall keyed it -> wf (opt pubkey) (option_map key (head it)).
Proof. by intros []. Qed.
Lemma keeps_set_funding accounts t :
  Forall keyed accounts -> done_safely (process_set_funding_authority program_id accounts t).
Proof.
  intros Hk. unfold process_set_funding_authority. repeat walk. leaf.
  match goal with H : Forall _ ?l |- context [head ?l] => pose proof (wf_head_key l H) as Ho end.
  destruct t; try stored.
  assert (Hd : wf pubkey (default (fst (find_deposit_authority_program_address program_id (key i)))
    (option_map key (head it0)))).
  { destruct (option_map key (head it0)); [exact Ho | apply pda_types]. }
  stored.
Qed.
Lemma keeps_set_preferred accounts t vote :
  wf (opt pubkey) vote -> done_safely (process_set_preferred_validator program_id accounts t vote).
Proof.
  intros Hv. unfold process_set_preferred_validator. repeat walk. leaf. destruct t; stored.
Qed.

(** A new pool and its list take accounts that hold no pool. *)
Lemma keeps_check_new_list i n : keeps (check_new_list program_id i n) (fun _ => Untracked tracked (key i)).
Proof.
  unfold check_new_list. do 4 walk. apply negb_false_iff in C.
  assert (Hu : Untracked tracked (key i)) by (eapply new_list_untracked; eassumption).
  apply (keeps_weaken _ _ _ _ (fun _ => True)); [|done]. apply keeps_safe. apply _.
Qed.
Lemma keeps_new_reserve i k : keeps (new_reserve_lamports i k) (in_range 64).
Proof. intros s a s' Hs H. by apply new_reserve_lamports_Ok in H as (-> & _ & _ & _ & _ & _ & H). Qed.

Lemma keeps_initialize accounts ef wf_ df rf n :
  Forall keyed accounts -> wf fee_codec ef -> wf fee_codec wf_ -> wf fee_codec df -> wf u8 rf -> wf u32 n ->
  done_safely (process_initialize program_id accounts ef wf_ df rf n).
Proof.
  intros Hk Hef Hwf Hdf Hrf Hn. unfold process_initialize. do 16 walk.
  eapply keeps_bind; [apply keeps_check_new_list|]. intros u Hu. cbv beta in Hu. do 6 walk.
  lazymatch goal with |- context [match ?l with [] => _ | _ :: _ => _ end] =>
    match goal with K : Forall _ l |- _ => pose proof K as Kl end end.
  walk. rename p into dep, o into sol.
  pose proof (deposit_authorities_types _ _ _ _ _ Heqp Kl) as [Hdep Hsol]. walk.
  pose proof (withdraw_bump_type _ _ _ _ ltac:(eassumption)) as Hb.
  do 3 walk. eapply keeps_bind; [apply keeps_new_reserve|]. intros total Ht. walk.
  apply keeps_bind_safe; [apply safe_write_list; [exact Hu|]|].
  { split; [split; [exact I | exact Hn] | split; [constructor | by vm_compute]]. }
  intros ?. walk. leaf.
  match goal with E : Clock_get = Ok ?c |- _ => pose proof (clock_types _ E) as Hc end.
  match goal with C : negb (StakePool_is_uninitialized ?q) = false |- _ => apply negb_false_iff in C;
    pose proof (new_pool_untracked _ _ _ _ Hp C) as Hup; destruct Hp as [Hw _] end.
  split; [|by intros E'%Hup].
  apply wf_initialized_pool; try assumption; try (by split).
  - wf_pool_set.
  - rewrite !List.Forall_cons_iff. by repeat (split; [assumption|]).
Qed.

(** ** Every instruction *)
Create HintDb handlers discriminated.
#[local] Hint Constants Opaque : handlers.
#[local] Hint Resolve keeps_initialize keeps_decrease keeps_increase keeps_add_validator keeps_remove_validator
  keeps_update_list keeps_create_metadata keeps_update_metadata keeps_deposit_sol keeps_withdraw_sol
  keeps_deposit_stake keeps_withdraw_stake keeps_update_pool keeps_cleanup keeps_set_manager keeps_set_fee
  keeps_set_max keeps_set_staker keeps_set_funding keeps_set_preferred : handlers.
Lemma keeps_run accounts i :
  Forall keyed accounts -> wf_instruction i -> done_safely (run_instruction program_id accounts i).
Proof.
  intros Hk Hi. destruct i; cbn [run_instruction wf_instruction] in *; deex.
  all: first [by auto with handlers | apply keeps_safe; apply _].
Qed.

Lemma keeps_process accounts input :
  Forall keyed accounts -> bytes input -> done_safely (process program_id accounts input).
Proof.
  intros Hk Hb. unfold process. eapply keeps_bind; [apply keeps_lift|]. intros i Hi. cbv beta in Hi.
  apply keeps_run; [done|]. unfold instruction_of in Hi. apply ok_or_Ok in Hi.
  by apply (dec_all_Some instruction_codec) in Hi as [_ Hi].
Qed.
End Handlers.

(** ** The life of a pool *)
Section Life.
Context `{RT : Runtime} `{!RuntimeLaws RT}.
Variable program_id : Pubkey.
Abbreviation keyed := (fun i => in_range 256 (key i)).

(** One step of the chain as the program sees it: a call of the program that succeeds
    (a call that fails leaves the ledger as it was), or anything else, which may change
    every account but the program's own. *)
Inductive step : Ledger -> Ledger -> Prop :=
| StepCall accounts input l s' :
    Forall keyed accounts -> bytes input ->
    process program_id accounts input (mkRState l [] []) = Ok (tt, s') -> step l (ledger s')
| StepElsewhere l l' :
    (wf_ledger l -> wf_ledger l') ->
    (forall k, acc_owner (account_at l k) = program_id ->
       acc_owner (account_at l' k) = program_id /\ acc_data (account_at l' k) = acc_data (account_at l k)) ->
    step l l'.

(** A valid pool of the program whose fees are at most one. *)
Definition sound_pool (l : Ledger) (k : Pubkey) (p : StakePool) : Prop :=
  pool_at program_id l k p /\ version p = 1 /\ fees_ok p.

Lemma evolves_refl p : evolves p p.
Proof. unfold evolves. repeat (split; [reflexivity|]). lia. Qed.
Lemma evolves_trans p q r : evolves p q -> evolves q r -> evolves p r.
Proof. unfold evolves. intros. deex. repeat (split; [congruence|]). lia. Qed.

Lemma sound_kept l k p : sound_pool l k p -> pool_kept program_id l k p.
Proof.
  intros ((Ho & Hp & Hv) & Hver & Hf). split; [done|]. exists p. split; [done|].
  split; [done|]. split; [unfold StakePool_is_valid in Hv; by destruct (account_type p)|]. split; [done | apply evolves_refl].
Qed.
Lemma kept_sound l k p0 : pool_kept program_id l k p0 -> exists p, sound_pool l k p /\ evolves p0 p.
Proof.
  intros (Ho & p & Hp & Hver & Ht & Hf & He). exists p. split; [|done].
  split; [|done]. split; [done|]. split; [done|]. unfold StakePool_is_valid. by rewrite Ht.
Qed.

(** An account of the program that another program's run leaves with the program. *)
Lemma owner_after_mint `{!ProgramLaws RT program_id} b k tp mi fi au ty bump n s u s' (a : Pubkey) :
  mwhen b (token_mint_to k tp mi fi au ty bump n) s = Ok (u, s') ->
  acc_owner (account_at (ledger s) a) = program_id -> acc_owner (account_at (ledger s') a) = program_id.
Proof.
  unfold mwhen. destruct b; [|by intros [_ ->]%mret_Ok]. intros (l & Hl & ->)%invoke_signed_Ok Ho. cbn [ledger].
  by apply (own_accounts _ _ _ _ _ _ a Hl).
Qed.

(** A new pool is sound. *)
Lemma initialize_sound `{!ProgramLaws RT program_id} accounts ef wf_ df rf n s u s' :
  process_initialize program_id accounts ef wf_ df rf n s = Ok (u, s') -> wf_ledger (ledger s) ->
  wf fee_codec ef -> wf fee_codec wf_ -> wf fee_codec df -> wf u8 rf -> Forall keyed accounts ->
  exists info p, head accounts = Some info /\ sound_pool (ledger s') (key info) p.
Proof.
  intros H Hw Hef Hwf Hdf Hrf Hk. unfold process_initialize in H. do 17 mopen H.
  do 6 mopen H. cbv zeta in H. check_facts.
  match type of H with (let '(_, _) := ?e in _) _ = _ => destruct e as [dep sol] eqn:Edep end.
  destruct (find_withdraw_authority_program_address _ _) as [wk bump] eqn:Ewk. do 3 mopen H.
  apply mbind_Ok in H as (total & sx & Hre & H).
  apply new_reserve_lamports_Ok in Hre as (-> & _ & _ & _ & _ & _ & Ht).
  apply mbind_Ok in H as (u1 & s1 & Hmint & H).
  pose proof (owner_after_mint _ _ _ _ _ _ _ _ _ _ _ _ (key a) Hmint ltac:(assumption)) as Ho. clear Hmint.
  mopen H. mopen H. minv_leaf H. exists a. eexists. split; [reflexivity|].
  match goal with W : to_writer stake_pool_codec ?q _ = Ok ?d |- _ => set (p := q) in *; rename W into Wd end.
  assert (Hp : wf stake_pool_codec p).
  { assert (H9 : wf stake_pool_codec a9).
    { exact (try_from_slice_unchecked_wf _ _ _ (proj2 (wf_ledger_at _ (key a) Hw)) E4). }
    rewrite !List.Forall_cons_iff in Hk. destruct Hk as (? & ? & ? & ? & ? & ? & ? & ? & ? & Hl).
    pose proof (deposit_authorities_types _ _ _ _ _ Edep Hl) as [? ?].
    pose proof (withdraw_bump_type _ _ _ _ Ewk). pose proof (clock_types _ E16).
    apply (wf_initialized_pool a9); try assumption; try (by split).
    rewrite !List.Forall_cons_iff. by repeat (split; [assumption|]). }
  pose proof (initial_fees_ok _ _ _ _ E9) as (F1 & F2 & F3 & F4).
  split; [split; [|split; [by apply stored_after_write | reflexivity]] | split; [reflexivity|]].
  - rewrite set_data_at. cbn [acc_owner]. rewrite set_data_at_ne; [done|].
    intros E'. by rewrite E', key_eqb_refl in E1.
  - by repeat (split; [first [assumption | exact I]|]).
Qed.

Lemma process_types accounts input s u s' :
  process program_id accounts input s = Ok (u, s') ->
  Forall keyed accounts -> bytes input -> wf_ledger (ledger s) -> wf_ledger (ledger s').
Proof.
  intros H Hk Hb Hw.
  destruct (keeps_process program_id None StakePool_default ltac:(done) accounts input Hk Hb s u s') as [[? _] _];
    [by split | exact H | done].
Qed.

Lemma step_keeps `{!ProgramLaws RT program_id} l l' k p :
  program_id <> mpl_id -> step l l' -> wf_ledger l -> sound_pool l k p ->
  wf_ledger l' /\ exists p', sound_pool l' k p' /\ evolves p p'.
Proof.
  intros Hm Hs Hw Hp%sound_kept. destruct Hs as [accounts input l s' Hk Hb H | l l' Hw' Hown].
  - destruct (keeps_process program_id (Some k) p ltac:(done) accounts input Hk Hb
      (mkRState l [] []) tt s') as [[Hw' Hp'] _]; [|exact H|].
    { split; [exact Hw|]. by intros k' [= <-]. }
    split; [exact Hw'|]. by apply kept_sound, Hp'.
  - split; [by apply Hw'|]. apply kept_sound. destruct Hp as (Ho & q & Hq & Hg).
    destruct (Hown k Ho) as [Ho' Hd']. split; [done|]. exists q. by rewrite Hd'.
Qed.

(** C1: a pool is sound for life. A successful [Initialize] makes its first account a
    sound pool: a valid pool of the program at version 1 whose fees, in force and
    announced, are at most one and whose referral shares are at most 100 percent. A
    sound pool stays one through any sequence of calls of the program and of
    whatever else happens to the ledger in between, with the same list, reserve,
    mint, token program, lockup and bump seed, and with an epoch that never goes back. *)
Theorem pool_sound_for_life `{!ProgramLaws RT program_id} :
  program_id <> mpl_id ->
  (forall accounts ef wf_ df rf n l u s',
     process_initialize program_id accounts ef wf_ df rf n (mkRState l [] []) = Ok (u, s') -> wf_ledger l ->
     wf fee_codec ef -> wf fee_codec wf_ -> wf fee_codec df -> wf u8 rf -> Forall keyed accounts ->
     exists info p, head accounts = Some info /\ sound_pool (ledger s') (key info) p) /\
  (forall l l' k p,
     rtc step l l' -> wf_ledger l -> sound_pool l k p -> exists p', sound_pool l' k p' /\ evolves p p').
Proof.
  intros Hm. split.
  { intros accounts ef wf_ df rf n l u s' H Hw. by apply (initialize_sound _ _ _ _ _ _ _ _ _ H). }
  intros l l' k p Hr. revert p. induction Hr as [l | l l1 l' Hs Hr IH]; intros p Hw Hp.
  { exists p. split; [done | apply evolves_refl]. }
  destruct (step_keeps _ _ _ _ Hm Hs Hw Hp) as (Hw1 & p1 & Hp1 & He1).
  destruct (IH p1 Hw1 Hp1) as (p2 & Hp2 & He2). exists p2. split; [done | by eapply evolves_trans].
Qed.
End Life.

(** ** At the concrete runtime *)
#[export] Instance toy_program_laws : ProgramLaws toy toy_program.
Proof.
  split. intros held ix infos sg l l' k H _ Ho. cbn [cpi_exec toy] in H. unfold toy_exec in H.
  destruct (existsb _ _) in H; [done|]. destruct (existsb _ _) eqn:E in H; [done|]. destruct (negb _) in H; [done|].
  apply toy_effect_touches in H as [H _]. unfold account_at in *. rewrite H; [done|].
  intros Hin. apply not_true_iff_false in E. apply E. apply existsb_exists. exists k. split; [done|].
  apply key_eqb_eq. unfold toy_account. destruct (l !! k); [done|]. discriminate Ho.
Qed.

(** The bytes of a [SetFundingAuthority] and of a [DepositSol] sent to the concrete pool. *)
Definition toy_funding_input : list Z := [15; 1].
Definition toy_funding_run : outcome (unit * RState) :=
  process (RT := toy) toy_program toy_admin_accounts toy_funding_input (mkRState (ledger toy_state) [] []).

(** The concrete pool, a call of its manager, and lamports sent to a stranger after it. *)
Definition toy_after_funding : Ledger := ledger (final toy_state toy_funding_run).
Definition toy_later : Ledger := <[99 := mkAccount 5 [1] toy_system]> toy_after_funding.

Lemma toy_life : rtc (step (RT := toy) toy_program) (ledger toy_state) toy_later.
Proof.
  assert (H : is_ok toy_funding_run = true) by (vm_compute; reflexivity).
  apply (rtc_l _ _ toy_after_funding).
  - apply (StepCall (RT := toy) toy_program toy_admin_accounts toy_funding_input (ledger toy_state)
      (final toy_state toy_funding_run)); [| |exact (ran toy_state toy_funding_run H)].
    + apply toy_keys. vm_compute. reflexivity.
    + apply bytesb_bytes. vm_compute. reflexivity.
  - apply rtc_once, StepElsewhere.
    + intros Hw k a. unfold toy_later. destruct (decide (99 = k)) as [<-|Hne].
      * rewrite lookup_insert_eq. intros [= <-]. split; [unfold in_range; simpl; lia | by repeat constructor].
      * rewrite lookup_insert_ne by done. apply Hw.
    + assert (H99 : key_eqb (acc_owner (account_at (RT := toy) toy_after_funding 99)) toy_program = false)
        by (vm_compute; reflexivity).
      intros k Ho. destruct (decide (k = 99)) as [->|Hne]; [exfalso; rewrite Ho, key_eqb_refl in H99; discriminate H99|].
      unfold toy_later, account_at in *. rewrite lookup_insert_ne by auto. exact (conj Ho eq_refl).
Qed.

Lemma toy_pool_sound : sound_pool (RT := toy) toy_program (ledger toy_state) toy_pool_key toy_pool.
Proof.
  split; [split; [|split]; vm_compute; reflexivity|]. split; [reflexivity|].
  unfold fees_ok, next_fee_fits, fee_le_one, toy_pool. simpl. lia.
Qed.

Lemma pool_sound_for_life_witness :
  toy_program <> mpl_id /\
  exists p', sound_pool (RT := toy) toy_program toy_later toy_pool_key p' /\ evolves toy_pool p'.
Proof.
  split; [discriminate|].
  exact (proj2 (pool_sound_for_life (RT := toy) toy_program ltac:(discriminate)) _ _ _ _
           toy_life toy_state_wf toy_pool_sound).
Defined.
