(* ===== verification/Books.v ===== *)
(** * The books of a pool
    The lamports behind the shares: [assets] adds up the accounts a pool holds, and
    every call for the pool changes its recorded total by no more than it changes
    them. The class [LamportLaws] states which lamports an invocation moves. *)
From S2P Require Import Prelude Error Fees State Borsh Layout BigVec Entries PoolMath Runtime Checks Concrete Admin Funds ListAccess DepositStake WithdrawStake Validators Rebalance UpdateList UpdatePool Initialize Metadata Instruction Processor Keeps Invariants.

(** ** Lamports that invocations move *)
Definition lamports_at `{RT : Runtime} (l : Ledger) (k : Pubkey) : Z := acc_lamports (account_at l k).

(** [Some (from, to, n)]: [n] lamports leave [from] for [to]; [None]: none move. *)
Definition transfer_of `{RT : Runtime} (ix : Cpi) (l : Ledger) : option (Pubkey * Pubkey * Z) :=
  match ix with
  | SystemTransfer from to n | StakeSplit from _ n to | StakeWithdraw from _ to n => Some (from, to, n)
  | StakeMerge destination source _ => Some (source, destination, lamports_at l source)
  | _ => None
  end.

Definition at_key (a k : Pubkey) (n : Z) : Z := if key_eqb a k then n else 0.
Definition is_raw (ix : Cpi) : bool := match ix with RawInstruction _ _ _ => true | _ => false end.

(** The system and the stake program move the lamports their instructions name and no
    others, a merge all of its source; the token programs move none. The rent recorded
    in a stake account is unsigned. *)
Class LamportLaws (RT : Runtime) : Prop := {
  cpi_lamports held ix infos sg (l l' : Ledger) k :
    cpi_exec held ix infos sg l = Ok l' -> is_raw ix = false ->
    lamports_at l' k = lamports_at l k +
      match transfer_of ix l with Some (a, b, n) => at_key b k n - at_key a k n | None => 0 end;
  meta_types d st m :
    bytes d -> unpack_stake_state d = Ok st -> state_meta st = Some m -> 0 <= rent_exempt_reserve m
}.

(** ** Sums over accounts *)
Definition zsum (f : Pubkey -> Z) (ks : list Pubkey) : Z := foldr (fun k n => f k + n) 0 ks.

Lemma zsum_cons f x xs : zsum f (x :: xs) = f x + zsum f xs.
Proof. done. Qed.
Lemma zsum_app f xs ys : zsum f (xs ++ ys) = zsum f xs + zsum f ys.
Proof. induction xs as [|x xs IH]; cbn [app]; [done|]. rewrite !zsum_cons. lia. Qed.
Lemma zsum_perm f xs ys : xs ≡ₚ ys -> zsum f xs = zsum f ys.
Proof. induction 1; rewrite ?zsum_cons; lia. Qed.
Lemma zsum_plus f g h xs : (forall k, f k = g k + h k) -> zsum f xs = zsum g xs + zsum h xs.
Proof. intros H. induction xs as [|x xs IH]; [done|]. rewrite !zsum_cons, H. lia. Qed.
Lemma zsum_le f g xs : (forall k, k ∈ xs -> f k <= g k) -> zsum f xs <= zsum g xs.
Proof.
  induction xs as [|x xs IH]; intros H; [done|]. rewrite !zsum_cons.
  pose proof (H x ltac:(set_solver)). specialize (IH ltac:(set_solver)). lia.
Qed.
Lemma zsum_zero f xs : (forall k, k ∈ xs -> f k = 0) -> zsum f xs = 0.
Proof.
  induction xs as [|x xs IH]; intros H; [done|]. rewrite zsum_cons, (H x), IH by set_solver. done.
Qed.
Lemma zsum_at a n xs : NoDup xs -> a ∈ xs -> zsum (fun k => at_key a k n) xs = n.
Proof.
  intros Hnd Ha. apply list_elem_of_split in Ha as (ys & zs & ->).
  apply list.NoDup_app in Hnd as (_ & Hy & Hz). apply list.NoDup_cons in Hz as [Hz _].
  rewrite zsum_app, zsum_cons.
  assert (H0 : forall k, k <> a -> at_key a k n = 0).
  { intros k Hk. unfold at_key. destruct (key_eqb a k) eqn:E; [|done]. apply key_eqb_eq in E. congruence. }
  rewrite !zsum_zero; [unfold at_key; rewrite key_eqb_refl; lia | |].
  - intros k Hk. apply H0. by intros ->.
  - intros k Hk. apply H0. intros ->. apply (Hy a Hk). by left.
Qed.

(** ** What a pool holds *)
Section Assets.
Context `{RT : Runtime}.
(** The accounts held for the pool. *)
Variable held : Pubkey -> bool.

Definition share (k : Pubkey) (n : Z) : Z := if held k then n else 0.
Definition assets (l : Ledger) : Z := zsum (fun k => share k (lamports_at l k)) (elements (dom l)).

Lemma assets_over l (D : gset Pubkey) :
  dom l ⊆ D -> assets l = zsum (fun k => share k (lamports_at l k)) (elements D).
Proof.
  intros HD. unfold assets. set (f := fun k => share k _).
  rewrite (union_difference_L (dom l) D HD).
  rewrite (zsum_perm f (elements (dom l ∪ D ∖ dom l)) (elements (dom l) ++ elements (D ∖ dom l))).
  2:{ apply elements_disj_union. set_solver. }
  rewrite zsum_app, (zsum_zero f (elements (D ∖ dom l))); [lia|].
  intros k Hk. apply elem_of_elements, elem_of_difference in Hk as [_ Hk]. apply not_elem_of_dom in Hk.
  unfold f, share, lamports_at, account_at. rewrite Hk. by destruct (held k).
Qed.

(** Two ledgers whose accounts differ by amounts at two places. *)
Lemma assets_move l l' a b n :
  (forall k, lamports_at l' k = lamports_at l k + (at_key b k n - at_key a k n)) ->
  assets l' = assets l + share b n - share a n.
Proof.
  intros H. set (D := dom l ∪ dom l' ∪ {[a; b]}).
  rewrite (assets_over l D), (assets_over l' D) by set_solver.
  rewrite (zsum_plus _ (fun k => share k (lamports_at l k))
    (fun k => at_key b k (share b n) + at_key a k (- share a n))).
  2:{ intros k. rewrite H. unfold share, at_key.
      destruct (key_eqb b k) eqn:Eb; destruct (key_eqb a k) eqn:Ea;
        try apply key_eqb_eq in Eb; try apply key_eqb_eq in Ea; subst; destruct (held k); lia. }
  rewrite (zsum_plus (fun k => at_key b k (share b n) + at_key a k (- share a n))
    (fun k => at_key b k (share b n)) (fun k => at_key a k (- share a n))) by done.
  rewrite !zsum_at by (try apply NoDup_elements; apply elem_of_elements; set_solver). lia.
Qed.

Lemma assets_same l l' : (forall k, lamports_at l' k = lamports_at l k) -> assets l' = assets l.
Proof.
  intros H. rewrite (assets_move l l' 0 0 0); [lia|]. intros k. rewrite H. unfold at_key. destruct (key_eqb 0 k); lia.
Qed.
Lemma assets_set_data k d s : assets (ledger (set_data k d s)) = assets (ledger s).
Proof. apply assets_same. intros k'. apply set_data_lamports. Qed.

Lemma lamports_nonneg l k : wf_ledger l -> 0 <= lamports_at l k.
Proof. intros Hw. by apply (wf_ledger_at _ k) in Hw as [[? _] _]. Qed.

(** The held accounts of a list without repetitions. *)
Lemma assets_ge l ks :
  wf_ledger l -> NoDup ks -> Forall (fun k => held k = true) ks -> zsum (lamports_at l) ks <= assets l.
Proof.
  intros Hw Hnd Hh. rewrite (assets_over l (dom l ∪ list_to_set ks)) by set_solver.
  set (D := dom l ∪ list_to_set ks). set (f := fun k => share k (lamports_at l k)).
  assert (E : D = list_to_set ks ∪ D ∖ list_to_set ks) by (apply union_difference_L; set_solver).
  rewrite E, (zsum_perm f _ (elements (list_to_set ks : gset Pubkey) ++ elements (D ∖ list_to_set ks))).
  2:{ apply elements_disj_union. set_solver. }
  rewrite zsum_app, (zsum_perm f (elements (list_to_set ks)) ks) by by apply elements_list_to_set.
  assert (0 <= zsum f (elements (D ∖ list_to_set ks))).
  { rewrite <- (zsum_zero (fun _ => 0) (elements (D ∖ list_to_set ks))) by done.
    apply zsum_le. intros k _. unfold f, share. destruct (held k); [by apply lamports_nonneg | done]. }
  assert (zsum (lamports_at l) ks <= zsum f ks); [|lia]. apply zsum_le. intros k Hk.
  unfold f, share. rewrite List.Forall_forall in Hh. rewrite Hh; [done | by apply list_elem_of_In].
Qed.
End Assets.

(** ** Invocations and the assets *)
Section Flows.
Context `{RT : Runtime} `{!RuntimeLaws RT} `{!LamportLaws RT}.
Variable program_id : Pubkey.
Context `{!ProgramLaws RT program_id}.
Variable held : Pubkey -> bool.

(** The invocation moves lamports between held accounts only. *)
Definition within (ix : Cpi) : Prop :=
  match ix with
  | SystemTransfer a b _ | StakeSplit a _ _ b | StakeWithdraw a _ b _ | StakeMerge b a _ =>
      held a = true /\ held b = true
  | RawInstruction _ _ _ => False
  | _ => True
  end.

Lemma assets_cpi held' ix infos sg l l' :
  cpi_exec held' ix infos sg l = Ok l' -> is_raw ix = false ->
  assets held l' = assets held l +
    match transfer_of ix l with Some (a, b, n) => share held b n - share held a n | None => 0 end.
Proof.
  intros H Hr. pose proof (fun k => cpi_lamports _ _ _ _ _ _ k H Hr) as Hk.
  destruct (transfer_of ix l) as [[[a b] n]|].
  - rewrite (assets_move held l l' a b n Hk). lia.
  - rewrite (assets_same held l l'); [lia|]. intros k. rewrite Hk. lia.
Qed.

Lemma within_same held' ix infos sg l l' :
  cpi_exec held' ix infos sg l = Ok l' -> within ix -> assets held l' = assets held l.
Proof.
  intros H Hin. assert (Hr : is_raw ix = false) by (by destruct ix).
  rewrite (assets_cpi _ _ _ _ _ _ H Hr). unfold share.
  destruct ix; cbn [transfer_of within] in *; try lia; destruct Hin as [-> ->]; lia.
Qed.
Lemma within_not_raw ix : within ix -> is_raw ix = false.
Proof. by destruct ix. Qed.

Lemma invokes_within s ixs s' :
  invokes s ixs s' -> Forall within ixs -> assets held (ledger s') = assets held (ledger s).
Proof.
  induction 1 as [|s ix infos sg l xs s' He _ IH]; intros Hf; [done|]. inversion Hf as [|? ? Hx Hxs]; subst.
  rewrite (IH Hxs). by apply (within_same _ _ _ _ _ _ He).
Qed.

Lemma invokes_cons_inv s ix ixs s' :
  invokes s (ix :: ixs) s' -> exists s1, invokes s [ix] s1 /\ invokes s1 ixs s'.
Proof. intros H. inversion H; subst. eexists. split; [|eassumption]. econstructor; [eassumption | constructor]. Qed.
Lemma invokes_app_inv xs ys s s' :
  invokes s (xs ++ ys) s' -> exists s1, invokes s xs s1 /\ invokes s1 ys s'.
Proof.
  revert s. induction xs as [|x xs IH]; intros s H; [exists s; split; [constructor | done]|].
  apply invokes_cons_inv in H as (s1 & H1 & H). apply IH in H as (s2 & H2 & H).
  exists s2. split; [exact (invokes_app _ [_] _ _ _ H1 H2) | done].
Qed.
Lemma invokes_one s ix s' :
  invokes s [ix] s' -> is_raw ix = false ->
  (forall k, lamports_at (ledger s') k = lamports_at (ledger s) k +
     match transfer_of ix (ledger s) with Some (a, b, n) => at_key b k n - at_key a k n | None => 0 end) /\
  assets held (ledger s') = assets held (ledger s) +
    match transfer_of ix (ledger s) with Some (a, b, n) => share held b n - share held a n | None => 0 end.
Proof.
  intros H Hr. inversion H as [|? ? ? ? l ? ? He Hn]; subst. inversion Hn; subst. cbn [ledger].
  split; [intros k; by apply (cpi_lamports _ _ _ _ _ _ k He) | by apply (assets_cpi _ _ _ _ _ _ He)].
Qed.

(** The program's own accounts come back as they were. *)
Definition same_account (l l' : Ledger) (k : Pubkey) : Prop :=
  acc_owner (account_at l' k) = acc_owner (account_at l k) /\
  acc_data (account_at l' k) = acc_data (account_at l k).

Lemma invokes_own s ixs s' k :
  invokes s ixs s' -> Forall (fun ix => is_raw ix = false) ixs ->
  acc_owner (account_at (ledger s) k) = program_id -> same_account (ledger s) (ledger s') k.
Proof.
  induction 1 as [|s ix infos sg l xs s' He _ IH]; intros Hf Ho; [done|]. inversion Hf as [|? ? Hx Hxs]; subst.
  destruct (own_accounts _ _ _ _ _ _ k He) as [Ho1 Hd1]; [by intros p a d -> | done|].
  destruct (IH Hxs Ho1) as [Ho2 Hd2]. cbn [ledger] in *. split; congruence.
Qed.

(** Only the written account changes its data. *)
Lemma set_data_same k d s k' : k <> k' -> same_account (ledger s) (ledger (set_data k d s)) k'.
Proof. intros H. unfold same_account. by rewrite set_data_at_ne. Qed.
Lemma set_data_owner k d s k' :
  acc_owner (account_at (ledger (set_data k d s)) k') = acc_owner (account_at (ledger s) k').
Proof. destruct (decide (k = k')) as [->|Hne]; [by rewrite set_data_at | by rewrite set_data_at_ne]. Qed.

Lemma interleaves_kept k s ixs s' :
  interleaves k s ixs s' -> Forall within ixs ->
  assets held (ledger s') = assets held (ledger s) /\
  forall k', acc_owner (account_at (ledger s) k') = program_id ->
    acc_owner (account_at (ledger s') k') = program_id /\ (k' <> k -> same_account (ledger s) (ledger s') k').
Proof.
  induction 1 as [s|s xs s1 ys s' Hi _ IH|s d ys s' _ IH]; intros Hf.
  - split; [done|]. intros k' Ho. split; done.
  - apply Forall_app in Hf as [Hx Hy]. destruct (IH Hy) as [-> Hk]. split; [by apply (invokes_within _ _ _ Hi)|].
    intros k' Ho. destruct (invokes_own _ _ _ k' Hi) as [E1 E2]; [|done|].
    { eapply List.Forall_impl; [apply within_not_raw | done]. }
    destruct (Hk k') as [Ho' Hs]; [congruence|]. split; [done|]. intros Hne. destruct (Hs Hne). split; congruence.
  - destruct (IH Hf) as [-> Hk]. split; [apply assets_set_data|].
    intros k' Ho. destruct (Hk k') as [Ho' Hs]; [by rewrite set_data_owner|]. split; [done|].
    intros Hne. destruct (Hs Hne) as [A B]. destruct (set_data_same k d s k' ltac:(congruence)). split; congruence.
Qed.
End Flows.

(** ** A pool in good order *)
Section Books.
Context `{RT : Runtime} `{!RuntimeLaws RT} `{!LamportLaws RT}.
Variable program_id : Pubkey.
Context `{!ProgramLaws RT program_id}.
Variable held : Pubkey -> bool.
Abbreviation keyed := (fun i => in_range 256 (key i)).
Abbreviation assets := (assets held).

(** The reserve and all accounts at addresses derived for stake of the pool are held. *)
Definition controls (k : Pubkey) (p : StakePool) : Prop :=
  held (reserve_stake p) = true /\
  (forall vote seed, held (fst (find_stake_program_address program_id vote k seed)) = true) /\
  (forall vote seed, held (transient_address program_id k vote seed) = true) /\
  (forall seed, held (ephemeral_address program_id k seed) = true).

Lemma controls_source k p v src : controls k p -> held (source_address program_id k v src) = true.
Proof. intros (_ & H1 & H2 & _). by destruct src; [apply H1 | apply H2 | apply H1]. Qed.

(** The account [n] of the program is a list whose vote accounts are distinct. *)
Definition list_kept (l : Ledger) (n : Pubkey) : Prop :=
  acc_owner (account_at l n) = program_id /\
  exists h xs, header_is_valid h = true /\ list_at (mkRState l [] []) n h xs /\ NoDup (votes xs).

Definition in_books (l : Ledger) (k : Pubkey) (p : StakePool) : Prop :=
  sound_pool program_id l k p /\ list_kept l (validator_list p).

Lemma list_kept_same l l' n : same_account l l' n -> list_kept l n -> list_kept l' n.
Proof.
  intros [E1 E2] (Ho & h & xs & Hh & (H1 & H2 & spare & H3) & Hnd). split; [congruence|].
  exists h, xs. split; [done|]. split; [|done]. split; [done|]. split; [done|]. exists spare.
  cbn [ledger] in *. by rewrite E2.
Qed.

(** The bytes of a list account determine its entries. *)
Lemma list_at_fun s n h xs h' xs' : list_at s n h xs -> list_at s n h' xs' -> xs' = xs.
Proof.
  intros (Hh & Hw & sp & d & Hd & Hr) (Hh' & Hw' & sp' & d' & Hd' & Hr').
  assert (E : d' = d).
  { rewrite Hd in Hd'. apply (f_equal (drop 5)) in Hd'. rewrite !drop_app_length' in Hd' by by rewrite length_enc_header. done. }
  subst d'. pose proof (repr_len vsi_codec _ _ _ Hr Hw) as L. rewrite (repr_len vsi_codec _ _ _ Hr' Hw') in L.
  apply Ok_inj in L.
  pose proof (deserialize_slice_spec vsi_codec VSI_SIZE d [] xs [] sp) as D. rewrite app_nil_r in D. specialize (D Hr Hw).
  pose proof (deserialize_slice_spec vsi_codec VSI_SIZE d [] xs' [] sp') as D'. rewrite app_nil_r in D'. specialize (D' Hr' Hw').
  rewrite L in D'. congruence.
Qed.

Lemma pool_not_list l k p n : wf_ledger l -> sound_pool program_id l k p -> list_kept l n -> k <> n.
Proof.
  intros Hw ((_ & Hp & _) & Hver & _) (_ & h & xs & Hh & (Hwh & _ & spare & d & Hd & _) & _) ->. cbn [ledger] in Hd.
  destruct (pool_first_byte _ _ Hp (proj2 (wf_ledger_at _ _ Hw)) Hver) as [r Hr]. rewrite Hd in Hr.
  assert (E : dec header_codec (enc header_codec h ++ d) = Some (h, d)) by by apply dec_enc. rewrite Hr in E. apply header_first_byte in E.
  unfold header_is_valid in Hh. by rewrite E in Hh.
Qed.

Lemma pool_at_fun l k p q : pool_at program_id l k p -> pool_at program_id l k q -> q = p.
Proof. intros (_ & H1 & _) (_ & H2 & _). congruence. Qed.

(** The books after a call: the pool and its list are there, and the total has not
    grown by more than the assets. *)
Definition balanced (s s' : RState) (k : Pubkey) (p : StakePool) : Prop :=
  exists p', stored_pool s' k = Ok p' /\ list_kept (ledger s') (validator_list p) /\
    total_lamports p' - total_lamports p <= assets (ledger s') - assets (ledger s).

(** Accounts of the program after invocations and a write to [k]. *)
Lemma own_after s ixs s1 k d n :
  invokes s ixs s1 -> Forall (fun ix => is_raw ix = false) ixs -> k <> n ->
  acc_owner (account_at (ledger s) n) = program_id ->
  same_account (ledger s) (ledger (set_data k d s1)) n.
Proof.
  intros Hi Hf Hne Ho. destruct (invokes_own program_id _ _ _ n Hi Hf Ho). unfold same_account.
  by rewrite set_data_at_ne.
Qed.
End Books.
