(* ===== verification/Balanced.v ===== *)
(** * Every call keeps the books
    For each instruction: a successful call for a pool in good order leaves the pool
    and its list in good order, and changes the recorded total by no more than the
    lamports held for the pool. Then the life of a pool that is fully backed. *)
From S2P Require Import Prelude Error Fees State Borsh Layout BigVec Entries PoolMath Runtime Checks Concrete Admin Funds ListAccess DepositStake WithdrawStake Validators Rebalance UpdateList UpdatePool Initialize Metadata Instruction Processor Keeps Invariants Books.

Section Balanced.
Context `{RT : Runtime} `{!RuntimeLaws RT} `{!LamportLaws RT}.
Variable program_id : Pubkey.
Context `{!ProgramLaws RT program_id}.
Variable held : Pubkey -> bool.
Abbreviation keyed := (fun i => in_range 256 (key i)).
Abbreviation assets := (assets held).
Abbreviation balanced := (balanced program_id held).

Section Calls.
Variables (s : RState) (k : Pubkey) (p : StakePool).
Hypothesis typed : wf_ledger (ledger s).
Hypothesis booked : in_books program_id (ledger s) k p.
Hypothesis controlled : controls program_id held k p.

Lemma pool_here : pool_at program_id (ledger s) k p.
Proof. apply booked. Qed.
Lemma not_list : k <> validator_list p.
Proof. apply (pool_not_list program_id _ _ p _ typed); apply booked. Qed.

Lemma reserve_held : held (reserve_stake p) = true.
Proof. apply controlled. Qed.

Lemma mints_not_raw tp mi us fe re au d : Forall (within held) (deposit_mints tp mi us fe re au d).
Proof. unfold deposit_mints, when. repeat constructor. destruct (_ <? _), (_ <? _); by repeat constructor. Qed.

Lemma not_raw ixs : Forall (within held) ixs -> Forall (fun ix => is_raw ix = false) ixs.
Proof. intros H. eapply List.Forall_impl; [|exact H]. apply within_not_raw. Qed.

Lemma deposit_sol_balanced accounts x m s' :
  process_deposit_sol program_id accounts x m s = Ok (tt, s') -> option_map key (head accounts) = Some k ->
  (forall i, accounts !! 3%nat = Some i -> held (key i) = false) -> balanced s s' k p.
Proof.
  intros H Hk Hfrom. apply deposit_sol_run in H
    as (pool & auth & reserve & from & user & fee & referrer & mint & sys & tok & rest & clock & q & d & s1 &
        data & -> & Hp & _ & _ & Hres & _ & _ & _ & _ & _ & Hi & HT & HS & Hw & ->).
  injection Hk as Hk. rewrite Hk in *. pose proof (pool_at_fun program_id _ _ _ _ pool_here Hp) as ->.
  exists (credited p x (tokens_new d)).
  split; [apply stored_after_write; [apply wf_set_amounts; [by apply (pool_at_wf _ _ _ _ typed Hp)|done..] | exact Hw]|].
  split.
  - eapply list_kept_same; [|apply booked].
    apply (own_after program_id _ _ _ _ _ _ Hi); [|apply not_list|apply (proj2 booked)].
    constructor; [done | apply not_raw, mints_not_raw].
  - rewrite assets_set_data. apply invokes_cons_inv in Hi as (s2 & Hi1 & Hi2).
    rewrite (invokes_within held _ _ _ Hi2) by apply mints_not_raw.
    apply (invokes_one held) in Hi1 as [_ ->]; [|done]. cbn [transfer_of]. unfold share.
    rewrite Hres, reserve_held, (Hfrom from eq_refl). cbn. lia.
Qed.

Lemma calc_withdraw_range q n c : calc_lamports_withdraw_amount q n = Some c -> 0 <= c.
Proof.
  unfold calc_lamports_withdraw_amount. destruct (checked_mul _ _ _); [|done].
  destruct (_ || _); [by intros [= <-]|]. destruct (checked_div _ _); [|done].
  intros [-> H]%fit_Some. unfold in_range in H. lia.
Qed.

Lemma withdraw_sol_balanced accounts n m s' :
  process_withdraw_sol program_id accounts n m s = Ok (tt, s') -> option_map key (head accounts) = Some k ->
  balanced s s' k p.
Proof.
  intros H Hk. apply withdraw_sol_run in H
    as (pool & auth & user & burn & reserve & dest & fee & mint & rest & clock & q & f & l & dec & tp & s1 &
        data & meta & -> & Hp & _ & _ & Hres & _ & _ & _ & _ & _ & _ & Hc & _ & _ & _ & _ & Hi &
        HT & HS & Hw & ->).
  injection Hk as Hk. rewrite Hk in *. pose proof (pool_at_fun program_id _ _ _ _ pool_here Hp) as ->.
  exists (debited p l (n - f)).
  split; [apply stored_after_write; [apply wf_set_amounts; [by apply (pool_at_wf _ _ _ _ typed Hp)|done..] | exact Hw]|].
  split.
  - eapply list_kept_same; [|apply booked]. apply (own_after program_id _ _ _ _ _ _ Hi); [|apply not_list|apply (proj2 booked)].
    unfold withdraw_sol_invocations, when. destruct (0 <? f); by repeat constructor.
  - rewrite assets_set_data. unfold withdraw_sol_invocations in Hi. rewrite app_comm_cons in Hi.
    apply invokes_app_inv in Hi as (s2 & Hi1 & Hi2).
    apply (invokes_one held) in Hi2 as [_ ->]; [|done].
    rewrite (invokes_within held _ _ _ Hi1) by (unfold when; destruct (0 <? f); by repeat constructor).
    cbn [transfer_of]. unfold share. pose proof (calc_withdraw_range _ _ _ Hc).
    rewrite Hres, reserve_held. destruct (held (key dest)); cbn; lia.
Qed.

(** The list account of a call is the pool's, and holds its entries. *)
Definition list_key (accounts : list AccountInfo) (n : nat) : Prop :=
  forall li, accounts !! n = Some li -> key li = validator_list p.

Ltac at_list _ :=
  lazymatch goal with D : check_validator_list _ _ _ = Ok _ |- _ => apply check_validator_list_Ok in D end.
Ltac pool_list :=
  let li := fresh "li" in intros li [= <-];
  match goal with E : option_map key (head (?i :: _)) = Some k, D : pool_at program_id (ledger s) (key ?i) _ |- _ =>
    injection E as E; rewrite E in D; pose proof (pool_at_fun program_id _ _ _ _ pool_here D); congruence end.

Lemma deposit_stake_list accounts m r :
  process_deposit_stake program_id accounts m s = Ok r -> option_map key (head accounts) = Some k -> list_key accounts 1.
Proof. destruct r. intros H Hk. unfold process_deposit_stake in H. open_to H at_list. pool_list. Qed.
Lemma withdraw_stake_list accounts n m r :
  process_withdraw_stake program_id accounts n m s = Ok r -> option_map key (head accounts) = Some k -> list_key accounts 1.
Proof. destruct r. intros H Hk. unfold process_withdraw_stake in H. open_to H at_list. pool_list. Qed.
Lemma decrease_list accounts n seed eph fund r :
  process_decrease_validator_stake program_id accounts n seed eph fund s = Ok r ->
  option_map key (head accounts) = Some k -> list_key accounts 3.
Proof. destruct r. intros H Hk. unfold process_decrease_validator_stake in H. open_to H at_list. pool_list. Qed.
Lemma increase_list accounts n seed eph r :
  process_increase_validator_stake program_id accounts n seed eph s = Ok r ->
  option_map key (head accounts) = Some k -> list_key accounts 3.
Proof. destruct r. intros H Hk. unfold process_increase_validator_stake in H. open_to H at_list. pool_list. Qed.
Lemma add_list accounts seed r :
  process_add_validator_to_pool program_id accounts seed s = Ok r ->
  option_map key (head accounts) = Some k -> list_key accounts 4.
Proof. destruct r. intros H Hk. unfold process_add_validator_to_pool in H. open_to H at_list. pool_list. Qed.
Lemma remove_list accounts r :
  process_remove_validator_from_pool program_id accounts s = Ok r ->
  option_map key (head accounts) = Some k -> list_key accounts 3.
Proof. destruct r. intros H Hk. unfold process_remove_validator_from_pool in H. open_to H at_list. pool_list. Qed.
Lemma update_list_list accounts a b r :
  process_update_validator_list_balance program_id accounts a b s = Ok r ->
  option_map key (head accounts) = Some k -> list_key accounts 2.
Proof. destruct r. intros H Hk. unfold process_update_validator_list_balance in H. open_to H at_list. pool_list. Qed.
Lemma cleanup_list accounts r :
  process_cleanup_removed_validator_entries program_id accounts s = Ok r ->
  option_map key (head accounts) = Some k -> list_key accounts 1.
Proof. destruct r. intros H Hk. unfold process_cleanup_removed_validator_entries in H. open_to H at_list. pool_list. Qed.
Ltac at_list_fee _ :=
  lazymatch goal with D : negb (key_eqb _ (validator_list _)) = false |- _ => apply negb_key_eqb in D end.
Lemma update_pool_list accounts r :
  process_update_stake_pool_balance program_id accounts s = Ok r ->
  option_map key (head accounts) = Some k -> list_key accounts 2.
Proof. destruct r. intros H Hk. unfold process_update_stake_pool_balance in H. open_to H at_list_fee. pool_list. Qed.

(** The list before a call: its header, its entries, and where the handler finds them. *)
Lemma booked_list accounts n :
  list_key accounts n -> exists h xs, header_is_valid h = true /\ NoDup (votes xs) /\
    forall li, accounts !! n = Some li -> list_at s (key li) h xs.
Proof.
  intros Hk. pose proof (proj2 booked) as (_ & h & xs & Hh & Hl & Hnd). exists h, xs. split; [done|]. split; [done|].
  intros li E. rewrite (Hk li E). exact Hl.
Qed.

(** The list after it. *)
Lemma list_after s0 ixs s1 s' li h xs :
  invokes s0 ixs s1 -> ledger s0 = ledger s -> Forall (fun ix => is_raw ix = false) ixs ->
  (forall n, acc_owner (account_at (ledger s') n) = acc_owner (account_at (ledger s1) n)) ->
  header_is_valid h = true -> list_at s' (key li) h xs -> NoDup (votes xs) -> key li = validator_list p ->
  list_kept program_id (ledger s') (validator_list p).
Proof.
  intros Hi E0 Hf Ho Hh Hl Hnd Ek. split; [|exists h, xs; rewrite <- Ek; done]. rewrite Ho.
  destruct (invokes_own program_id _ _ _ (validator_list p) Hi Hf) as [-> _]; rewrite E0; apply (proj2 booked).
Qed.

Lemma votes_same v y ys zs :
  vote_account_address y = vote_account_address v -> NoDup (votes (ys ++ v :: zs)) -> NoDup (votes (ys ++ y :: zs)).
Proof. intros E. unfold votes. rewrite !fmap_app, !fmap_cons. by rewrite E. Qed.

Lemma held_ne a b : held a = false -> held b = true -> key_eqb a b = false.
Proof. intros Ha Hb. destruct (key_eqb a b) eqn:E; [|done]. apply key_eqb_eq in E. congruence. Qed.

Lemma deposit_stake_balanced accounts m s' :
  process_deposit_stake program_id accounts m s = Ok (tt, s') -> option_map key (head accounts) = Some k ->
  (forall i, accounts !! 4%nat = Some i -> held (key i) = false) -> balanced s s' k p.
Proof.
  intros H Hk Hsi. pose proof (deposit_stake_list _ _ _ H Hk) as Hlk.
  destruct (booked_list _ _ Hlk) as (h & xs & Hh & Hnd & Hl).
  apply (deposit_stake_run program_id accounts m s tt s' h xs) in H; [|done|done].
  destruct H as (pool & li & ai & wi & si & vi & ri & ui & fi & rfi & mi & tp & rest & q & mg & g & mg' & g' &
    total & sd & d & v & ys & zs & s1 & s2 & data & ldata & -> & Hp & _ & Hri & _ & _ & _ & _ & Haddr &
    _ & Hva & -> & Hi1 & Ht & _ & _ & _ & Hi2 & HT & HS & Hwr & Hne & -> & Hlist).
  injection Hk as Hk. rewrite Hk in *. pose proof (pool_at_fun program_id _ _ _ _ pool_here Hp) as ->.
  specialize (Hlk li eq_refl). specialize (Hsi si eq_refl).
  assert (Hvi : held (key vi) = true) by (rewrite <- Haddr; apply controlled).
  assert (Hmints : Forall (within held) (deposit_mints tp (key mi) (key ui) (key fi) (key rfi) (key wi) d ++
    when (0 <? total - sd) (StakeWithdraw (key vi) (key wi) (key ri) (total - sd)))).
  { apply Forall_app. split; [apply mints_not_raw|]. unfold when. destruct (_ <? _); repeat constructor; [done|].
    rewrite Hri. apply reserve_held. }
  set (merge := [_; _; _]) in Hi1. exists (credited p total (tokens_new d)). split.
  { rewrite stored_pool_ne by done.
    apply stored_after_write; [apply wf_set_amounts; [by apply (pool_at_wf _ _ _ _ typed Hp)|done..] | exact Hwr]. }
  split.
  { eapply (list_after _ _ _ _ li h _ (invokes_app _ _ _ _ _ Hi1 Hi2)); try done.
    - apply Forall_app. split; [by repeat constructor | by apply not_raw].
    - intros n. by rewrite !set_data_owner.
    - by apply (votes_same v). }
  rewrite !assets_set_data, (invokes_within held _ _ _ Hi2 Hmints).
  apply (invokes_app_inv [_; _] [_]) in Hi1 as (s3 & Hi3 & Hi1).
  pose proof (invokes_within held _ _ _ Hi3 ltac:(by repeat constructor)) as Ea. cbn [ledger] in Ea.
  pose proof (invokes_cons_inv _ _ _ _ Hi3) as (s4 & Hi4 & Hi5).
  apply (invokes_one held) in Hi4 as [L4 _]; [|done]. apply (invokes_one held) in Hi5 as [L5 _]; [|done].
  apply (invokes_one held) in Hi1 as [L1 ->]; [|done]. cbn [transfer_of ledger] in *.
  specialize (L1 (key vi)). unfold at_key in L1. rewrite key_eqb_refl, (held_ne _ _ Hsi Hvi) in L1.
  specialize (L4 (key vi)). specialize (L5 (key vi)). unfold share. rewrite Hsi, Hvi.
  unfold lamports_at in *. cbn. lia.
Qed.

(** The handlers that only move stake between the pool's accounts and write the list. *)
Lemma inside_balanced s0 ixs s1 li d h xs :
  invokes s0 ixs s1 -> ledger s0 = ledger s -> Forall (within held) ixs -> header_is_valid h = true ->
  list_at (set_data (key li) d s1) (key li) h xs -> NoDup (votes xs) -> key li = validator_list p ->
  balanced s (set_data (key li) d s1) k p.
Proof.
  intros Hi E0 Hf Hh Hl Hnd Ek. exists p. split; [|split].
  - destruct (invokes_own program_id _ _ _ k Hi (not_raw _ Hf)) as [_ Hd]; [rewrite E0; apply pool_here|].
    rewrite stored_pool_ne by (rewrite Ek; apply not_list). unfold stored_pool. rewrite Hd, E0. apply pool_here.
  - eapply (list_after _ _ _ _ li h xs Hi); try done; [by apply not_raw|]. intros n. by rewrite set_data_owner.
  - rewrite assets_set_data, (invokes_within held _ _ _ Hi Hf), E0. lia.
Qed.

Ltac withins := repeat first [ assumption | exact I | split | constructor ].

Lemma top_up_within r reserve to n :
  (forall i, reserve = Some i -> held (key i) = true) -> held to = true ->
  Forall (within held) (rent_top_up r reserve to n).
Proof.
  intros Hr Ht. unfold rent_top_up, when. destruct reserve as [i|]; [|constructor].
  destruct (0 <? n); withins. by apply Hr.
Qed.

Lemma decrease_within r reserve rent n v s1 ixs s2 :
  decrease_moves program_id r reserve rent n v s1 ixs s2 -> rb_pool_key r = k ->
  held (key (rb_validator_stake r)) = true -> held (key (rb_transient r)) = true ->
  (forall i, reserve = Some i -> held (key i) = true) -> Forall (within held) ixs.
Proof.
  intros (src & m & pre & post & s3 & -> & Hpre & Hpost) Hk Hv Ht Hr.
  assert (Hs : held (key src) = true /\ Forall (within held) pre).
  { unfold decrease_source_moves in Hpre. destruct (rb_ephemeral r) as [[seed e]|]; [|by destruct Hpre as (-> & _ & -> & _)].
    destruct Hpre as (-> & He & _ & s4 & _ & _ & ->). rewrite Hk in He.
    assert (Hh : held (key e) = true) by (rewrite <- He; apply controlled).
    split; [done|]. rewrite !Forall_app. split; [withins|]. split; [by apply top_up_within | withins]. }
  destruct Hs as [Hs Hp]. apply Forall_app. split; [exact Hp|].
  destruct (0 <? _); [destruct Hpost as [-> _]; withins|]. destruct Hpost as (s4 & s5 & mt & g & _ & _ & _ & _ & ->).
  rewrite !Forall_app. split; [withins|]. split; [split; [by apply top_up_within | withins]|].
  unfold when. destruct (_ =? u64_max); withins.
Qed.

Lemma increase_within r reserve vote n ep v s1 ixs s2 :
  increase_moves program_id r reserve vote n ep v s1 ixs s2 -> rb_pool_key r = k -> held reserve = true ->
  held (key (rb_transient r)) = true -> Forall (within held) ixs.
Proof.
  intros (src & pre & post & s3 & -> & _ & Hpre & Hpost) Hk Hr Ht.
  assert (Hs : held src = true /\ Forall (within held) pre).
  { destruct (rb_ephemeral r) as [[seed e]|]; [|by destruct Hpre as (-> & ->)].
    destruct Hpre as (-> & He & ->). rewrite Hk in He.
    assert (Hh : held (key e) = true) by (rewrite <- He; apply controlled).
    split; [done|]. withins. }
  destruct Hs as [Hs Hp]. apply Forall_app. split; [exact Hp|].
  destruct (0 <? _); [destruct Hpost as [-> _]; withins|]. destruct Hpost as (s4 & _ & _ & ->). rewrite !Forall_app.
  split; [split; withins|]. unfold when. destruct (negb _); withins.
Qed.

Lemma decrease_balanced accounts n seed eph fund s' :
  process_decrease_validator_stake program_id accounts n seed eph fund s = Ok (tt, s') -> in_range 64 seed ->
  option_map key (head accounts) = Some k -> balanced s s' k p.
Proof.
  intros H Hseed Hk. pose proof (decrease_list _ _ _ _ _ _ H Hk) as Hlk.
  destruct (booked_list _ _ Hlk) as (h & xs & Hh & Hnd & Hl).
  destruct (decrease_run program_id accounts n seed eph fund s tt s' h xs H typed Hseed Hl)
    as (pool & st & au & li & rest & q & r & re & c & rn & dmin & m & g & v & ys & zs & ixs & s1 & -> & Hp & Rest).
  injection Hk as Hk. rewrite Hk in *. pose proof (pool_at_fun program_id _ _ _ _ pool_here Hp) as ->.
  skip 5 Rest. destruct Rest as (Ek & Rest). skip 3 Rest.
  destruct Rest as (Hre & _ & -> & _ & _ & Hv & Ht & Rest). skip 5 Rest. destruct Rest as (Hm & Hi & (d & ->) & Hlist).
  eapply (inside_balanced _ _ _ _ _ _ _ Hi); [done| |exact Hh|exact Hlist|by apply (votes_same v)|by apply Hlk].
  apply (decrease_within _ _ _ _ _ _ _ _ Hm Ek).
  - rewrite <- Hv. by apply (controls_source program_id held k p v SourceActive).
  - rewrite <- Ht. apply controlled.
  - intros i Hi'. rewrite (Hre i Hi'). apply reserve_held.
Qed.

Lemma increase_balanced accounts n seed eph s' :
  process_increase_validator_stake program_id accounts n seed eph s = Ok (tt, s') -> in_range 64 seed ->
  Forall keyed accounts -> option_map key (head accounts) = Some k -> balanced s s' k p.
Proof.
  intros H Hseed Hkeys Hk. pose proof (increase_list _ _ _ _ _ H Hk) as Hlk.
  destruct (booked_list _ _ Hlk) as (h & xs & Hh & Hnd & Hl).
  destruct (increase_run program_id accounts n seed eph s tt s' h xs H typed Hseed Hkeys Hl)
    as (pool & st & au & li & re & rest & q & r & vote & c & rn & dmin & v & ys & zs & ixs & s1 & -> & Hp & Rest).
  injection Hk as Hk. rewrite Hk in *. pose proof (pool_at_fun program_id _ _ _ _ pool_here Hp) as ->.
  skip 3 Rest. destruct Rest as (Hre & _ & _ & Ek & Rest). skip 3 Rest.
  destruct Rest as (-> & _ & _ & _ & Ht & Rest). skip 5 Rest. destruct Rest as (Hm & Hi & (d & ->) & Hlist).
  eapply (inside_balanced _ _ _ _ _ _ _ Hi); [done| |exact Hh|exact Hlist|by apply (votes_same v)|by apply Hlk].
  apply (increase_within _ _ _ _ _ _ _ _ _ Hm Ek); [rewrite Hre; apply reserve_held | rewrite <- Ht; apply controlled].
Qed.

Lemma withdraw_stake_balanced accounts n m s' :
  process_withdraw_stake program_id accounts n m s = Ok (tt, s') -> option_map key (head accounts) = Some k ->
  balanced s s' k p.
Proof.
  intros H Hk. pose proof (withdraw_stake_list _ _ _ _ H Hk) as Hlk.
  destruct (booked_list _ _ Hlk) as (h & xs & Hh & Hnd & Hl).
  destruct (withdraw_stake_run program_id accounts n m s tt s' h xs H typed Hl) as (pool & li & auth & from & to & na &
    user & burn & fee & mint & rest & q & f & c & l & p1 & dec & per & st & meta & dmin & item & s1 & data & -> & Hp & _ &
    _ & _ & Hc & _ & _ & _ & _ & _ & _ & Hi & HT & HS & Hwr & Hne & Hitem).
  injection Hk as Hk. rewrite Hk in *. pose proof (pool_at_fun program_id _ _ _ _ pool_here Hp) as ->.
  specialize (Hlk li eq_refl). pose proof (calc_withdraw_range _ _ _ Hc) as Hc0.
  pose proof (pool_at_wf _ _ _ _ typed Hp) as Hwf.
  pose proof (lamports_nonneg (ledger s) (key from) typed) as Hfl. unfold lamports_at in Hfl.
  assert (Hfacts : held (key from) = true /\ 0 <= l /\ total_lamports p1 = total_lamports p /\ wf stake_pool_codec p1 /\
    exists xs' s2, list_at s' (key li) h xs' /\ NoDup (votes xs') /\ (s2 = s' \/ exists d, s' = set_data (key li) d s2) /\
      s2 = set_data k data s1).
  { destruct item as [[v src]|].
    - destruct Hitem as (_ & Hrul & Hsrc & _ & -> & ys & zs & v' & d & -> & Hent & -> & Hlist).
      split; [rewrite <- Hsrc; by apply (controls_source program_id held k p)|].
      split; [destruct src; cbn [source_rules terms_of withdraw_lamports] in Hrul; lia|].
      destruct (forget_preferred_amounts (vote_account_address v) p) as [Et _].
      split; [by destruct src|]. split; [by destruct src; try apply wf_forget_preferred|].
      exists (ys ++ v' :: zs), (set_data k data s1). split; [exact Hlist|]. split; [|eauto]. apply (votes_same v); [|done].
      apply entry_after_withdrawal_Ok in Hent. destruct src; cbn [entry_paid] in Hent; by destruct Hent as [_ ->].
    - destruct Hitem as (Hr & -> & -> & -> & _ & _ & _ & Hlist). split; [rewrite Hr; apply reserve_held|].
      do 3 (split; [done|]). exists xs, (set_data k data s1). auto. }
  destruct Hfacts as (Hfrom & Hl0 & Et & Hw1 & xs' & s2 & Hlist & Hnd' & Hs2 & ->).
  assert (Hraw : Forall (fun ix => is_raw ix = false) (withdraw_stake_invocations (token_program_id p) (key burn)
    (key mint) (key user) (key fee) (key from) (key auth) (key to) (key na) (n - f) f l dec)).
  { unfold withdraw_stake_invocations, when. destruct (0 <? f); by repeat constructor. }
  exists (debited p1 l (n - f)). split.
  { assert (E : stored_pool (set_data k data s1) k = Ok (debited p1 l (n - f)))
      by (apply stored_after_write; [by apply wf_set_amounts | exact Hwr]).
    destruct Hs2 as [<- | [d ->]]; [exact E | by rewrite stored_pool_ne]. }
  split.
  { eapply (list_after _ _ _ _ li h _ Hi); try done. intros a. destruct Hs2 as [<- | [d ->]]; by rewrite !set_data_owner. }
  assert (Ea : assets (ledger s') = assets (ledger s1)) by (destruct Hs2 as [<- | [d ->]]; by rewrite !assets_set_data).
  unfold withdraw_stake_invocations in Hi. apply invokes_cons_inv in Hi as (s3 & Hi1 & Hi).
  apply invokes_cons_inv in Hi as (s4 & Hi2 & Hi).
  pose proof (invokes_within held _ _ _ Hi1 ltac:(by repeat constructor)) as E1. cbn [ledger] in E1.
  rewrite Ea, (invokes_within held _ _ _ Hi) by (unfold when; destruct (0 <? f); by repeat constructor).
  apply (invokes_one held) in Hi2 as [_ ->]; [|done]. rewrite E1. cbn [transfer_of]. unfold share.
  rewrite Hfrom. destruct (held (key to)); cbn; lia.
Qed.

Lemma add_balanced accounts seed s' :
  process_add_validator_to_pool program_id accounts seed s = Ok (tt, s') -> in_range 32 seed ->
  Forall keyed accounts -> option_map key (head accounts) = Some k -> balanced s s' k p.
Proof.
  intros H Hseed Hkeys Hk. pose proof (add_list _ _ _ H Hk) as Hlk.
  destruct (booked_list _ _ Hlk) as (h & xs & Hh & Hnd & Hl).
  destruct (add_validator_run program_id accounts seed s tt s' h xs H Hseed Hkeys Hl) as (pool & st & re & au & li & si &
    vote & rest & q & dmin & rent & c & req & sst & meta & s1 & -> & Hp & _ & _ & Hre & _ & _ & Hsi & _ & _ & _ & Hi &
    Hlist & _ & _ & Hnd' & d & ->).
  injection Hk as Hk. rewrite Hk in *. pose proof (pool_at_fun program_id _ _ _ _ pool_here Hp) as ->.
  eapply (inside_balanced _ _ _ _ _ _ _ Hi); [done| |exact Hh|exact Hlist|by apply Hnd'|by apply Hlk].
  withins; [rewrite Hre; apply reserve_held | rewrite <- Hsi; apply controlled].
Qed.

Lemma remove_balanced accounts s' :
  process_remove_validator_from_pool program_id accounts s = Ok (tt, s') ->
  option_map key (head accounts) = Some k -> balanced s s' k p.
Proof.
  intros H Hk. pose proof (remove_list _ _ H Hk) as Hlk.
  destruct (booked_list _ _ Hlk) as (h & xs & Hh & Hnd & Hl).
  destruct (remove_validator_run program_id accounts s tt s' h xs H typed Hl) as (pool & st & au & li & si & ti & rest & q &
    m & g & v & ys & zs & s1 & -> & Hp & _ & _ & _ & -> & _ & _ & _ & _ & _ & Hi & _ & Hst & _ & _ & Hlist & d & d' & ->).
  injection Hk as Hk. rewrite Hk in *. pose proof (pool_at_fun program_id _ _ _ _ pool_here Hp) as ->.
  assert (Hf : Forall (within held) (when (transient_to_stop (ledger s) p (key au) (key ti) v) (StakeDeactivate (key ti) (key au)) ++
    when (deactivation_epoch g =? u64_max) (StakeDeactivate (key si) (key au)))).
  { apply Forall_app. unfold when. destruct (transient_to_stop _ _ _ _ _), (_ =? _); split; withins. }
  exists (forget_preferred (vote_account_address v) p). split; [exact Hst|]. split.
  - eapply (list_after _ _ _ _ li h _ Hi); [done|by apply not_raw| |done|exact Hlist| |by apply Hlk].
    + intros a. by rewrite !set_data_owner.
    + by apply (votes_same v).
  - rewrite !assets_set_data, (invokes_within held _ _ _ Hi Hf). cbn [ledger].
    destruct (forget_preferred_amounts (vote_account_address v) p) as [-> _]. lia.
Qed.

Lemma inside_pool_within u v ix :
  inside_pool program_id u v ix -> up_pool_key u = k -> held (key (up_reserve u)) = true -> within held ix.
Proof.
  intros H Hk Hr. unfold inside_pool in H. rewrite Hk in H.
  pose proof (controls_source program_id held k p v SourceActive controlled) as Ha.
  pose proof (controls_source program_id held k p v SourceTransient controlled) as Ht.
  destruct ix; try done; cbn [within].
  - by destruct H as (_ & [(-> & [-> | ->]) | (-> & ->)]).
  - by destruct H as (_ & -> & ->).
Qed.

Lemma votes_updated u ms infos ms' :
  Forall2 (entry_updated program_id u) (zip ms infos) ms' -> length infos = length ms -> votes ms' = votes ms.
Proof.
  revert infos ms'. induction ms as [|v ms IH]; intros infos ms' H Hlen.
  { by inversion H. }
  destruct infos as [|i infos]; [done|]. inversion H as [|? y ? ys Hy Hys]; subst.
  unfold votes in *. rewrite !fmap_cons. rewrite (IH _ _ Hys) by by injection Hlen. f_equal.
  destruct (proj1 Hy) as [-> | (st & m & a & _ & _ & _ & _ & _ & ->)]; done.
Qed.

Lemma update_list_balanced accounts start b s' :
  process_update_validator_list_balance program_id accounts start b s = Ok (tt, s') -> in_range 32 start ->
  option_map key (head accounts) = Some k -> balanced s s' k p.
Proof.
  intros H Hstart Hk. pose proof (update_list_list _ _ _ _ H Hk) as Hlk.
  destruct (booked_list _ _ Hlk) as (h & xs & Hh & Hnd & Hl).
  destruct (update_list_run program_id accounts start b s tt s' h xs H typed Hstart Hl)
    as (pool & auth & li & re & clock & hist & sp & infos & q & u & ys & ms & zs & ms' & ixs & -> & Hp & _ & Hre & _ & _ &
      Hu & Hur & _ & _ & _ & _ & -> & _ & Hlen & Hms & Hlist & Hi & Hin).
  injection Hk as Hk. rewrite Hk in *. pose proof (pool_at_fun program_id _ _ _ _ pool_here Hp) as ->.
  specialize (Hlk li eq_refl).
  assert (Hf : Forall (within held) ixs).
  { eapply List.Forall_impl; [|exact Hin]. intros ix (v & _ & Hx). apply (inside_pool_within u v ix Hx Hu).
    rewrite Hur, Hre. apply reserve_held. }
  destruct (interleaves_kept program_id held _ _ _ _ Hi Hf) as [Ha Ho]. cbn [ledger] in *.
  exists p. split; [|split; [|rewrite Ha; lia]].
  - destruct (Ho k) as [_ Hs]; [apply pool_here|]. destruct Hs as [_ Hd]; [rewrite Hlk; apply not_list|].
    unfold stored_pool. rewrite Hd. apply pool_here.
  - split; [by apply Ho; apply (proj2 booked)|]. exists h, (ys ++ ms' ++ zs). split; [done|].
    split; [rewrite <- Hlk; exact Hlist|]. revert Hnd. unfold votes. rewrite !fmap_app.
    fold (votes ms) (votes ms'). by rewrite (votes_updated _ _ _ _ Hms Hlen).
Qed.

Lemma votes_filter f xs : NoDup (votes xs) -> NoDup (votes (List.filter f xs)).
Proof.
  induction xs as [|v xs IH]; [done|]. unfold votes. rewrite fmap_cons. intros [Hv Hnd]%list.NoDup_cons.
  cbn [List.filter]. destruct (f v); [|by apply IH]. rewrite fmap_cons. apply list.NoDup_cons. split; [|by apply IH].
  intros Hin. apply Hv. apply list_elem_of_fmap in Hin as (w & -> & Hw). apply list_elem_of_fmap. exists w.
  split; [done|]. apply list_elem_of_In in Hw. apply filter_In in Hw as [Hw _]. by apply list_elem_of_In.
Qed.

Lemma reset_stale_total xs q : total_lamports (reset_stale xs q) = total_lamports q.
Proof. done. Qed.

Lemma cleanup_balanced accounts s' :
  process_cleanup_removed_validator_entries program_id accounts s = Ok (tt, s') ->
  option_map key (head accounts) = Some k -> balanced s s' k p.
Proof.
  intros H Hk. pose proof (cleanup_list _ _ H Hk) as Hlk.
  destruct (booked_list _ _ Hlk) as (h & xs & Hh & Hnd & Hl).
  destruct (cleanup_run program_id accounts s tt s' h xs H typed Hl)
    as (pool & li & rest & q & -> & Hp & _ & Hlist & _ & d & Hs').
  injection Hk as Hk. rewrite Hk in *. pose proof (pool_at_fun program_id _ _ _ _ pool_here Hp) as ->.
  specialize (Hlk li eq_refl). set (s1 := mkRState _ _ _) in Hs'.
  assert (Hi : invokes s1 [] s1) by constructor.
  assert (Hend : s' = set_data (key li) d s1 \/ exists d', s' = set_data k d' (set_data (key li) d s1)).
  { destruct (is_writable pool); [right; apply Hs' | by left]. }
  assert (Hlist' : list_kept program_id (ledger s') (validator_list p)).
  { eapply (list_after _ _ _ _ li h _ Hi); [done|constructor| |done|exact Hlist|by apply votes_filter|done].
    intros a. destruct Hend as [-> | [d' ->]]; by rewrite !set_data_owner. }
  assert (Ha : assets (ledger s') = assets (ledger s)) by (destruct Hend as [-> | [d' ->]]; by rewrite !assets_set_data).
  destruct (is_writable pool).
  - destruct Hs' as [Hst _]. eexists. split; [exact Hst|]. split; [done|]. rewrite reset_stale_total. lia.
  - exists p. split; [|split; [done|lia]]. rewrite Hs'. rewrite stored_pool_ne by (rewrite Hlk; apply not_list). apply pool_here.
Qed.

(** Settings change fields of the pool account, the total not among them. *)
Definition settings_run (accounts : list AccountInfo) (cmd : AdminCmd) (s' : RState) : Prop :=
  exists i0 i1 rest q q', accounts = i0 :: i1 :: rest /\ pool_at program_id (ledger s) (key i0) q /\
    admin_authority cmd q i1 /\ admin_effect program_id cmd (key i0) rest q q' /\
    only_pool_changed (key i0) q' s s'.
Definition wf_cmd (cmd : AdminCmd) : Prop :=
  match cmd with
  | CmdSetFee fee => wf fee_type_codec fee
  | CmdSetMaxValidatorStake m => wf (opt u64) m
  | CmdSetPreferredValidator _ vote => wf (opt pubkey) vote
  | _ => True
  end.

Lemma update_fee_stored q fee q' :
  wf stake_pool_codec q -> wf fee_type_codec fee -> update_fee q fee = Ok q' ->
  wf stake_pool_codec q' /\ total_lamports q' = total_lamports q.
Proof.
  intros Hw Hfee Hu.
  destruct fee; cbn [wf fee_type_codec] in Hfee; unfold update_fee in Hu;
    try (apply obind_Ok in Hu as ([] & _ & Hu)); apply Ok_inj in Hu as <-; (split; [|done]);
    try match goal with |- context [FutureEpoch_new ?x] =>
      assert (wf (future fee_codec) (FutureEpoch_new x)) by exact Hfee end; wf_pool_set.
Qed.

Lemma admin_effect_stored cmd k' rest q q' :
  admin_effect program_id cmd k' rest q q' -> wf stake_pool_codec q -> wf_cmd cmd -> Forall keyed rest ->
  wf stake_pool_codec q' /\ total_lamports q' = total_lamports q.
Proof.
  intros He Hw Hc Hk. pose proof (wf_head_key rest Hk) as Ho.
  destruct cmd as [|fee|m| |t|t vote]; cbn [admin_effect wf_cmd] in *.
  - destruct He as (m & f & rest' & -> & _ & ->). rewrite !List.Forall_cons_iff in Hk. destruct Hk as (? & ? & _).
    split; [wf_pool_set | done].
  - apply (update_fee_stored q fee); [done | done | apply He].
  - subst q'. split; [wf_pool_set | done].
  - destruct He as (i & rest' & -> & ->). rewrite List.Forall_cons_iff in Hk. destruct Hk as [? _].
    split; [wf_pool_set | done].
  - destruct t; subst q'; (split; [|done]); try wf_pool_set.
    assert (Hd : wf pubkey (default (fst (find_deposit_authority_program_address program_id k'))
      (option_map key (head rest)))) by (destruct (option_map key (head rest)); [exact Ho | apply pda_types]).
    wf_pool_set.
  - destruct t; subst q'; (split; [wf_pool_set | done]).
Qed.

Lemma settings_balanced accounts cmd s' :
  settings_run accounts cmd s' -> wf_cmd cmd -> Forall keyed accounts ->
  option_map key (head accounts) = Some k -> balanced s s' k p.
Proof.
  intros (i0 & i1 & rest & q & q' & -> & Hp & _ & He & _ & d & Hw & Hl) Hc Hkeys Hk.
  injection Hk as Hk. rewrite Hk in *. pose proof (pool_at_fun program_id _ _ _ _ pool_here Hp) as ->.
  do 2 apply Forall_inv_tail in Hkeys.
  destruct (admin_effect_stored _ _ _ _ _ He (pool_at_wf _ _ _ _ typed Hp) Hc Hkeys) as [Hq Et].
  assert (E : ledger s' = ledger (set_data k d s)) by exact Hl.
  exists q'. split; [|split].
  - unfold stored_pool. rewrite E. by apply stored_after_write.
  - rewrite E. eapply list_kept_same; [|apply booked]. apply set_data_same, not_list.
  - rewrite E, assets_set_data, Et. lia.
Qed.

(** ** Refreshing the total *)
Definition entry_accounts (v : ValidatorStakeInfo) : list Pubkey :=
  [source_address program_id k v SourceActive; source_address program_id k v SourceTransient].

(** Every entry of the list records at most what its two accounts hold, and no account
    of the pool is counted twice. *)
Definition records_covered : Prop :=
  exists h xs, list_at (mkRState (ledger s) [] []) (validator_list p) h xs /\
    NoDup (reserve_stake p :: flat_map entry_accounts xs) /\
    Forall (fun v =>
      active_stake_lamports v <= lamports_at (ledger s) (source_address program_id k v SourceActive) /\
      transient_stake_lamports v <= lamports_at (ledger s) (source_address program_id k v SourceTransient)) xs.

Lemma covered_total xs :
  NoDup (reserve_stake p :: flat_map entry_accounts xs) ->
  Forall (fun v =>
    active_stake_lamports v <= lamports_at (ledger s) (source_address program_id k v SourceActive) /\
    transient_stake_lamports v <= lamports_at (ledger s) (source_address program_id k v SourceTransient)) xs ->
  lamports_at (ledger s) (reserve_stake p) + total_stake xs <= assets (ledger s).
Proof.
  intros Hnd Hf.
  pose proof (assets_ge held (ledger s) _ typed Hnd) as Hge. rewrite zsum_cons in Hge.
  assert (total_stake xs <= zsum (lamports_at (ledger s)) (flat_map entry_accounts xs)).
  { clear Hnd Hge. induction Hf as [|v xs [H1 H2] _ IH]; [done|].
    cbn [flat_map entry_accounts app total_stake fold_right]. fold (total_stake xs).
    rewrite !zsum_cons. lia. }
  enough (Forall (fun a => held a = true) (reserve_stake p :: flat_map entry_accounts xs)) by (specialize (Hge ltac:(done)); lia).
  constructor; [apply reserve_held|]. clear Hnd Hf Hge H. induction xs as [|v xs IH]; [constructor|].
  cbn [flat_map entry_accounts app].
  repeat (constructor; [by apply (controls_source program_id held k p)|]). exact IH.
Qed.

Lemma update_pool_covered accounts s' :
  process_update_stake_pool_balance program_id accounts s = Ok (tt, s') -> option_map key (head accounts) = Some k ->
  records_covered -> exists p', stored_pool s' k = Ok p' /\ list_kept program_id (ledger s') (validator_list p) /\
    total_lamports p' <= assets (ledger s').
Proof.
  intros H Hk Hcov. pose proof (update_pool_list _ _ H Hk) as Hlk.
  destruct (booked_list _ _ Hlk) as (h & xs & Hh & Hnd & Hl).
  destruct (update_pool_run program_id accounts s tt s' h xs H typed Hl) as (pool & auth & li & re & fi & mi & tk & rest & q &
    c & meta & total & fee & view & s1 & -> & Hp & _ & Hre & _ & _ & _ & _ & Hmeta & Ht & _ & _ & Hi & _ & Hst & _ & Hlist & d & ->).
  injection Hk as Hk. rewrite Hk in *. pose proof (pool_at_fun program_id _ _ _ _ pool_here Hp) as ->.
  specialize (Hlk li eq_refl).
  assert (Hf : Forall (within held) (when (0 <? fee) (TokenMintTo (key tk) (key mi) (key fi) (key auth) fee))).
  { unfold when. destruct (_ <? _); withins. }
  eexists. split; [exact Hst|]. split.
  { eapply (list_after _ _ _ _ li h _ Hi); [done|by apply not_raw| |done|exact Hlist|done|done].
    intros a. by rewrite set_data_owner. }
  rewrite assets_set_data, (invokes_within held _ _ _ Hi Hf). cbn [ledger refreshed_pool set_pool_token_supply set_total_lamports total_lamports].
  specialize (Hl li eq_refl). rewrite Hlk in Hl. destruct Hcov as (h' & xs' & Hl' & Hnd' & Hrec).
  pose proof (list_at_fun _ _ _ _ _ _ Hl Hl') as ->.
  pose proof (covered_total xs Hnd' Hrec) as Hle. rewrite Ht, Hre. unfold lamports_at in Hle.
  assert (0 <= minimum_reserve_lamports meta); [|lia].
  pose proof (meta_types _ _ meta (proj2 (wf_ledger_at _ (key re) typed)) Hmeta eq_refl).
  unfold minimum_reserve_lamports, saturating_add, MINIMUM_RESERVE_LAMPORTS. lia.
Qed.

(** No second [Initialize]. *)
Ltac at_fresh _ :=
  lazymatch goal with D : negb (StakePool_is_uninitialized _) = false |- _ => apply negb_false_iff in D end.
Lemma initialize_refused accounts a b c d n r :
  process_initialize program_id accounts a b c d n s = Ok r -> option_map key (head accounts) = Some k -> False.
Proof.
  destruct r. intros H Hk. unfold process_initialize in H. open_to H at_fresh. injection Hk as Hk.
  match goal with E : try_from_slice_unchecked stake_pool_codec _ = Ok ?q, U : StakePool_is_uninitialized ?q = true |- _ =>
    rewrite Hk in E; destruct booked as [((_ & Hp & _) & _ & _) _]; cbn [ledger] in *;
    assert (q = p) by congruence; subst q end.
  destruct booked as [((_ & _ & Hv) & _ & _) _].
  unfold StakePool_is_uninitialized, StakePool_is_valid in *. by destruct (account_type p).
Qed.
End Calls.

(** ** The life of a backed pool *)
(** What is asked of the accounts of a call: who deposits is not the pool itself, and
    the total is refreshed from records that are covered. Calls that create or update
    token metadata count as steps from elsewhere: what the metadata program charges
    its payer is its own affair. *)
Definition sound_call (i : StakePoolInstruction) (accounts : list AccountInfo) (s : RState) (k : Pubkey)
    (p : StakePool) : Prop :=
  match i with
  | DepositSol _ | DepositSolWithSlippage _ _ => forall info, accounts !! 3%nat = Some info -> held (key info) = false
  | DepositStake | DepositStakeWithSlippage _ => forall info, accounts !! 4%nat = Some info -> held (key info) = false
  | UpdateStakePoolBalance => records_covered s k p
  | CreateTokenMetadata _ _ _ | UpdateTokenMetadata _ _ _ => False
  | _ => True
  end.

(** What a call leaves: the total refreshed within the assets, or grown with them. *)
Definition books_after (i : StakePoolInstruction) (l l' : Ledger) (p p' : StakePool) : Prop :=
  match i with
  | UpdateStakePoolBalance => total_lamports p' <= assets l'
  | _ => total_lamports p' - total_lamports p <= assets l' - assets l
  end.

Lemma call_books accounts i s k p s' :
  run_instruction program_id accounts i s = Ok (tt, s') -> wf_instruction i -> Forall keyed accounts ->
  option_map key (head accounts) = Some k -> wf_ledger (ledger s) -> in_books program_id (ledger s) k p ->
  controls program_id held k p -> sound_call i accounts s k p ->
  exists p', stored_pool s' k = Ok p' /\ list_kept program_id (ledger s') (validator_list p) /\
    books_after i (ledger s) (ledger s') p p'.
Proof.
  intros H Hi Hkeys Hk Hw Hb Hc Hs.
  assert (Hset : forall cmd, settings_run s accounts cmd s' -> wf_cmd cmd -> balanced s s' k p)
    by (intros; by eapply settings_balanced).
  destruct i; cbn [run_instruction wf_instruction sound_call books_after] in *; deex; try done;
    try (exfalso; by eapply initialize_refused);
    first
    [ by eapply update_pool_covered
    | by eapply deposit_sol_balanced | by eapply withdraw_sol_balanced
    | by eapply deposit_stake_balanced | by eapply withdraw_stake_balanced
    | by eapply decrease_balanced | by eapply increase_balanced
    | by eapply add_balanced | by eapply remove_balanced
    | by eapply update_list_balanced | by eapply cleanup_balanced
    | apply (Hset CmdSetManager); [by eapply set_manager_run | done]
    | eapply (Hset (CmdSetFee _)); [by eapply set_fee_run | done]
    | eapply (Hset (CmdSetMaxValidatorStake _)); [by eapply set_max_run | done]
    | apply (Hset CmdSetStaker); [by eapply set_staker_run | done]
    | eapply (Hset (CmdSetFundingAuthority _)); [by eapply set_funding_run | done]
    | eapply (Hset (CmdSetPreferredValidator _ _)); [by eapply set_preferred_run | done] ].
Qed.

(** One step of the chain as the pool [k] sees it: a call for it, or anything else that
    leaves its two accounts alone and takes nothing from what is held for it. *)
Inductive pool_step (k : Pubkey) : Ledger -> Ledger -> Prop :=
| PoolCall accounts input i l s' :
    Forall keyed accounts -> bytes input -> instruction_of input = Ok i ->
    option_map key (head accounts) = Some k ->
    (forall p, pool_at program_id l k p -> sound_call i accounts (mkRState l [] []) k p) ->
    process program_id accounts input (mkRState l [] []) = Ok (tt, s') -> pool_step k l (ledger s')
| PoolElsewhere l l' :
    (wf_ledger l -> wf_ledger l') -> same_account l l' k ->
    (forall p, pool_at program_id l k p -> same_account l l' (validator_list p)) ->
    assets l <= assets l' -> pool_step k l l'.

Lemma pool_call_books accounts input i l s' k p :
  process program_id accounts input (mkRState l [] []) = Ok (tt, s') -> program_id <> mpl_id ->
  Forall keyed accounts -> bytes input -> instruction_of input = Ok i -> option_map key (head accounts) = Some k ->
  wf_ledger l -> in_books program_id l k p -> controls program_id held k p ->
  sound_call i accounts (mkRState l [] []) k p ->
  wf_ledger (ledger s') /\ exists p', in_books program_id (ledger s') k p' /\ evolves p p' /\
    books_after i l (ledger s') p p'.
Proof.
  intros H Hm Hkeys Hb Hi Hk Hw Hbk Hc Hs.
  destruct (step_keeps program_id _ _ k p Hm (StepCall _ _ _ _ _ Hkeys Hb H) Hw (proj1 Hbk)) as (Hw' & p' & Hp' & He).
  split; [done|]. exists p'.
  assert (Hwi : wf_instruction i).
  { unfold instruction_of in Hi. apply ok_or_Ok in Hi. by apply (dec_all_Some instruction_codec) in Hi as [_ ?]. }
  unfold process in H. rewrite Hi in H. apply mbind_Ok in H as (i' & s1 & E & H). apply lift_Ok in E as [[= <-] ->].
  destruct (call_books _ _ _ k p _ H Hwi Hkeys Hk Hw Hbk Hc Hs) as (q & Hq & Hlist & Ha).
  assert (q = p') as -> by (destruct Hp' as [(_ & Hp' & _) _]; unfold stored_pool in Hq; congruence).
  split; [|done]. split; [done|]. assert (validator_list p' = validator_list p) as -> by apply He. done.
Qed.

Lemma evolved_controls k p p' : evolves p p' -> controls program_id held k p -> controls program_id held k p'.
Proof. intros He (H1 & H2). split; [|done]. assert (reserve_stake p' = reserve_stake p) as -> by apply He. done. Qed.

Lemma pool_step_keeps k l l' p :
  pool_step k l l' -> program_id <> mpl_id -> wf_ledger l -> in_books program_id l k p ->
  controls program_id held k p -> total_lamports p <= assets l ->
  wf_ledger l' /\ exists p', in_books program_id l' k p' /\ evolves p p' /\ total_lamports p' <= assets l'.
Proof.
  intros [accounts input i l0 s' Hkeys Hb Hi Hk Hs H | l0 l1 Hw' Hown Hlist Ha] Hm Hw Hbk Hc Ht.
  - destruct (pool_call_books _ _ _ _ _ _ _ H Hm Hkeys Hb Hi Hk Hw Hbk Hc) as (Hw' & p' & Hb' & He & Hbooks);
      [apply Hs, (proj1 Hbk)|].
    split; [done|]. exists p'. do 2 (split; [done|]). destruct i; cbn [books_after] in Hbooks; lia.
  - split; [by apply Hw'|]. exists p. split; [|split; [apply evolves_refl | lia]].
    destruct Hbk as [[Hp Hver] Hl]. specialize (Hlist p Hp). split; [|by eapply list_kept_same].
    split; [|done]. destruct Hown as [Eo Ed], Hp as (Ho & Hd & Hv). split; [congruence|]. split; [|done].
    cbn [ledger] in *. congruence.
Qed.

(** C2: a backed pool stays backed. [held] are the accounts held for the pool: its
    reserve, everything at an address derived for its stake, and none that anyone else
    deposits from. Every successful call for a pool in good order leaves the pool
    sound, its list a list with distinct vote accounts, and changes its recorded total
    by no more than the lamports held change; only UpdateStakePoolBalance sets the
    total anew, within the lamports held whenever the entries record no more than their
    accounts hold. So a pool whose total is covered by what is held for it stays so
    through any sequence of calls and of steps elsewhere. *)
Theorem backed_for_life k :
  program_id <> mpl_id ->
  (forall accounts input i l s' p,
     process program_id accounts input (mkRState l [] []) = Ok (tt, s') ->
     Forall keyed accounts -> bytes input -> instruction_of input = Ok i -> option_map key (head accounts) = Some k ->
     wf_ledger l -> in_books program_id l k p -> controls program_id held k p ->
     sound_call i accounts (mkRState l [] []) k p ->
     exists p', in_books program_id (ledger s') k p' /\ evolves p p' /\ books_after i l (ledger s') p p') /\
  (forall l l' p,
     rtc (pool_step k) l l' -> wf_ledger l -> in_books program_id l k p -> controls program_id held k p ->
     total_lamports p <= assets l ->
     exists p', in_books program_id l' k p' /\ evolves p p' /\ total_lamports p' <= assets l').
Proof.
  intros Hm. split.
  { intros accounts input i l s' p H Hkeys Hb Hi Hk Hw Hbk Hc Hs.
    by apply (pool_call_books _ _ _ _ _ _ _ H Hm Hkeys Hb Hi Hk Hw Hbk Hc Hs). }
  intros l l' p Hr. revert p. induction Hr as [l | l l1 l' Hs Hr IH]; intros p Hw Hbk Hc Ht.
  { exists p. split; [done|]. split; [apply evolves_refl | done]. }
  destruct (pool_step_keeps _ _ _ _ Hs Hm Hw Hbk Hc Ht) as (Hw1 & p1 & Hb1 & He1 & Ht1).
  destruct (IH p1 Hw1 Hb1) as (p2 & Hb2 & He2 & Ht2); [by eapply evolved_controls | done |].
  exists p2. split; [done|]. split; [by eapply evolves_trans | done].
Qed.
End Balanced.

(** ** The concrete runtime moves the lamports it is told to *)
Lemma toy_lamports_put k d l k' : lamports_at (RT := toy) (put_data k d l) k' = lamports_at (RT := toy) l k'.
Proof.
  unfold lamports_at, put_data. destruct (decide (k = k')) as [->|Hne].
  - rewrite account_at_insert. unfold toy_account, account_at. by destruct (l !! k').
  - by rewrite account_at_insert_ne.
Qed.
Lemma toy_lamports_move a b n l l' k :
  move_lamports a b n l = Ok l' ->
  lamports_at (RT := toy) l' k = lamports_at (RT := toy) l k + (at_key b k n - at_key a k n).
Proof.
  unfold move_lamports. destruct (_ && _); [|done]. destruct (fit 64 _) as [m|] eqn:E; [|done]. intros <-%Ok_inj.
  apply fit_Some in E as [-> _]. unfold lamports_at. change toy_account with (account_at (RT := toy)). unfold at_key.
  destruct (decide (b = k)) as [->|Hb].
  - rewrite account_at_insert, key_eqb_refl. cbn [acc_lamports]. destruct (decide (a = k)) as [->|Ha].
    + rewrite account_at_insert, key_eqb_refl. cbn [acc_lamports]. lia.
    + rewrite account_at_insert_ne by done. destruct (key_eqb a k) eqn:Ea; [by apply key_eqb_eq in Ea | lia].
  - rewrite account_at_insert_ne by done. destruct (key_eqb b k) eqn:Eb; [by apply key_eqb_eq in Eb|].
    destruct (decide (a = k)) as [->|Ha].
    + rewrite account_at_insert, key_eqb_refl. cbn [acc_lamports]. lia.
    + rewrite account_at_insert_ne by done. destruct (key_eqb a k) eqn:Ea; [by apply key_eqb_eq in Ea | lia].
Qed.
Lemma toy_lamports_mint m n l l' k :
  change_mint m n l = Ok l' -> lamports_at (RT := toy) l' k = lamports_at (RT := toy) l k.
Proof.
  unfold change_mint. destruct (dec mint_codec _) as [[v r]|]; [|done]. destruct (fit _ _); [|done].
  intros <-%Ok_inj. apply toy_lamports_put.
Qed.
Lemma toy_lamports_balance a m n l l' k :
  change_balance a m n l = Ok l' -> lamports_at (RT := toy) l' k = lamports_at (RT := toy) l k.
Proof.
  unfold change_balance. destruct (dec token_codec _) as [[[v w] r]|]; [|done]. destruct (key_eqb _ _); [|done].
  destruct (fit _ _); [|done]. intros <-%Ok_inj. apply toy_lamports_put.
Qed.

#[export] Instance toy_lamport_laws : LamportLaws toy.
Proof.
  split.
  - intros held ix infos sg l l' k H Hr. cbn [cpi_exec toy] in H. unfold toy_exec in H.
    destruct (existsb _ _) in H; [done|]. destruct (existsb _ _) in H; [done|]. destruct (negb _) in H; [done|].
    destruct ix; try done; cbn [toy_effect stake_effect transfer_of] in *;
    repeat match type of H with
    | obind _ _ = Ok _ => let x := fresh "x" in let Hx := fresh "Hx" in apply obind_Ok in H as (x & Hx & H)
    | (match ?st with _ => _ end) = Ok _ => destruct st
    end; try discriminate H; try (apply Ok_inj in H as <-);
    rewrite ?toy_lamports_put; try lia;
    try (by apply toy_lamports_move);
    try match goal with Hm : move_lamports _ _ _ _ = Ok _ |- _ => rewrite (toy_lamports_move _ _ _ _ _ k Hm) end;
    try (unfold lamports_at, toy_account, account_at; destruct (l !! _); done).
    + unfold lamports_at. destruct (decide (account = k)) as [->|Hne].
      * rewrite account_at_insert. unfold toy_account, account_at. cbn [acc_lamports]. destruct (l !! k); simpl; lia.
      * rewrite account_at_insert_ne by done. lia.
    + rewrite (toy_lamports_mint _ _ _ _ k H), (toy_lamports_balance _ _ _ _ _ k Hx). lia.
    + rewrite (toy_lamports_mint _ _ _ _ k H), (toy_lamports_balance _ _ _ _ _ k Hx). lia.
    + rewrite (toy_lamports_balance _ _ _ _ _ k H), (toy_lamports_balance _ _ _ _ _ k Hx). lia.
  - intros d st m Hd H Hm. cbn [unpack_stake_state toy] in H. unfold unpack_stake in H.
    destruct d as [|b d]; [done|]. apply (bytes_drop 1) in Hd. cbn [drop] in Hd. rewrite drop_0 in Hd.
    assert (Hmeta : forall x r, dec meta_codec d = Some (x, r) -> 0 <= rent_exempt_reserve x).
    { intros x r E. unfold meta_codec in E. cbn [dec] in E. open_fields. apply Some_inj in E. injection E as <- _.
      cbn [rent_exempt_reserve].
      match goal with W : wf u64 _ |- _ => unfold u64, uint in W; cbn [wf] in W; unfold in_range in W; lia end. }
    destruct b as [|[[]|[]|]|]; try done; try (injection H as <-; done).
    + destruct (dec meta_codec d) as [[x r]|] eqn:E; [|done]. destruct (dec delegation_codec r) as [[g r']|]; [|done].
      injection H as <-. injection Hm as <-. by apply (Hmeta _ _ eq_refl).
    + destruct (dec meta_codec d) as [[x r]|] eqn:E; [|done]. injection H as <-. injection Hm as <-. by apply (Hmeta _ _ eq_refl).
Qed.

(** The concrete pool takes a deposit, refreshes its total, and its reserve is given
    lamports by a stranger. *)
Definition toy_held (k : Pubkey) : bool := (2 ^ 255 <=? k) || (k =? toy_reserve_key).

Lemma toy_controls : controls (RT := toy) toy_program toy_held toy_pool_key toy_pool.
Proof.
  assert (Hd : forall seeds p, toy_held (toy_hash seeds p) = true).
  { intros seeds p. pose proof (toy_hash_upper seeds p). unfold toy_held. by replace (2 ^ 255 <=? _) with true by lia. }
  split; [reflexivity|]. split; [|split]; intros; apply Hd.
Qed.

Lemma toy_in_books : in_books (RT := toy) toy_program (ledger toy_state) toy_pool_key toy_pool.
Proof.
  split; [apply toy_pool_sound|]. split; [vm_compute; reflexivity|]. exists toy_header, [toy_entry].
  split; [reflexivity|]. split; [exact toy_list_at | apply list.NoDup_singleton].
Qed.

Definition toy_deposit_input : list Z := enc instruction_codec (DepositSol 1000000000).
Definition toy_deposit_call : outcome (unit * RState) :=
  process (RT := toy) toy_program toy_deposit_accounts toy_deposit_input (mkRState (ledger toy_state) [] []).
Definition toy_deposited : Ledger := ledger (final toy_state toy_deposit_call).
Definition toy_refresh_input : list Z := enc instruction_codec UpdateStakePoolBalance.
Definition toy_refresh_call : outcome (unit * RState) :=
  process (RT := toy) toy_program toy_balance_accounts toy_refresh_input (mkRState toy_deposited [] []).
Definition toy_refreshed : Ledger := ledger (final toy_state toy_refresh_call).
Definition toy_given : Ledger :=
  <[toy_reserve_key := mkAccount (acc_lamports (account_at (RT := toy) toy_refreshed toy_reserve_key) + 5)
      (acc_data (account_at (RT := toy) toy_refreshed toy_reserve_key)) toy_stake_program]> toy_refreshed.

Lemma toy_covered p :
  pool_at (RT := toy) toy_program toy_deposited toy_pool_key p ->
  records_covered (RT := toy) toy_program (mkRState toy_deposited [] []) toy_pool_key p.
Proof.
  intros (_ & Hp & _).
  assert (E : match try_from_slice_unchecked stake_pool_codec (acc_data (account_at (RT := toy) toy_deposited toy_pool_key)) with
    | Ok q => validator_list q = toy_list_key /\ reserve_stake q = toy_reserve_key | _ => False end)
    by (vm_compute; split; reflexivity).
  rewrite Hp in E. destruct E as [El Er]. unfold records_covered. rewrite El, Er.
  exists toy_header, [toy_entry]. split.
  { eapply list_at_same; [|exact toy_list_at]. vm_compute. reflexivity. }
  split.
  - apply (bool_decide_unpack _). vm_compute. exact I.
  - constructor; [|constructor]. vm_compute. split; discriminate.
Qed.

Lemma wf_ledger_insert l k n d o :
  wf_ledger l -> in_range 64 n -> bytes d -> wf_ledger (<[k := mkAccount n d o]> l).
Proof.
  intros Hw Hn Hd k' a. destruct (decide (k = k')) as [->|Hne].
  - rewrite lookup_insert_eq. by intros [= <-].
  - rewrite lookup_insert_ne by done. apply Hw.
Qed.

Lemma toy_backed_life : rtc (pool_step (RT := toy) toy_program toy_held toy_pool_key) (ledger toy_state) toy_given.
Proof.
  assert (H1 : is_ok toy_deposit_call = true) by (vm_compute; reflexivity).
  assert (H2 : is_ok toy_refresh_call = true) by (vm_compute; reflexivity).
  apply (rtc_l _ _ toy_deposited).
  { apply (PoolCall (RT := toy) toy_program toy_held toy_pool_key toy_deposit_accounts toy_deposit_input
      (DepositSol 1000000000) (ledger toy_state) (final toy_state toy_deposit_call)).
    - apply toy_keys. vm_compute. reflexivity.
    - apply bytesb_bytes. vm_compute. reflexivity.
    - vm_compute. reflexivity.
    - reflexivity.
    - intros p _ info [= <-]. vm_compute. reflexivity.
    - exact (ran toy_state toy_deposit_call H1). }
  apply (rtc_l _ _ toy_refreshed).
  { apply (PoolCall (RT := toy) toy_program toy_held toy_pool_key toy_balance_accounts toy_refresh_input
      UpdateStakePoolBalance toy_deposited (final toy_state toy_refresh_call)).
    - apply toy_keys. vm_compute. reflexivity.
    - apply bytesb_bytes. vm_compute. reflexivity.
    - vm_compute. reflexivity.
    - reflexivity.
    - apply toy_covered.
    - exact (ran toy_state toy_refresh_call H2). }
  apply rtc_once, PoolElsewhere.
  - intros Hw.
    assert (E : acc_lamports (account_at (RT := toy) toy_refreshed toy_reserve_key) = 2000000200) by (vm_compute; reflexivity).
    apply wf_ledger_insert; [exact Hw | rewrite E; unfold in_range; lia | by apply (wf_ledger_at (RT := toy))].
  - vm_compute. split; reflexivity.
  - intros p (_ & Hp & _).
    assert (E : match try_from_slice_unchecked stake_pool_codec (acc_data (account_at (RT := toy) toy_refreshed toy_pool_key)) with
      | Ok q => validator_list q = toy_list_key | _ => False end) by (vm_compute; reflexivity).
    cbn [ledger] in Hp. rewrite Hp in E. rewrite E. vm_compute. split; reflexivity.
  - assert (E : (assets (RT := toy) toy_held toy_refreshed <=? assets (RT := toy) toy_held toy_given) = true)
      by (vm_compute; reflexivity). lia.
Qed.

Lemma backed_for_life_witness :
  toy_program <> mpl_id /\
  exists p', in_books (RT := toy) toy_program toy_given toy_pool_key p' /\ evolves toy_pool p' /\
    total_lamports p' <= assets (RT := toy) toy_held toy_given.
Proof.
  split; [discriminate|].
  refine (proj2 (backed_for_life (RT := toy) toy_program toy_held toy_pool_key ltac:(discriminate)) _ _ _
    toy_backed_life toy_state_wf toy_in_books toy_controls _).
  assert (E : (total_lamports toy_pool <=? assets (RT := toy) toy_held (ledger toy_state)) = true) by (vm_compute; reflexivity).
  lia.
Defined.
