(* ===== verification/Builders.v ===== *)
(** * Building instructions (program/src/instruction.rs)
    The functions clients build instructions with: the accounts in the order the
    handlers read them, with who must sign and what is written, and the encoded
    instruction; the variants that derive the addresses from a pool, and the
    instructions of an epoch's update, one per chunk of the validator list. *)
From S2P Require Import Prelude Error Fees State Borsh Layout Runtime Checks Admin Metadata Instruction.

Record Instruction := mkInstruction {
  program : Pubkey;
  accounts : list AccountMeta;
  data : list Z
}.

(** The addresses of sysvars and of the stake configuration, and the instruction the
    stake program's builder makes to change an authority (without a custodian). *)
Class Sysvars := {
  rent_id : Pubkey;
  clock_id : Pubkey;
  stake_history_id : Pubkey;
  stake_config_id : Pubkey;
  authorize : Pubkey -> Pubkey -> Pubkey -> StakeAuthorizeKind -> Instruction
}.

(** lib.rs: validators per [UpdateValidatorListBalance]. *)
Definition MAX_VALIDATORS_TO_UPDATE : nat := 5.

(** [borsh::to_vec(&instruction).unwrap()]. *)
Definition to_vec (i : StakePoolInstruction) : list Z := enc instruction_codec i.

Section Builders.
Context `{RT : Runtime} `{SV : Sysvars}.

(** ** One instruction each *)
Definition initialize (program_id stake_pool manager staker stake_pool_withdraw_authority validator_list
    reserve_stake pool_mint manager_pool_account token_program_id : Pubkey)
    (deposit_authority : option Pubkey) (fee withdrawal_fee deposit_fee : Fee) (referral_fee
    max_validators : Z) : Instruction :=
  mkInstruction program_id
    ([meta_new stake_pool false; meta_new_readonly manager true; meta_new_readonly staker false;
     meta_new_readonly stake_pool_withdraw_authority false; meta_new validator_list false;
     meta_new_readonly reserve_stake false; meta_new pool_mint false; meta_new manager_pool_account false;
     meta_new_readonly token_program_id false]
     ++ match deposit_authority with Some a => [meta_new_readonly a true] | None => [] end)
    (to_vec (Initialize fee withdrawal_fee deposit_fee referral_fee max_validators)).

Definition add_validator_to_pool (program_id stake_pool staker reserve stake_pool_withdraw validator_list
    stake validator : Pubkey) (seed : option Z) : Instruction :=
  mkInstruction program_id
    [meta_new stake_pool false; meta_new_readonly staker true; meta_new reserve false;
     meta_new_readonly stake_pool_withdraw false; meta_new validator_list false; meta_new stake false;
     meta_new_readonly validator false; meta_new_readonly rent_id false; meta_new_readonly clock_id false;
     meta_new_readonly stake_history_id false; meta_new_readonly stake_config_id false;
     meta_new_readonly system_program_id false; meta_new_readonly stake_program_id false]
    (to_vec (AddValidatorToPool (default 0 seed))).

Definition remove_validator_from_pool (program_id stake_pool staker stake_pool_withdraw validator_list
    stake_account transient_stake_account : Pubkey) : Instruction :=
  mkInstruction program_id
    [meta_new stake_pool false; meta_new_readonly staker true; meta_new_readonly stake_pool_withdraw false;
     meta_new validator_list false; meta_new stake_account false; meta_new transient_stake_account false;
     meta_new_readonly clock_id false; meta_new_readonly stake_program_id false]
    (to_vec RemoveValidatorFromPool).

Definition decrease_validator_stake (program_id stake_pool staker stake_pool_withdraw_authority validator_list
    validator_stake transient_stake : Pubkey) (lamports transient_stake_seed : Z) : Instruction :=
  mkInstruction program_id
    [meta_new_readonly stake_pool false; meta_new_readonly staker true;
     meta_new_readonly stake_pool_withdraw_authority false; meta_new validator_list false;
     meta_new validator_stake false; meta_new transient_stake false; meta_new_readonly clock_id false;
     meta_new_readonly rent_id false; meta_new_readonly system_program_id false;
     meta_new_readonly stake_program_id false]
    (to_vec (DecreaseValidatorStake lamports transient_stake_seed)).

Definition decrease_additional_validator_stake (program_id stake_pool staker stake_pool_withdraw_authority
    validator_list reserve_stake validator_stake ephemeral_stake transient_stake : Pubkey) (lamports
    transient_stake_seed ephemeral_stake_seed : Z) : Instruction :=
  mkInstruction program_id
    [meta_new_readonly stake_pool false; meta_new_readonly staker true;
     meta_new_readonly stake_pool_withdraw_authority false; meta_new validator_list false;
     meta_new reserve_stake false; meta_new validator_stake false; meta_new ephemeral_stake false;
     meta_new transient_stake false; meta_new_readonly clock_id false; meta_new_readonly stake_history_id false;
     meta_new_readonly system_program_id false; meta_new_readonly stake_program_id false]
    (to_vec (DecreaseAdditionalValidatorStake lamports transient_stake_seed ephemeral_stake_seed)).

Definition decrease_validator_stake_with_reserve (program_id stake_pool staker stake_pool_withdraw_authority
    validator_list reserve_stake validator_stake transient_stake : Pubkey) (lamports transient_stake_seed : Z)
    : Instruction :=
  mkInstruction program_id
    [meta_new_readonly stake_pool false; meta_new_readonly staker true;
     meta_new_readonly stake_pool_withdraw_authority false; meta_new validator_list false;
     meta_new reserve_stake false; meta_new validator_stake false; meta_new transient_stake false;
     meta_new_readonly clock_id false; meta_new_readonly stake_history_id false;
     meta_new_readonly system_program_id false; meta_new_readonly stake_program_id false]
    (to_vec (DecreaseValidatorStakeWithReserve lamports transient_stake_seed)).

Definition increase_validator_stake (program_id stake_pool staker stake_pool_withdraw_authority validator_list
    reserve_stake transient_stake validator_stake validator : Pubkey) (lamports transient_stake_seed : Z)
    : Instruction :=
  mkInstruction program_id
    [meta_new_readonly stake_pool false; meta_new_readonly staker true;
     meta_new_readonly stake_pool_withdraw_authority false; meta_new validator_list false;
     meta_new reserve_stake false; meta_new transient_stake false; meta_new_readonly validator_stake false;
     meta_new_readonly validator false; meta_new_readonly clock_id false; meta_new_readonly rent_id false;
     meta_new_readonly stake_history_id false; meta_new_readonly stake_config_id false;
     meta_new_readonly system_program_id false; meta_new_readonly stake_program_id false]
    (to_vec (IncreaseValidatorStake lamports transient_stake_seed)).

Definition increase_additional_validator_stake (program_id stake_pool staker stake_pool_withdraw_authority
    validator_list reserve_stake ephemeral_stake transient_stake validator_stake validator : Pubkey) (lamports
    transient_stake_seed ephemeral_stake_seed : Z) : Instruction :=
  mkInstruction program_id
    [meta_new_readonly stake_pool false; meta_new_readonly staker true;
     meta_new_readonly stake_pool_withdraw_authority false; meta_new validator_list false;
     meta_new reserve_stake false; meta_new ephemeral_stake false; meta_new transient_stake false;
     meta_new_readonly validator_stake false; meta_new_readonly validator false;
     meta_new_readonly clock_id false; meta_new_readonly stake_history_id false;
     meta_new_readonly stake_config_id false; meta_new_readonly system_program_id false;
     meta_new_readonly stake_program_id false]
    (to_vec (IncreaseAdditionalValidatorStake lamports transient_stake_seed ephemeral_stake_seed)).

Definition redelegate (program_id stake_pool staker stake_pool_withdraw_authority validator_list reserve_stake
    source_validator_stake source_transient_stake ephemeral_stake destination_transient_stake
    destination_validator_stake validator : Pubkey) (lamports source_transient_stake_seed ephemeral_stake_seed
    destination_transient_stake_seed : Z) : Instruction :=
  mkInstruction program_id
    [meta_new_readonly stake_pool false; meta_new_readonly staker true;
     meta_new_readonly stake_pool_withdraw_authority false; meta_new validator_list false;
     meta_new reserve_stake false; meta_new source_validator_stake false; meta_new source_transient_stake false;
     meta_new ephemeral_stake false; meta_new destination_transient_stake false;
     meta_new_readonly destination_validator_stake false; meta_new_readonly validator false;
     meta_new_readonly clock_id false; meta_new_readonly stake_history_id false;
     meta_new_readonly stake_config_id false; meta_new_readonly system_program_id false;
     meta_new_readonly stake_program_id false]
    (to_vec (Redelegate lamports source_transient_stake_seed ephemeral_stake_seed
       destination_transient_stake_seed)).

Definition set_preferred_validator (program_id stake_pool_address staker validator_list_address : Pubkey)
    (validator_type : PreferredValidatorType) (validator_vote_address : option Pubkey) : Instruction :=
  mkInstruction program_id
    [meta_new stake_pool_address false; meta_new_readonly staker true;
     meta_new_readonly validator_list_address false]
    (to_vec (SetPreferredValidator validator_type validator_vote_address)).

(** ** From a pool and a vote account *)
Definition add_validator_to_pool_with_vote (program_id : Pubkey) (stake_pool : StakePool) (stake_pool_address
    vote_account_address : Pubkey) (seed : option Z) : Instruction :=
  let pool_withdraw_authority := fst (find_withdraw_authority_program_address program_id stake_pool_address) in
  let stake_account_address :=
    fst (find_stake_program_address program_id vote_account_address stake_pool_address seed) in
  add_validator_to_pool program_id stake_pool_address (staker stake_pool) (reserve_stake stake_pool)
    pool_withdraw_authority (validator_list stake_pool) stake_account_address vote_account_address seed.

Definition remove_validator_from_pool_with_vote (program_id : Pubkey) (stake_pool : StakePool)
    (stake_pool_address vote_account_address : Pubkey) (validator_stake_seed : option Z)
    (transient_stake_seed : Z) : Instruction :=
  let pool_withdraw_authority := fst (find_withdraw_authority_program_address program_id stake_pool_address) in
  let stake_account_address :=
    fst (find_stake_program_address program_id vote_account_address stake_pool_address validator_stake_seed) in
  let transient_stake_account :=
    fst (find_transient_stake_program_address program_id vote_account_address stake_pool_address transient_stake_seed) in
  remove_validator_from_pool program_id stake_pool_address (staker stake_pool) pool_withdraw_authority
    (validator_list stake_pool) stake_account_address transient_stake_account.

Definition increase_validator_stake_with_vote (program_id : Pubkey) (stake_pool : StakePool)
    (stake_pool_address vote_account_address : Pubkey) (lamports : Z) (validator_stake_seed : option Z)
    (transient_stake_seed : Z) : Instruction :=
  let pool_withdraw_authority := fst (find_withdraw_authority_program_address program_id stake_pool_address) in
  let transient_stake_address :=
    fst (find_transient_stake_program_address program_id vote_account_address stake_pool_address transient_stake_seed) in
  let validator_stake_address :=
    fst (find_stake_program_address program_id vote_account_address stake_pool_address validator_stake_seed) in
  increase_validator_stake program_id stake_pool_address (staker stake_pool) pool_withdraw_authority
    (validator_list stake_pool) (reserve_stake stake_pool) transient_stake_address validator_stake_address
    vote_account_address lamports transient_stake_seed.

Definition increase_additional_validator_stake_with_vote (program_id : Pubkey) (stake_pool : StakePool)
    (stake_pool_address vote_account_address : Pubkey) (lamports : Z) (validator_stake_seed : option Z)
    (transient_stake_seed ephemeral_stake_seed : Z) : Instruction :=
  let pool_withdraw_authority := fst (find_withdraw_authority_program_address program_id stake_pool_address) in
  let ephemeral_stake_address :=
    fst (find_ephemeral_stake_program_address program_id stake_pool_address ephemeral_stake_seed) in
  let transient_stake_address :=
    fst (find_transient_stake_program_address program_id vote_account_address stake_pool_address transient_stake_seed) in
  let validator_stake_address :=
    fst (find_stake_program_address program_id vote_account_address stake_pool_address validator_stake_seed) in
  increase_additional_validator_stake program_id stake_pool_address (staker stake_pool) pool_withdraw_authority
    (validator_list stake_pool) (reserve_stake stake_pool) ephemeral_stake_address transient_stake_address
    validator_stake_address vote_account_address lamports transient_stake_seed ephemeral_stake_seed.

Definition decrease_validator_stake_with_vote (program_id : Pubkey) (stake_pool : StakePool)
    (stake_pool_address vote_account_address : Pubkey) (lamports : Z) (validator_stake_seed : option Z)
    (transient_stake_seed : Z) : Instruction :=
  let pool_withdraw_authority := fst (find_withdraw_authority_program_address program_id stake_pool_address) in
  let validator_stake_address :=
    fst (find_stake_program_address program_id vote_account_address stake_pool_address validator_stake_seed) in
  let transient_stake_address :=
    fst (find_transient_stake_program_address program_id vote_account_address stake_pool_address transient_stake_seed) in
  decrease_validator_stake_with_reserve program_id stake_pool_address (staker stake_pool)
    pool_withdraw_authority (validator_list stake_pool) (reserve_stake stake_pool) validator_stake_address
    transient_stake_address lamports transient_stake_seed.

Definition decrease_additional_validator_stake_with_vote (program_id : Pubkey) (stake_pool : StakePool)
    (stake_pool_address vote_account_address : Pubkey) (lamports : Z) (validator_stake_seed : option Z)
    (transient_stake_seed ephemeral_stake_seed : Z) : Instruction :=
  let pool_withdraw_authority := fst (find_withdraw_authority_program_address program_id stake_pool_address) in
  let validator_stake_address :=
    fst (find_stake_program_address program_id vote_account_address stake_pool_address validator_stake_seed) in
  let ephemeral_stake_address :=
    fst (find_ephemeral_stake_program_address program_id stake_pool_address ephemeral_stake_seed) in
  let transient_stake_address :=
    fst (find_transient_stake_program_address program_id vote_account_address stake_pool_address transient_stake_seed) in
  decrease_additional_validator_stake program_id stake_pool_address (staker stake_pool) pool_withdraw_authority
    (validator_list stake_pool) (reserve_stake stake_pool) validator_stake_address ephemeral_stake_address
    transient_stake_address lamports transient_stake_seed ephemeral_stake_seed.

Definition increase_additional_validator_stake_with_list (program_id : Pubkey) (stake_pool : StakePool)
    (validator_list : ValidatorList) (stake_pool_address vote_account_address : Pubkey) (lamports
    ephemeral_stake_seed : Z) : outcome Instruction :=
  let* validator_info := ok_or (ValidatorList_find validator_list vote_account_address) InvalidInstructionData in
  let transient_stake_seed := transient_seed_suffix validator_info in
  let validator_stake_seed := NonZeroU32_new (validator_seed_suffix validator_info) in
  Ok (increase_additional_validator_stake_with_vote program_id stake_pool stake_pool_address vote_account_address
        lamports validator_stake_seed transient_stake_seed ephemeral_stake_seed).

Definition decrease_additional_validator_stake_with_list (program_id : Pubkey) (stake_pool : StakePool)
    (validator_list : ValidatorList) (stake_pool_address vote_account_address : Pubkey) (lamports
    ephemeral_stake_seed : Z) : outcome Instruction :=
  let* validator_info := ok_or (ValidatorList_find validator_list vote_account_address) InvalidInstructionData in
  let transient_stake_seed := transient_seed_suffix validator_info in
  let validator_stake_seed := NonZeroU32_new (validator_seed_suffix validator_info) in
  Ok (decrease_additional_validator_stake_with_vote program_id stake_pool stake_pool_address vote_account_address
        lamports validator_stake_seed transient_stake_seed ephemeral_stake_seed).

(** ** Updating the list *)
(** The accounts of one entry: its validator stake, its transient stake. *)
Definition entry_accounts (program_id stake_pool vote_account_address : Pubkey) (v : ValidatorStakeInfo)
    : list AccountMeta :=
  let validator_stake_account :=
    fst (find_stake_program_address program_id vote_account_address stake_pool
           (NonZeroU32_new (validator_seed_suffix v))) in
  let transient_stake_account :=
    fst (find_transient_stake_program_address program_id vote_account_address stake_pool
           (transient_seed_suffix v)) in
  [meta_new validator_stake_account false; meta_new transient_stake_account false].

Definition update_list_accounts
    (stake_pool stake_pool_withdraw_authority validator_list_address reserve_stake : Pubkey) : list AccountMeta :=
  [meta_new_readonly stake_pool false; meta_new_readonly stake_pool_withdraw_authority false;
   meta_new validator_list_address false; meta_new reserve_stake false; meta_new_readonly clock_id false;
   meta_new_readonly stake_history_id false; meta_new_readonly stake_program_id false].

Definition update_validator_list_balance (program_id stake_pool stake_pool_withdraw_authority
    validator_list_address reserve_stake : Pubkey) (validator_list : ValidatorList)
    (validator_vote_accounts : list Pubkey) (start_index : Z) (no_merge : bool) : Instruction :=
  mkInstruction program_id
    (update_list_accounts stake_pool stake_pool_withdraw_authority validator_list_address reserve_stake ++
     concat (map (fun vote_account_address =>
       match ValidatorList_find validator_list vote_account_address with
       | Some validator_stake_info => entry_accounts program_id stake_pool vote_account_address validator_stake_info
       | None => []
       end) validator_vote_accounts))
    (to_vec (UpdateValidatorListBalance start_index no_merge)).

(** [validators.get(start_index..start_index.saturating_add(len))]. *)
Definition subslice (validator_list : ValidatorList) (len start_index : Z) : option (list ValidatorStakeInfo) :=
  let end_index := saturating_add 64 start_index len in
  if (start_index <=? end_index) && (end_index <=? Z.of_nat (length (validators validator_list)))
  then Some (take (Z.to_nat (end_index - start_index)) (drop (Z.to_nat start_index) (validators validator_list)))
  else None.

Definition update_validator_list_balance_chunk (program_id stake_pool stake_pool_withdraw_authority
    validator_list_address reserve_stake : Pubkey) (validator_list : ValidatorList) (len start_index : Z)
    (no_merge : bool) : outcome Instruction :=
  let* validator_list_subslice := ok_or (subslice validator_list len start_index) InvalidInstructionData in
  let* start_index := (match fit 32 start_index with Some n => Ok n | None => Panic end) in
  Ok (mkInstruction program_id
    (update_list_accounts stake_pool stake_pool_withdraw_authority validator_list_address reserve_stake ++
     concat (map (fun v => entry_accounts program_id stake_pool (vote_account_address v) v) validator_list_subslice))
    (to_vec (UpdateValidatorListBalance start_index no_merge))).

Definition update_stale_validator_list_balance_chunk (program_id stake_pool stake_pool_withdraw_authority
    validator_list_address reserve_stake : Pubkey) (validator_list : ValidatorList) (len start_index : Z)
    (no_merge : bool) (current_epoch : Z) : outcome (option Instruction) :=
  let* validator_list_subslice := ok_or (subslice validator_list len start_index) InvalidInstructionData in
  if forallb (fun info => current_epoch <=? vsi_last_update_epoch info) validator_list_subslice then Ok None else
  let* i := update_validator_list_balance_chunk program_id stake_pool stake_pool_withdraw_authority
              validator_list_address reserve_stake validator_list len start_index no_merge in
  Ok (Some i).

Definition update_stake_pool_balance (program_id stake_pool withdraw_authority validator_list_storage
    reserve_stake manager_fee_account stake_pool_mint token_program_id : Pubkey) : Instruction :=
  mkInstruction program_id
    [meta_new stake_pool false; meta_new_readonly withdraw_authority false;
     meta_new validator_list_storage false; meta_new_readonly reserve_stake false;
     meta_new manager_fee_account false; meta_new stake_pool_mint false;
     meta_new_readonly token_program_id false]
    (to_vec UpdateStakePoolBalance).

Definition cleanup_removed_validator_entries (program_id stake_pool validator_list_storage : Pubkey)
    : Instruction :=
  mkInstruction program_id
    [meta_new stake_pool false; meta_new validator_list_storage false]
    (to_vec CleanupRemovedValidatorEntries).

(** [chunks(n)]: every [n] elements, the last chunk possibly shorter. *)
Fixpoint chunks_fuel {A} (fuel n : nat) (l : list A) : list (list A) :=
  match fuel, l with
  | S fuel, _ :: _ => take n l :: chunks_fuel fuel n (drop n l)
  | _, _ => []
  end.
Definition chunks {A} (n : nat) (l : list A) : list (list A) := chunks_fuel (length l) n l.

(** [enumerate().map(|(i, chunk)| f(i, chunk).unwrap()).collect()]: a panic when [f] fails. *)
Fixpoint collect_unwrapped {A B} (f : Z -> A -> outcome B) (i : Z) (l : list A) : outcome (list B) :=
  match l with
  | [] => Ok []
  | x :: l =>
      match f i x with
      | Ok b => let* bs := collect_unwrapped f (i + 1) l in Ok (b :: bs)
      | _ => Panic
      end
  end.

Definition final_instructions (program_id : Pubkey) (stake_pool : StakePool)
    (stake_pool_address withdraw_authority : Pubkey) : list Instruction :=
  [update_stake_pool_balance program_id stake_pool_address withdraw_authority (State.validator_list stake_pool)
     (reserve_stake stake_pool) (manager_fee_account stake_pool) (pool_mint stake_pool)
     (token_program_id stake_pool);
   cleanup_removed_validator_entries program_id stake_pool_address (State.validator_list stake_pool)].

Definition update_stake_pool (program_id : Pubkey) (stake_pool : StakePool) (validator_list : ValidatorList)
    (stake_pool_address : Pubkey) (no_merge : bool) : outcome (list Instruction * list Instruction) :=
  let withdraw_authority := fst (find_withdraw_authority_program_address program_id stake_pool_address) in
  let* update_list_instructions :=
    collect_unwrapped (fun i chunk =>
      update_validator_list_balance_chunk program_id stake_pool_address withdraw_authority
        (State.validator_list stake_pool) (reserve_stake stake_pool) validator_list (Z.of_nat (length chunk))
        (saturating_mul 64 i (Z.of_nat MAX_VALIDATORS_TO_UPDATE)) no_merge)
      0 (chunks MAX_VALIDATORS_TO_UPDATE (validators validator_list)) in
  Ok (update_list_instructions, final_instructions program_id stake_pool stake_pool_address withdraw_authority).

Definition update_stale_stake_pool (program_id : Pubkey) (stake_pool : StakePool)
    (validator_list : ValidatorList) (stake_pool_address : Pubkey) (no_merge : bool) (current_epoch : Z)
    : outcome (list Instruction * list Instruction) :=
  let withdraw_authority := fst (find_withdraw_authority_program_address program_id stake_pool_address) in
  let* update_list_instructions :=
    collect_unwrapped (fun i chunk =>
      update_stale_validator_list_balance_chunk program_id stake_pool_address withdraw_authority
        (State.validator_list stake_pool) (reserve_stake stake_pool) validator_list (Z.of_nat (length chunk))
        (saturating_mul 64 i (Z.of_nat MAX_VALIDATORS_TO_UPDATE)) no_merge current_epoch)
      0 (chunks MAX_VALIDATORS_TO_UPDATE (validators validator_list)) in
  Ok (omap id update_list_instructions,
      final_instructions program_id stake_pool stake_pool_address withdraw_authority).

(** ** Deposits *)
Definition deposit_stake_internal (program_id stake_pool validator_list_storage : Pubkey)
    (stake_pool_deposit_authority : option Pubkey) (stake_pool_withdraw_authority deposit_stake_address
    deposit_stake_withdraw_authority validator_stake_account reserve_stake_account pool_tokens_to
    manager_fee_account referrer_pool_tokens_account pool_mint token_program_id : Pubkey)
    (minimum_pool_tokens_out : option Z) : list Instruction :=
  let '(deposit_authority, deposit_authority_signs) :=
    match stake_pool_deposit_authority with
    | Some a => (a, true)
    | None => (fst (find_deposit_authority_program_address program_id stake_pool), false)
    end in
  [authorize deposit_stake_address deposit_stake_withdraw_authority deposit_authority AuthStaker;
   authorize deposit_stake_address deposit_stake_withdraw_authority deposit_authority AuthWithdrawer;
   mkInstruction program_id
     [meta_new stake_pool false; meta_new validator_list_storage false;
      meta_new_readonly deposit_authority deposit_authority_signs;
      meta_new_readonly stake_pool_withdraw_authority false; meta_new deposit_stake_address false;
      meta_new validator_stake_account false; meta_new reserve_stake_account false;
      meta_new pool_tokens_to false; meta_new manager_fee_account false;
      meta_new referrer_pool_tokens_account false; meta_new pool_mint false; meta_new_readonly clock_id false;
      meta_new_readonly stake_history_id false; meta_new_readonly token_program_id false;
      meta_new_readonly stake_program_id false]
     (to_vec match minimum_pool_tokens_out with
             | Some minimum_pool_tokens_out => DepositStakeWithSlippage minimum_pool_tokens_out
             | None => DepositStake
             end)].

Definition deposit_stake (program_id stake_pool validator_list_storage stake_pool_withdraw_authority
    deposit_stake_address deposit_stake_withdraw_authority validator_stake_account reserve_stake_account
    pool_tokens_to manager_fee_account referrer_pool_tokens_account pool_mint token_program_id : Pubkey)
    : list Instruction :=
  deposit_stake_internal program_id stake_pool validator_list_storage None stake_pool_withdraw_authority
    deposit_stake_address deposit_stake_withdraw_authority validator_stake_account reserve_stake_account
    pool_tokens_to manager_fee_account referrer_pool_tokens_account pool_mint token_program_id None.

Definition deposit_stake_with_slippage (program_id stake_pool validator_list_storage
    stake_pool_withdraw_authority deposit_stake_address deposit_stake_withdraw_authority
    validator_stake_account reserve_stake_account pool_tokens_to manager_fee_account
    referrer_pool_tokens_account pool_mint token_program_id : Pubkey) (minimum_pool_tokens_out : Z)
    : list Instruction :=
  deposit_stake_internal program_id stake_pool validator_list_storage None stake_pool_withdraw_authority
    deposit_stake_address deposit_stake_withdraw_authority validator_stake_account reserve_stake_account
    pool_tokens_to manager_fee_account referrer_pool_tokens_account pool_mint token_program_id
    (Some minimum_pool_tokens_out).

Definition deposit_stake_with_authority (program_id stake_pool validator_list_storage
    stake_pool_deposit_authority stake_pool_withdraw_authority deposit_stake_address
    deposit_stake_withdraw_authority validator_stake_account reserve_stake_account pool_tokens_to
    manager_fee_account referrer_pool_tokens_account pool_mint token_program_id : Pubkey)
    : list Instruction :=
  deposit_stake_internal program_id stake_pool validator_list_storage (Some stake_pool_deposit_authority)
    stake_pool_withdraw_authority deposit_stake_address deposit_stake_withdraw_authority validator_stake_account
    reserve_stake_account pool_tokens_to manager_fee_account referrer_pool_tokens_account pool_mint
    token_program_id None.

Definition deposit_stake_with_authority_and_slippage (program_id stake_pool validator_list_storage
    stake_pool_deposit_authority stake_pool_withdraw_authority deposit_stake_address
    deposit_stake_withdraw_authority validator_stake_account reserve_stake_account pool_tokens_to
    manager_fee_account referrer_pool_tokens_account pool_mint token_program_id : Pubkey)
    (minimum_pool_tokens_out : Z) : list Instruction :=
  deposit_stake_internal program_id stake_pool validator_list_storage (Some stake_pool_deposit_authority)
    stake_pool_withdraw_authority deposit_stake_address deposit_stake_withdraw_authority validator_stake_account
    reserve_stake_account pool_tokens_to manager_fee_account referrer_pool_tokens_account pool_mint
    token_program_id (Some minimum_pool_tokens_out).

Definition deposit_sol_internal (program_id stake_pool stake_pool_withdraw_authority reserve_stake_account
    lamports_from pool_tokens_to manager_fee_account referrer_pool_tokens_account pool_mint
    token_program_id : Pubkey) (sol_deposit_authority : option Pubkey) (lamports_in : Z)
    (minimum_pool_tokens_out : option Z) : Instruction :=
  mkInstruction program_id
    ([meta_new stake_pool false; meta_new_readonly stake_pool_withdraw_authority false;
      meta_new reserve_stake_account false; meta_new lamports_from true; meta_new pool_tokens_to false;
      meta_new manager_fee_account false; meta_new referrer_pool_tokens_account false;
      meta_new pool_mint false; meta_new_readonly system_program_id false;
      meta_new_readonly token_program_id false]
     ++ match sol_deposit_authority with Some a => [meta_new_readonly a true] | None => [] end)
    (to_vec match minimum_pool_tokens_out with
            | Some minimum_pool_tokens_out => DepositSolWithSlippage lamports_in minimum_pool_tokens_out
            | None => DepositSol lamports_in
            end).

Definition deposit_sol (program_id stake_pool stake_pool_withdraw_authority reserve_stake_account
    lamports_from pool_tokens_to manager_fee_account referrer_pool_tokens_account pool_mint
    token_program_id : Pubkey) (lamports_in : Z) : Instruction :=
  deposit_sol_internal program_id stake_pool stake_pool_withdraw_authority reserve_stake_account lamports_from
    pool_tokens_to manager_fee_account referrer_pool_tokens_account pool_mint token_program_id None lamports_in
    None.

Definition deposit_sol_with_slippage (program_id stake_pool stake_pool_withdraw_authority
    reserve_stake_account lamports_from pool_tokens_to manager_fee_account referrer_pool_tokens_account
    pool_mint token_program_id : Pubkey) (lamports_in minimum_pool_tokens_out : Z) : Instruction :=
  deposit_sol_internal program_id stake_pool stake_pool_withdraw_authority reserve_stake_account lamports_from
    pool_tokens_to manager_fee_account referrer_pool_tokens_account pool_mint token_program_id None lamports_in
    (Some minimum_pool_tokens_out).

Definition deposit_sol_with_authority (program_id stake_pool sol_deposit_authority
    stake_pool_withdraw_authority reserve_stake_account lamports_from pool_tokens_to manager_fee_account
    referrer_pool_tokens_account pool_mint token_program_id : Pubkey) (lamports_in : Z) : Instruction :=
  deposit_sol_internal program_id stake_pool stake_pool_withdraw_authority reserve_stake_account lamports_from
    pool_tokens_to manager_fee_account referrer_pool_tokens_account pool_mint token_program_id
    (Some sol_deposit_authority) lamports_in None.

Definition deposit_sol_with_authority_and_slippage (program_id stake_pool sol_deposit_authority
    stake_pool_withdraw_authority reserve_stake_account lamports_from pool_tokens_to manager_fee_account
    referrer_pool_tokens_account pool_mint token_program_id : Pubkey) (lamports_in
    minimum_pool_tokens_out : Z) : Instruction :=
  deposit_sol_internal program_id stake_pool stake_pool_withdraw_authority reserve_stake_account lamports_from
    pool_tokens_to manager_fee_account referrer_pool_tokens_account pool_mint token_program_id
    (Some sol_deposit_authority) lamports_in (Some minimum_pool_tokens_out).

(** ** Withdrawals *)
Definition withdraw_stake_internal (program_id stake_pool validator_list_storage stake_pool_withdraw
    stake_to_split stake_to_receive user_stake_authority user_transfer_authority user_pool_token_account
    manager_fee_account pool_mint token_program_id : Pubkey) (pool_tokens_in : Z)
    (minimum_lamports_out : option Z) : Instruction :=
  mkInstruction program_id
    [meta_new stake_pool false; meta_new validator_list_storage false;
     meta_new_readonly stake_pool_withdraw false; meta_new stake_to_split false; meta_new stake_to_receive false;
     meta_new_readonly user_stake_authority false; meta_new_readonly user_transfer_authority true;
     meta_new user_pool_token_account false; meta_new manager_fee_account false; meta_new pool_mint false;
     meta_new_readonly clock_id false; meta_new_readonly token_program_id false;
     meta_new_readonly stake_program_id false]
    (to_vec match minimum_lamports_out with
            | Some minimum_lamports_out => WithdrawStakeWithSlippage pool_tokens_in minimum_lamports_out
            | None => WithdrawStake pool_tokens_in
            end).

Definition withdraw_stake (program_id stake_pool validator_list_storage stake_pool_withdraw stake_to_split
    stake_to_receive user_stake_authority user_transfer_authority user_pool_token_account manager_fee_account
    pool_mint token_program_id : Pubkey) (pool_tokens_in : Z) : Instruction :=
  withdraw_stake_internal program_id stake_pool validator_list_storage stake_pool_withdraw stake_to_split
    stake_to_receive user_stake_authority user_transfer_authority user_pool_token_account manager_fee_account
    pool_mint token_program_id pool_tokens_in None.

Definition withdraw_stake_with_slippage (program_id stake_pool validator_list_storage stake_pool_withdraw
    stake_to_split stake_to_receive user_stake_authority user_transfer_authority user_pool_token_account
    manager_fee_account pool_mint token_program_id : Pubkey) (pool_tokens_in minimum_lamports_out : Z)
    : Instruction :=
  withdraw_stake_internal program_id stake_pool validator_list_storage stake_pool_withdraw stake_to_split
    stake_to_receive user_stake_authority user_transfer_authority user_pool_token_account manager_fee_account
    pool_mint token_program_id pool_tokens_in (Some minimum_lamports_out).

Definition withdraw_sol_internal (program_id stake_pool stake_pool_withdraw_authority user_transfer_authority
    pool_tokens_from reserve_stake_account lamports_to manager_fee_account pool_mint
    token_program_id : Pubkey) (sol_withdraw_authority : option Pubkey) (pool_tokens_in : Z)
    (minimum_lamports_out : option Z) : Instruction :=
  mkInstruction program_id
    ([meta_new stake_pool false; meta_new_readonly stake_pool_withdraw_authority false;
      meta_new_readonly user_transfer_authority true; meta_new pool_tokens_from false;
      meta_new reserve_stake_account false; meta_new lamports_to false; meta_new manager_fee_account false;
      meta_new pool_mint false; meta_new_readonly clock_id false; meta_new_readonly stake_history_id false;
      meta_new_readonly stake_program_id false; meta_new_readonly token_program_id false]
     ++ match sol_withdraw_authority with Some a => [meta_new_readonly a true] | None => [] end)
    (to_vec match minimum_lamports_out with
            | Some minimum_lamports_out => WithdrawSolWithSlippage pool_tokens_in minimum_lamports_out
            | None => WithdrawSol pool_tokens_in
            end).

Definition withdraw_sol (program_id stake_pool stake_pool_withdraw_authority user_transfer_authority
    pool_tokens_from reserve_stake_account lamports_to manager_fee_account pool_mint
    token_program_id : Pubkey) (pool_tokens_in : Z) : Instruction :=
  withdraw_sol_internal program_id stake_pool stake_pool_withdraw_authority user_transfer_authority
    pool_tokens_from reserve_stake_account lamports_to manager_fee_account pool_mint token_program_id None
    pool_tokens_in None.

Definition withdraw_sol_with_slippage (program_id stake_pool stake_pool_withdraw_authority
    user_transfer_authority pool_tokens_from reserve_stake_account lamports_to manager_fee_account pool_mint
    token_program_id : Pubkey) (pool_tokens_in minimum_lamports_out : Z) : Instruction :=
  withdraw_sol_internal program_id stake_pool stake_pool_withdraw_authority user_transfer_authority
    pool_tokens_from reserve_stake_account lamports_to manager_fee_account pool_mint token_program_id None
    pool_tokens_in (Some minimum_lamports_out).

Definition withdraw_sol_with_authority (program_id stake_pool sol_withdraw_authority
    stake_pool_withdraw_authority user_transfer_authority pool_tokens_from reserve_stake_account lamports_to
    manager_fee_account pool_mint token_program_id : Pubkey) (pool_tokens_in : Z) : Instruction :=
  withdraw_sol_internal program_id stake_pool stake_pool_withdraw_authority user_transfer_authority
    pool_tokens_from reserve_stake_account lamports_to manager_fee_account pool_mint token_program_id
    (Some sol_withdraw_authority) pool_tokens_in None.

Definition withdraw_sol_with_authority_and_slippage (program_id stake_pool sol_withdraw_authority
    stake_pool_withdraw_authority user_transfer_authority pool_tokens_from reserve_stake_account lamports_to
    manager_fee_account pool_mint token_program_id : Pubkey) (pool_tokens_in minimum_lamports_out : Z)
    : Instruction :=
  withdraw_sol_internal program_id stake_pool stake_pool_withdraw_authority user_transfer_authority
    pool_tokens_from reserve_stake_account lamports_to manager_fee_account pool_mint token_program_id
    (Some sol_withdraw_authority) pool_tokens_in (Some minimum_lamports_out).

(** ** Settings *)
Definition set_manager (program_id stake_pool manager new_manager new_fee_receiver : Pubkey) : Instruction :=
  mkInstruction program_id
    [meta_new stake_pool false; meta_new_readonly manager true; meta_new_readonly new_manager true;
     meta_new_readonly new_fee_receiver false]
    (to_vec SetManager).

Definition set_fee (program_id stake_pool manager : Pubkey) (fee : FeeType) : Instruction :=
  mkInstruction program_id
    [meta_new stake_pool false; meta_new_readonly manager true]
    (to_vec (SetFee fee)).

Definition set_staker (program_id stake_pool set_staker_authority new_staker : Pubkey) : Instruction :=
  mkInstruction program_id
    [meta_new stake_pool false; meta_new_readonly set_staker_authority true; meta_new_readonly new_staker false]
    (to_vec SetStaker).

Definition set_funding_authority (program_id stake_pool manager : Pubkey)
    (new_sol_deposit_authority : option Pubkey) (funding_type : FundingType) : Instruction :=
  mkInstruction program_id
    ([meta_new stake_pool false; meta_new_readonly manager true]
     ++ match new_sol_deposit_authority with Some a => [meta_new_readonly a false] | None => [] end)
    (to_vec (SetFundingAuthority funding_type)).

Definition update_token_metadata (program_id stake_pool manager pool_mint : Pubkey) (name symbol uri : list Z)
    : Instruction :=
  let stake_pool_withdraw_authority := fst (find_withdraw_authority_program_address program_id stake_pool) in
  let token_metadata := fst (find_metadata_account pool_mint) in
  mkInstruction program_id
    [meta_new_readonly stake_pool false; meta_new_readonly manager true;
     meta_new_readonly stake_pool_withdraw_authority false; meta_new token_metadata false;
     meta_new_readonly mpl_id false]
    (to_vec (UpdateTokenMetadata name symbol uri)).

Definition create_token_metadata (program_id stake_pool manager pool_mint payer : Pubkey) (name symbol
    uri : list Z) : Instruction :=
  let stake_pool_withdraw_authority := fst (find_withdraw_authority_program_address program_id stake_pool) in
  let token_metadata := fst (find_metadata_account pool_mint) in
  mkInstruction program_id
    [meta_new_readonly stake_pool false; meta_new_readonly manager true;
     meta_new_readonly stake_pool_withdraw_authority false; meta_new_readonly pool_mint false;
     meta_new payer true; meta_new token_metadata false; meta_new_readonly mpl_id false;
     meta_new_readonly system_program_id false]
    (to_vec (CreateTokenMetadata name symbol uri)).

Definition set_max_validator_stake (program_id stake_pool manager : Pubkey) (max_stake : option Z)
    : Instruction :=
  mkInstruction program_id
    [meta_new stake_pool false; meta_new_readonly manager true]
    (to_vec (SetMaxValidatorStake max_stake)).

End Builders.
