(* ===== verification/Built.v ===== *)
(** * What the built instructions do
    The instructions clients build are the ones the program runs: they decode, they
    carry the signatures the pool demands, the update of an epoch covers the whole
    list, and built deposits and withdrawals of SOL succeed. *)
From S2P Require Import Prelude Error Fees State PoolMath Borsh Layout BigVec Entries Runtime Checks Concrete Admin Funds ListAccess WithdrawStake UpdateList UpdatePool Metadata Instruction Processor Keeps Invariants Builders.

(** The account infos a transaction passes for the metas of an instruction; an account
    that another instruction of the transaction signs or writes may have more flags. *)
Definition carries (metas : list AccountMeta) (infos : list AccountInfo) : Prop :=
  Forall2 (fun m i => key i = meta_key m /\ (meta_signer m = true -> is_signer i = true) /\
                      (meta_writable m = true -> is_writable i = true)) metas infos.

Lemma carries_cons m ms infos :
  carries (m :: ms) infos ->
  exists i infos', infos = i :: infos' /\ key i = meta_key m /\ (meta_signer m = true -> is_signer i = true) /\
    (meta_writable m = true -> is_writable i = true) /\ carries ms infos'.
Proof. intros H. inversion H as [|? i ? infos' (? & ? & ?)]; subst. eauto 10. Qed.
Lemma carries_app ms ms' infos :
  carries (ms ++ ms') infos -> exists xs ys, infos = xs ++ ys /\ carries ms xs /\ carries ms' ys.
Proof. intros (xs & ys & ? & ? & ->)%Forall2_app_inv_l. eauto. Qed.

(** ** Chunks *)
Lemma chunks_fuel_concat {A} n (l : list A) fuel :
  (0 < n)%nat -> (length l <= fuel)%nat -> concat (chunks_fuel fuel n l) = l.
Proof.
  intros Hn. revert l. induction fuel as [|fuel IH]; intros [|x l] Hl; simpl in *; try done; try lia.
  rewrite IH; [apply (take_drop n (x :: l))|]. rewrite length_drop. simpl. lia.
Qed.
Lemma concat_chunks {A} n (l : list A) : (0 < n)%nat -> concat (chunks n l) = l.
Proof. intros Hn. by apply chunks_fuel_concat. Qed.

(** All chunks but the last are full. *)
Fixpoint full_chunks {A} (n : nat) (cs : list (list A)) : Prop :=
  match cs with
  | [] => True
  | c :: cs => (0 < length c <= n)%nat /\ (cs <> [] -> length c = n) /\ full_chunks n cs
  end.
Lemma chunks_fuel_full {A} n (l : list A) fuel : (0 < n)%nat -> full_chunks n (chunks_fuel fuel n l).
Proof.
  intros Hn. revert l. induction fuel as [|fuel IH]; intros [|x l]; try done. cbn [chunks_fuel full_chunks].
  rewrite length_take. split; [simpl; lia|]. split; [|apply IH]. intros Hne.
  assert (drop n (x :: l) <> []) by (intros E; rewrite E in Hne; by destruct fuel).
  assert (0 < length (drop n (x :: l)))%nat by (destruct (drop n (x :: l)); [done | simpl; lia]).
  rewrite length_drop in *. lia.
Qed.
Lemma full_chunks_chunks {A} n (l : list A) : (0 < n)%nat -> full_chunks n (chunks n l).
Proof. intros Hn. by apply chunks_fuel_full. Qed.
Lemma full_chunks_Forall {A} n (cs : list (list A)) :
  full_chunks n cs -> Forall (fun c => 0 < length c <= n)%nat cs.
Proof. induction cs as [|c cs IH]; intros H; constructor; [apply H | by apply IH, H]. Qed.

(** ** The instructions of an epoch's update *)
Section Update.
Context `{RT : Runtime} `{SV : Sysvars}.
Variable program_id : Pubkey.
Variables (p : StakePool) (k : Pubkey) (no_merge : bool).

(** The instruction for the entries [c] that start at position [start]. *)
Definition chunk_instruction (start : nat) (c : list ValidatorStakeInfo) : Instruction :=
  mkInstruction program_id
    (update_list_accounts k (fst (find_withdraw_authority_program_address program_id k))
       (validator_list p) (reserve_stake p) ++
     concat (map (fun v => entry_accounts program_id k (vote_account_address v) v) c))
    (enc instruction_codec (UpdateValidatorListBalance (Z.of_nat start) no_merge)).

(** [g] at every chunk and the position it starts at. *)
Fixpoint at_starts {B} (g : nat -> list ValidatorStakeInfo -> B) (start : nat)
    (cs : list (list ValidatorStakeInfo)) : list B :=
  match cs with [] => [] | c :: cs => g start c :: at_starts g (start + length c) cs end.

Definition stale_at (epoch : Z) (v : ValidatorStakeInfo) : bool := vsi_last_update_epoch v <? epoch.
(** The instruction of a chunk with an entry before [epoch]. *)
Definition stale_instruction (epoch : Z) (start : nat) (c : list ValidatorStakeInfo) : option Instruction :=
  if existsb (stale_at epoch) c then Some (chunk_instruction start c) else None.

Lemma subslice_chunk h ys c zs :
  in_range 32 (Z.of_nat (length (ys ++ c ++ zs))) ->
  subslice (mkValidatorList h (ys ++ c ++ zs)) (Z.of_nat (length c)) (Z.of_nat (length ys)) = Some c.
Proof.
  intros Hr. unfold in_range in Hr. rewrite !length_app in Hr. unfold subslice, saturating_add. cbn [validators].
  rewrite Z.min_l by lia. rewrite !length_app.
  replace (_ && _) with true by (symmetry; apply andb_true_iff; split; apply Z.leb_le; lia). f_equal.
  replace (Z.to_nat _) with (length c) by lia. rewrite Nat2Z.id, drop_app_length. apply take_app_length.
Qed.

Lemma chunk_built h ys c zs :
  in_range 32 (Z.of_nat (length (ys ++ c ++ zs))) -> c <> [] ->
  update_validator_list_balance_chunk program_id k (fst (find_withdraw_authority_program_address program_id k))
    (validator_list p) (reserve_stake p) (mkValidatorList h (ys ++ c ++ zs)) (Z.of_nat (length c))
    (Z.of_nat (length ys)) no_merge = Ok (chunk_instruction (length ys) c).
Proof.
  intros Hr Hc. unfold update_validator_list_balance_chunk. rewrite subslice_chunk by done. cbn [ok_or obind].
  unfold in_range in Hr. rewrite !length_app in Hr.
  destruct c as [|v c]; [done|]. simpl in Hr.
  rewrite fit_in_range by (unfold in_range; lia). reflexivity.
Qed.

Lemma stale_built h ys c zs e :
  in_range 32 (Z.of_nat (length (ys ++ c ++ zs))) -> c <> [] ->
  update_stale_validator_list_balance_chunk program_id k
    (fst (find_withdraw_authority_program_address program_id k)) (validator_list p) (reserve_stake p)
    (mkValidatorList h (ys ++ c ++ zs)) (Z.of_nat (length c)) (Z.of_nat (length ys)) no_merge e =
  Ok (stale_instruction e (length ys) c).
Proof.
  intros Hr Hc. unfold stale_instruction, update_stale_validator_list_balance_chunk. rewrite subslice_chunk by done.
  cbn [ok_or obind]. rewrite chunk_built by done. cbn [obind].
  replace (forallb _ c) with (negb (existsb (stale_at e) c)); [by destruct (existsb _ c)|]. clear.
  induction c as [|v c IH]; [done|]. cbn [existsb forallb]. rewrite negb_orb, IH. f_equal.
  unfold stale_at. rewrite Z.ltb_antisym. by rewrite negb_involutive.
Qed.

(** [collect_unwrapped] over the chunks of a list, at the position each starts at. *)
Lemma collect_chunks {B} (f : Z -> list ValidatorStakeInfo -> outcome B) (g : nat -> list ValidatorStakeInfo -> B)
    xs ys cs i :
  xs = ys ++ concat cs -> in_range 32 (Z.of_nat (length xs)) ->
  full_chunks MAX_VALIDATORS_TO_UPDATE cs -> (cs <> [] -> length ys = (i * MAX_VALIDATORS_TO_UPDATE)%nat) ->
  (forall j ys c zs, xs = ys ++ c ++ zs -> c <> [] -> length ys = (j * MAX_VALIDATORS_TO_UPDATE)%nat ->
     f (Z.of_nat j) c = Ok (g (length ys) c)) ->
  collect_unwrapped f (Z.of_nat i) cs =
  Ok (at_starts g (length ys) cs).
Proof.
  intros Hx Hr Hfull Hlen Hf. revert ys i Hx Hlen. induction cs as [|c cs IH]; intros ys i Hx Hlen; [done|].
  cbn [collect_unwrapped full_chunks concat] in *. destruct Hfull as (Hc & Hnext & Hfull).
  rewrite (Hf i ys c (concat cs)); [|exact Hx | intros ->; simpl in Hc; lia | by apply Hlen].
  replace (Z.of_nat i + 1) with (Z.of_nat (S i)) by lia.
  rewrite (IH Hfull (ys ++ c)); [|by rewrite <- app_assoc|].
  - cbn [obind at_starts]. by rewrite length_app.
  - intros Hne. rewrite length_app, Hlen, Hnext by done. lia.
Qed.

Lemma update_instructions h xs e :
  in_range 32 (Z.of_nat (length xs)) ->
  let cs := chunks MAX_VALIDATORS_TO_UPDATE xs in
  let finals := final_instructions program_id p k (fst (find_withdraw_authority_program_address program_id k)) in
  concat cs = xs /\ Forall (fun c => 0 < length c <= MAX_VALIDATORS_TO_UPDATE)%nat cs /\
  update_stake_pool program_id p (mkValidatorList h xs) k no_merge =
    Ok (at_starts chunk_instruction 0 cs, finals) /\
  update_stale_stake_pool program_id p (mkValidatorList h xs) k no_merge e =
    Ok (omap id (at_starts (stale_instruction e) 0 cs), finals).
Proof.
  intros Hr cs finals.
  assert (Hcs : concat cs = xs) by (apply concat_chunks; unfold MAX_VALIDATORS_TO_UPDATE; lia).
  assert (Hfull : full_chunks MAX_VALIDATORS_TO_UPDATE cs)
    by (apply full_chunks_chunks; unfold MAX_VALIDATORS_TO_UPDATE; lia).
  assert (Hpos : forall j ys c zs, xs = ys ++ c ++ zs -> c <> [] -> length ys = (j * MAX_VALIDATORS_TO_UPDATE)%nat ->
    saturating_mul 64 (Z.of_nat j) (Z.of_nat MAX_VALIDATORS_TO_UPDATE) = Z.of_nat (length ys)).
  { intros j ys c zs -> _ Hj. unfold saturating_mul, in_range in *. rewrite !length_app in Hr.
    rewrite Hj, Nat2Z.inj_mul in *. lia. }
  split; [exact Hcs|]. split; [by apply full_chunks_Forall|].
  unfold update_stake_pool, update_stale_stake_pool. cbn [validators]. fold cs. split.
  - rewrite (collect_chunks _ chunk_instruction xs [] cs 0); try done.
    intros j ys c zs Hx Hc Hj. rewrite (Hpos j ys c zs) by done. rewrite Hx in Hr |- *. by apply chunk_built.
  - rewrite (collect_chunks _ (stale_instruction e) xs [] cs 0); try done.
    intros j ys c zs Hx Hc Hj. rewrite (Hpos j ys c zs) by done. rewrite Hx in Hr |- *. by apply stale_built.
Qed.
(** C16: the instructions of an epoch's update cover the list. For a list a pool can
    hold, [update_stake_pool] never panics: it cuts the entries into chunks of at most
    five, in order and without gap or overlap, and builds for each the instruction
    that starts at the chunk's position and names the stake and transient accounts of
    its entries; [update_stale_stake_pool] builds exactly those of the chunks that
    hold an entry from before the epoch. Both end with the same two instructions. *)
Theorem update_stake_pool_covers h xs e :
  in_range 32 (Z.of_nat (length xs)) ->
  let cs := chunks MAX_VALIDATORS_TO_UPDATE xs in
  let finals := final_instructions program_id p k (fst (find_withdraw_authority_program_address program_id k)) in
  concat cs = xs /\ Forall (fun c => 0 < length c <= MAX_VALIDATORS_TO_UPDATE)%nat cs /\
  update_stake_pool program_id p (mkValidatorList h xs) k no_merge =
    Ok (at_starts chunk_instruction 0 cs, finals) /\
  update_stale_stake_pool program_id p (mkValidatorList h xs) k no_merge e =
    Ok (omap id (at_starts (stale_instruction e) 0 cs), finals).
Proof. apply update_instructions. Qed.
End Update.

(** ** Running them *)
Section Running.
Context `{RT : Runtime} `{!RuntimeLaws RT} `{SV : Sysvars}.
Abbreviation keyed := (fun i => in_range 256 (key i)).

(** The instructions succeed one after the other, each a call of the program. *)
Inductive runs : list Instruction -> Ledger -> Ledger -> Prop :=
| RunsNil l : runs [] l l
| RunsCons ix ixs l infos s' l' :
    carries (accounts ix) infos -> Forall keyed infos ->
    process (program ix) infos (data ix) (mkRState l [] []) = Ok (tt, s') ->
    runs ixs (ledger s') l' -> runs (ix :: ixs) l l'.

Lemma decodes i : wf_instruction i -> instruction_of (enc instruction_codec i) = Ok i.
Proof. intros Hi. unfold instruction_of. by rewrite (dec_all_enc instruction_codec). Qed.

Variable program_id : Pubkey.
Variables (p : StakePool) (k : Pubkey) (no_merge : bool) (e : Z).
(** All calls are made in the epoch [e]. *)
Hypothesis same_epoch : forall i a c, Clock_from_account_info i a = Ok c -> epoch c = e.

(** [y] is [v] brought up to the epoch [e], or [v] was already there. *)
Definition up_to_date (v y : ValidatorStakeInfo) : Prop :=
  (exists u, up_epoch u = e /\ refreshed u v y) \/ (y = v /\ e <= vsi_last_update_epoch v).

Lemma carried_pairs u c infos :
  up_pool_key u = k ->
  carries (concat (map (fun v => entry_accounts program_id k (vote_account_address v) v) c)) infos ->
  Forall2 (here program_id u) c (pairs infos).
Proof.
  intros Hu. revert infos. induction c as [|v c IH]; intros infos H; simpl in H.
  { by inversion H. }
  apply carries_cons in H as (i & infos1 & -> & Hi & _ & _ & H).
  apply carries_cons in H as (j & infos2 & -> & Hj & _ & _ & H). constructor; [|by apply IH].
  split; cbn [source_address fst snd]; by rewrite Hu.
Qed.

Lemma refreshed_epoch u v y : refreshed u v y -> vsi_last_update_epoch y = up_epoch u.
Proof. by intros (st & n & a & _ & _ & _ & _ & _ & ->). Qed.

(** One chunk: its entries are refreshed, the others stay. *)
Lemma chunk_runs start ys c zs infos l s' h :
  carries (accounts (chunk_instruction program_id p k no_merge start c)) infos -> start = length ys ->
  in_range 32 (Z.of_nat start) ->
  process program_id infos (data (chunk_instruction program_id p k no_merge start c)) (mkRState l [] []) = Ok (tt, s') ->
  wf_ledger l -> list_at (mkRState l [] []) (validator_list p) h (ys ++ c ++ zs) ->
  exists ms, Forall2 up_to_date c ms /\ list_at s' (validator_list p) h (ys ++ ms ++ zs).
Proof.
  intros Hc -> Hr H Hw Hl. unfold process in H. cbn [data chunk_instruction] in H. rewrite decodes in H by (split; [exact Hr | exact I]).
  unfold lift at 1, mbind at 1 in H. cbn [run_instruction] in H.
  cbn [accounts chunk_instruction] in Hc. apply carries_app in Hc as (heads & tails & -> & Hh & Ht).
  unfold update_list_accounts in Hh.
  do 7 (apply carries_cons in Hh as (? & ? & -> & ? & _ & _ & Hh)). inversion Hh; subst. cbn [app meta_key meta_new meta_new_readonly] in *.
  apply (update_list_run program_id _ _ _ _ _ _ h (ys ++ c ++ zs)) in H as
    (pool & auth & li & re & cl & hi & sp & infos & p' & u & ys' & ms & zs' & ms' & ixs & E & Hrest);
    [|exact Hw | exact Hr |
     intros li [= <-]; by match goal with K : key ?i = validator_list p |- list_at _ (key ?i) _ _ => rewrite K end].
  injection E as <- <- <- <- <- <- <- <-. skip 5 Hrest. destruct Hrest as [Hk Hrest]. skip 3 Hrest.
  destruct Hrest as ((cl & Hcl & Hep) & _ & Hxs & Hlen & Hpairs & Hms & Hl' & _).
  pose proof (carried_pairs u c tails ltac:(congruence) Ht) as Hhere.
  assert (ys' = ys /\ ms = c /\ zs' = zs) as (-> & -> & ->).
  { apply app_inj_1 in Hxs as [<- Hxs]; [|lia]. split; [done|].
    apply app_inj_1 in Hxs as [<- <-]; [done|]. rewrite <- Hpairs. by apply Forall2_length in Hhere. }
  exists ms'. split; [|by match goal with K : key ?i = validator_list p |- _ => rewrite <- K end].
  unfold clock_of in Hcl. mopen Hcl. minv_leaf Hcl.
  assert (Hu : up_epoch u = e) by (rewrite Hep; by eapply same_epoch).
  clear - Hhere Hms Hu. revert ms' Hms. induction Hhere as [|v b c bs Hv Hh IH]; intros ms' Hms.
  { by inversion Hms. }
  inversion Hms as [|? y ? ms1 [_ Hy] Hms1]; subst. constructor; [|by apply IH]. left. exists u. auto.
Qed.

Lemma selected_runs (sel : list ValidatorStakeInfo -> bool) cs ys l l' h :
  (forall c, sel c = false -> Forall (fun v => e <= vsi_last_update_epoch v) c) ->
  runs (omap id (at_starts (fun start c =>
    if sel c then Some (chunk_instruction program_id p k no_merge start c) else None) (length ys) cs)) l l' ->
  in_range 32 (Z.of_nat (length (ys ++ concat cs))) -> wf_ledger l ->
  list_at (mkRState l [] []) (validator_list p) h (ys ++ concat cs) ->
  exists ms, Forall2 up_to_date (concat cs) ms /\ list_at (mkRState l' [] []) (validator_list p) h (ys ++ ms).
Proof.
  intros Hsel. revert ys l. induction cs as [|c cs IH]; intros ys l H Hr Hw Hl; cbn [at_starts concat] in *.
  { inversion H; subst. by exists []. }
  assert (Hstart : in_range 32 (Z.of_nat (length ys))) by (unfold in_range in *; rewrite length_app in Hr; lia).
  assert (Hstep : exists l1 ms, Forall2 up_to_date c ms /\ wf_ledger l1 /\
    list_at (mkRState l1 [] []) (validator_list p) h (ys ++ ms ++ concat cs) /\
    runs (omap id (at_starts (fun start c =>
      if sel c then Some (chunk_instruction program_id p k no_merge start c) else None) (length ys + length c) cs)) l1 l').
  { destruct (sel c) eqn:Es; cbn [omap list_omap id] in H.
    - inversion H as [|? ? ? infos s' ? Hc Hk Hp Hrest]; subst.
      destruct (chunk_runs (length ys) ys c (concat cs) infos l s' h Hc eq_refl) as (ms & Hms & Hl'); try assumption.
      exists (ledger s'), ms. split; [done|]. split; [|done].
      apply (process_types _ _ _ _ _ _ Hp Hk); [|exact Hw]. apply (enc_bytes (c := instruction_codec)).
      exact (conj Hstart I).
    - exists l, c. split; [|done]. specialize (Hsel c Es). clear - Hsel.
      induction Hsel as [|v c Hv Hc IH]; constructor; [by right | exact IH]. }
  destruct Hstep as (l1 & ms & Hms & Hw1 & Hl1 & H1). pose proof (Forall2_length Hms) as Hlen.
  destruct (IH (ys ++ ms) l1) as (ms' & Hms' & Hl').
  - by rewrite length_app, <- Hlen.
  - unfold in_range in *. rewrite !length_app in *. lia.
  - exact Hw1.
  - by rewrite <- app_assoc.
  - exists (ms ++ ms'). split; [by apply Forall2_app|]. by rewrite app_assoc.
Qed.

Lemma omap_at_starts {B} (g : nat -> list ValidatorStakeInfo -> B) start cs :
  omap id (at_starts (fun st c => Some (g st c)) start cs) = at_starts g start cs.
Proof. revert start. induction cs as [|c cs IH]; intros start; [done|]. cbn. f_equal. apply IH. Qed.

(** C15: the built update brings the whole list up to date. When the instructions that
    [update_stake_pool] or [update_stale_stake_pool] built for the entries of the list
    succeed one after the other within the epoch, every entry of the list has been
    refreshed at that epoch or was there already: none is skipped, since each finds
    its own accounts, and none is out of date for [UpdateStakePoolBalance]. *)
Theorem update_brings_up_to_date h xs ixs finals l l' :
  update_stake_pool program_id p (mkValidatorList h xs) k no_merge = Ok (ixs, finals) \/
  update_stale_stake_pool program_id p (mkValidatorList h xs) k no_merge e = Ok (ixs, finals) ->
  in_range 32 (Z.of_nat (length xs)) -> wf_ledger l ->
  list_at (mkRState l [] []) (validator_list p) h xs -> runs ixs l l' ->
  exists ys, Forall2 up_to_date xs ys /\ list_at (mkRState l' [] []) (validator_list p) h ys /\
    Forall (fun y => e <= vsi_last_update_epoch y) ys.
Proof.
  intros Hb Hr Hw Hl Hruns.
  destruct (update_instructions program_id p k no_merge h xs e Hr) as (Hcs & _ & Hall & Hstale). cbv zeta in *.
  set (cs := chunks _ xs) in *.
  assert (H : exists sel, (forall c, sel c = false -> Forall (fun v => e <= vsi_last_update_epoch v) c) /\
    ixs = omap id (at_starts (fun start c =>
      if sel c then Some (chunk_instruction program_id p k no_merge start c) else None) 0 cs)).
  { destruct Hb as [Hb | Hb].
    - rewrite Hall in Hb. injection Hb as <- _. exists (fun _ => true). split; [done|]. by rewrite omap_at_starts.
    - rewrite Hstale in Hb. injection Hb as <- _. exists (existsb (stale_at e)). split; [|done].
      intros c. induction c as [|v c IH]; [done|]. cbn [existsb]. intros [Hv Hc]%orb_false_iff.
      constructor; [unfold stale_at in Hv; lia | by apply IH]. }
  destruct H as (sel & Hsel & ->).
  destruct (selected_runs sel cs [] l l' h Hsel Hruns) as (ys & Hys & Hl').
  - by rewrite Hcs.
  - done.
  - by rewrite Hcs.
  - rewrite Hcs in Hys. exists ys. split; [exact Hys|]. split; [exact Hl'|]. clear - Hys.
    induction Hys as [|v y xs ys Hv Hys IH]; constructor; [|exact IH].
    destruct Hv as [(u & Hu & Hv%refreshed_epoch) | [-> Hv]]; lia.
Qed.
End Running.

(** ** Instructions for a pool *)
Section ForPool.
Context `{RT : Runtime} `{SV : Sysvars}.
Variable program_id : Pubkey.
Variables (k : Pubkey) (p : StakePool).

(** What clients build for the pool [p] at [k], with the roles [p] names; the other
    accounts are free. *)
Inductive built : StakePoolInstruction -> Instruction -> Prop :=
| BuiltAddValidator vote seed :
    built (AddValidatorToPool (default 0 seed)) (add_validator_to_pool_with_vote program_id p k vote seed)
| BuiltRemoveValidator vote seed transient_seed :
    built RemoveValidatorFromPool (remove_validator_from_pool_with_vote program_id p k vote seed transient_seed)
| BuiltDecreaseDeprecated auth li va tr n seed :
    built (DecreaseValidatorStake n seed) (decrease_validator_stake program_id k (staker p) auth li va tr n seed)
| BuiltDecrease vote n seed transient_seed :
    built (DecreaseValidatorStakeWithReserve n transient_seed)
      (decrease_validator_stake_with_vote program_id p k vote n seed transient_seed)
| BuiltDecreaseAdditional vote n seed transient_seed ephemeral_seed :
    built (DecreaseAdditionalValidatorStake n transient_seed ephemeral_seed)
      (decrease_additional_validator_stake_with_vote program_id p k vote n seed transient_seed ephemeral_seed)
| BuiltIncrease vote n seed transient_seed :
    built (IncreaseValidatorStake n transient_seed)
      (increase_validator_stake_with_vote program_id p k vote n seed transient_seed)
| BuiltIncreaseAdditional vote n seed transient_seed ephemeral_seed :
    built (IncreaseAdditionalValidatorStake n transient_seed ephemeral_seed)
      (increase_additional_validator_stake_with_vote program_id p k vote n seed transient_seed ephemeral_seed)
| BuiltSetPreferred li ty vote :
    built (SetPreferredValidator ty vote) (set_preferred_validator program_id k (staker p) li ty vote)
| BuiltUpdateList auth li re vl n start no_merge ix :
    update_validator_list_balance_chunk program_id k auth li re vl n start no_merge = Ok ix ->
    built (UpdateValidatorListBalance start no_merge) ix
| BuiltUpdatePool auth li re fee mint token :
    built UpdateStakePoolBalance (update_stake_pool_balance program_id k auth li re fee mint token)
| BuiltCleanup li :
    built CleanupRemovedValidatorEntries (cleanup_removed_validator_entries program_id k li)
| BuiltDepositStake li deposit_auth auth stake stake_auth va re to fee referrer mint token minimum ix :
    stake_deposit_authority p = default (fst (find_deposit_authority_program_address program_id k)) deposit_auth ->
    List.nth_error (deposit_stake_internal program_id k li deposit_auth auth stake stake_auth va re to fee referrer
      mint token minimum) 2 = Some ix ->
    built (match minimum with Some m => DepositStakeWithSlippage m | None => DepositStake end) ix
| BuiltDepositSol auth re from to fee referrer mint token n minimum :
    built (match minimum with Some m => DepositSolWithSlippage n m | None => DepositSol n end)
      (deposit_sol_internal program_id k auth re from to fee referrer mint token (sol_deposit_authority p) n minimum)
| BuiltWithdrawStake li auth from to user_auth user_transfer tokens fee mint token n minimum :
    built (match minimum with Some m => WithdrawStakeWithSlippage n m | None => WithdrawStake n end)
      (withdraw_stake_internal program_id k li auth from to user_auth user_transfer tokens fee mint token n minimum)
| BuiltWithdrawSol auth user tokens re to fee mint token n minimum :
    built (match minimum with Some m => WithdrawSolWithSlippage n m | None => WithdrawSol n end)
      (withdraw_sol_internal program_id k auth user tokens re to fee mint token (sol_withdraw_authority p) n minimum)
| BuiltSetManager new fee : built SetManager (set_manager program_id k (manager p) new fee)
| BuiltSetFee fee : built (SetFee fee) (set_fee program_id k (manager p) fee)
| BuiltSetStaker authority new :
    authority = staker p \/ authority = manager p -> built SetStaker (set_staker program_id k authority new)
| BuiltSetFunding new ty :
    built (SetFundingAuthority ty) (set_funding_authority program_id k (manager p) new ty)
| BuiltUpdateMetadata mint name symbol uri :
    built (UpdateTokenMetadata name symbol uri) (update_token_metadata program_id k (manager p) mint name symbol uri)
| BuiltCreateMetadata mint payer name symbol uri :
    built (CreateTokenMetadata name symbol uri)
      (create_token_metadata program_id k (manager p) mint payer name symbol uri)
| BuiltSetMax max_stake :
    built (SetMaxValidatorStake max_stake) (set_max_validator_stake program_id k (manager p) max_stake).

Lemma built_shape i ix :
  built i ix -> program ix = program_id /\ data ix = to_vec i /\ exists b r, accounts ix = mkAccountMeta k false b :: r.
Proof.
  destruct 1; try (split; [reflexivity|]; split; [reflexivity|]; eexists _, _; reflexivity).
  - unfold update_validator_list_balance_chunk in H. apply obind_Ok in H as (c & _ & H).
    apply obind_Ok in H as (n' & Hn & H). apply Ok_inj in H as <-. destruct (fit 32 start) eqn:E; [|done].
    apply Ok_inj in Hn as <-. apply fit_Some in E as [-> _].
    split; [reflexivity|]. split; [reflexivity|]. eexists _, _; reflexivity.
  - unfold deposit_stake_internal in H0. destruct deposit_auth; cbn in H0; injection H0 as <-;
      (split; [reflexivity|]; split; [reflexivity|]; eexists _, _; reflexivity).
Qed.

Lemma carries_at metas infos n m :
  carries metas infos -> metas !! n = Some m ->
  exists i, infos !! n = Some i /\ key i = meta_key m /\ (meta_signer m = true -> is_signer i = true).
Proof. intros H Hm. destruct (Forall2_lookup_l _ _ _ _ _ H Hm) as (i & ? & ? & ? & _). eauto. Qed.
Lemma carries_in metas infos m :
  carries metas infos -> In m metas ->
  exists i, In i infos /\ key i = meta_key m /\ (meta_signer m = true -> is_signer i = true).
Proof.
  intros H Hm. apply list_elem_of_In, list_elem_of_lookup in Hm as [n Hm].
  destruct (carries_at _ _ _ _ H Hm) as (i & Hi & ?). exists i. split; [|done].
  apply list_elem_of_In. by eapply list_elem_of_lookup_2.
Qed.

Lemma carried_second metas infos a w (ok : Pubkey -> Prop) :
  carries metas infos -> metas !! 1%nat = Some (mkAccountMeta a true w) -> ok a -> second_signs infos ok.
Proof. intros H Hm Ha. destruct (carries_at _ _ _ _ H Hm) as (i & Hi & Hk & Hs). exists i. rewrite Hk. auto. Qed.
Lemma carried_authority metas infos o :
  carries (metas ++ match o with Some a => [meta_new_readonly a true] | None => [] end) infos ->
  signed_by_all o infos.
Proof.
  intros H a ->. destruct (carries_in _ _ (meta_new_readonly a true) H) as (i & Hi & Hk & Hs); eauto.
  apply in_app_iff. right. by left.
Qed.

(** C17: what clients build is what the program runs. Every instruction built for a
    pool goes to the program, decodes to the instruction it was built for, and names
    the pool first; infos that carry its metas carry what the program demands before
    it acts on the pool: the staker's, the manager's or the funding authority's
    signature, and the pool's stake deposit authority in its place. *)
Theorem built_authorized i ix infos :
  built i ix -> carries (accounts ix) infos ->
  program ix = program_id /\ (wf_instruction i -> instruction_of (data ix) = Ok i) /\
  (exists info, head infos = Some info /\ key info = k) /\ authorized i p infos.
Proof.
  intros Hb Hc. destruct (built_shape i ix Hb) as (Hp & Hd & b & r & Ha). split; [exact Hp|].
  split; [intros Hi; rewrite Hd; by apply decodes|]. split.
  { rewrite Ha in Hc. apply carries_cons in Hc as (j & js & -> & Hk & _). by exists j. }
  clear Hp Hd Ha. destruct Hb; cbn [authorized];
    try exact I; try (eapply carried_second; [exact Hc | reflexivity | by auto]).
  - unfold deposit_stake_internal in H0.
    assert (Hi : exists info, infos !! 2%nat = Some info /\ key info = stake_deposit_authority p).
    { rewrite H. destruct deposit_auth; cbn in H0; injection H0 as <-; cbn [accounts] in Hc;
        (destruct (carries_at _ _ 2%nat _ Hc eq_refl) as (j & Hj & Hk & _); by exists j). }
    by destruct minimum.
  - apply carried_authority in Hc. by destruct minimum.
  - by destruct minimum.
  - apply carried_authority in Hc. by destruct minimum.
Qed.
End ForPool.

(** ** At the concrete runtime *)
Definition info_of (m : AccountMeta) : AccountInfo := mkInfo (meta_key m) (meta_signer m) (meta_writable m).
Lemma carries_own metas : carries metas (info_of <$> metas).
Proof. induction metas as [|m metas IH]; constructor; [done | exact IH]. Qed.

#[export] Instance toy_sysvars : Sysvars := {|
  rent_id := 101; clock_id := 102; stake_history_id := 103; stake_config_id := 104;
  authorize stake authority new kind :=
    mkInstruction toy_stake_program [meta_new stake false; meta_new_readonly authority true]
      (match kind with AuthStaker => 0 | AuthWithdrawer => 1 end :: enc pubkey new)
|}.

(** Seven entries make two chunks. *)
Lemma update_stake_pool_covers_witness :
  exists i1 i2 finals,
    update_stake_pool (RT := toy) toy_program toy_pool (mkValidatorList toy_header (replicate 7 toy_entry)) toy_pool_key
      false = Ok ([i1; i2], finals).
Proof.
  destruct (update_stake_pool_covers (RT := toy) toy_program toy_pool toy_pool_key false toy_header
    (replicate 7 toy_entry) 6) as (_ & _ & H & _); [unfold in_range; simpl; lia|].
  eexists _, _, _. exact H.
Defined.

(** The built update of the concrete pool, run. *)
Definition toy_update_instruction : Instruction :=
  chunk_instruction (RT := toy) toy_program toy_pool toy_pool_key false 0 [toy_entry].
Definition toy_built_update_run : outcome (unit * RState) :=
  process (RT := toy) toy_program (info_of <$> accounts toy_update_instruction) (data toy_update_instruction)
    (mkRState (ledger toy_state) [] []).

Lemma update_brings_up_to_date_witness :
  is_ok toy_built_update_run = true /\
  exists ys, Forall2 (up_to_date 5) [toy_entry] ys /\
    list_at (RT := toy) (mkRState (ledger (final toy_state toy_built_update_run)) [] []) toy_list_key toy_header ys /\
    Forall (fun y => 5 <= vsi_last_update_epoch y) ys.
Proof.
  assert (H : is_ok toy_built_update_run = true) by (vm_compute; reflexivity). split; [exact H|].
  refine (update_brings_up_to_date (RT := toy) toy_program toy_pool toy_pool_key false 5 _ toy_header [toy_entry]
    [toy_update_instruction] _ (ledger toy_state) _ (or_introl _) _ toy_state_wf toy_list_at _).
  - by intros i a c [= <-].
  - reflexivity.
  - unfold in_range. simpl. lia.
  - apply (RunsCons _ _ _ (info_of <$> accounts toy_update_instruction) (final toy_state toy_built_update_run)).
    + apply carries_own.
    + apply toy_keys. vm_compute. reflexivity.
    + exact (ran toy_state toy_built_update_run H).
    + apply RunsNil.
Defined.

(** The staker's increase for the concrete validator. *)
Lemma built_authorized_witness :
  let ix := increase_validator_stake_with_vote (RT := toy) toy_program toy_pool toy_pool_key toy_vote 1000 None 3 in
  instruction_of (data ix) = Ok (IncreaseValidatorStake 1000 3) /\
  authorized (IncreaseValidatorStake 1000 3) toy_pool (info_of <$> accounts ix).
Proof.
  destruct (built_authorized (RT := toy) toy_program toy_pool_key toy_pool (IncreaseValidatorStake 1000 3)
    (increase_validator_stake_with_vote (RT := toy) toy_program toy_pool toy_pool_key toy_vote 1000 None 3) _
    (BuiltIncrease toy_program toy_pool_key toy_pool toy_vote 1000 None 3) (carries_own _))
    as (_ & H & _ & Ha).
  split; [|exact Ha]. apply H. split; (split; [discriminate | reflexivity]).
Defined.
