(* ===== verification/Live.v ===== *)
(** * Deposits and withdrawals of SOL that succeed
    No state of a sound pool blocks its users: a deposit or withdrawal of SOL built for
    the pool succeeds whenever the pool is up to date, the amounts are in range and the
    programs it invokes accept exactly the calls it makes: the instructions with the
    accounts and the signer seeds passed. *)
From S2P Require Import Prelude Error Fees State PoolMath Borsh Layout BigVec Entries Runtime Checks Concrete Funds ListAccess WithdrawStake UpdatePool Metadata Instruction Processor Keeps Invariants Builders Built.

(** ** Running forward *)
Definition live (m : M unit) (s : RState) (P : RState -> Prop) : Prop := exists s', m s = Ok (tt, s') /\ P s'.

Lemma live_bind {A} (m : M A) (k : A -> M unit) s a s1 P :
  m s = Ok (a, s1) -> live (k a) s1 P -> live (mbind m k) s P.
Proof. intros H (s' & Hk & HP). exists s'. split; [|done]. apply mbind_Ok. eauto. Qed.
Lemma mbind_run {A B} (m : M A) (k : A -> M B) s a s1 : m s = Ok (a, s1) -> mbind m k s = k a s1.
Proof. unfold mbind. by intros ->. Qed.
Lemma mbind_assoc_run (m n : M unit) (f : unit -> M unit) s P :
  live (mbind (do! m in n) f) s P -> live (do! m in mbind n f) s P.
Proof. unfold live, mbind. by destruct (m s) as [[]| |]. Qed.
Lemma lift_run {A} (o : outcome A) a s : o = Ok a -> lift o s = Ok (a, s).
Proof. by intros ->. Qed.
Lemma get_or_run {A} (o : option A) e a s : o = Some a -> get_or o e s = Ok (a, s).
Proof. by intros ->. Qed.
Lemma fail_if_run c e s : c = false -> fail_if c e s = Ok (tt, s).
Proof. by intros ->. Qed.
Lemma fail_if_sp_run c e s : c = false -> fail_if_sp c e s = Ok (tt, s).
Proof. by intros ->. Qed.
Lemma other_key a b : a = b -> negb (key_eqb a b) = false.
Proof. intros ->. by rewrite key_eqb_refl. Qed.

(** An invocation with the accounts it is given, with who signed the transaction, and
    the seeds the program signs with. *)
Record Call := mkCall { call_ix : Cpi; call_infos : list AccountInfo; call_seeds : list (list (list Z)) }.

Section Live.
Context `{RT : Runtime} `{!RuntimeLaws RT} `{SV : Sysvars}.
Variables (program_id k : Pubkey) (p : StakePool).
Context `{!ProgramLaws RT program_id}.

Section Invoking.
(** The accounts the handler holds borrowed while it invokes. *)
Variable held : list Pubkey.

(** The invoked programs accept these calls one after the other. *)
Fixpoint willing (calls : list Call) (l : Ledger) : Prop :=
  match calls with
  | [] => True
  | c :: calls => exists l', cpi_exec held (call_ix c) (call_infos c) (call_seeds c) l = Ok l' /\ willing calls l'
  end.

(** The program's accounts of [l] are untouched in [l']. *)
Definition same_own (l l' : Ledger) : Prop :=
  forall x, acc_owner (account_at l x) = program_id ->
    acc_owner (account_at l' x) = program_id /\ acc_data (account_at l' x) = acc_data (account_at l x).
Lemma same_own_trans l1 l2 l3 : same_own l1 l2 -> same_own l2 l3 -> same_own l1 l3.
Proof. intros H1 H2 x Hx. destruct (H1 x Hx) as [O1 D1]. destruct (H2 x O1) as [O2 D2]. split; congruence. Qed.

(** And what the handler holds as a whole. *)
Definition same_held (l l' : Ledger) : Prop := forall x, In x held -> account_at l' x = account_at l x.

(** A computation that does nothing but make these calls, if the programs are willing. *)
Definition goes (m : M unit) (calls : list Call) : Prop :=
  forall rest s, borrowed s = held -> willing (calls ++ rest) (ledger s) ->
    exists s', m s = Ok (tt, s') /\ borrowed s' = held /\ willing rest (ledger s') /\
      same_own (ledger s) (ledger s') /\ same_held (ledger s) (ledger s').

Lemma goes_invoke ix infos sg :
  (forall a b c, ix <> RawInstruction a b c) -> goes (invoke_signed ix infos sg) [mkCall ix infos sg].
Proof.
  intros Hraw rest s Hb (l' & Hl & Hw'). cbn [call_ix call_infos call_seeds] in Hl.
  exists (mkRState l' held (cpi_log s ++ [ix])). unfold invoke_signed. rewrite Hb, Hl. split; [done|].
  split; [done|]. split; [done|]. split.
  - intros x Hx. apply (own_accounts _ _ _ _ _ _ x Hl); [|exact Hx]. intros a b c ->. by destruct (Hraw a b c).
  - intros x Hx. cbn [ledger]. unfold account_at. by rewrite (cpi_borrowed _ _ _ _ _ _ _ Hl Hx).
Qed.
Lemma goes_nothing : goes (mret tt) [].
Proof. intros rest s Hb Hw. exists s. by repeat split. Qed.
Lemma goes_when b m ixs : goes m ixs -> goes (mwhen b m) (if b then ixs else []).
Proof. destruct b; [done | intros _; apply goes_nothing]. Qed.
Lemma goes_then m n xs ys : goes m xs -> goes n ys -> goes (do! m in n) (xs ++ ys).
Proof.
  intros Hm Hn rest s Hb Hw. rewrite <- app_assoc in Hw.
  destruct (Hm _ _ Hb Hw) as (s1 & H1 & Hb1 & Hw1 & Hs1 & Hh1).
  destruct (Hn _ _ Hb1 Hw1) as (s2 & H2 & Hb2 & Hw2 & Hs2 & Hh2).
  exists s2. rewrite (mbind_run _ _ _ _ _ H1). split; [done|]. split; [done|]. split; [done|].
  split; [by apply (same_own_trans _ _ _ Hs1)|]. intros x Hx. by rewrite Hh2, Hh1.
Qed.
Lemma live_goes m ixs rest (f : unit -> M unit) s P :
  goes m ixs -> borrowed s = held -> willing (ixs ++ rest) (ledger s) ->
  (forall s', borrowed s' = held -> willing rest (ledger s') -> same_own (ledger s) (ledger s') ->
     same_held (ledger s) (ledger s') -> live (f tt) s' P) ->
  live (mbind m f) s P.
Proof.
  intros Hm Hb Hw Hf. destruct (Hm _ _ Hb Hw) as (s1 & H1 & Hb1 & Hw1 & Hs & Hh). by eapply live_bind; [exact H1 | apply Hf].
Qed.

End Invoking.

(** ** Storing changed amounts *)
Lemma length_enc_amounts l t :
  length (enc stake_pool_codec (set_total_lamports l (set_pool_token_supply t p))) = length (enc stake_pool_codec p).
Proof.
  unfold stake_pool_codec. cbn [enc]. rewrite !length_app. reflexivity.
Qed.

(** A pool no longer than the one its account holds can be stored there. *)
Lemma write_pool_run info l0 s q :
  pool_at program_id l0 k p -> wf_ledger l0 -> key info = k -> is_borrowed k s = false ->
  same_own l0 (ledger s) -> wf stake_pool_codec q -> StakePool_is_valid q = true ->
  (length (enc stake_pool_codec q) <= length (enc stake_pool_codec p))%nat ->
  exists d, write_data stake_pool_codec info q s = Ok (tt, set_data k d s) /\
    pool_at program_id (ledger (set_data k d s)) k q.
Proof.
  intros (Ho0 & Hp & _) Hw Hk Hb Hsame Hq Hv Hlen. destruct (Hsame k Ho0) as [Ho Hd].
  unfold stored_pool in Hp. cbn [ledger] in Hp. pose proof (proj2 (wf_ledger_at l0 k Hw)) as Hbytes.
  assert (Hfit : exists d, to_writer stake_pool_codec q (acc_data (account_at (ledger s) k)) = Ok d).
  { eexists. apply to_writer_Ok. split; [|reflexivity]. rewrite Hd.
    unfold try_from_slice_unchecked in Hp. destruct (dec stake_pool_codec _) as [[p1 r]|] eqn:E; [|done].
    apply Ok_inj in Hp as ->. apply enc_dec in E as [E _]; [|done]. rewrite E, length_app. lia. }
  destruct Hfit as [d Hfit]. exists d. split.
  - unfold write_data. by rewrite Hk, Hb, Hfit.
  - split; [by rewrite set_data_at|]. split; [|exact Hv]. exact (stored_after_write k q d s Hq Hfit).
Qed.

(** The pool with other amounts is one. *)
Lemma live_store info l0 s l t P :
  pool_at program_id l0 k p -> wf_ledger l0 -> key info = k -> is_borrowed k s = false ->
  same_own l0 (ledger s) -> in_range 64 l -> in_range 64 t ->
  (forall s', pool_at program_id (ledger s') k (set_total_lamports l (set_pool_token_supply t p)) -> P s') ->
  live (write_data stake_pool_codec info (set_total_lamports l (set_pool_token_supply t p))) s P.
Proof.
  intros Hp Hw Hk Hb Hs Hl Ht HP.
  pose proof (try_from_slice_unchecked_wf _ _ _ (proj2 (wf_ledger_at l0 k Hw)) (proj1 (proj2 Hp))) as Hwf.
  destruct (write_pool_run info l0 s (set_total_lamports l (set_pool_token_supply t p)) Hp Hw Hk Hb Hs)
    as (d & Hd & Hat); [by apply wf_set_amounts | apply Hp | by rewrite length_enc_amounts |].
  exists (set_data k d s). auto.
Qed.

(** ** What a user needs *)
(** The pool at [k] is [p], up to date, with the withdraw authority [auth] and the mint [m]. *)
Record ready (l : Ledger) (auth : Pubkey) (m : MintView) : Prop := {
  ready_types : wf_ledger l;
  ready_pool : pool_at program_id l k p;
  ready_authority : create_program_address (authority_signature_seeds k AUTHORITY_WITHDRAW
                      (stake_withdraw_bump_seed p)) program_id = Ok auth;
  ready_epoch : exists c, Clock_get = Ok c /\ epoch c <= last_update_epoch p;
  ready_mint : unpack_mint (acc_data (account_at l (pool_mint p))) = Ok m
}.

Section Ready.
Variables (l : Ledger) (auth : Pubkey) (m : MintView).
Hypothesis Hready : ready l auth m.
Abbreviation s0 := (mkRState l [] []).

Lemma load_stake_pool_run i : key i = k -> load_stake_pool program_id i s0 = Ok (p, s0).
Proof.
  intros Hk. destruct (ready_pool _ _ _ Hready) as (Ho & Hp & Hv). unfold load_stake_pool.
  rewrite (mbind_run (check_account_owner i program_id) _ _ tt s0).
  2:{ unfold check_account_owner. rewrite (mbind_run (owner_of i) _ _ program_id s0).
      - apply fail_if_run, other_key. reflexivity.
      - rewrite <- Ho, <- Hk. reflexivity. }
  rewrite (mbind_run (borrow_data i) _ _ (acc_data (account_at l k)) s0) by (rewrite <- Hk; reflexivity).
  rewrite (mbind_run _ _ _ _ _ (lift_run _ _ _ Hp)).
  by rewrite (mbind_run _ _ _ _ _ (fail_if_sp_run _ _ _ (f_equal negb Hv))).
Qed.
Lemma check_authority_run s : check_authority_withdraw p auth program_id k s = Ok (tt, s).
Proof.
  unfold check_authority_withdraw, check_program_derived_authority.
  rewrite (mbind_run _ _ _ _ _ (lift_run _ _ _ (ready_authority _ _ _ Hready))). apply fail_if_run, other_key. reflexivity.
Qed.
Lemma check_mint_run i : key i = pool_mint p -> check_mint p i s0 = Ok (mint_decimals m, s0).
Proof.
  intros Hk. pose proof (ready_mint _ _ _ Hready) as Hm. unfold check_mint.
  rewrite (mbind_run _ _ _ _ _ (fail_if_sp_run _ _ s0 (other_key _ _ Hk))).
  rewrite (mbind_run (try_borrow_data i) _ _ (acc_data (account_at l (pool_mint p))) s0) by (rewrite <- Hk; reflexivity).
  by rewrite (mbind_run _ _ _ _ _ (lift_run _ _ _ Hm)).
Qed.
End Ready.

Lemma check_sol_authority_run o e rest s :
  carries (match o with Some a => [meta_new_readonly a true] | None => [] end) rest ->
  check_sol_authority o e (head rest) s = Ok (tt, s).
Proof.
  destruct o as [a|]; [|done]. intros (i & r & -> & Hk & Hs & _)%carries_cons. cbn [check_sol_authority head].
  rewrite (mbind_run _ _ _ _ _ (lift_run (ok_or (Some i) _) i s eq_refl)).
  rewrite (mbind_run _ _ _ _ _ (fail_if_sp_run _ _ s (other_key _ _ (eq_sym Hk)))).
  apply fail_if_run. by rewrite (Hs eq_refl).
Qed.

Lemma process_run i infos s :
  wf_instruction i -> process program_id infos (to_vec i) s = run_instruction program_id infos i s.
Proof. intros Hi. unfold process. by rewrite (mbind_run _ _ _ _ _ (lift_run _ _ s (decodes i Hi))). Qed.

End Live.

(** [go_live]: the next read-only step of a handler. *)
Ltac run_step :=
  first
    [ reflexivity | eassumption
    | eapply load_stake_pool_run; eassumption
    | eapply check_mint_run; eassumption
    | eapply check_authority_run; eassumption
    | apply check_sol_authority_run; assumption
    | apply fail_if_run; first [by apply other_key | assumption | lia]
    | apply lift_run; eassumption
    | apply get_or_run; eassumption ].
Ltac go_live := eapply live_bind; [run_step|]; cbv beta iota.

(** [take_info H i K]: the next info [i] with its key. *)
Ltac take_info H i K :=
  let r := fresh "r" in apply carries_cons in H as (i & r & -> & K & _ & _ & H);
  cbn [meta_key meta_new meta_new_readonly] in K.

Section LiveFunds.
Context `{RT : Runtime} `{!RuntimeLaws RT} `{SV : Sysvars}.
Variables (program_id k : Pubkey) (p : StakePool).
Context `{!ProgramLaws RT program_id}.

Lemma credit_pool_run n t s :
  in_range 64 (pool_token_supply p + t) -> in_range 64 (total_lamports p + n) ->
  credit_pool p n t s =
    Ok (set_total_lamports (total_lamports p + n) (set_pool_token_supply (pool_token_supply p + t) p), s).
Proof.
  intros Ht Hn. unfold credit_pool, checked_add.
  rewrite (mbind_run _ _ _ _ _ (get_or_run _ _ _ s (fit_in_range _ _ Ht))). cbv zeta.
  by rewrite (mbind_run _ _ _ _ _ (get_or_run _ _ _ s (fit_in_range _ _ Hn))).
Qed.
Lemma debit_pool_run n t s :
  in_range 64 (pool_token_supply p - t) -> in_range 64 (total_lamports p - n) ->
  debit_pool p n t s =
    Ok (set_total_lamports (total_lamports p - n) (set_pool_token_supply (pool_token_supply p - t) p), s).
Proof.
  intros Ht Hn. unfold debit_pool, checked_sub.
  rewrite (mbind_run _ _ _ _ _ (get_or_run _ _ _ s (fit_in_range _ _ Ht))). cbv zeta.
  by rewrite (mbind_run _ _ _ _ _ (get_or_run _ _ _ s (fit_in_range _ _ Hn))).
Qed.

(** ** Depositing *)
(** The calls of a deposit of [n] lamports, split as [d], made with the accounts of the
    instruction: the depositor signed the transaction, the pool signs the mints. *)
Definition deposit_calls (infos : list AccountInfo) (n : Z) (d : DepositTokens) : list Call :=
  match infos with
  | _ :: auth :: reserve :: from :: to :: fee :: referrer :: mint :: _ =>
      let mint_to dest amount :=
        mkCall (TokenMintTo (token_program_id p) (pool_mint p) (key dest) (key auth) amount) [mint; dest; auth]
          [authority_signature_seeds k AUTHORITY_WITHDRAW (stake_withdraw_bump_seed p)] in
      mkCall (SystemTransfer (key from) (reserve_stake p) n) [from; reserve] [] ::
      mint_to to (tokens_user d) ::
      (if 0 <? tokens_manager d then [mint_to fee (tokens_manager d)] else []) ++
      (if 0 <? tokens_referral d then [mint_to referrer (tokens_referral d)] else [])
  | _ => []
  end.

Lemma goes_deposit i0 i1 i2 i3 i4 i5 i6 i7 i8 i9 rest n d :
  key i2 = reserve_stake p -> key i9 = token_program_id p -> key i7 = pool_mint p ->
  goes program_id [] (do! sol_transfer i3 i2 n in
                      mint_deposit_tokens k i9 i7 i4 i5 i6 i1 (stake_withdraw_bump_seed p) d)
    (deposit_calls (i0 :: i1 :: i2 :: i3 :: i4 :: i5 :: i6 :: i7 :: i8 :: i9 :: rest) n d).
Proof.
  intros K2 K9 K7. unfold deposit_calls, mint_deposit_tokens, token_mint_to, sol_transfer, invoke.
  rewrite <- K2, <- K9, <- K7.
  apply (goes_then _ [] _ _ [_]); [by apply goes_invoke|]. apply (goes_then _ [] _ _ [_]); [by apply goes_invoke|].
  apply goes_then; apply goes_when; by apply goes_invoke.
Qed.

(** C13: nobody can block a deposit. For a pool that is up to date, the [DepositSol] or
    [DepositSolWithSlippage] that [deposit_sol_internal] builds with the pool's
    accounts and its deposit authority succeeds whenever the split exists and meets
    the user's minimum, the new totals fit 64 bits and the system and token programs
    accept the transfer and the mints with the accounts and the signatures they are
    given ([deposit_calls]); the pool is then credited. *)
Theorem deposit_sol_succeeds auth m from to referrer n minimum d l infos :
  let ix := deposit_sol_internal program_id k auth (reserve_stake p) from to (manager_fee_account p) referrer
              (pool_mint p) (token_program_id p) (sol_deposit_authority p) n minimum in
  ready program_id k p l auth m -> carries (accounts ix) infos -> in_range 64 n -> from_option (in_range 64) True minimum ->
  deposit_sol_tokens p n minimum = Ok d ->
  in_range 64 (pool_token_supply p + tokens_new d) -> in_range 64 (total_lamports p + n) ->
  willing [] (deposit_calls infos n d) l ->
  exists s', process program_id infos (data ix) (mkRState l [] []) = Ok (tt, s') /\
    pool_at program_id (ledger s') k
      (set_total_lamports (total_lamports p + n) (set_pool_token_supply (pool_token_supply p + tokens_new d) p)).
Proof.
  intros ix Hready Hc Hn Hm Hd Hsupply Htotal Hwill. cbv zeta in *. unfold ix in *. clear ix.
  assert (E : process program_id infos (data (deposit_sol_internal program_id k auth (reserve_stake p) from to
    (manager_fee_account p) referrer (pool_mint p) (token_program_id p) (sol_deposit_authority p) n minimum))
    (mkRState l [] []) = process_deposit_sol program_id infos n minimum (mkRState l [] [])).
  { cbn [data deposit_sol_internal]. destruct minimum; (rewrite process_run by done; reflexivity). }
  rewrite E. clear E. cbn [accounts deposit_sol_internal] in Hc. apply carries_app in Hc as (xs & rest & -> & Hc & Hrest).
  take_info Hc i0 K0. take_info Hc i1 K1. take_info Hc i2 K2. take_info Hc i3 K3. take_info Hc i4 K4.
  take_info Hc i5 K5. take_info Hc i6 K6. take_info Hc i7 K7. take_info Hc i8 K8. take_info Hc i9 K9.
  apply Forall2_nil_inv_l in Hc as ->. cbn [app].
  destruct (ready_epoch _ _ _ _ _ _ Hready) as (c & Hclock & Hfresh).
  unfold process_deposit_sol. do 10 go_live. rewrite K0, K1, K5. do 11 go_live.
  apply mbind_assoc_run.
  apply (live_goes _ _ _ _ [] _ _ _ (goes_deposit i0 i1 i2 i3 i4 i5 i6 i7 i8 i9 rest n d K2 K9 K7)); [done | by rewrite app_nil_r |].
  - intros s1 Hb _ Hsame _. eapply live_bind; [by apply credit_pool_run|].
    apply (live_store program_id k p _ l); try assumption; [apply Hready..| by unfold is_borrowed; rewrite Hb | done].
Qed.

(** ** Withdrawing *)
(** The calls of a withdrawal of [w] lamports for [burnt] tokens and a fee of [f]: the
    user signed the transaction, the pool signs the payment out of the reserve. *)
Definition withdraw_calls (infos : list AccountInfo) (decimals burnt f w : Z) : list Call :=
  match infos with
  | _ :: auth :: user :: tokens :: reserve :: to :: fee :: mint :: clock :: history :: _ =>
      mkCall (TokenBurn (token_program_id p) (key tokens) (pool_mint p) (key user) burnt) [tokens; mint; user] [] ::
      (if 0 <? f
       then [mkCall (TokenTransferChecked (token_program_id p) (key tokens) (pool_mint p) (key fee) (key user) f decimals)
               [tokens; mint; fee; user] []]
       else []) ++
      [mkCall (StakeWithdraw (reserve_stake p) (key auth) (key to) w) [reserve; to; clock; history; auth]
         [authority_signature_seeds k AUTHORITY_WITHDRAW (stake_withdraw_bump_seed p)]]
  | _ => []
  end.

Lemma goes_withdraw i0 i1 i2 i3 i4 i5 i6 i7 i8 i9 i10 i11 rest dec burnt f w :
  key i11 = token_program_id p -> key i7 = pool_mint p -> key i4 = reserve_stake p ->
  goes program_id [] (do! (do! token_burn i11 i3 i7 i2 burnt in mwhen (0 <? f) (token_transfer i11 i3 i7 i6 i2 f dec)) in
        stake_withdraw k i4 i1 AUTHORITY_WITHDRAW (stake_withdraw_bump_seed p) i5 i8 i9 w)
    (withdraw_calls (i0 :: i1 :: i2 :: i3 :: i4 :: i5 :: i6 :: i7 :: i8 :: i9 :: i10 :: i11 :: rest) dec burnt f w).
Proof.
  intros K11 K7 K4. unfold withdraw_calls, token_burn, token_transfer, stake_withdraw, invoke.
  rewrite <- K11, <- K7, <- K4.
  apply (goes_then _ [] _ _ ([_] ++ _)); [|by apply goes_invoke].
  apply goes_then; [by apply goes_invoke | apply goes_when; by apply goes_invoke].
Qed.

Lemma check_reserve_after_run i l w meta :
  key i = reserve_stake p ->
  unpack_stake_state (acc_data (account_at l (reserve_stake p))) = Ok (StakeInitialized meta) ->
  minimum_reserve_lamports meta <= saturating_sub (acc_lamports (account_at l (reserve_stake p))) w ->
  check_reserve_after i w (mkRState l [] []) = Ok (tt, mkRState l [] []).
Proof.
  intros Hk Hm Hw. unfold check_reserve_after.
  rewrite (mbind_run (lamports_of i) _ _ (acc_lamports (account_at l (reserve_stake p))) (mkRState l [] []))
    by (rewrite <- Hk; reflexivity).
  cbv zeta. rewrite (mbind_run (borrow_data i) _ _ (acc_data (account_at l (reserve_stake p))) (mkRState l [] []))
    by (rewrite <- Hk; reflexivity).
  rewrite (mbind_run _ _ _ _ _ (lift_run _ _ _ Hm)). apply fail_if_run. lia.
Qed.

(** C12: nobody can keep a user's SOL. For a pool that is up to date, the [WithdrawSol]
    or [WithdrawSolWithSlippage] that [withdraw_sol_internal] builds with the pool's
    accounts and its withdraw authority succeeds whenever the tokens less the fee are
    worth a positive amount that meets the user's minimum, the totals cover it, the
    reserve keeps its minimum without it, and the token and stake programs accept the
    burn, the fee's transfer and the withdrawal with the accounts and the signatures
    they are given ([withdraw_calls]); the pool is then debited. *)
Theorem withdraw_sol_succeeds auth m user tokens to n minimum f w meta l infos :
  let ix := withdraw_sol_internal program_id k auth user tokens (reserve_stake p) to (manager_fee_account p)
              (pool_mint p) (token_program_id p) (sol_withdraw_authority p) n minimum in
  ready program_id k p l auth m -> carries (accounts ix) infos -> in_range 64 n -> from_option (in_range 64) True minimum ->
  withdrawal_fee_tokens p (mkInfo (manager_fee_account p) false true) (mkInfo tokens false true)
    calc_pool_tokens_sol_withdrawal_fee n (mkRState l [] []) = Ok (f, mkRState l [] []) ->
  in_range 64 (n - f) -> calc_lamports_withdraw_amount p (n - f) = Some w -> w <> 0 ->
  below_minimum w minimum = false ->
  unpack_stake_state (acc_data (account_at l (reserve_stake p))) = Ok (StakeInitialized meta) ->
  minimum_reserve_lamports meta <= saturating_sub (acc_lamports (account_at l (reserve_stake p))) w ->
  in_range 64 (pool_token_supply p - (n - f)) -> in_range 64 (total_lamports p - w) ->
  willing [] (withdraw_calls infos (mint_decimals m) (n - f) f w) l ->
  exists s', process program_id infos (data ix) (mkRState l [] []) = Ok (tt, s') /\
    pool_at program_id (ledger s') k
      (set_total_lamports (total_lamports p - w) (set_pool_token_supply (pool_token_supply p - (n - f)) p)).
Proof.
  intros ix Hready Hc Hn Hmin Hf Hburnt Hw Hpos Hbelow Hmeta Hreserve Hsupply Htotal Hwill. cbv zeta in *. unfold ix in *. clear ix.
  assert (E : process program_id infos (data (withdraw_sol_internal program_id k auth user tokens (reserve_stake p) to
    (manager_fee_account p) (pool_mint p) (token_program_id p) (sol_withdraw_authority p) n minimum))
    (mkRState l [] []) = process_withdraw_sol program_id infos n minimum (mkRState l [] [])).
  { cbn [data withdraw_sol_internal]. destruct minimum; (rewrite process_run by done; reflexivity). }
  rewrite E. clear E. cbn [accounts withdraw_sol_internal] in Hc. apply carries_app in Hc as (xs & rest & -> & Hc & Hrest).
  take_info Hc i0 K0. take_info Hc i1 K1. take_info Hc i2 K2. take_info Hc i3 K3. take_info Hc i4 K4.
  take_info Hc i5 K5. take_info Hc i6 K6. take_info Hc i7 K7. take_info Hc i8 K8. take_info Hc i9 K9.
  take_info Hc i10 K10. take_info Hc i11 K11.
  apply Forall2_nil_inv_l in Hc as ->. cbn [app].
  destruct (ready_epoch _ _ _ _ _ _ Hready) as (c & Hclock & Hfresh).
  assert (Hf' : withdrawal_fee_tokens p i6 i3 calc_pool_tokens_sol_withdrawal_fee n (mkRState l [] []) = Ok (f, mkRState l [] [])).
  { rewrite <- Hf. destruct i6, i3. simpl in K6, K3. by subst. }
  unfold process_withdraw_sol. do 12 go_live. rewrite K0, K1, K6. do 10 go_live.
  eapply live_bind; [exact Hf'|]. unfold checked_sub at 1. rewrite (fit_in_range _ _ Hburnt).
  do 2 go_live. eapply live_bind; [apply fail_if_sp_run; by apply Z.eqb_neq|]. go_live.
  eapply live_bind; [by eapply check_reserve_after_run|].
  apply mbind_assoc_run, mbind_assoc_run. eapply (live_goes _ [] _ _ []).
  - exact (goes_withdraw i0 i1 i2 i3 i4 i5 i6 i7 i8 i9 i10 i11 rest (mint_decimals m) (n - f) f w K11 K7 K4).
  - reflexivity.
  - by rewrite app_nil_r.
  - intros s1 Hb _ Hsame _. eapply live_bind; [by apply debit_pool_run|].
    apply (live_store program_id k p _ l); try assumption; [apply Hready..| by unfold is_borrowed; rewrite Hb | done].
Qed.
End LiveFunds.

(** ** At the concrete runtime *)
Fixpoint toy_accepts (held : list Pubkey) (calls : list Call) (l : Ledger) : bool :=
  match calls with
  | [] => true
  | c :: calls => match toy_exec held (call_ix c) (call_infos c) (call_seeds c) l with
                  | Ok l' => toy_accepts held calls l'
                  | _ => false
                  end
  end.
Lemma toy_willing held calls l : toy_accepts held calls l = true -> willing (RT := toy) held calls l.
Proof.
  revert l. induction calls as [|c calls IH]; intros l H; [done|]. cbn [toy_accepts] in H.
  destruct (toy_exec held (call_ix c) (call_infos c) (call_seeds c) l) as [l'| |] eqn:E; try done.
  exists l'. split; [exact E | by apply IH].
Qed.

Definition toy_mint : MintView := mkMint 4000000000 9 (Some toy_authority) None (Ok []).
Lemma toy_ready : ready (RT := toy) toy_program toy_pool_key toy_pool (ledger toy_state) toy_authority toy_mint.
Proof.
  split.
  - exact toy_state_wf.
  - split; [|split]; vm_compute; reflexivity.
  - vm_compute. reflexivity.
  - exists (mkClock toy_epoch). split; [reflexivity | unfold toy_epoch; simpl; lia].
  - vm_compute. reflexivity.
Qed.

(** The premises of the two theorems that evaluate at the concrete pool. *)
Ltac toy_premise :=
  lazymatch goal with
  | |- willing _ _ _ => apply toy_willing; vm_compute; reflexivity
  | |- in_range _ _ => vm_compute; split; [discriminate | reflexivity]
  | |- from_option _ _ None => exact I
  | |- from_option _ _ (Some _) => vm_compute; split; [discriminate | reflexivity]
  | |- _ <> _ => discriminate
  | |- _ <= _ => vm_compute; discriminate
  | |- _ => vm_compute; reflexivity
  end.

(** A deposit of 1_000_000_000 lamports from the user, referred by its own account. *)
Definition toy_split : DepositTokens :=
  match deposit_sol_tokens toy_pool 1000000000 (Some 1) with Ok d => d | _ => mkDepositTokens 0 0 0 0 end.
Definition toy_deposit : Instruction :=
  deposit_sol_internal (RT := toy) toy_program toy_pool_key toy_authority (reserve_stake toy_pool) toy_user
    toy_user_tokens (manager_fee_account toy_pool) toy_user_tokens (pool_mint toy_pool) (token_program_id toy_pool)
    (sol_deposit_authority toy_pool) 1000000000 (Some 1).

Lemma deposit_sol_succeeds_witness :
  exists s', process (RT := toy) toy_program (info_of <$> accounts toy_deposit) (data toy_deposit)
    (mkRState (ledger toy_state) [] []) = Ok (tt, s') /\
  pool_at (RT := toy) toy_program (ledger s') toy_pool_key
    (set_total_lamports (total_lamports toy_pool + 1000000000)
      (set_pool_token_supply (pool_token_supply toy_pool + tokens_new toy_split) toy_pool)).
Proof.
  pose proof (deposit_sol_succeeds (RT := toy) toy_program toy_pool_key toy_pool toy_authority toy_mint toy_user
    toy_user_tokens toy_user_tokens 1000000000 (Some 1) toy_split (ledger toy_state) (info_of <$> accounts toy_deposit)) as H.
  unfold toy_deposit in *. apply H; clear H; [exact toy_ready | apply carries_own |..].
  all: toy_premise.
Defined.

(** A withdrawal for 1_000_000 tokens, with the pool's fee. *)
Definition toy_withdraw : Instruction :=
  withdraw_sol_internal (RT := toy) toy_program toy_pool_key toy_authority toy_user toy_user_tokens
    (reserve_stake toy_pool) toy_user (manager_fee_account toy_pool) (pool_mint toy_pool) (token_program_id toy_pool)
    (sol_withdraw_authority toy_pool) 1000000 None.

Lemma withdraw_sol_succeeds_witness :
  exists s', process (RT := toy) toy_program (info_of <$> accounts toy_withdraw) (data toy_withdraw)
    (mkRState (ledger toy_state) [] []) = Ok (tt, s') /\
  pool_at (RT := toy) toy_program (ledger s') toy_pool_key
    (set_total_lamports (total_lamports toy_pool - 1246250)
      (set_pool_token_supply (pool_token_supply toy_pool - (1000000 - 3000)) toy_pool)).
Proof.
  pose proof (withdraw_sol_succeeds (RT := toy) toy_program toy_pool_key toy_pool toy_authority toy_mint toy_user
    toy_user_tokens toy_user 1000000 None 3000 1246250 toy_meta (ledger toy_state) (info_of <$> accounts toy_withdraw)) as H.
  unfold toy_withdraw in *. apply H; clear H; [exact toy_ready | apply carries_own |..].
  all: toy_premise.
Defined.
