(* ===== verification/LiveStake.v ===== *)
(** * Stake that can always be taken out
    The counterpart of Live for stake: a withdrawal of stake from a validator of a pool
    that is up to date succeeds, whichever of the three kinds of source the rules name,
    whenever the programs it invokes accept exactly the calls it makes. *)
From S2P Require Import Prelude Error Fees State PoolMath Borsh Layout BigVec Entries Runtime Checks Concrete Funds ListAccess WithdrawStake UpdatePool Metadata Instruction Processor Keeps Invariants Books Builders Built Live.
Open Scope Z_scope.
Open Scope sp_scope.

(** ** Reading and writing the list, forward *)
Section ListForward.
Context `{RT : Runtime}.

Lemma list_bytes_run i s h xs :
  list_at s (key i) h xs ->
  exists d spare, list_bytes i s = Ok (d, s) /\ repr vsi_codec d xs spare /\ wf_entries vsi_codec xs.
Proof.
  intros (Hh & Hw & spare & vd & Hd & Hr). exists vd, spare. split; [|done]. unfold list_bytes, mbind, held_data, mret.
  rewrite Hd, drop_app_length' by (rewrite length_enc_header; reflexivity). reflexivity.
Qed.

Lemma list_find_mut_total i s h xs pr q :
  list_at s (key i) h xs -> decides vsi_codec pr q -> exists o, list_find_mut i pr s = Ok (o, s).
Proof.
  intros Hl Hp. destruct (list_bytes_run _ _ _ _ Hl) as (d & spare & E & Hr & Hw).
  pose proof (find_mut_spec vsi_codec VSI_SIZE d xs spare pr q Hr Hw Hp) as Hf.
  unfold list_find_mut. rewrite (mbind_run _ _ _ _ _ E).
  destruct (find_mut _ _ _ _) as [o| |]; [|done..]. by exists o.
Qed.

Lemma list_find_run i s h xs pr q :
  list_at s (key i) h xs -> decides vsi_codec pr q -> list_find i pr s = Ok (List.find q xs, s).
Proof.
  intros Hl Hp. destruct (list_bytes_run _ _ _ _ Hl) as (d & spare & E & Hr & Hw).
  pose proof (find_mut_spec vsi_codec VSI_SIZE d xs spare pr q Hr Hw Hp) as Hf.
  assert (Ht : exists o, list_find i pr s = Ok (o, s)).
  { unfold list_find. rewrite (mbind_run _ _ _ _ _ E), find_find_mut.
    destruct (find_mut _ _ _ _) as [o| |]; [|done..]. by exists (option_map snd o). }
  destruct Ht as [o Ho]. by destruct (list_find_Ok _ _ _ _ _ _ _ _ Hl Hp Ho) as [_ <-].
Qed.

Lemma list_store_total i off y s : exists s', list_store i off y s = Ok (tt, s').
Proof. unfold list_store, list_bytes, set_list_bytes, mbind, held_data, set_held_data, mret. by eexists. Qed.

(** The first entry that satisfies a test is where the list splits. *)
Lemma first_split {A} (q : A -> bool) ys v zs ys' x zs' :
  ys ++ v :: zs = ys' ++ x :: zs' -> Forall (fun y => q y = false) ys -> q v = true ->
  Forall (fun y => q y = false) ys' -> q x = true -> ys' = ys /\ x = v /\ zs' = zs.
Proof.
  revert ys'. induction ys as [|y ys IH]; intros [|y' ys'] E H Hv H' Hx; cbn [app] in E; injection E as -> E.
  - by rewrite E.
  - inversion H'; congruence.
  - inversion H; congruence.
  - inversion H; inversion H'; subst. by destruct (IH _ E) as (-> & -> & ->).
Qed.

(** The entry a search finds: the first one, at an offset where another can be stored. *)
Lemma list_find_mut_run i s h ys v zs pr q :
  list_at s (key i) h (ys ++ v :: zs) -> decides vsi_codec pr q ->
  Forall (fun y => q y = false) ys -> q v = true ->
  exists off, list_find_mut i pr s = Ok (Some (off, v), s) /\
    forall y s1, wf vsi_codec y -> account_at (ledger s1) (key i) = account_at (ledger s) (key i) ->
      exists d, list_store i off y s1 = Ok (tt, set_data (key i) d s1) /\
        list_at (set_data (key i) d s1) (key i) h (ys ++ y :: zs).
Proof.
  intros Hl Hp Hys Hv. destruct (list_find_mut_total _ _ _ _ _ _ Hl Hp) as [o Ho].
  destruct (list_find_mut_Ok _ _ _ _ _ _ _ _ Hl Hp Ho) as [_ H]. destruct o as [[off x]|].
  - destruct H as (ys' & zs' & E & Hx & Hys' & Hw & Hst).
    destruct (first_split _ _ _ _ _ _ _ E Hys Hv Hys' Hx) as (-> & -> & ->).
    exists off. split; [exact Ho|]. intros y s1 Hy Hsame. destruct (list_store_total i off y s1) as [s2 H2].
    destruct (Hst y s1 tt s2 Hy Hsame H2) as [Hat [d ->]]. exists d. by split.
  - exfalso. apply Forall_app in H as [_ H]. inversion H. congruence.
Qed.

Lemma load_validator_list_run pid i l h xs :
  list_at (mkRState l [] []) (key i) h xs -> header_is_valid h = true -> acc_owner (account_at l (key i)) = pid ->
  load_validator_list pid i (mkRState l [] []) = Ok (h, mkRState l [key i] []).
Proof.
  intros (Hh & _ & spare & vd & Hd & _) Hv Ho. unfold load_validator_list.
  rewrite (mbind_run (check_account_owner i pid) _ _ tt (mkRState l [] [])).
  2:{ unfold check_account_owner. rewrite (mbind_run (owner_of i) _ _ pid (mkRState l [] [])).
      - apply fail_if_run, other_key. reflexivity.
      - rewrite <- Ho. reflexivity. }
  rewrite (mbind_run (borrow_mut_data i) _ _ tt (mkRState l [key i] [])) by reflexivity.
  rewrite (mbind_run (held_data i) _ _ (acc_data (account_at l (key i))) (mkRState l [key i] [])) by reflexivity.
  cbn [ledger] in Hd. rewrite Hd. rewrite (mbind_run _ _ _ _ _ (lift_run _ _ _ (deserialize_vec_app h vd Hh))).
  cbv beta iota. by rewrite (mbind_run _ _ _ _ _ (fail_if_sp_run _ _ _ (f_equal negb Hv))).
Qed.

Lemma lamports_of_run i s : lamports_of i s = Ok (acc_lamports (account_at (ledger s) (key i)), s).
Proof. reflexivity. Qed.
Lemma borrow_data_run i s : is_borrowed (key i) s = false -> borrow_data i s = Ok (acc_data (account_at (ledger s) (key i)), s).
Proof. unfold borrow_data. by intros ->. Qed.
End ListForward.

(** ** Choosing the source, forward *)
Section ChooseForward.
Context `{RT : Runtime} `{!RuntimeLaws RT}.
Variables (program_id k : Pubkey) (p : StakePool).

Lemma withdraw_terms_run li meta dmin c s h xs per :
  list_at s (key li) h xs -> get_lamports_per_pool_token p = Some per ->
  withdraw_terms p li meta dmin c s = Ok (terms_of p xs (minimum_stake_lamports meta dmin) per c, s).
Proof.
  intros Hl Hper. unfold withdraw_terms. cbv zeta. rewrite (mbind_run _ _ _ _ _ (get_or_run _ _ _ s Hper)).
  rewrite (mbind_run _ _ _ _ _ (list_find_run _ _ _ _ _ _ Hl
    (pred_and_decides _ _ _ _ (active_gt_decides _) is_active_decides))).
  rewrite (mbind_run _ _ _ _ _ (list_find_run _ _ _ _ _ _ Hl
    (pred_and_decides _ _ _ _ (transient_gt_decides _) is_active_decides))).
  unfold mret. by rewrite !find_existsb.
Qed.

(** The preferred validator, if there is one, is this one or has nothing to give. *)
Definition preferred_yields (xs : list ValidatorStakeInfo) (vote : Pubkey) (t : WithdrawTerms) : Prop :=
  forall pref, preferred_withdraw_validator_vote_address p = Some pref ->
    pref = vote \/ forall u, List.find (votes_for pref) xs = Some u ->
                      active_stake_lamports u <= minimum_lamports_with_tolerance t.
Hypothesis Hwf : wf stake_pool_codec p.
Lemma preferred_range pref : preferred_withdraw_validator_vote_address p = Some pref -> in_range 256 pref.
Proof.
  pose proof Hwf as H. unfold stake_pool_codec in H. cbn [wf] in H. deex. intros E.
  match goal with H : wf (opt pubkey) (preferred_withdraw_validator_vote_address p) |- _ => rewrite E in H; exact H end.
Qed.

Lemma check_preferred_run li vote t s h xs :
  list_at s (key li) h xs -> preferred_yields xs vote t ->
  check_preferred_withdraw p li vote t s = Ok (tt, s).
Proof.
  intros Hl Hp. unfold check_preferred_withdraw. unfold preferred_yields in Hp.
  destruct (preferred_withdraw_validator_vote_address p) as [pref|] eqn:Epref; [|done].
  pose proof (Hp pref eq_refl) as Hy. assert (Hr : in_range 256 pref) by (by apply preferred_range).
  rewrite (mbind_run _ _ _ _ _ (list_find_run _ _ _ _ _ _ Hl (memcmp_decides pref Hr))).
  destruct (List.find _ xs) as [u|]; [|done]. apply fail_if_sp_run. destruct Hy as [-> | Hy].
  - by rewrite key_eqb_refl.
  - specialize (Hy u eq_refl). apply andb_false_iff. right. apply Z.ltb_ge. unfold saturating_sub. lia.
Qed.

Lemma withdraw_source_run from v t s src fl lam :
  source_rules t v src fl lam -> source_address program_id k v src = key from ->
  withdraw_source program_id k from (vote_account_address v) v t s = Ok (src, s).
Proof.
  intros Hr Ha. unfold withdraw_source. cbv zeta.
  assert (Hc : forall seed, fst (find_stake_program_address program_id (vote_account_address v) k seed) = key from ->
    check_validator_stake_address program_id k (key from) (vote_account_address v) seed s = Ok (tt, s)).
  { intros seed E. unfold check_validator_stake_address. destruct (find_stake_program_address _ _ _ _).
    apply fail_if_sp_run, other_key. exact E. }
  destruct src; cbn [source_rules source_address] in Hr, Ha.
  - destruct Hr as (-> & _). by rewrite (mbind_run _ _ _ _ _ (Hc _ Ha)).
  - destruct Hr as (-> & Ht & _).
    assert (E : any_transient_stake t || negb (transient_stake_lamports v =? 0) = true).
    { destruct Ht as [-> | Ht]; [done|]. apply orb_true_iff. right. apply negb_true_iff. by apply Z.eqb_neq. }
    rewrite E. unfold check_transient_stake_address. destruct (find_transient_stake_program_address _ _ _ _) as [x b].
    rewrite (mbind_run _ _ _ b s); [done|]. by rewrite (mbind_run _ _ _ _ _ (fail_if_sp_run _ _ s (other_key _ _ Ha))).
  - destruct Hr as (-> & -> & -> & _). cbn [orb negb Z.eqb]. by rewrite (mbind_run _ _ _ _ _ (Hc _ Ha)).
Qed.

(** The pool after a withdrawal from [src]. *)
Definition pool_leaving (src : StakeWithdrawSource) (v : ValidatorStakeInfo) : StakePool :=
  match src with SourceValidatorRemoval => forget_preferred (vote_account_address v) p | _ => p end.

Lemma withdraw_amount_run from v t s src lam :
  source_rules t v src (acc_lamports (account_at (ledger s) (key from))) lam ->
  withdraw_amount p from (vote_account_address v) src t s = Ok ((lam, pool_leaving src v), s).
Proof.
  intros Hr. unfold withdraw_amount. rewrite (mbind_run _ _ _ _ _ (lamports_of_run from s)). cbv zeta.
  destruct src; cbn [source_rules pool_leaving] in *.
  - destruct Hr as (_ & -> & H). rewrite (mbind_run _ _ _ tt s); [done|]. apply fail_if_sp_run. lia.
  - destruct Hr as (_ & _ & -> & H). rewrite (mbind_run _ _ _ tt s); [done|]. apply fail_if_sp_run. lia.
  - destruct Hr as (_ & _ & _ & -> & H). rewrite (mbind_run _ _ _ tt s); [done|].
    apply fail_if_sp_run, orb_false_iff. lia.
Qed.

Lemma choose_source_run from li meta g t v src lam s h ys zs :
  list_at s (key li) h (ys ++ v :: zs) -> voter_pubkey g = vote_account_address v ->
  in_range 256 (vote_account_address v) -> Forall (fun y => votes_for (vote_account_address v) y = false) ys ->
  key from <> reserve_stake p -> preferred_yields (ys ++ v :: zs) (vote_account_address v) t ->
  source_rules t v src (acc_lamports (account_at (ledger s) (key from))) lam ->
  source_address program_id k v src = key from -> status v = status_byte Active ->
  exists off,
    choose_source program_id p k li from (StakeStake meta g) meta t s =
      Ok ((Some (off, v, src), lam, pool_leaving src v), s) /\
    forall y s1, wf vsi_codec y -> account_at (ledger s1) (key li) = account_at (ledger s) (key li) ->
      exists d, list_store li off y s1 = Ok (tt, set_data (key li) d s1) /\
        list_at (set_data (key li) d s1) (key li) h (ys ++ y :: zs).
Proof.
  intros Hl Hg Hv Hys Hne Hpref Hr Ha Hst.
  assert (Hvote : votes_for (vote_account_address v) v = true) by apply key_eqb_refl.
  destruct (list_find_mut_run _ _ _ _ _ _ _ _ Hl (memcmp_decides _ Hv) Hys Hvote) as (off & Ho & Hstore).
  exists off. split; [|exact Hstore]. unfold choose_source.
  assert (Ek : key_eqb (key from) (reserve_stake p) = false) by (by apply not_true_iff_false; rewrite key_eqb_eq).
  rewrite Ek. cbn [state_delegation]. rewrite (mbind_run _ _ _ _ _ (get_or_run (Some g) _ g s eq_refl)). cbv zeta.
  rewrite Hg, (mbind_run _ _ _ _ _ (check_preferred_run _ _ _ _ _ _ Hl Hpref)), (mbind_run _ _ _ _ _ Ho).
  rewrite (mbind_run _ _ _ _ _ (get_or_run (Some (off, v)) _ _ s eq_refl)). cbv beta iota.
  rewrite (mbind_run _ _ _ _ _ (withdraw_source_run _ _ _ _ _ _ _ Hr Ha)).
  rewrite (mbind_run (fail_if_sp _ _) _ _ tt s) by (apply fail_if_sp_run; by rewrite Hst, Z.eqb_refl).
  rewrite (mbind_run _ _ _ _ _ (withdraw_amount_run _ _ _ _ _ _ Hr)). reflexivity.
Qed.
End ChooseForward.

(** ** The pool that is stored *)
Section LiveStake.
Context `{RT : Runtime} `{!RuntimeLaws RT} `{SV : Sysvars}.
Variables (program_id k : Pubkey) (p : StakePool).
Context `{!ProgramLaws RT program_id}.

Lemma pool_leaving_amounts src v :
  total_lamports (pool_leaving p src v) = total_lamports p /\
  pool_token_supply (pool_leaving p src v) = pool_token_supply p.
Proof. destruct src; cbn [pool_leaving]; try done. apply forget_preferred_amounts. Qed.
Lemma pool_leaving_bump src v : stake_withdraw_bump_seed (pool_leaving p src v) = stake_withdraw_bump_seed p.
Proof. destruct src; cbn [pool_leaving]; try done. unfold forget_preferred. by repeat destruct (opt_key_eqb _ _). Qed.
Lemma pool_leaving_wf src v : wf stake_pool_codec p -> wf stake_pool_codec (pool_leaving p src v).
Proof. destruct src; cbn [pool_leaving]; try done. apply wf_forget_preferred. Qed.
Lemma pool_leaving_valid src v : StakePool_is_valid p = true -> StakePool_is_valid (pool_leaving p src v) = true.
Proof. destruct src; cbn [pool_leaving]; try done. unfold forget_preferred. by repeat destruct (opt_key_eqb _ _). Qed.

(** Forgetting a preference makes the encoding no longer. *)
Lemma length_forget_preferred vote :
  (length (enc stake_pool_codec (forget_preferred vote p)) <= length (enc stake_pool_codec p))%nat.
Proof.
  assert (Ho : forall o : option Pubkey, (length (enc (opt pubkey) None) <= length (enc (opt pubkey) o))%nat)
    by (intros [o|]; cbn [enc opt length]; lia).
  unfold forget_preferred, stake_pool_codec. cbn [enc].
  repeat destruct (opt_key_eqb _ _); rewrite !length_app; cbn;
    pose proof (Ho (preferred_deposit_validator_vote_address p));
    pose proof (Ho (preferred_withdraw_validator_vote_address p)); cbn in *; lia.
Qed.
Lemma length_pool_leaving src v l t :
  (length (enc stake_pool_codec (set_total_lamports l (set_pool_token_supply t (pool_leaving p src v)))) <=
   length (enc stake_pool_codec p))%nat.
Proof.
  rewrite length_enc_amounts. destruct src; cbn [pool_leaving]; [lia..|]. apply length_forget_preferred.
Qed.

(** The calls of a withdrawal of [lam] lamports of stake for [burnt] tokens and a fee of
    [f]: the user signed the transaction and the pool signs for its stake. *)
Definition withdraw_stake_calls (infos : list AccountInfo) (burnt f lam dec : Z) : list Call :=
  match infos with
  | _ :: _ :: auth :: from :: to :: new_auth :: user :: tokens :: fee :: mint :: clock :: token :: _ =>
      let signed := [authority_signature_seeds k AUTHORITY_WITHDRAW (stake_withdraw_bump_seed p)] in
      let authorize kind :=
        mkCall (StakeAuthorize (key to) (key auth) (key new_auth) kind) [to; clock; auth] signed in
      mkCall (TokenBurn (key token) (key tokens) (key mint) (key user) burnt) [tokens; mint; user] [] ::
      mkCall (StakeSplit (key from) (key auth) lam (key to)) [from; to; auth] signed ::
      authorize AuthStaker :: authorize AuthWithdrawer ::
      (if 0 <? f
       then [mkCall (TokenTransferChecked (key token) (key tokens) (key mint) (key fee) (key user) f dec)
               [tokens; mint; fee; user] []]
       else [])
  | _ => []
  end.

Lemma goes_withdraw_stake held i0 i1 i2 i3 i4 i5 i6 i7 i8 i9 i10 i11 rest burnt lam f dec :
  goes program_id held
    (do! (do! (do! token_burn i11 i7 i9 i6 burnt in
               stake_split k i3 i2 AUTHORITY_WITHDRAW (stake_withdraw_bump_seed p) lam i4) in
          stake_authorize_signed k i4 i2 AUTHORITY_WITHDRAW (stake_withdraw_bump_seed p) (key i5) i10) in
     mwhen (0 <? f) (token_transfer i11 i7 i9 i8 i6 f dec))
    (withdraw_stake_calls (i0 :: i1 :: i2 :: i3 :: i4 :: i5 :: i6 :: i7 :: i8 :: i9 :: i10 :: i11 :: rest)
       burnt f lam dec).
Proof.
  unfold withdraw_stake_calls, token_burn, stake_split, stake_authorize_signed, token_transfer, invoke. cbv zeta.
  change (?a :: ?b :: ?c :: ?d :: ?w) with ((([a] ++ [b]) ++ [c; d]) ++ w).
  apply goes_then; [|by apply goes_when, goes_invoke].
  apply goes_then; [apply goes_then; by apply goes_invoke|].
  apply (goes_then _ _ _ _ [_] [_]); by apply goes_invoke.
Qed.
(** What the withdrawal reads of the chain: the pool's list with the entry [v] first for
    its validator, and the stake account [from], delegated to that validator. *)
Record stake_ready (l : Ledger) (from : Pubkey) (h : ValidatorListHeader) (ys : list ValidatorStakeInfo)
    (v : ValidatorStakeInfo) (zs : list ValidatorStakeInfo) (meta : Meta) (g : Delegation) : Prop := {
  stake_list : list_at (mkRState l [] []) (validator_list p) h (ys ++ v :: zs);
  stake_header : header_is_valid h = true;
  stake_owner : acc_owner (account_at l (validator_list p)) = program_id;
  stake_first : Forall (fun y => votes_for (vote_account_address v) y = false) ys;
  stake_active : status v = status_byte Active;
  stake_state : unpack_stake_state (acc_data (account_at l from)) = Ok (StakeStake meta g);
  stake_voter : voter_pubkey g = vote_account_address v;
  stake_elsewhere : from <> reserve_stake p /\ from <> validator_list p /\ k <> validator_list p;
  stake_clock : forall i, key i = clock_id -> exists c,
    Clock_from_account_info i (account_at l clock_id) = Ok c /\ epoch c <= last_update_epoch p
}.

Lemma clock_of_run i l c s :
  key i = clock_id -> ledger s = l -> Clock_from_account_info i (account_at l clock_id) = Ok c ->
  clock_of i s = Ok (c, s).
Proof.
  intros Hk <- Hc. unfold clock_of. rewrite (mbind_run (get_account i) _ _ (account_at (ledger s) clock_id) s)
    by (rewrite <- Hk; reflexivity). by apply lift_run.
Qed.

Lemma list_vote_range s n h ys v zs :
  list_at s n h (ys ++ v :: zs) -> wf vsi_codec v /\ in_range 256 (vote_account_address v).
Proof.
  intros (_ & [Hw _] & _). apply Forall_app in Hw as [_ Hw]. inversion Hw as [|? ? Hv]; subst. split; [done|].
  unfold vsi_codec in Hv. cbn [wf] in Hv. deex. assumption.
Qed.

(** After the invocations: the pool is debited and stored, then the entry. *)
Lemma live_settle l s i0 i1 h ys v zs v' src lam burnt off :
  pool_at program_id l k p -> wf_ledger l -> key i0 = k -> key i1 = validator_list p -> k <> validator_list p ->
  borrowed s = [key i1] -> same_own program_id l (ledger s) -> same_held [key i1] l (ledger s) ->
  in_range 64 (pool_token_supply p - burnt) -> in_range 64 (total_lamports p - lam) ->
  entry_after_withdrawal v src lam = Ok v' -> wf vsi_codec v ->
  (forall y s1, wf vsi_codec y -> account_at (ledger s1) (key i1) = account_at l (key i1) ->
     exists d, list_store i1 off y s1 = Ok (tt, set_data (key i1) d s1) /\
       list_at (set_data (key i1) d s1) (key i1) h (ys ++ y :: zs)) ->
  live (let! stake_pool := debit_pool (pool_leaving p src v) lam burnt in
        do! write_data stake_pool_codec i0 stake_pool in
        let! v := lift (entry_after_withdrawal v src lam) in list_store i1 off v) s
    (fun s' => pool_at program_id (ledger s') k
        (set_total_lamports (total_lamports p - lam)
          (set_pool_token_supply (pool_token_supply p - burnt) (pool_leaving p src v))) /\
      list_at s' (validator_list p) h (ys ++ v' :: zs)).
Proof.
  intros Hp Hw K0 K1 Hne Hb Hown Hheld Hsupply Htotal Hent Hv Hstore.
  pose proof (try_from_slice_unchecked_wf _ _ _ (proj2 (wf_ledger_at l k Hw)) (proj1 (proj2 Hp))) as Hwf.
  destruct (pool_leaving_amounts src v) as [El Et].
  eapply live_bind; [apply debit_pool_run; by rewrite ?El, ?Et|]. rewrite El, Et.
  set (q := set_total_lamports _ _).
  destruct (write_pool_run program_id k p i0 l s q Hp Hw K0) as (d & Hd & Hat); try done.
  { unfold is_borrowed. rewrite Hb. cbn [existsb]. rewrite orb_false_r. apply not_true_iff_false.
    rewrite key_eqb_eq, K1. exact Hne. }
  { apply wf_set_amounts; [by apply pool_leaving_wf | done | done]. }
  { apply (pool_leaving_valid src v), Hp. }
  { apply length_pool_leaving. }
  eapply live_bind; [exact Hd|]. eapply live_bind; [apply lift_run, Hent|].
  destruct (Hstore v' (set_data k d s)) as (d' & Hs & Hlist); [by eapply entry_after_withdrawal_wf | |].
  { rewrite set_data_at_ne by (by rewrite K1; apply not_eq_sym). apply Hheld. by left. }
  exists (set_data (key i1) d' (set_data k d s)). split; [exact Hs|]. rewrite K1 in *. split; [|exact Hlist].
  unfold pool_at, stored_pool in *. cbn [ledger] in *. by rewrite set_data_at_ne by (by apply not_eq_sym).
Qed.

(** C14: nobody can keep a user's stake. For a pool that is up to date, the [WithdrawStake]
    or [WithdrawStakeWithSlippage] that [withdraw_stake_internal] builds succeeds from
    whichever of a validator's accounts the rules name ([source_rules]: active stake
    first, transient stake next, a whole account last), whenever the tokens less the fee
    are worth a positive amount that meets the user's minimum, the preferred validator
    has nothing to give or is this one, the totals and the entry cover the amount, and
    the token and stake programs accept the burn, the split, the two authorizations and
    the fee's transfer with the accounts and the signatures they are given
    ([withdraw_stake_calls]). The pool is then debited and the entry is lowered. *)
Theorem withdraw_stake_succeeds auth m from to na user tokens n minimum f w lam meta g dmin per h ys v zs v' src l infos :
  let ix := withdraw_stake_internal program_id k (validator_list p) auth from to na user tokens
              (manager_fee_account p) (pool_mint p) (token_program_id p) n minimum in
  let t := terms_of p (ys ++ v :: zs) (minimum_stake_lamports meta dmin) per w in
  ready program_id k p l auth m -> stake_ready l from h ys v zs meta g ->
  carries (accounts ix) infos -> in_range 64 n -> from_option (in_range 64) True minimum ->
  withdrawal_fee_tokens p (mkInfo (manager_fee_account p) false true) (mkInfo tokens false true)
    calc_pool_tokens_stake_withdrawal_fee n (mkRState l [validator_list p] []) =
    Ok (f, mkRState l [validator_list p] []) ->
  in_range 64 (n - f) -> calc_lamports_withdraw_amount p (n - f) = Some w -> w <> 0 ->
  below_minimum w minimum = false -> get_minimum_delegation = Ok dmin -> get_lamports_per_pool_token p = Some per ->
  preferred_yields p (ys ++ v :: zs) (vote_account_address v) t ->
  source_rules t v src (acc_lamports (account_at l from)) lam -> source_address program_id k v src = from ->
  entry_after_withdrawal v src lam = Ok v' ->
  in_range 64 (pool_token_supply p - (n - f)) -> in_range 64 (total_lamports p - lam) ->
  willing [validator_list p] (withdraw_stake_calls infos (n - f) f lam (mint_decimals m)) l ->
  exists s', process program_id infos (data ix) (mkRState l [] []) = Ok (tt, s') /\
    pool_at program_id (ledger s') k
      (set_total_lamports (total_lamports p - lam)
        (set_pool_token_supply (pool_token_supply p - (n - f)) (pool_leaving p src v))) /\
    list_at s' (validator_list p) h (ys ++ v' :: zs).
Proof.
  intros ix t Hready Hstake Hc Hn Hmin Hf Hburnt Hw Hpos Hbelow Hdmin Hper Hpref Hrules Haddr Hent Hsupply Htotal Hwill.
  cbv zeta in *. unfold ix in *. clear ix.
  assert (E : process program_id infos (data (withdraw_stake_internal program_id k (validator_list p) auth from to na
    user tokens (manager_fee_account p) (pool_mint p) (token_program_id p) n minimum)) (mkRState l [] []) =
    process_withdraw_stake program_id infos n minimum (mkRState l [] [])).
  { cbn [data withdraw_stake_internal]. destruct minimum; (rewrite process_run by done; reflexivity). }
  rewrite E. clear E. cbn [accounts withdraw_stake_internal] in Hc.
  take_info Hc i0 K0. take_info Hc i1 K1. take_info Hc i2 K2. take_info Hc i3 K3. take_info Hc i4 K4.
  take_info Hc i5 K5. take_info Hc i6 K6. take_info Hc i7 K7. take_info Hc i8 K8. take_info Hc i9 K9.
  take_info Hc i10 K10. take_info Hc i11 K11. take_info Hc i12 K12.
  apply Forall2_nil_inv_l in Hc as ->.
  destruct Hstake as [Hlist Hvalid Howner Hfirst Hactive Hstate Hvoter (Hres & Helse & Hne) Hclocks].
  destruct (Hclocks i10 K10) as (c & Hclock & Hfresh).
  pose proof (pool_at_wf _ _ _ _ (ready_types _ _ _ _ _ _ Hready) (ready_pool _ _ _ _ _ _ Hready)) as Hwf.
  destruct (list_vote_range _ _ _ _ _ _ Hlist) as [Hv Hvote].
  unfold process_withdraw_stake. do 11 go_live. eapply live_bind; [exact (clock_of_run i10 l c (mkRState l [] []) K10 eq_refl Hclock)|]. cbv beta iota.
  do 2 go_live. rewrite K0, K2, K12. do 8 go_live.
  rewrite <- K1 in Hlist, Howner, Helse, Hf.
  eapply live_bind; [exact (load_validator_list_run _ _ _ _ _ Hlist Hvalid Howner)|].
  assert (Hf' : withdrawal_fee_tokens p i8 i7 calc_pool_tokens_stake_withdrawal_fee n (mkRState l [key i1] []) =
    Ok (f, mkRState l [key i1] [])).
  { rewrite <- Hf. destruct i8, i7. simpl in K8, K7. by subst. }
  eapply live_bind; [exact Hf'|]. unfold checked_sub at 1. rewrite (fit_in_range _ _ Hburnt).
  do 2 go_live. eapply live_bind; [apply fail_if_sp_run; by apply Z.eqb_neq|]. do 2 go_live.
  eapply live_bind.
  { apply borrow_data_run. unfold is_borrowed. cbn [borrowed existsb]. rewrite orb_false_r.
    apply not_true_iff_false. by rewrite key_eqb_eq, K3. }
  cbn [ledger]. rewrite K3. eapply live_bind; [exact (lift_run _ _ _ Hstate)|].
  eapply live_bind; [exact (get_or_run (Some meta) _ _ _ eq_refl)|].
  set (s1 := mkRState l [key i1] []).
  assert (Hl1 : list_at s1 (key i1) h (ys ++ v :: zs)) by (eapply list_at_same; [|exact Hlist]; reflexivity).
  eapply live_bind; [exact (withdraw_terms_run p i1 meta dmin w s1 _ _ per Hl1 Hper)|].
  destruct (choose_source_run program_id k p Hwf i3 i1 meta g t v src lam s1 h ys zs Hl1 Hvoter Hvote Hfirst)
    as (off & Hchoose & Hstore); [by rewrite K3 | exact Hpref | by rewrite K3 | by rewrite K3 | exact Hactive|].
  eapply live_bind; [exact Hchoose|]. cbv beta iota.
  apply mbind_assoc_run, mbind_assoc_run, mbind_assoc_run. eapply (live_goes _ [key i1] _ _ []).
  - rewrite pool_leaving_bump. apply (goes_withdraw_stake _ i0 i1 i2 i3 i4 i5 i6 i7 i8 i9 i10 i11 [i12]).
  - reflexivity.
  - rewrite app_nil_r, K1. exact Hwill.
  - intros s2 Hb _ Hown Hheld.
    by apply (live_settle l s2 i0 i1 h ys v zs v' src lam (n - f) off); [apply Hready..| | | | | | | | | | |].
Qed.
End LiveStake.

(** ** At the concrete runtime *)
(** 500_000_000 tokens out of the concrete validator's active stake. *)
Definition toy_withdraw_stake : Instruction :=
  withdraw_stake_internal (RT := toy) toy_program toy_pool_key (validator_list toy_pool) toy_authority
    toy_validator_stake toy_split_key 22 toy_user toy_user_tokens (manager_fee_account toy_pool)
    (pool_mint toy_pool) (token_program_id toy_pool) 500000000 (Some 600000000).

Lemma toy_stake_ready :
  stake_ready (RT := toy) toy_program toy_pool_key toy_pool (ledger toy_state) toy_validator_stake toy_header []
    toy_entry [] toy_meta (mkDelegation toy_vote 3999999800 1 u64_max).
Proof.
  split.
  - exact toy_list_at.
  - reflexivity.
  - vm_compute. reflexivity.
  - constructor.
  - reflexivity.
  - vm_compute. reflexivity.
  - reflexivity.
  - repeat split; vm_compute; discriminate.
  - intros i _. exists (mkClock toy_epoch). split; [reflexivity | unfold toy_epoch; simpl; lia].
Qed.

Lemma withdraw_stake_succeeds_witness :
  exists s', process (RT := toy) toy_program (info_of <$> accounts toy_withdraw_stake) (data toy_withdraw_stake)
    (mkRState (ledger toy_state) [] []) = Ok (tt, s') /\
  pool_at (RT := toy) toy_program (ledger s') toy_pool_key
    (set_total_lamports (total_lamports toy_pool - 623125000)
      (set_pool_token_supply (pool_token_supply toy_pool - (500000000 - 1500000)) toy_pool)) /\
  list_at (RT := toy) s' toy_list_key toy_header [set_active_stake_lamports (4000000000 - 623125000) toy_entry].
Proof.
  refine (withdraw_stake_succeeds (RT := toy) toy_program toy_pool_key toy_pool toy_authority toy_mint
    toy_validator_stake toy_split_key 22 toy_user toy_user_tokens 500000000 (Some 600000000) 1500000 623125000
    623125000 toy_meta (mkDelegation toy_vote 3999999800 1 u64_max) 1 2 toy_header [] toy_entry []
    (set_active_stake_lamports (4000000000 - 623125000) toy_entry) SourceActive (ledger toy_state)
    (info_of <$> accounts toy_withdraw_stake) toy_ready toy_stake_ready (carries_own _) _ _ _ _ _ _ _ _ _ _ _ _ _ _ _ _).
  all: try toy_premise.
  - intros pref E. discriminate E.
  - vm_compute. repeat split; discriminate.
Defined.
