(* ===== verification/LiveCreate.v ===== *)
(** * Pools that can be created
    "create-pool" allocates zeroed accounts of two sizes and has the program initialize
    them: with accounts of those sizes and a fresh mint, fee account and reserve,
    [Initialize] succeeds, and leaves the pool and an empty list of the capacity asked. *)
From S2P Require Import Prelude Error Fees State PoolMath Borsh Layout BigVec Entries Runtime Checks Concrete Funds ListAccess UpdatePool Initialize Metadata Instruction Processor Keeps Invariants Books Builders Built Live LiveStake.
Open Scope Z_scope.
Open Scope sp_scope.

(** ** Zeroed accounts *)
Lemma replicate_split {A} (x : A) n m : (n <= m)%nat -> replicate m x = replicate n x ++ replicate (m - n) x.
Proof. intros H. rewrite <- replicate_add. f_equal. lia. Qed.

(** The pool that zeros decode to: an unused account. *)
Definition zero_pool : StakePool :=
  match dec stake_pool_codec (replicate 1000 0) with Some (p, _) => p | None => StakePool_default end.
Definition zero_pool_len : nat := length (enc stake_pool_codec zero_pool).
Lemma zero_pool_bytes : enc stake_pool_codec zero_pool = replicate zero_pool_len 0.
Proof. vm_compute. reflexivity. Qed.
Lemma zero_pool_unused : StakePool_is_uninitialized zero_pool = true /\ max_validator_stake zero_pool = None.
Proof. vm_compute. split; reflexivity. Qed.
Lemma zeros_bytes n : bytes (replicate n 0).
Proof. apply Forall_replicate. unfold is_byte. lia. Qed.
Lemma zero_pool_wf : wf stake_pool_codec zero_pool.
Proof.
  assert (H : try_from_slice_unchecked stake_pool_codec (replicate 1000 0) = Ok zero_pool) by (vm_compute; reflexivity).
  exact (try_from_slice_unchecked_wf _ _ _ (zeros_bytes 1000) H).
Qed.

Lemma decode_zeros {A} (c : Codec A) `{!CodecOk c} x n m :
  wf c x -> enc c x = replicate n 0 -> (n <= m)%nat -> try_from_slice_unchecked c (replicate m 0) = Ok x.
Proof.
  intros Hw He Hm. rewrite (replicate_split _ n m Hm), <- He. unfold try_from_slice_unchecked.
  by rewrite dec_enc.
Qed.

Definition zero_list : ValidatorList := mkValidatorList (mkHeader Uninitialized 0) [].
Lemma zero_list_bytes : enc validator_list_codec zero_list = replicate 9 0.
Proof. vm_compute. reflexivity. Qed.
Lemma zero_list_wf : wf validator_list_codec zero_list.
Proof.
  assert (H : try_from_slice_unchecked validator_list_codec (replicate 9 0) = Ok zero_list) by (vm_compute; reflexivity).
  exact (try_from_slice_unchecked_wf _ _ _ (zeros_bytes 9) H).
Qed.

(** ** The size of a list *)
Lemma length_new_list n : length (enc validator_list_codec (ValidatorList_new n)) = (9 + 73 * Z.to_nat n)%nat.
Proof.
  unfold validator_list_codec, vec. cbn [enc header validators ValidatorList_new].
  rewrite !length_app, length_enc_header, length_u32. fold (enc_list vsi_codec (replicate (Z.to_nat n) VSI_default)).
  rewrite (length_enc_list vsi_codec VSI_SIZE), length_replicate; [unfold VSI_SIZE, VEC_SIZE_BYTES; lia|].
  apply Forall_replicate. unfold vsi_codec, VSI_default. cbn [wf].
  repeat split; unfold in_range; cbn; lia.
Qed.

Section LiveCreate.
Context `{RT : Runtime} `{!RuntimeLaws RT} `{SV : Sysvars}.
Variables (program_id k : Pubkey).
Context `{!ProgramLaws RT program_id}.

(** ** The checks, forward *)
Lemma check_account_owner_run i s : acc_owner (account_at (ledger s) (key i)) = program_id ->
  check_account_owner i program_id s = Ok (tt, s).
Proof.
  intros Ho. unfold check_account_owner. rewrite (mbind_run (owner_of i) _ _ program_id s) by (rewrite <- Ho; reflexivity).
  apply fail_if_run, other_key. reflexivity.
Qed.

Lemma data_len_run i s :
  is_borrowed (key i) s = false ->
  data_len i s = Ok (Z.of_nat (length (acc_data (account_at (ledger s) (key i)))), s).
Proof. intros Hb. unfold data_len. by rewrite (mbind_run _ _ _ _ _ (borrow_data_run i s Hb)). Qed.

Lemma check_new_list_run i n s :
  acc_owner (account_at (ledger s) (key i)) = program_id -> is_borrowed (key i) s = false ->
  acc_data (account_at (ledger s) (key i)) = replicate (length (enc validator_list_codec (ValidatorList_new n))) 0 ->
  1 <= n <= MAX_VALIDATORS_IN_POOL -> check_new_list program_id i n s = Ok (tt, s).
Proof.
  intros Ho Hb Hd Hn. assert (Hn32 : n < 2 ^ 32) by (unfold MAX_VALIDATORS_IN_POOL in Hn; lia).
  unfold check_new_list. rewrite (mbind_run _ _ _ _ _ (check_account_owner_run i s Ho)).
  rewrite (mbind_run _ _ _ _ _ (borrow_data_run i s Hb)), Hd.
  rewrite (mbind_run _ _ _ zero_list s).
  2:{ apply lift_run, (decode_zeros _ _ 9); [exact zero_list_wf | exact zero_list_bytes | rewrite length_new_list; lia]. }
  rewrite (mbind_run _ _ _ tt s) by (apply fail_if_sp_run; reflexivity).
  rewrite (mbind_run (data_len i) _ _ (9 + 73 * n) s).
  2:{ rewrite (data_len_run i s Hb), Hd, length_replicate, length_new_list. repeat f_equal. lia. }
  rewrite (mbind_run _ _ _ tt s).
  - apply fail_if_sp_run. lia.
  - apply fail_if_sp_run. rewrite capacity_of_size by lia. apply orb_false_iff. lia.
Qed.

Lemma check_rent_exempt_run rent i s :
  is_borrowed (key i) s = false ->
  is_exempt rent (acc_lamports (account_at (ledger s) (key i)))
    (Z.of_nat (length (acc_data (account_at (ledger s) (key i))))) = true ->
  check_rent_exempt rent i s = Ok (tt, s).
Proof.
  intros Hb H. unfold check_rent_exempt. rewrite (mbind_run _ _ _ _ _ (lamports_of_run i s)).
  rewrite (mbind_run _ _ _ _ _ (data_len_run i s Hb)). apply fail_if_run. by rewrite H.
Qed.

Lemma supported_none {A} (f : A -> bool) xs : Forall (fun x => f x = true) xs -> existsb (fun x => negb (f x)) xs = false.
Proof. induction 1 as [|x xs Hx _ IH]; [done|]. cbn [existsb]. by rewrite Hx. Qed.

Lemma check_new_mint_run i auth m s :
  is_borrowed (key i) s = false -> unpack_mint (acc_data (account_at (ledger s) (key i))) = Ok m -> fresh_mint m auth ->
  check_new_mint i auth s = Ok (tt, s).
Proof.
  intros Hb Hm (Hs & Hd & Ha & Hf & xs & Hx & Hsup). unfold check_new_mint.
  rewrite (mbind_run (try_borrow_data i) _ _ (acc_data (account_at (ledger s) (key i))) s)
    by (unfold try_borrow_data; by rewrite Hb).
  rewrite (mbind_run _ _ _ _ _ (lift_run _ _ s Hm)).
  do 4 (rewrite (mbind_run _ _ _ tt s) by (apply fail_if_sp_run; rewrite ?Hs, ?Hd, ?Ha, ?Hf; cbn; rewrite ?key_eqb_refl; reflexivity)).
  rewrite (mbind_run _ _ _ _ _ (lift_run _ _ s Hx)). by apply fail_if_sp_run, supported_none.
Qed.

Lemma check_manager_fee_run p i ta xs s :
  is_borrowed (key i) s = false -> unpack_token_account (acc_data (account_at (ledger s) (key i))) = Ok ta ->
  acc_owner (account_at (ledger s) (key i)) = token_program_id p -> token_initialized ta = true ->
  token_mint ta = pool_mint p -> token_extensions ta = Ok xs ->
  Forall (fun x => is_extension_supported_for_fee_account x = true) xs ->
  check_manager_fee_info p i s = Ok (tt, s).
Proof.
  intros Hb Ht Ho Hi Hm Hx Hsup. unfold check_manager_fee_info.
  rewrite (mbind_run (try_borrow_data i) _ _ (acc_data (account_at (ledger s) (key i))) s)
    by (unfold try_borrow_data; by rewrite Hb).
  rewrite (mbind_run _ _ _ _ _ (lift_run _ _ s Ht)).
  rewrite (mbind_run (owner_of i) _ _ (token_program_id p) s) by (rewrite <- Ho; reflexivity).
  rewrite (mbind_run _ _ _ tt s) by (apply fail_if_sp_run; by rewrite Hi, Hm, !key_eqb_refl).
  rewrite (mbind_run _ _ _ _ _ (lift_run _ _ s Hx)). by apply fail_if_sp_run, supported_none.
Qed.

Lemma new_reserve_lamports_run i auth meta s :
  is_borrowed (key i) s = false -> acc_owner (account_at (ledger s) (key i)) = stake_program_id ->
  unpack_stake_state (acc_data (account_at (ledger s) (key i))) = Ok (StakeInitialized meta) ->
  stake_is_usable_by_pool meta auth Lockup_default = true ->
  in_range 64 (acc_lamports (account_at (ledger s) (key i)) - minimum_reserve_lamports meta) ->
  new_reserve_lamports i auth s =
    Ok (acc_lamports (account_at (ledger s) (key i)) - minimum_reserve_lamports meta, s).
Proof.
  intros Hb Ho Hst Hus Hr. unfold stake_is_usable_by_pool in Hus.
  apply andb_true_iff in Hus as [[Hs%key_eqb_eq Hw%key_eqb_eq]%andb_true_iff Hl%bool_decide_eq_true].
  unfold new_reserve_lamports.
  rewrite (mbind_run (owner_of i) _ _ stake_program_id s) by (rewrite <- Ho; reflexivity).
  rewrite (mbind_run _ _ _ tt s) by (apply fail_if_run, other_key; reflexivity).
  rewrite (mbind_run _ _ _ _ _ (borrow_data_run i s Hb)), (mbind_run _ _ _ _ _ (lift_run _ _ s Hst)).
  rewrite (mbind_run _ _ _ tt s) by (apply fail_if_sp_run; by rewrite Hl, bool_decide_true).
  do 2 (rewrite (mbind_run _ _ _ tt s) by (apply fail_if_sp_run; by rewrite ?Hs, ?Hw, key_eqb_refl)).
  rewrite (mbind_run _ _ _ _ _ (lamports_of_run i s)). by apply get_or_run, fit_in_range.
Qed.
(** ** The accounts of a new pool *)
(** What "create-pool" has prepared at [l]: a zeroed account of the program at [k] with
    room for any pool, one at [li] of the size of a list of [n] validators, and a mint, a
    fee account and a reserve of the pool's authority. *)
Record prepared_for (l : Ledger) (li re mint fee token auth : Pubkey) (bump n : Z) (rent : Rent) (m : MintView)
    (ta : TokenView) (meta : Meta) : Prop := {
  prep_types : wf_ledger l;
  prep_pool_owner : acc_owner (account_at l k) = program_id;
  prep_pool_data : exists size, (zero_pool_len + 32 <= size)%nat /\ acc_data (account_at l k) = replicate size 0;
  prep_pool_rent :
    is_exempt rent (acc_lamports (account_at l k)) (Z.of_nat (length (acc_data (account_at l k)))) = true;
  prep_list_owner : acc_owner (account_at l li) = program_id;
  prep_list_data :
    acc_data (account_at l li) = replicate (length (enc validator_list_codec (ValidatorList_new n))) 0;
  prep_list_rent :
    is_exempt rent (acc_lamports (account_at l li)) (Z.of_nat (length (acc_data (account_at l li)))) = true;
  prep_distinct : k <> li;
  prep_capacity : 1 <= n <= MAX_VALIDATORS_IN_POOL;
  prep_authority : find_withdraw_authority_program_address program_id k = (auth, bump);
  prep_token : check_spl_token_program_account token = Ok tt;
  prep_mint_owner : acc_owner (account_at l mint) = token;
  prep_mint : unpack_mint (acc_data (account_at l mint)) = Ok m /\ fresh_mint m auth;
  prep_fee_owner : acc_owner (account_at l fee) = token;
  prep_fee : unpack_token_account (acc_data (account_at l fee)) = Ok ta /\ token_initialized ta = true /\
    token_mint ta = mint /\ exists xs, token_extensions ta = Ok xs /\
    Forall (fun x => is_extension_supported_for_fee_account x = true) xs;
  prep_reserve_owner : acc_owner (account_at l re) = stake_program_id;
  prep_reserve : unpack_stake_state (acc_data (account_at l re)) = Ok (StakeInitialized meta) /\
    stake_is_usable_by_pool meta auth Lockup_default = true
}.

(** An initialized pool is at most one key longer than the zeroed one. *)
Lemma length_initialized mk sk dk bump lk rk tk fk pk n e ef wf_ df rf sol :
  (length (enc stake_pool_codec (initialized_pool zero_pool mk sk dk bump lk rk tk fk pk n e ef wf_ df rf sol)) <=
   zero_pool_len + 32)%nat.
Proof. destruct sol; vm_compute; lia. Qed.

(** A codec's value that fits is written. *)
Lemma write_data_run {A} (c : Codec A) i (x : A) s :
  is_borrowed (key i) s = false -> (length (enc c x) <= length (acc_data (account_at (ledger s) (key i))))%nat ->
  exists d, to_writer c x (acc_data (account_at (ledger s) (key i))) = Ok d /\
    write_data c i x s = Ok (tt, set_data (key i) d s).
Proof.
  intros Hb Hlen.
  assert (H : exists d, to_writer c x (acc_data (account_at (ledger s) (key i))) = Ok d)
    by (eexists; apply to_writer_Ok; split; [exact Hlen | reflexivity]).
  destruct H as [d Hd]. exists d. split; [exact Hd|]. unfold write_data. by rewrite Hb, Hd.
Qed.

(** The stores of [Initialize] after the mint: the list, then the pool. *)
Lemma live_initialized l s i0 i4 n c (q : Clock -> StakePool) :
  wf_ledger l -> acc_owner (account_at l k) = program_id -> acc_owner (account_at l (key i4)) = program_id ->
  acc_data (account_at l (key i4)) = replicate (length (enc validator_list_codec (ValidatorList_new n))) 0 ->
  (length (enc stake_pool_codec (q c)) <= length (acc_data (account_at l k)))%nat ->
  key i0 = k -> k <> key i4 -> in_range 32 n -> borrowed s = [] -> same_own program_id l (ledger s) ->
  Clock_get = Ok c -> wf stake_pool_codec (q c) -> StakePool_is_valid (q c) = true ->
  live (do! write_data validator_list_codec i4 (mkValidatorList (mkHeader AccValidatorList n) []) in
        let! clock := lift Clock_get in write_data stake_pool_codec i0 (q clock)) s
    (fun s' => pool_at program_id (ledger s') k (q c) /\ acc_owner (account_at (ledger s') (key i4)) = program_id /\
      list_at s' (key i4) (mkHeader AccValidatorList n) []).
Proof.
  intros Hw Ho Hlo Hld Hlen K0 Hne Hn Hb Hown Hc Hq Hv.
  destruct (Hown k Ho) as [Ho' Hd']. destruct (Hown (key i4) Hlo) as [Hlo' Hld'].
  destruct (write_data_run validator_list_codec i4 (mkValidatorList (mkHeader AccValidatorList n) []) s)
    as (d & Hd & Hrun); [by unfold is_borrowed; rewrite Hb | |].
  { rewrite Hld', Hld, length_replicate, length_new_list. unfold validator_list_codec, vec. cbn [enc header validators].
    rewrite !length_app, length_enc_header, length_u32. unfold VEC_SIZE_BYTES. cbn. lia. }
  eapply live_bind; [exact Hrun|]. eapply live_bind; [exact (lift_run _ _ _ Hc)|].
  destruct (write_data_run stake_pool_codec i0 (q c) (set_data (key i4) d s)) as (d2 & Hd2 & Hrun2);
    [by unfold is_borrowed; cbn; rewrite Hb | |].
  { rewrite K0, set_data_at_ne by (by apply not_eq_sym). by rewrite Hd'. }
  eexists. split; [exact Hrun2|]. rewrite K0 in *. split; [|split].
  - split; [by rewrite set_data_at; cbn [acc_owner]; rewrite set_data_at_ne by (by apply not_eq_sym)|]. split; [|exact Hv].
    exact (stored_after_write k (q c) d2 _ Hq Hd2).
  - by rewrite set_data_at_ne, set_data_at.
  - eapply list_at_same; [|eapply list_at_empty; [exact Hn | exact Hd]]. by rewrite set_data_at_ne.
Qed.

#[local] Opaque zero_pool zero_pool_len.

Lemma deposit_authority_carried dep rest :
  carries (match dep with Some a => [meta_new_readonly a true] | None => [] end) rest ->
  match rest with
  | [] => (fst (find_deposit_authority_program_address program_id k), None)
  | i :: _ => (key i, Some (key i))
  end = (default (fst (find_deposit_authority_program_address program_id k)) dep, dep).
Proof.
  destruct dep as [a|]; [intros (i & r & -> & K & _)%carries_cons; cbn in *; by subst | by intros ->%Forall2_nil_inv_l].
Qed.

Lemma initialized_same a b self mk sk dk bump lk rk tk fk pk n e ef wf_ df rf sol :
  initialized_pool (set_pool_mint a (set_token_program_id b self)) mk sk dk bump lk rk tk fk pk n e ef wf_ df rf sol =
  initialized_pool self mk sk dk bump lk rk tk fk pk n e ef wf_ df rf sol.
Proof. reflexivity. Qed.

Lemma live_weaken (m : M unit) s (P Q : RState -> Prop) : live m s P -> (forall s', P s' -> Q s') -> live m s Q.
Proof. intros (s' & H & HP) HQ. exists s'. auto. Qed.

Lemma initialized_fees self mk sk dk bump lk rk tk fk pk n e ef wf_ df rf sol :
  initial_fees_too_high ef wf_ df rf = false ->
  fees_ok (initialized_pool self mk sk dk bump lk rk tk fk pk n e ef wf_ df rf sol).
Proof. intros (H1 & H2 & H3 & H4)%initial_fees_ok. repeat split; done. Qed.

(** The call of [Initialize] when the reserve holds more than its minimum: the new pool
    signs the mint. *)
Definition initialize_calls (infos : list AccountInfo) (bump total : Z) : list Call :=
  match infos with
  | _ :: _ :: _ :: auth :: _ :: _ :: mint :: fee :: token :: _ =>
      when (0 <? total)
        (mkCall (TokenMintTo (key token) (key mint) (key fee) (key auth) total) [mint; fee; auth]
           [authority_signature_seeds k AUTHORITY_WITHDRAW bump])
  | _ => []
  end.

(** C24: a pool can be created. With the accounts "create-pool" prepares, in the two sizes
    it allocates, the [Initialize] that [initialize] builds succeeds whenever the fees
    are at most one, the reserve holds its minimum and the token program accepts the mint
    of what is above it ([initialize_calls]); it stores the new pool and an empty list of the capacity asked for. *)
Theorem initialize_succeeds l mgr stk auth li re mint fee token dep ef wf_ df rf n bump rent m ta meta c infos :
  let ix := initialize program_id k mgr stk auth li re mint fee token dep ef wf_ df rf n in
  let total := acc_lamports (account_at l re) - minimum_reserve_lamports meta in
  prepared_for l li re mint fee token auth bump n rent m ta meta -> carries (accounts ix) infos ->
  initial_fees_too_high ef wf_ df rf = false -> wf_Fee ef -> wf_Fee wf_ -> wf_Fee df -> in_range 8 rf ->
  Forall (in_range 256) [k; mgr; stk; li; re; mint; fee; token] -> from_option (in_range 256) True dep ->
  Rent_get = Ok rent -> Clock_get = Ok c -> in_range 64 total ->
  willing [] (initialize_calls infos bump total) l ->
  exists s', process program_id infos (data ix) (mkRState l [] []) = Ok (tt, s') /\
    in_books program_id (ledger s') k
      (initialized_pool zero_pool mgr stk
         (default (fst (find_deposit_authority_program_address program_id k)) dep) bump li re mint fee token total
         (epoch c) ef wf_ df rf dep) /\
    list_at s' li (mkHeader AccValidatorList n) [].
Proof.
  intros ix total Hp Hc Hfees Hef Hwf Hdf Hrf Hkeys Hdep Hrent Hclock Htotal Hwill. unfold ix in *. clear ix.
  destruct Hp as [Hw Ho (size & Hsize & Hd) Hr Hlo Hld Hlr Hne Hn Hauth Htoken Hmo (Hm & Hfm) Hfo
    (Hta & Hti & Htm & xs & Hx & Hsup) Hro (Hre & Hus)].
  assert (Hn32 : in_range 32 n) by (unfold MAX_VALIDATORS_IN_POOL, in_range in *; lia).
  cbn [data initialize]. rewrite process_run by (repeat split; first [apply Hef | apply Hwf | apply Hdf | apply Hrf | apply Hn32]).
  cbn [run_instruction]. cbn [accounts initialize] in Hc. apply carries_app in Hc as (ys & rest & -> & Hc & Hrest).
  take_info Hc i0 K0. apply carries_cons in Hc as (i1 & r1 & -> & K1 & S1 & _ & Hc). cbn in K1, S1.
  take_info Hc i2 K2. take_info Hc i3 K3. take_info Hc i4 K4. take_info Hc i5 K5. take_info Hc i6 K6.
  take_info Hc i7 K7. take_info Hc i8 K8. apply Forall2_nil_inv_l in Hc as ->. cbn [app].
  rewrite <- (initialized_same mint token zero_pool). set (s0 := mkRState l [] []). unfold process_initialize. do 9 go_live.
  eapply live_bind; [exact (lift_run _ _ s0 Hrent)|].
  eapply live_bind; [apply fail_if_sp_run; by rewrite (S1 eq_refl)|]. rewrite K0.
  eapply live_bind; [apply fail_if_sp_run, not_true_iff_false; by rewrite key_eqb_eq, K4|].
  eapply live_bind; [apply check_account_owner_run; by rewrite K0|].
  eapply live_bind; [by apply borrow_data_run|]. cbn [ledger]. rewrite K0.
  eapply live_bind; [apply lift_run; cbn [s0 ledger]; rewrite Hd; apply (decode_zeros _ _ zero_pool_len);
    [exact zero_pool_wf | exact zero_pool_bytes | lia]|].
  eapply live_bind; [apply fail_if_sp_run; by rewrite (proj1 zero_pool_unused)|].
  eapply live_bind; [apply (check_new_list_run i4 n); rewrite ?K4; [exact Hlo | reflexivity | exact Hld | exact Hn]|].
  eapply live_bind; [apply check_rent_exempt_run; rewrite ?K0; [reflexivity | exact Hr]|].
  eapply live_bind; [apply check_rent_exempt_run; rewrite ?K4; [reflexivity | exact Hlr]|].
  eapply live_bind; [by apply fail_if_sp_run|]. rewrite K8. eapply live_bind; [exact (lift_run _ _ s0 Htoken)|].
  eapply live_bind; [reflexivity|]. cbn [s0 ledger]. rewrite K6, Hmo.
  eapply live_bind; [by apply fail_if_run, other_key|]. cbv zeta.
  rewrite (deposit_authority_carried dep rest Hrest), Hauth.
  eapply live_bind; [apply fail_if_sp_run, other_key; by rewrite K3|].
  eapply live_bind; [apply (check_new_mint_run i6 auth m); rewrite ?K6; [reflexivity | exact Hm | exact Hfm]|].
  eapply live_bind; [apply (check_manager_fee_run _ i7 ta xs); rewrite ?K7;
    [reflexivity | exact Hta | exact Hfo | exact Hti | exact Htm | exact Hx | exact Hsup]|].
  eapply live_bind; [apply (new_reserve_lamports_run i5 auth meta); rewrite ?K5;
    [reflexivity | exact Hro | exact Hre | exact Hus | exact Htotal]|].
  rewrite K5. fold total. rewrite K4, K7, K1, K2. subst s0. eapply (live_goes program_id [] _ _ []).
  - apply goes_when. unfold token_mint_to. by apply goes_invoke.
  - reflexivity.
  - rewrite app_nil_r. exact Hwill.
  - intros s1 Hb _ Hown _. rewrite <- K4 in *.
    eapply live_weaken.
    { apply (live_initialized l s1 i0 i4 n c (fun clock => initialized_pool _ _ _ _ _ _ _ _ _ _ _ (epoch clock) _ _ _ _ _));
        [exact Hw | exact Ho | exact Hlo | exact Hld | | exact K0 | exact Hne | exact Hn32 | exact Hb | exact Hown
        | exact Hclock | | reflexivity]; rewrite initialized_same.
      - rewrite Hd, length_replicate. etransitivity; [apply length_initialized | exact Hsize].
      - rewrite !List.Forall_cons_iff in Hkeys. destruct Hkeys as (?&?&?&?&?&?&?&?&_).
        assert (Hd0 : in_range 256 (default (fst (find_deposit_authority_program_address program_id k)) dep))
          by (destruct dep; [exact Hdep | apply pda_types]).
        apply wf_initialized_pool; try done; [exact zero_pool_wf | | by apply (withdraw_bump_type _ _ _ _ Hauth) | by eapply clock_types].
        by rewrite !List.Forall_cons_iff. }
    intros s' (Hpool & Hlist_owner & Hlist). split; [|exact Hlist]. split.
    + split; [exact Hpool|]. split; [reflexivity | by apply initialized_fees].
    + split; [exact Hlist_owner|]. exists (mkHeader AccValidatorList n), []. split; [reflexivity|].
      split; [eapply list_at_same; [|exact Hlist]; reflexivity | by apply list.NoDup_nil].
Qed.
End LiveCreate.

(** ** At the concrete runtime *)
Definition toy_initialize : Instruction :=
  initialize toy_program 60 65 66 (new_authority 60) 61 64 62 63 toy_token_program None (mkFee 100 3)
    (mkFee 1000 1) (mkFee 0 0) 10 1.
Definition toy_new_meta : Meta := mkMeta 200 (mkAuthorized (new_authority 60) (new_authority 60)) Lockup_default.

Lemma toy_prepared :
  prepared_for (RT := toy) toy_program 60 (ledger toy_before) 61 64 62 63 toy_token_program (new_authority 60) 255 1 tt
    (mkMint 0 9 (Some (new_authority 60)) None (Ok [])) (mkToken true 62 (Ok [])) toy_new_meta.
Proof.
  split.
  - apply wf_of_accounts. vm_compute. reflexivity.
  - vm_compute. reflexivity.
  - exists 900%nat. split; [apply Nat.leb_le|]; vm_compute; reflexivity.
  - vm_compute. reflexivity.
  - vm_compute. reflexivity.
  - vm_compute. reflexivity.
  - vm_compute. reflexivity.
  - discriminate.
  - unfold MAX_VALIDATORS_IN_POOL. lia.
  - vm_compute. reflexivity.
  - vm_compute. reflexivity.
  - vm_compute. reflexivity.
  - split; [vm_compute; reflexivity|]. split; [reflexivity|]. split; [reflexivity|]. split; [reflexivity|].
    split; [reflexivity|]. exists []. by split.
  - vm_compute. reflexivity.
  - split; [vm_compute; reflexivity|]. split; [reflexivity|]. split; [reflexivity|]. exists []. by split.
  - vm_compute. reflexivity.
  - split; vm_compute; reflexivity.
Qed.

Lemma initialize_succeeds_witness :
  exists s' q, process (RT := toy) toy_program (info_of <$> accounts toy_initialize) (data toy_initialize)
    (mkRState (ledger toy_before) [] []) = Ok (tt, s') /\
  in_books (RT := toy) toy_program (ledger s') 60 q /\ total_lamports q = 5000 - MINIMUM_RESERVE_LAMPORTS /\
  list_at (RT := toy) s' 61 (mkHeader AccValidatorList 1) [].
Proof.
  destruct (initialize_succeeds (RT := toy) toy_program 60 (ledger toy_before) 65 66 (new_authority 60) 61 64 62 63
    toy_token_program None (mkFee 100 3) (mkFee 1000 1) (mkFee 0 0) 10 1 255 tt
    (mkMint 0 9 (Some (new_authority 60)) None (Ok [])) (mkToken true 62 (Ok [])) toy_new_meta (mkClock toy_epoch)
    (info_of <$> accounts toy_initialize) toy_prepared (carries_own _)) as (s' & H1 & H2 & H3).
  - reflexivity.
  - split; vm_compute; (split; [discriminate | reflexivity]).
  - split; vm_compute; (split; [discriminate | reflexivity]).
  - split; vm_compute; (split; [discriminate | reflexivity]).
  - vm_compute. split; [discriminate | reflexivity].
  - repeat constructor; vm_compute; discriminate || reflexivity.
  - exact I.
  - reflexivity.
  - reflexivity.
  - vm_compute. split; [discriminate | reflexivity].
  - apply toy_willing. vm_compute. reflexivity.
  - eexists s', _. split; [exact H1|]. split; [exact H2|]. split; [vm_compute; reflexivity | exact H3].
Defined.
