(* ===== verification/Client.v ===== *)
(** * The command line client (clients/cli/src/client.rs, main.rs to line 310)
    What the commands share. A command reads accounts through an RPC client, builds
    instructions and sends transactions; what it sent stays sent when it fails later,
    so the state is kept on every exit. Each request has a number, and the answer of
    the RPC client may be a different one for every number: nothing is assumed about
    what happens on the chain between two requests. Printing is left out. *)
From S2P Require Import Prelude Error Fees State Borsh Layout Runtime Checks Instruction Builders.
From stdpp Require Import sorting.
Open Scope Z_scope.
Open Scope sp_scope.

(** ** Results *)
(** The error messages, one constructor each; [RpcError] is any error of the client
    library, [ProgramFailed] an error of a builder or of an unpacking function. *)
Inductive CliError : Type :=
| RpcError
| ProgramFailed
| InvalidStakePool (address : Pubkey)
| InvalidValidatorListAccount (address : Pubkey)
| InvalidTokenAccount (address : Pubkey)
| InvalidTokenMintFor (address expected : Pubkey)
| InvalidTokenMint (address : Pubkey)
| InvalidStakeAccount (address : Pubkey)
| NoUnitsConsumed
| UnitsTooLarge
| InsufficientFeePayerBalance (required available : Z)
| EpochFeeZero
| FeesBothZero
| IncorrectMintAuthority
| InvalidMint
| VoteAccountNotFound (vote : Pubkey)
| WrongStakeState
| InvalidDepositAuthority (expected received : Pubkey)
| InvalidWithdrawAuthority (expected received : Pubkey)
| NoDepositAuthority
| NoWithdrawAuthority
| NotEnoughSol (asked available : Z)
| NotEnoughTokens (asked available : Z)
| NotEnoughStake (asked : Z)
| NotEnoughLamports (stake : Pubkey) (asked available : Z)
| VoteMismatch (given delegated : Pubkey)
| DifferentMint.

(** How a command ends; [OutOfFuel] is a loop cut short by the model. *)
Inductive reply (A : Type) : Type :=
| Done (a : A)
| Failed (e : CliError)
| Panicked
| OutOfFuel.
Arguments Done {A} a.
Arguments Failed {A} e.
Arguments Panicked {A}.
Arguments OutOfFuel {A}.

(** ** Code outside the repository *)
Record TokenAccount := mkTokenAccount { ta_mint : Pubkey; ta_amount : Z }.

(** The client libraries: number conversions, account layouts, instruction builders
    of other programs, signing. [overflow_checks] is the build profile's setting for
    plain arithmetic: a panic, or a wrapped value. *)
Class Sdk := {
  Hash : Type;
  F64 : Type;
  overflow_checks : bool;
  sol_to_lamports : F64 -> Z;
  ui_amount_to_amount : F64 -> Z -> Z;
  amount_to_ui_amount : Z -> Z -> F64;
  new_keypair : nat -> Pubkey;
  spl_token_id : Pubkey;
  stake_pool_packed_len : Z;
  mint_len : Z;
  token_account_len : Z;
  token_mint_decimals : list Z -> option Z;
  unpack_token : list Z -> option TokenAccount;
  deserialize_stake_state : list Z -> option StakeStateV2;
  get_associated_token_address : Pubkey -> Pubkey -> Pubkey -> Pubkey;
  create_associated_token_account : Pubkey -> Pubkey -> Pubkey -> Pubkey -> Instruction;
  system_create_account : Pubkey -> Pubkey -> Z -> Z -> Pubkey -> Instruction;
  system_transfer : Pubkey -> Pubkey -> Z -> Instruction;
  stake_initialize : Pubkey -> Authorized -> Lockup -> Instruction;
  stake_merge : Pubkey -> Pubkey -> Pubkey -> list Instruction;
  token_initialize_mint : Pubkey -> Pubkey -> Pubkey -> option Pubkey -> Z -> option Instruction;
  token_approve : Pubkey -> Pubkey -> Pubkey -> Pubkey -> Z -> option Instruction;
  set_compute_unit_price : Z -> Instruction;
  set_compute_unit_limit : Z -> Instruction;
  can_sign : list Pubkey -> Pubkey -> list Instruction -> bool
}.

Section Data.
Context `{SDK : Sdk}.

Record Message := mkMessage { instructions : list Instruction; payer : Pubkey; blockhash : Hash }.
Record Transaction := mkTransaction { signers : list Pubkey; message : Message }.

(** The answer to request number [n], [None] for an error. [get_program_accounts] takes
    the program and a filter, an offset and the bytes to find there. *)
Class RpcClient := {
  get_account : nat -> Pubkey -> option Account;
  get_account_with_commitment : nat -> Pubkey -> option (option Account);
  get_balance : nat -> Pubkey -> option Z;
  get_minimum_balance_for_rent_exemption : nat -> Z -> option Z;
  get_stake_minimum_delegation : nat -> option Z;
  get_epoch : nat -> option Z;
  latest_blockhash : nat -> option Hash;
  get_fee_for_message : nat -> Message -> option Z;
  simulate_transaction : nat -> Transaction -> option (option Z);
  accepts : nat -> Transaction -> bool;
  get_program_accounts : nat -> Pubkey -> Z -> list Z -> option (list (Pubkey * Account))
}.

(** What the client handed over: to be simulated, sent without waiting, or sent and
    waited for. *)
Inductive Event : Type :=
| Simulated (t : Transaction)
| Sent (t : Transaction)
| SentAndConfirmed (t : Transaction).

(** [requests] and [keypairs] count the requests made and the keypairs generated. *)
Record CState := mkCState { requests : nat; keypairs : nat; events : list Event }.
End Data.

(** ** The keys and settings of a command *)
Inductive ComputeUnitLimit : Type :=
| DefaultLimit
| StaticLimit (units : Z)
| SimulatedLimit.

Record Config := mkConfig {
  stake_pool_program_id : Pubkey;
  config_manager : Pubkey;
  config_staker : Pubkey;
  funding_authority : option Pubkey;
  token_owner : Pubkey;
  fee_payer : Pubkey;
  dry_run : bool;
  no_update : bool;
  compute_unit_price : option Z;
  compute_unit_limit : ComputeUnitLimit
}.

Definition STAKE_STATE_LEN : Z := 200.

(** [unique_signers!]: keys in the order of their bytes, each once. *)
Fixpoint bytes_leb (a b : list Z) : bool :=
  match a, b with
  | [], _ => true
  | _ :: _, [] => false
  | x :: a, y :: b => (x <? y) || ((x =? y) && bytes_leb a b)
  end.
Definition pubkey_le (a b : Pubkey) : Prop := bytes_leb (enc pubkey a) (enc pubkey b) = true.
#[export] Instance pubkey_le_dec a b : Decision (pubkey_le a b) :=
  decide (bytes_leb (enc pubkey a) (enc pubkey b) = true).
Fixpoint dedup (l : list Pubkey) : list Pubkey :=
  match l with
  | [] => []
  | x :: l => match dedup l with
              | [] => [x]
              | y :: l' => if key_eqb x y then y :: l' else x :: y :: l'
              end
  end.
Definition unique_signers (signers : list Pubkey) : list Pubkey := dedup (merge_sort pubkey_le signers).

Section Client.
Context `{RT : Runtime} `{SV : Sysvars} `{SDK : Sdk} `{RPC : !RpcClient}.

(** ** The client monad *)
Definition C (A : Type) : Type := CState -> reply A * CState.
Definition cret {A} (a : A) : C A := fun s => (Done a, s).
Definition cfail {A} (e : CliError) : C A := fun s => (Failed e, s).
Definition cpanic {A} : C A := fun s => (Panicked, s).
Definition cbind {A B} (m : C A) (k : A -> C B) : C B :=
  fun s => match m s with
           | (Done a, s') => k a s'
           | (Failed e, s') => (Failed e, s')
           | (Panicked, s') => (Panicked, s')
           | (OutOfFuel, s') => (OutOfFuel, s')
           end.
End Client.

Notation "'try!' p := m 'in' k" := (cbind m (fun p => k))
  (at level 10, p pattern, m at level 100, k at level 200) : sp_scope.
Notation "'run!' m 'in' k" := (cbind m (fun _ => k))
  (at level 10, m at level 100, k at level 200) : sp_scope.

Section Requests.
Context `{RT : Runtime} `{SV : Sysvars} `{SDK : Sdk} `{RPC : !RpcClient}.

(** [.ok()]: an error becomes a value. *)
Definition cok {A} (m : C A) : C (option A) :=
  fun s => match m s with
           | (Done a, s') => (Done (Some a), s')
           | (Failed _, s') => (Done None, s')
           | (Panicked, s') => (Panicked, s')
           | (OutOfFuel, s') => (OutOfFuel, s')
           end.
(** A request, [.ok_or(e)?], [.unwrap()], and [rpc_client.f(..)?]. *)
Definition attempt {A} (f : nat -> option A) : C (option A) :=
  fun s => (Done (f (requests s)), mkCState (S (requests s)) (keypairs s) (events s)).
Definition cget {A} (o : option A) (e : CliError) : C A :=
  match o with Some a => cret a | None => cfail e end.
Definition cunwrap {A} (o : option A) : C A := match o with Some a => cret a | None => cpanic end.
Definition ask {A} (f : nat -> option A) : C A := try! o := attempt f in cget o RpcError.
(** A panic or an error of a called library function that the command does not look at. *)
Definition clift {A} (o : outcome A) (e : CliError) : C A :=
  match o with Ok a => cret a | Err _ => cfail e | Panic => cpanic end.
Definition fail_when (cond : bool) (e : CliError) : C unit := if cond then cfail e else cret tt.
Definition cwhen (cond : bool) (m : C unit) : C unit := if cond then m else cret tt.

(** Plain [+], [-], [*] on unsigned integers of width [w], and [/]. *)
Definition arith (w v : Z) : C Z :=
  match fit w v with
  | Some v => cret v
  | None => if overflow_checks then cpanic else cret (v mod 2 ^ w)
  end.
Definition cdiv (a b : Z) : C Z := cunwrap (checked_div a b).

(** [Keypair::new()]. *)
Definition Keypair_new : C Pubkey :=
  fun s => (Done (new_keypair (keypairs s)), mkCState (requests s) (S (keypairs s)) (events s)).

(** ** client.rs *)
Definition get_account_data (k : Pubkey) : C (list Z) :=
  try! account := ask (fun n => get_account n k) in cret (acc_data account).

Definition get_stake_pool (stake_pool_address : Pubkey) : C StakePool :=
  try! account_data := get_account_data stake_pool_address in
  clift (try_from_slice_unchecked stake_pool_codec account_data) (InvalidStakePool stake_pool_address).

Definition get_validator_list (validator_list_address : Pubkey) : C ValidatorList :=
  try! account_data := get_account_data validator_list_address in
  clift (try_from_slice_unchecked validator_list_codec account_data)
    (InvalidValidatorListAccount validator_list_address).

Definition get_token_account (token_account_address expected_token_mint : Pubkey) : C TokenAccount :=
  try! account_data := get_account_data token_account_address in
  try! token_account := cget (unpack_token account_data) (InvalidTokenAccount token_account_address) in
  run! fail_when (negb (key_eqb (ta_mint token_account) expected_token_mint))
        (InvalidTokenMintFor token_account_address expected_token_mint) in
  cret token_account.

(** The decimals, which is all the commands read of a mint. *)
Definition get_token_mint (token_mint_address : Pubkey) : C Z :=
  try! account_data := get_account_data token_mint_address in
  cget (token_mint_decimals account_data) (InvalidTokenMint token_mint_address).

Definition get_stake_state (stake_address : Pubkey) : C StakeStateV2 :=
  try! account_data := get_account_data stake_address in
  cget (deserialize_stake_state account_data) (InvalidStakeAccount stake_address).

(** The pools, with their lists, among the accounts that have a 1 at offset 0 (the
    filter is "2" in base 58); what cannot be read is left out. *)
Fixpoint read_pools (stake_pool_program_id : Pubkey) (found : list (Pubkey * Account))
    : C (list (Pubkey * StakePool * ValidatorList * Pubkey)) :=
  match found with
  | [] => cret []
  | (address, account) :: found =>
      let pool_withdraw_authority :=
        fst (find_withdraw_authority_program_address stake_pool_program_id address) in
      match try_from_slice_unchecked stake_pool_codec (acc_data account) with
      | Ok stake_pool =>
          try! o := cok (get_validator_list (validator_list stake_pool)) in
          try! pools := read_pools stake_pool_program_id found in
          cret (match o with
                | Some validator_list => (address, stake_pool, validator_list, pool_withdraw_authority) :: pools
                | None => pools
                end)
      | _ => read_pools stake_pool_program_id found
      end
  end.
Definition get_stake_pools (stake_pool_program_id : Pubkey)
    : C (list (Pubkey * StakePool * ValidatorList * Pubkey)) :=
  try! found := ask (fun n => get_program_accounts n stake_pool_program_id 0 [1]) in
  read_pools stake_pool_program_id found.

(** The accounts of the stake program whose staker (at offset 12) is the given one, as
    a set: each once, in whatever order. *)
Definition get_all_stake (authorized_staker : Pubkey) : C (list Pubkey) :=
  try! all_stake_accounts := ask (fun n => get_program_accounts n stake_program_id 12 (enc pubkey authorized_staker)) in
  cret (remove_dups (map fst all_stake_accounts)).

Definition MAX_COMPUTE_UNIT_LIMIT : Z := 1400000.

Definition set_last_data (l : list Instruction) (d : list Z) : list Instruction :=
  match last l with
  | Some i => removelast l ++ [mkInstruction (program i) (accounts i) d]
  | None => l
  end.

Definition add_compute_unit_limit_from_simulation (l : list Instruction) (payer : Pubkey) (blockhash : Hash)
    : C (list Instruction) :=
  let l := l ++ [set_compute_unit_limit MAX_COMPUTE_UNIT_LIMIT] in
  try! simulation_result :=
    ask (fun n => simulate_transaction n (mkTransaction [] (mkMessage l payer blockhash))) in
  try! units_consumed := cget simulation_result NoUnitsConsumed in
  try! compute_unit_limit := cget (fit 32 units_consumed) UnitsTooLarge in
  cret (set_last_data l (data (set_compute_unit_limit compute_unit_limit))).

(** ** main.rs: fees, transactions *)
Definition check_fee_payer_balance (config : Config) (required_balance : Z) : C unit :=
  try! balance := ask (fun n => get_balance n (fee_payer config)) in
  fail_when (balance <? required_balance) (InsufficientFeePayerBalance required_balance balance).

Definition check_stake_pool_fees (epoch_fee withdrawal_fee deposit_fee : Fee) : C unit :=
  run! fail_when ((numerator epoch_fee =? 0) || (denominator epoch_fee =? 0)) EpochFeeZero in
  let is_withdrawal_fee_zero := (numerator withdrawal_fee =? 0) || (denominator withdrawal_fee =? 0) in
  let is_deposit_fee_zero := (numerator deposit_fee =? 0) || (denominator deposit_fee =? 0) in
  fail_when (is_withdrawal_fee_zero && is_deposit_fee_zero) FeesBothZero.

Definition get_latest_blockhash : C Hash := ask latest_blockhash.

(** Hands a transaction over; the event is kept even if the client reports an error. *)
Definition hand_over (e : Event) (t : Transaction) : C unit :=
  fun s => let s' := mkCState (S (requests s)) (keypairs s) (events s ++ [e]) in
           if accepts (requests s) t then (Done tt, s') else (Failed RpcError, s').

Definition send_transaction_no_wait (config : Config) (transaction : Transaction) : C unit :=
  if dry_run config then hand_over (Simulated transaction) transaction
  else hand_over (Sent transaction) transaction.

Definition send_transaction (config : Config) (transaction : Transaction) : C unit :=
  if dry_run config then hand_over (Simulated transaction) transaction
  else hand_over (SentAndConfirmed transaction) transaction.

(** [Transaction::new] panics when the signers do not fit the message. *)
Definition Transaction_new (signers : list Pubkey) (message : Message) : C Transaction :=
  if can_sign signers (payer message) (instructions message) then cret (mkTransaction signers message) else cpanic.

Definition add_compute_unit_price (config : Config) (instructions : list Instruction) : list Instruction :=
  match compute_unit_price config with
  | Some price => instructions ++ [set_compute_unit_price price]
  | None => instructions
  end.

Definition add_compute_unit_limit (config : Config) (instructions : list Instruction) (recent_blockhash : Hash)
    : C (list Instruction) :=
  match compute_unit_limit config with
  | DefaultLimit => cret instructions
  | StaticLimit compute_unit_limit => cret (instructions ++ [set_compute_unit_limit compute_unit_limit])
  | SimulatedLimit => add_compute_unit_limit_from_simulation instructions (fee_payer config) recent_blockhash
  end.

Definition checked_transaction_with_signers_and_additional_fee (config : Config)
    (instructions : list Instruction) (signers : list Pubkey) (additional_fee : Z) : C Transaction :=
  try! recent_blockhash := get_latest_blockhash in
  let instructions := add_compute_unit_price config instructions in
  try! instructions := add_compute_unit_limit config instructions recent_blockhash in
  let message := mkMessage instructions (fee_payer config) recent_blockhash in
  try! fee := ask (fun n => get_fee_for_message n message) in
  run! check_fee_payer_balance config (saturating_add 64 additional_fee fee) in
  Transaction_new signers message.

Definition checked_transaction_with_signers (config : Config) (instructions : list Instruction)
    (signers : list Pubkey) : C Transaction :=
  checked_transaction_with_signers_and_additional_fee config instructions signers 0.

(** Returns the address of the new account and the instructions with its creation. *)
Definition new_stake_account (fee_payer : Pubkey) (instructions : list Instruction) (lamports : Z)
    : C (Pubkey * list Instruction) :=
  try! stake_receiver_pubkey := Keypair_new in
  cret (stake_receiver_pubkey,
        instructions ++
        [system_create_account fee_payer stake_receiver_pubkey lamports STAKE_STATE_LEN stake_program_id]).

(** Returns the account, the instructions and the rent asked of the payer. *)
Definition add_associated_token_account (config : Config) (mint token_program_id owner : Pubkey)
    (instructions : list Instruction) (rent_free_balances : Z) : C (Pubkey * list Instruction * Z) :=
  let account := get_associated_token_address owner mint token_program_id in
  try! found := cok (get_token_account account mint) in
  if bool_decide (found = None) then
    try! min_account_balance :=
      try! o := attempt (fun n => get_minimum_balance_for_rent_exemption n token_account_len) in cunwrap o in
    let instructions :=
      instructions ++ [create_associated_token_account (fee_payer config) owner mint token_program_id] in
    try! rent_free_balances := arith 64 (rent_free_balances + min_account_balance) in
    cret (account, instructions, rent_free_balances)
  else cret (account, instructions, rent_free_balances).

(** ** How a command of several steps ends *)
Lemma cbind_done {A B} (m : C A) (k : A -> C B) s b s' :
  cbind m k s = (Done b, s') <-> exists a s1, m s = (Done a, s1) /\ k a s1 = (Done b, s').
Proof.
  split; [|intros (a & s1 & E & H); unfold cbind; by rewrite E].
  unfold cbind. destruct (m s) as [[a|e| |] s1]; intros H; try discriminate H. by exists a, s1.
Qed.
Lemma cbind_failed {A B} (m : C A) (k : A -> C B) s e s' :
  cbind m k s = (Failed e, s') <->
  m s = (Failed e, s') \/ exists a s1, m s = (Done a, s1) /\ k a s1 = (Failed e, s').
Proof.
  unfold cbind. split; [|intros [E | (a & s1 & E & H)]; by rewrite E].
  destruct (m s) as [[a|e0| |] s1]; intros H; try discriminate H; [right; by exists a, s1 | by left; injection H as -> ->].
Qed.
Lemma cbind_run {A B} (m : C A) (k : A -> C B) s a s1 : m s = (Done a, s1) -> cbind m k s = k a s1.
Proof. unfold cbind. by intros ->. Qed.
Lemma cret_done {A} (a b : A) s s' : cret a s = (Done b, s') <-> a = b /\ s' = s.
Proof. unfold cret. split; [by intros [= -> ->] | by intros [-> ->]]. Qed.
Lemma arith_fits w v s : in_range w v -> arith w v s = (Done v, s).
Proof. intros H. unfold arith. by rewrite (proj2 (fit_Some w v v)). Qed.
Lemma arith_done w v s x s' : arith w v s = (Done x, s') -> 0 <= w -> s' = s /\ x = v mod 2 ^ w.
Proof.
  unfold arith. intros H Hw. destruct (fit w v) eqn:E.
  - apply fit_Some in E as [-> E]. injection H as <- <-. unfold in_range in E. by rewrite Z.mod_small.
  - destruct overflow_checks; [done|]. by injection H as <- <-.
Qed.
Lemma arith_failed w v s e s' : arith w v s <> (Failed e, s').
Proof. unfold arith. destruct (fit w v); [done|]. by destruct overflow_checks. Qed.
Lemma cunwrap_done {A} (o : option A) s a s' : cunwrap o s = (Done a, s') <-> o = Some a /\ s' = s.
Proof. destruct o; cbn; split; try done; [by intros [= -> ->] | by intros [[= ->] ->] | by intros []]. Qed.
Lemma fail_when_done b e s u s' : fail_when b e s = (Done u, s') <-> b = false /\ s' = s.
Proof. destruct b, u; cbn; split; try done; [by intros [] | by intros [= ->] | by intros [_ ->]]. Qed.
Lemma ask_done {A} (f : nat -> option A) s a s' :
  ask f s = (Done a, s') <-> f (requests s) = Some a /\ s' = mkCState (S (requests s)) (keypairs s) (events s).
Proof.
  unfold ask, attempt. rewrite cbind_done. split.
  - intros (o & s1 & [= <- <-] & H). destruct (f (requests s)); [|done]. by injection H as <- <-.
  - intros [H ->]. rewrite H. by eexists _, _.
Qed.
Lemma ask_failed {A} (f : nat -> option A) s e s' : ask f s = (Failed e, s') -> e = RpcError.
Proof. unfold ask, attempt, cbind, cget. destruct (f (requests s)); cbn; [done | by intros [= <- _]]. Qed.

(** The types of what the chain answers. *)
Class RpcTypes : Prop := {
  minimum_balance_types n k v : get_minimum_balance_for_rent_exemption n k = Some v -> in_range 64 v
}.
End Requests.
