(* ===== verification/ConcreteClient.v ===== *)
(** * A concrete client
    Instances of [Sdk] and [RpcClient] over the accounts of the concrete pool, at which
    the theorems about the command line client are applied: every request is answered
    from those accounts, and a transaction is signed when its keys are exactly those
    its instructions ask for. *)
From S2P Require Import Prelude Error Fees State Borsh Layout Runtime Checks Concrete Metadata Instruction Builders Built Client.
From stdpp Require Import list.
Open Scope Z_scope.
Open Scope sp_scope.

(** The keys that have to sign: the payer's and those of the instructions. *)
Definition required_signers (payer : Pubkey) (l : list Instruction) : list Pubkey :=
  payer :: map meta_key (List.filter meta_signer (concat (map accounts l))).
Definition toy_can_sign (signers : list Pubkey) (payer : Pubkey) (l : list Instruction) : bool :=
  let required := required_signers payer l in
  forallb (fun k => existsb (Z.eqb k) signers) required && forallb (fun k => existsb (Z.eqb k) required) signers.

Definition toy_unpack_token (d : list Z) : option TokenAccount :=
  match dec token_codec d with Some ((m, a), _) => Some (mkTokenAccount m a) | None => None end.

#[export] Instance toy_sdk : Sdk := {|
  Hash := Z;
  F64 := Z;
  overflow_checks := true;
  sol_to_lamports amount := amount;
  ui_amount_to_amount amount _ := amount;
  amount_to_ui_amount amount _ := amount;
  new_keypair n := 900 + Z.of_nat n;
  spl_token_id := toy_token_program;
  stake_pool_packed_len := 1000;
  mint_len := 82;
  token_account_len := 165;
  token_mint_decimals d := option_map (fun m => mint_decimals (fst m)) (dec mint_codec d);
  unpack_token := toy_unpack_token;
  deserialize_stake_state d := match unpack_stake d with Ok st => Some st | _ => None end;
  get_associated_token_address owner mint token_program := (owner * 7 + mint * 5 + token_program) mod 2 ^ 256;
  create_associated_token_account payer owner mint token_program :=
    mkInstruction token_program [meta_new payer true; meta_new_readonly owner false; meta_new_readonly mint false] [];
  system_create_account from to lamports space owner :=
    mkInstruction toy_system [meta_new from true; meta_new to true] [0; lamports; space; owner];
  system_transfer from to lamports := mkInstruction toy_system [meta_new from true; meta_new to false] [2; lamports];
  stake_initialize stake _ _ := mkInstruction toy_stake_program [meta_new stake false] [0];
  stake_merge destination source authority :=
    [mkInstruction toy_stake_program [meta_new destination false; meta_new source false; meta_new_readonly authority true] [7]];
  token_initialize_mint program mint _ _ decimals := Some (mkInstruction program [meta_new mint false] [0; decimals]);
  token_approve program source delegate owner amount :=
    Some (mkInstruction program [meta_new source false; meta_new_readonly delegate false; meta_new_readonly owner true] [4; amount]);
  set_compute_unit_price price := mkInstruction 3 [] [3; price];
  set_compute_unit_limit limit := mkInstruction 3 [] [2; limit];
  can_sign := toy_can_sign
|}.

Definition toy_ledger : Ledger := list_to_map toy_accounts.

(** [toy_rpc_at epoch]: the chain at that epoch. *)
Definition toy_rpc_at (e : Z) : RpcClient := {|
  get_account _ k := toy_ledger !! k;
  get_account_with_commitment _ k := Some (toy_ledger !! k);
  get_balance _ k := Some (acc_lamports (toy_account toy_ledger k));
  get_minimum_balance_for_rent_exemption _ size := fit 64 size;
  get_stake_minimum_delegation _ := Some 1;
  get_epoch _ := Some e;
  latest_blockhash _ := Some 0;
  get_fee_for_message _ _ := Some 5000;
  simulate_transaction _ _ := Some (Some 1000);
  accepts _ _ := true;
  get_program_accounts _ _ _ _ := Some []
|}.

#[export] Instance toy_rpc_types e : RpcTypes (RPC := toy_rpc_at e).
Proof. split. intros n k v H. cbn in H. by apply fit_Some in H as [-> ?]. Qed.

Definition toy_config : Config := {|
  stake_pool_program_id := toy_program;
  config_manager := toy_manager;
  config_staker := toy_staker;
  funding_authority := None;
  token_owner := toy_user;
  fee_payer := toy_user;
  dry_run := false;
  no_update := false;
  compute_unit_price := None;
  compute_unit_limit := DefaultLimit
|}.
Definition toy_start : CState := mkCState 0 0 [].
