(* ===== verification/Plan.v ===== *)
(** * Planning a withdrawal of stake (clients/cli/src/main.rs 1553-1707)
    Which accounts the command line client withdraws a number of pool tokens from, and
    how many from each. *)
From S2P Require Import Prelude Error Fees State Borsh Layout Runtime Checks Concrete Instruction Builders Built Client ConcreteClient.
From stdpp Require Import sorting.
Open Scope Z_scope.
Open Scope sp_scope.

Record WithdrawAccount := mkWithdrawAccount {
  stake_address : Pubkey;
  vote_address : option Pubkey;
  pool_amount : Z
}.

(** An account to withdraw from: its address, what it offers, its validator. *)
Definition Candidate : Type := Pubkey * Z * option Pubkey.
Definition offered (c : Candidate) : Z := snd (fst c).
Definition vote_of (c : Candidate) : option Pubkey := snd c.

(** The comparison of [sorted_accounts], and [sort_by], which is stable; the sort
    follows the comparison as far as it says that one element is not after another. *)
Definition compare_candidates (preferred : option Pubkey) (left right : Candidate) : comparison :=
  if bool_decide (vote_of left = preferred) then Lt
  else if bool_decide (vote_of right = preferred) then Gt
  else Z.compare (offered right) (offered left).
Definition not_after (preferred : option Pubkey) (left right : Candidate) : Prop :=
  compare_candidates preferred left right <> Gt.
#[export] Instance not_after_dec preferred left right : Decision (not_after preferred left right).
Proof. unfold not_after. destruct compare_candidates; [left | left | right]; congruence. Defined.

Definition sorted_accounts (validator_list : ValidatorList) (stake_pool : StakePool)
    (get_info : ValidatorStakeInfo -> Candidate) : list Candidate :=
  merge_sort (not_after (preferred_withdraw_validator_vote_address stake_pool))
    (map get_info (validators validator_list)).

Section Plan.
Context `{RT : Runtime} `{SV : Sysvars} `{SDK : Sdk} `{RPC : !RpcClient}.

(** The two closures: an entry's stake account with its active stake, its transient
    account with what is above the minimum. *)
Definition active_candidate (program_id stake_pool_address : Pubkey) (validator : ValidatorStakeInfo) : Candidate :=
  let validator_seed := NonZeroU32_new (validator_seed_suffix validator) in
  let stake_account_address :=
    fst (find_stake_program_address program_id (vote_account_address validator) stake_pool_address validator_seed) in
  (stake_account_address, active_stake_lamports validator, Some (vote_account_address validator)).
Definition transient_candidate (program_id stake_pool_address : Pubkey) (min_balance : Z)
    (validator : ValidatorStakeInfo) : Candidate :=
  let transient_stake_account_address :=
    fst (find_transient_stake_program_address program_id (vote_account_address validator) stake_pool_address
           (transient_seed_suffix validator)) in
  (transient_stake_account_address, saturating_sub (transient_stake_lamports validator) min_balance,
   Some (vote_account_address validator)).

(** The tokens one can withdraw from [lamports]. *)
Definition tokens_for_withdrawal (stake_pool : StakePool) (inverse_fee : Fee) (skip_fee : bool) (lamports : Z)
    : C Z :=
  try! available_for_withdrawal_wo_fee := cunwrap (calc_pool_tokens_for_deposit stake_pool lamports) in
  if skip_fee then cret available_for_withdrawal_wo_fee
  else try! scaled := arith 64 (available_for_withdrawal_wo_fee * denominator inverse_fee) in
       cdiv scaled (numerator inverse_fee).

(** The loop over the accounts, until nothing remains: the plan and what is left. *)
Fixpoint withdraw_from (stake_pool : StakePool) (inverse_fee : Fee) (skip_fee : bool) (min_balance : Z)
    (accounts : list Candidate) (remaining_amount : Z) : C (list WithdrawAccount * Z) :=
  match accounts with
  | [] => cret ([], remaining_amount)
  | (stake_address, lamports, vote_address_opt) :: accounts =>
      if lamports <=? min_balance
      then withdraw_from stake_pool inverse_fee skip_fee min_balance accounts remaining_amount
      else
        try! available_for_withdrawal := tokens_for_withdrawal stake_pool inverse_fee skip_fee lamports in
        let pool_amount := Z.min available_for_withdrawal remaining_amount in
        let account := mkWithdrawAccount stake_address vote_address_opt pool_amount in
        try! remaining_amount := arith 64 (remaining_amount - pool_amount) in
        if remaining_amount =? 0 then cret ([account], 0)
        else
          try! (withdraw_from, remaining_amount) :=
            withdraw_from stake_pool inverse_fee skip_fee min_balance accounts remaining_amount in
          cret (account :: withdraw_from, remaining_amount)
  end.

Definition prepare_withdraw_accounts (config : Config) (stake_pool : StakePool) (pool_amount : Z)
    (stake_pool_address : Pubkey) (skip_fee : bool) : C (list WithdrawAccount) :=
  let program_id := stake_pool_program_id config in
  try! stake_minimum_delegation := ask get_stake_minimum_delegation in
  let stake_pool_minimum_delegation := minimum_delegation stake_minimum_delegation in
  try! rent := ask (fun n => get_minimum_balance_for_rent_exemption n STAKE_STATE_LEN) in
  let min_balance := saturating_add 64 rent stake_pool_minimum_delegation in
  try! _ := get_token_mint (pool_mint stake_pool) in
  try! validator_list := get_validator_list (State.validator_list stake_pool) in
  let active := sorted_accounts validator_list stake_pool (active_candidate program_id stake_pool_address) in
  let transient :=
    sorted_accounts validator_list stake_pool (transient_candidate program_id stake_pool_address min_balance) in
  try! reserve_account := ask (fun n => get_account n (reserve_stake stake_pool)) in
  try! rent := ask (fun n => get_minimum_balance_for_rent_exemption n STAKE_STATE_LEN) in
  try! reserve_lamports := arith 64 (acc_lamports reserve_account - rent) in
  try! reserve_lamports := arith 64 (reserve_lamports - MINIMUM_RESERVE_LAMPORTS) in
  let accounts := active ++ transient ++ [(reserve_stake stake_pool, reserve_lamports, None)] in
  let fee := stake_withdrawal_fee stake_pool in
  try! inverse_numerator := arith 64 (denominator fee - numerator fee) in
  let inverse_fee := mkFee (denominator fee) inverse_numerator in
  try! (withdraw_from, remaining_amount) :=
    withdraw_from stake_pool inverse_fee skip_fee min_balance accounts pool_amount in
  run! fail_when (0 <? remaining_amount) (NotEnoughStake pool_amount) in
  cret withdraw_from.

(** ** The plan as a reference *)
(** [takes t cs n ws left]: asking the accounts [cs] in turn, of which [c] can give
    [t c] tokens, for [n] tokens gives the withdrawals [ws] and leaves [left]. *)
Inductive takes (t : Candidate -> Z -> Prop) : list Candidate -> Z -> list WithdrawAccount -> Z -> Prop :=
| takes_none n : takes t [] n [] n
| takes_last k m v cs n x : t (k, m, v) x -> n <= x -> takes t ((k, m, v) :: cs) n [mkWithdrawAccount k v n] 0
| takes_more k m v cs n x ws left :
    t (k, m, v) x -> x < n -> takes t cs (n - x) ws left ->
    takes t ((k, m, v) :: cs) n (mkWithdrawAccount k v x :: ws) left.

Definition total_amount (ws : list WithdrawAccount) : Z := foldr (fun w n => pool_amount w + n) 0 ws.

Lemma takes_total t cs n ws left : takes t cs n ws left -> total_amount ws + left = n.
Proof. unfold total_amount. induction 1; cbn [foldr pool_amount]; lia. Qed.

Lemma takes_nonneg t cs n ws left : takes t cs n ws left -> 0 <= n -> 0 <= left.
Proof. induction 1; lia. Qed.

(** What is left means that every account was emptied. *)
Lemma takes_left t cs n ws left :
  takes t cs n ws left -> 0 < left ->
  exists xs, Forall2 t cs xs /\ foldr Z.add 0 xs + left = n.
Proof.
  induction 1 as [n | k m v cs n x Hx Hn | k m v cs n x ws left Hx Hn Ht IH]; intros Hl; [|lia|].
  - exists []. split; [constructor|]. cbn. lia.
  - destruct (IH Hl) as (xs & Hxs & E). exists (x :: xs). split; [by constructor|]. cbn. lia.
Qed.

(** ** The order *)
Section Order.
Variable preferred : option Pubkey.
Definition is_preferred (c : Candidate) : Prop := vote_of c = preferred.

Lemma not_after_spec a b :
  not_after preferred a b <-> is_preferred a \/ (~ is_preferred b /\ offered b <= offered a).
Proof.
  unfold not_after, compare_candidates, is_preferred. case_bool_decide as Ha; [by split; [left|]|].
  case_bool_decide as Hb; [by split; [|intros [?|[? _]]]|]. rewrite Z.compare_ngt_iff. clear -Ha Hb.
  split; [right; split; [done|lia] | intros [?|[_ ?]]; [done|lia]].
Qed.
#[export] Instance not_after_total : Total (not_after preferred).
Proof.
  intros a b. rewrite !not_after_spec. destruct (decide (is_preferred a)); [by left; left|].
  destruct (decide (is_preferred b)); [by right; left|].
  destruct (Z.le_ge_cases (offered b) (offered a)); [left | right]; by right.
Qed.
#[export] Instance not_after_trans : Transitive (not_after preferred).
Proof. intros a b c. rewrite !not_after_spec. intros [Ha | [Hb Hl]] [Hb' | [Hc Hl']]; [by left..| done |]. right. split; [done|lia]. Qed.

Lemma sort_spec cs :
  merge_sort (not_after preferred) cs ≡ₚ cs /\ StronglySorted (not_after preferred) (merge_sort (not_after preferred) cs).
Proof. split; [apply merge_sort_Permutation | by apply (StronglySorted_merge_sort _)]. Qed.
End Order.


(** ** The loop follows the reference *)
(** What an account can give, and the accounts worth asking. *)
Definition offers (p : StakePool) (inverse_fee : Fee) (skip_fee : bool) (c : Candidate) (x : Z) : Prop :=
  forall s, tokens_for_withdrawal p inverse_fee skip_fee (offered c) s = (Done x, s).
Definition eligible (min_balance : Z) (cs : list Candidate) : list Candidate :=
  filter (fun c => min_balance < offered c) cs.

Lemma tokens_run p inv skip n s x s' :
  tokens_for_withdrawal p inv skip n s = (Done x, s') -> 0 <= n -> 0 <= numerator inv ->
  s' = s /\ 0 <= x /\ forall s, tokens_for_withdrawal p inv skip n s = (Done x, s).
Proof.
  unfold tokens_for_withdrawal. intros (w & s1 & Hw & H)%cbind_done Hn Hi.
  apply cunwrap_done in Hw as [Hw ->]. rewrite Hw. destruct skip.
  - apply cret_done in H as [<- ->]. split; [done|]. split; [|done].
    unfold calc_pool_tokens_for_deposit in Hw. case_match; [by injection Hw as <-|].
    destruct checked_mul; [|done]. cbn in Hw. destruct checked_div; [|done]. cbn in Hw.
    apply fit_Some in Hw as [-> [? _]]. done.
  - apply cbind_done in H as (y & s2 & Hy & H). unfold cdiv in *. apply cunwrap_done in H as [H ->].
    assert (Hr : 0 <= y) by (apply arith_done in Hy as [_ ->]; [apply Z.mod_pos_bound|]; lia).
    apply checked_div_Some in H as [Hd Hx]. split; [by apply arith_done in Hy as [-> _]|].
    split; [subst x; apply Z.div_pos; lia|]. intros s3. unfold arith in *.
    rewrite (cbind_run _ _ _ w s3) by done. cbv beta.
    rewrite (cbind_run _ _ _ y s3).
    + unfold checked_div. replace (numerator inv =? 0) with false by lia. by subst x.
    + destruct (fit 64 _); [by injection Hy as <- _|]. destruct overflow_checks; [done|]. by injection Hy as <- _.
Qed.

Lemma withdraw_from_takes p inv skip m cs n s ws left s' :
  withdraw_from p inv skip m cs n s = (Done (ws, left), s') ->
  0 <= m -> 0 <= numerator inv -> in_range 64 n ->
  s' = s /\ takes (offers p inv skip) (eligible m cs) n ws left.
Proof.
  intros H Hm Hi. revert n ws H. induction cs as [|[[k l] v] cs IH]; intros n ws H Hn; cbn [withdraw_from] in H.
  { apply cret_done in H as [[= <- <-] ->]. split; [done | constructor]. }
  unfold eligible. rewrite filter_cons. destruct (Z.leb_spec l m) as [Hl | Hl].
  { rewrite decide_False by (cbn; lia). by apply IH. }
  rewrite decide_True by (cbn; lia).
  apply cbind_done in H as (x & s1 & Hx & H). apply tokens_run in Hx as (-> & Hx0 & Hx); [|lia|done].
  unfold in_range in Hn.
  apply cbind_done in H as (r & s2 & Hr & H). rewrite arith_fits in Hr by (unfold in_range; lia).
  injection Hr as <- <-. destruct (Z.eqb_spec (n - Z.min x n) 0) as [E | E].
  - apply cret_done in H as [[= <- <-] ->]. split; [done|]. replace (Z.min x n) with n by lia.
    by apply (takes_last _ _ _ _ _ _ x); [|lia].
  - apply cbind_done in H as ([ws' r'] & s3 & H & H'). apply cret_done in H' as [[= <- <-] ->].
    assert (Hlt : x < n) by lia. replace (Z.min x n) with x in * by lia. apply IH in H as [-> H]; [|unfold in_range; lia].
    split; [done|]. by apply takes_more; [|lia|].
Qed.

Lemma tokens_failed p inv skip n s e s' : tokens_for_withdrawal p inv skip n s <> (Failed e, s').
Proof.
  unfold tokens_for_withdrawal. intros H. destruct calc_pool_tokens_for_deposit; [|done]. cbn in H.
  destruct skip; [done|]. apply cbind_failed in H as [H | (a & s1 & _ & H)]; [by apply arith_failed in H|].
  unfold cdiv in H. by destruct checked_div.
Qed.
Lemma withdraw_from_failed p inv skip m cs n s e s' : withdraw_from p inv skip m cs n s <> (Failed e, s').
Proof.
  revert n s. induction cs as [|[[k l] v] cs IH]; intros n s H; cbn [withdraw_from] in H; [done|].
  case_match; [by apply IH in H|].
  apply cbind_failed in H as [H | (a & s1 & _ & H)]; [by apply tokens_failed in H|].
  apply cbind_failed in H as [H | (b & s2 & _ & H)]; [by apply arith_failed in H|].
  case_match; [done|]. apply cbind_failed in H as [H | ([] & s3 & _ & H)]; [by apply IH in H | done].
Qed.

(** ** The whole plan *)
(** What the client read: the minimum balance, the accounts in the order they are asked,
    and the inverse of the fee. *)
Definition plan_inputs (config : Config) (p : StakePool) (k : Pubkey) (s : CState)
    (min_balance : Z) (active transient : list Candidate) (reserve : Candidate) (inverse_fee : Fee) : Prop :=
  exists delegation rent decimals list_account vl reserve_account rent',
    get_stake_minimum_delegation (requests s) = Some delegation /\
    get_minimum_balance_for_rent_exemption (S (requests s)) STAKE_STATE_LEN = Some rent /\
    min_balance = saturating_add 64 rent (minimum_delegation delegation) /\
    (exists a, get_account (2 + requests s) (pool_mint p) = Some a /\ token_mint_decimals (acc_data a) = Some decimals) /\
    get_account (3 + requests s) (State.validator_list p) = Some list_account /\
    try_from_slice_unchecked validator_list_codec (acc_data list_account) = Ok vl /\
    active = sorted_accounts vl p (active_candidate (stake_pool_program_id config) k) /\
    transient = sorted_accounts vl p (transient_candidate (stake_pool_program_id config) k min_balance) /\
    get_account (4 + requests s) (reserve_stake p) = Some reserve_account /\
    get_minimum_balance_for_rent_exemption (5 + requests s) STAKE_STATE_LEN = Some rent' /\
    reserve = (reserve_stake p, (acc_lamports reserve_account - rent') mod 2 ^ 64, None) /\
    inverse_fee = mkFee (denominator (stake_withdrawal_fee p))
      ((denominator (stake_withdrawal_fee p) - numerator (stake_withdrawal_fee p)) mod 2 ^ 64).

Lemma account_data_done k s d s' :
  get_account_data k s = (Done d, s') <->
  exists a, get_account (requests s) k = Some a /\ d = acc_data a /\
    s' = mkCState (S (requests s)) (keypairs s) (events s).
Proof.
  unfold get_account_data. rewrite cbind_done. split.
  - intros (a & s1 & Ha & H). apply ask_done in Ha as [Ha ->]. apply cret_done in H as [<- ->]. by exists a.
  - intros (a & Ha & -> & ->). exists a, (mkCState (S (requests s)) (keypairs s) (events s)).
    by rewrite ask_done, cret_done.
Qed.
Lemma token_mint_done k d s s' :
  get_token_mint k s = (Done d, s') ->
  (exists a, get_account (requests s) k = Some a /\ token_mint_decimals (acc_data a) = Some d) /\
  s' = mkCState (S (requests s)) (keypairs s) (events s).
Proof.
  unfold get_token_mint. intros (b & s1 & (a & Ha & -> & ->)%account_data_done & H)%cbind_done.
  destruct (token_mint_decimals (acc_data a)) eqn:E; [|done]. injection H as <- <-. split; [|done]. by exists a.
Qed.
Lemma validator_list_done k vl s s' :
  get_validator_list k s = (Done vl, s') ->
  (exists a, get_account (requests s) k = Some a /\ try_from_slice_unchecked validator_list_codec (acc_data a) = Ok vl) /\
  s' = mkCState (S (requests s)) (keypairs s) (events s).
Proof.
  unfold get_validator_list. intros (b & s1 & (a & Ha & -> & ->)%account_data_done & H)%cbind_done.
  destruct (try_from_slice_unchecked validator_list_codec (acc_data a)) eqn:E; [|done..].
  injection H as <- <-. split; [|done]. by exists a.
Qed.

(** Either a plan or the message that there is not enough; the steps before the loop
    end in neither. *)
Definition conclusive {A} (r : reply A) : Prop :=
  match r with Done _ | Failed (NotEnoughStake _) => True | _ => False end.
Definition other_errors {A} (m : C A) : Prop := forall s e s', m s = (Failed e, s') -> forall n, e <> NotEnoughStake n.

Lemma other_step {A B} (m : C A) (k : A -> C B) s r s' :
  other_errors m -> cbind m k s = (r, s') -> conclusive r -> exists a s1, m s = (Done a, s1) /\ k a s1 = (r, s').
Proof.
  intros Hp H Hr. unfold cbind in H. destruct (m s) as [o s1] eqn:E. destruct o as [a|e| |].
  - by exists a, s1.
  - injection H as <- <-. destruct e; try done.
    match type of E with _ = (Failed (NotEnoughStake ?a), _) => by destruct (Hp _ _ _ E a) end.
  - by injection H as <- <-.
  - by injection H as <- <-.
Qed.
Lemma other_ask {A} (f : nat -> option A) : other_errors (ask f).
Proof. intros s e s' H n. by rewrite (ask_failed _ _ _ _ H). Qed.
Lemma other_arith w v : other_errors (arith w v).
Proof. intros s e s' H. by apply arith_failed in H. Qed.
Lemma other_data k : other_errors (get_account_data k).
Proof. intros s e s' H n. unfold get_account_data in H. apply cbind_failed in H as [H | (a & s1 & _ & H)]; [|done]. by rewrite (ask_failed _ _ _ _ H). Qed.
Lemma other_mint k : other_errors (get_token_mint k).
Proof.
  intros s e s' H n. unfold get_token_mint in H. apply cbind_failed in H as [H | (d & s1 & _ & H)]; [by eapply other_data|].
  destruct token_mint_decimals; [done|]. by injection H as <- _.
Qed.
Lemma other_list k : other_errors (get_validator_list k).
Proof.
  intros s e s' H n. unfold get_validator_list in H. apply cbind_failed in H as [H | (d & s1 & _ & H)]; [by eapply other_data|].
  destruct try_from_slice_unchecked; [done| |done]. by injection H as <- _.
Qed.
Lemma other_from p inv skip m cs n : other_errors (withdraw_from p inv skip m cs n).
Proof. intros s e s' H. by apply withdraw_from_failed in H. Qed.

Ltac next H :=
  apply other_step in H as (? & ? & ? & H);
    [| first [apply other_ask | apply other_arith | apply other_mint | apply other_list | apply other_from] | assumption].

Lemma prepare_reads config p n k skip s r s' :
  prepare_withdraw_accounts config p n k skip s = (r, s') -> conclusive r ->
  exists m active transient reserve inv s1 s2 ws left,
    plan_inputs config p k s m active transient reserve inv /\
    withdraw_from p inv skip m (active ++ transient ++ [reserve]) n s1 = (Done (ws, left), s2) /\
    r = if 0 <? left then Failed (NotEnoughStake n) else Done ws.
Proof.
  unfold prepare_withdraw_accounts. cbv zeta. intros H Hr.
  do 10 next H.
  repeat match goal with
  | E : ask _ _ = (Done _, _) |- _ => apply ask_done in E as [? ->]
  | E : arith _ _ _ = (Done _, _) |- _ => apply arith_done in E as [-> ->]; [|lia]
  | E : get_token_mint _ _ = (Done _, _) |- _ => apply token_mint_done in E as [? ->]
  | E : get_validator_list _ _ = (Done _, _) |- _ => apply validator_list_done in E as [(? & ? & ?) ->]
  end.
  match goal with x : list WithdrawAccount * Z |- _ => destruct x as [ws left] end.
  cbn [requests keypairs events] in *.
  eexists _, _, _, _, _, _, _, ws, left. split; [|split; [eassumption|]].
  - unfold plan_inputs. do 7 eexists. repeat (split; [first [eassumption | reflexivity | eexists; split; eassumption]|]).
    split; [|reflexivity]. rewrite Z.sub_0_r, Z.mod_mod by lia. reflexivity.
  - destruct (0 <? left); cbn in H; by injection H as <- _.
Qed.

(** C19: what the client plans to withdraw. The accounts are asked in this order: the
    validators' accounts, then the transient accounts, each group with the preferred
    validator first and then by falling balance, then the reserve; those that hold no
    more than the minimum balance are passed over. A plan empties every account it
    asks but the last and sums to exactly the tokens requested; the client reports
    that there is not enough exactly when emptying all of them gives less. *)
Theorem withdrawal_plan `{!RpcTypes} config p n k skip s r s' :
  prepare_withdraw_accounts config p n k skip s = (r, s') -> in_range 64 n -> conclusive r ->
  exists m active transient reserve inv,
    let cs := eligible m (active ++ transient ++ [reserve]) in
    plan_inputs config p k s m active transient reserve inv /\
    StronglySorted (not_after (preferred_withdraw_validator_vote_address p)) active /\
    StronglySorted (not_after (preferred_withdraw_validator_vote_address p)) transient /\
    match r with
    | Done ws => takes (offers p inv skip) cs n ws 0 /\ total_amount ws = n
    | _ => r = Failed (NotEnoughStake n) /\
           exists xs, Forall2 (offers p inv skip) cs xs /\ foldr Z.add 0 xs < n
    end.
Proof.
  intros Hp Hn Hr. destruct (prepare_reads _ _ _ _ _ _ _ _ Hp Hr)
    as (m & active & transient & reserve & inv & s1 & s2 & ws & left & Hi & Hw & ->).
  exists m, active, transient, reserve, inv. cbv zeta. split; [exact Hi|].
  destruct Hi as (d & rent & dec & la & vl & ra & rent' & _ & Hrent & -> & _ & _ & _ & -> & -> & _ & _ & _ & ->).
  split; [apply sort_spec|]. split; [apply sort_spec|].
  apply minimum_balance_types in Hrent. unfold in_range in Hrent.
  apply withdraw_from_takes in Hw as [_ Hw]; [|unfold saturating_add, minimum_delegation, MINIMUM_ACTIVE_STAKE; lia
    | cbn; apply Z.mod_pos_bound; lia | exact Hn].
  destruct (Z.ltb_spec 0 left) as [Hl | Hl].
  - split; [done|]. destruct (takes_left _ _ _ _ _ Hw Hl) as (xs & Hxs & E). exists xs. split; [done|lia].
  - assert (0 <= left) by (eapply takes_nonneg; [exact Hw|]; unfold in_range in Hn; lia).
    replace left with 0 in Hw by lia. split; [exact Hw|]. apply takes_total in Hw. lia.
Qed.
End Plan.

(** A pool without a withdrawal fee, written 0/0, or with a fee of 100 percent: the
    inverse of the fee has the numerator 0, and the client divides by it as soon as an
    account is worth asking. *)
Lemma zero_fee_panics `{RT : Runtime} `{SDK : Sdk} `{RPC : !RpcClient} p m d c cs n s x :
  m < offered c -> calc_pool_tokens_for_deposit p (offered c) = Some x -> in_range 64 (x * d) ->
  withdraw_from p (mkFee d 0) false m (c :: cs) n s = (Panicked, s).
Proof.
  destruct c as [[k l] v]. cbn [offered fst snd]. intros Hm Hx Hd. cbn [withdraw_from].
  replace (l <=? m) with false by lia. unfold tokens_for_withdrawal. rewrite Hx. cbn [denominator numerator].
  unfold cbind at 1, cbind at 1, cunwrap at 1, cret at 1. by rewrite (cbind_run _ _ _ _ _ (arith_fits _ _ _ Hd)).
Qed.

(** The plan for 3_500_000_000 tokens: the validator's account, then the reserve. *)
Definition toy_planned : reply (list WithdrawAccount) * CState :=
  prepare_withdraw_accounts (RPC := toy_rpc_at 5) (RT := toy) toy_config toy_pool 3500000000 toy_pool_key false
    toy_start.
Definition toy_plan : list WithdrawAccount :=
  Eval vm_compute in match fst toy_planned with Done ws => ws | _ => [] end.
Lemma toy_planned_ok : fst toy_planned = Done toy_plan.
Proof. vm_compute. reflexivity. Qed.

Lemma withdrawal_plan_witness : length toy_plan = 2%nat /\ total_amount toy_plan = 3500000000.
Proof.
  split; [reflexivity|].
  destruct (withdrawal_plan (RPC := toy_rpc_at 5) (RT := toy) toy_config toy_pool 3500000000 toy_pool_key false
    toy_start (Done toy_plan) (snd toy_planned)) as (m & a & t & rs & inv & _ & _ & _ & _ & H).
  - rewrite <- toy_planned_ok. exact (surjective_pairing toy_planned).
  - unfold in_range. lia.
  - exact I.
  - exact H.
Defined.
