(* ===== verification/Output.v ===== *)
(** * What the client shows (clients/cli/src/output.rs)
    The records "list" and "list-all" print, how they are made of a pool and its list,
    and their texts. Addresses are kept as keys here and become text when printed;
    the JSON forms are those serde derives. *)
From S2P Require Import Prelude Error Fees State Borsh Runtime Checks Client.
From stdpp Require Import list strings pretty.
From Stdlib Require Import Ascii String.
Open Scope string_scope.
Open Scope list_scope.
Open Scope Z_scope.
Open Scope sp_scope.

(** ** The records *)
Inductive CliStakePoolValidatorStakeStatus : Type :=
| CliActive
| CliDeactivatingTransient
| CliReadyForRemoval
| CliDeactivatingValidator
| CliDeactivatingAll.

Record CliStakePoolValidator := mkCliValidator {
  cli_active_stake_lamports : Z;
  cli_transient_stake_lamports : Z;
  cli_vsi_last_update_epoch : Z;
  cli_transient_seed_suffix : Z;
  cli_unused : Z;
  cli_validator_seed_suffix : Z;
  cli_status : CliStakePoolValidatorStakeStatus;
  cli_vote_account_address : Pubkey
}.
Record CliStakePoolLockup := mkCliLockup { cli_unix_timestamp : Z; cli_epoch : Z; cli_custodian : Pubkey }.
Record CliStakePoolFee := mkCliFee { cli_denominator : Z; cli_numerator : Z }.
Record CliStakePoolStakeAccountInfo := mkStakeAccountInfo {
  shown_vote_account : Pubkey;
  shown_stake_account : Pubkey;
  validator_active_stake_lamports : Z;
  validator_last_update_epoch : Z;
  validator_lamports : Z;
  validator_transient_stake_account : Pubkey;
  validator_transient_stake_lamports : Z;
  entry_update_required : bool
}.

Section Records.
Context `{SDK : Sdk}.

Record CliStakePoolDetails := mkPoolDetails {
  reserve_stake_account : Pubkey;
  reserve_stake_lamports : Z;
  minimum_reserve_stake_balance : Z;
  stake_accounts : list CliStakePoolStakeAccountInfo;
  shown_total_lamports : Z;
  total_pool_tokens : F64;
  current_number_of_validators : Z;
  max_number_of_validators : Z;
  pool_update_required : bool
}.

Record CliStakePool := mkCliPool {
  cli_address : Pubkey;
  cli_pool_withdraw_authority : Pubkey;
  cli_manager : Pubkey;
  cli_staker : Pubkey;
  cli_stake_deposit_authority : Pubkey;
  cli_stake_withdraw_bump_seed : Z;
  cli_max_validators : Z;
  cli_validator_list : list CliStakePoolValidator;
  cli_validator_list_storage_account : Pubkey;
  cli_reserve_stake : Pubkey;
  cli_pool_mint : Pubkey;
  cli_manager_fee_account : Pubkey;
  cli_token_program_id : Pubkey;
  cli_total_lamports : Z;
  cli_pool_token_supply : Z;
  cli_last_update_epoch : Z;
  cli_lockup : CliStakePoolLockup;
  cli_epoch_fee : CliStakePoolFee;
  cli_next_epoch_fee : option CliStakePoolFee;
  cli_preferred_deposit_validator_vote_address : option Pubkey;
  cli_preferred_withdraw_validator_vote_address : option Pubkey;
  cli_stake_deposit_fee : CliStakePoolFee;
  cli_stake_withdrawal_fee : CliStakePoolFee;
  cli_next_stake_withdrawal_fee : option CliStakePoolFee;
  cli_stake_referral_fee : Z;
  cli_sol_deposit_authority : option Pubkey;
  cli_sol_deposit_fee : CliStakePoolFee;
  cli_sol_referral_fee : Z;
  cli_sol_withdraw_authority : option Pubkey;
  cli_sol_withdrawal_fee : CliStakePoolFee;
  cli_next_sol_withdrawal_fee : option CliStakePoolFee;
  cli_last_epoch_pool_token_supply : Z;
  cli_last_epoch_total_lamports : Z;
  cli_max_validator_stake : option Z;
  details : option CliStakePoolDetails
}.
Record CliStakePools := mkCliPools { pools : list CliStakePool }.

(** ** Conversions *)
(** [From<PodStakeStatus>]: a byte of no status panics. *)
Definition cli_status_from (s : Z) : outcome CliStakePoolValidatorStakeStatus :=
  match status_from_u8 s with
  | Some Active => Ok CliActive
  | Some DeactivatingTransient => Ok CliDeactivatingTransient
  | Some ReadyForRemoval => Ok CliReadyForRemoval
  | Some DeactivatingValidator => Ok CliDeactivatingValidator
  | Some DeactivatingAll => Ok CliDeactivatingAll
  | None => Panic
  end.
Definition cli_validator_from (v : ValidatorStakeInfo) : outcome CliStakePoolValidator :=
  let* status := cli_status_from (status v) in
  Ok (mkCliValidator (active_stake_lamports v) (transient_stake_lamports v) (vsi_last_update_epoch v)
        (transient_seed_suffix v) (unused v) (validator_seed_suffix v) status (vote_account_address v)).
Fixpoint cli_validators_from (l : list ValidatorStakeInfo) : outcome (list CliStakePoolValidator) :=
  match l with
  | [] => Ok []
  | v :: l =>
      let* shown := cli_validator_from v in
      let* rest := cli_validators_from l in
      Ok (shown :: rest)
  end.
Definition cli_lockup_from (l : Lockup) : CliStakePoolLockup :=
  mkCliLockup (unix_timestamp l) (lockup_epoch l) (custodian l).
Definition cli_fee_from (f : Fee) : CliStakePoolFee := mkCliFee (denominator f) (numerator f).

Definition cli_pool_from (address : Pubkey) (stake_pool : StakePool) (validator_list : ValidatorList)
    (pool_withdraw_authority : Pubkey) : outcome CliStakePool :=
  let* shown := cli_validators_from (validators validator_list) in
  Ok {|
    cli_address := address;
    cli_pool_withdraw_authority := pool_withdraw_authority;
    cli_manager := manager stake_pool;
    cli_staker := staker stake_pool;
    cli_stake_deposit_authority := stake_deposit_authority stake_pool;
    cli_stake_withdraw_bump_seed := stake_withdraw_bump_seed stake_pool;
    cli_max_validators := max_validators (header validator_list);
    cli_validator_list := shown;
    cli_validator_list_storage_account := State.validator_list stake_pool;
    cli_reserve_stake := reserve_stake stake_pool;
    cli_pool_mint := pool_mint stake_pool;
    cli_manager_fee_account := manager_fee_account stake_pool;
    cli_token_program_id := token_program_id stake_pool;
    cli_total_lamports := total_lamports stake_pool;
    cli_pool_token_supply := pool_token_supply stake_pool;
    cli_last_update_epoch := last_update_epoch stake_pool;
    cli_lockup := cli_lockup_from (lockup stake_pool);
    cli_epoch_fee := cli_fee_from (epoch_fee stake_pool);
    cli_next_epoch_fee := option_map cli_fee_from (FutureEpoch_into_option (next_epoch_fee stake_pool));
    cli_preferred_deposit_validator_vote_address := preferred_deposit_validator_vote_address stake_pool;
    cli_preferred_withdraw_validator_vote_address := preferred_withdraw_validator_vote_address stake_pool;
    cli_stake_deposit_fee := cli_fee_from (stake_deposit_fee stake_pool);
    cli_stake_withdrawal_fee := cli_fee_from (stake_withdrawal_fee stake_pool);
    cli_next_stake_withdrawal_fee :=
      option_map cli_fee_from (FutureEpoch_into_option (next_stake_withdrawal_fee stake_pool));
    cli_stake_referral_fee := stake_referral_fee stake_pool;
    cli_sol_deposit_authority := sol_deposit_authority stake_pool;
    cli_sol_deposit_fee := cli_fee_from (sol_deposit_fee stake_pool);
    cli_sol_referral_fee := sol_referral_fee stake_pool;
    cli_sol_withdraw_authority := sol_withdraw_authority stake_pool;
    cli_sol_withdrawal_fee := cli_fee_from (sol_withdrawal_fee stake_pool);
    cli_next_sol_withdrawal_fee :=
      option_map cli_fee_from (FutureEpoch_into_option (next_sol_withdrawal_fee stake_pool));
    cli_last_epoch_pool_token_supply := last_epoch_pool_token_supply stake_pool;
    cli_last_epoch_total_lamports := last_epoch_total_lamports stake_pool;
    cli_max_validator_stake := max_validator_stake stake_pool;
    details := None
  |}.
Definition set_details (d : CliStakePoolDetails) (p : CliStakePool) : CliStakePool :=
  mkCliPool (cli_address p) (cli_pool_withdraw_authority p) (cli_manager p) (cli_staker p)
    (cli_stake_deposit_authority p) (cli_stake_withdraw_bump_seed p) (cli_max_validators p) (cli_validator_list p)
    (cli_validator_list_storage_account p) (cli_reserve_stake p) (cli_pool_mint p) (cli_manager_fee_account p)
    (cli_token_program_id p) (cli_total_lamports p) (cli_pool_token_supply p) (cli_last_update_epoch p)
    (cli_lockup p) (cli_epoch_fee p) (cli_next_epoch_fee p) (cli_preferred_deposit_validator_vote_address p)
    (cli_preferred_withdraw_validator_vote_address p) (cli_stake_deposit_fee p) (cli_stake_withdrawal_fee p)
    (cli_next_stake_withdrawal_fee p) (cli_stake_referral_fee p) (cli_sol_deposit_authority p) (cli_sol_deposit_fee p)
    (cli_sol_referral_fee p) (cli_sol_withdraw_authority p) (cli_sol_withdrawal_fee p) (cli_next_sol_withdrawal_fee p)
    (cli_last_epoch_pool_token_supply p) (cli_last_epoch_total_lamports p) (cli_max_validator_stake p) (Some d).
End Records.

(** ** Texts *)
(** [Display] of keys, of [Sol] and of floats. *)
Class Texts `{SDK : Sdk} := {
  key_text : Pubkey -> string;
  sol_text : Z -> string;
  f64_text : F64 -> string
}.

Definition newline : string := String (ascii_of_nat 10) "".
Definition tab : string := String (ascii_of_nat 9) "".
Definition texts (l : list string) : string := String.concat "" l.
(** [writeln!]. *)
Definition ln (l : list string) : string := texts l +:+ newline.
Definition when_some {A} (o : option A) (line : A -> string) : string :=
  match o with None => "" | Some a => line a end.

Section Show.
Context `{SDK : Sdk} `{TX : !Texts}.

(** Subtraction of the build profile on [u64]. *)
Definition minus (a b : Z) : outcome Z :=
  if overflow_checks then match checked_sub 64 a b with Some r => Ok r | None => Panic end
  else Ok ((a - b) mod 2 ^ 64).

Definition fee_text (f : CliStakePoolFee) : string := texts [pretty (cli_numerator f); "/"; pretty (cli_denominator f)].

Definition show_pools (l : CliStakePools) : string :=
  texts (map (fun pool => ln ["Address: "; key_text (cli_address pool); tab; "Manager: "; key_text (cli_manager pool); tab;
                              "Lamports: "; pretty (cli_total_lamports pool); tab;
                              "Pool tokens: "; pretty (cli_pool_token_supply pool); tab;
                              "Validators: "; pretty (List.length (cli_validator_list pool))]) (pools l)) +:+
  ln ["Total number of pools: "; pretty (List.length (pools l))].

Definition update_mark (required : bool) : string := if required then " [UPDATE REQUIRED]" else "".

(** The lines both forms of the details share. *)
Definition reserve_line (d : CliStakePoolDetails) (available : Z) : string :=
  ln ["Reserve Account: "; key_text (reserve_stake_account d); tab; "Available Balance: "; sol_text available].
Definition total_lines (d : CliStakePoolDetails) : string :=
  texts [ln ["Total Pool Stake: "; sol_text (shown_total_lamports d); " "; update_mark (pool_update_required d)];
         ln ["Total Pool Tokens: "; f64_text (total_pool_tokens d)];
         ln ["Current Number of Validators: "; pretty (current_number_of_validators d)];
         ln ["Max Number of Validators: "; pretty (max_number_of_validators d)]].

Definition show_details (d : CliStakePoolDetails) : outcome string :=
  let* available := minus (reserve_stake_lamports d) (minimum_reserve_stake_balance d) in
  Ok (texts
    [reserve_line d available;
     texts (map (fun a =>
       ln ["Vote Account: "; key_text (shown_vote_account a); tab; "Balance: "; sol_text (validator_lamports a); tab;
           "Last Update Epoch: "; pretty (validator_last_update_epoch a)]) (stake_accounts d));
     total_lines d]).

Definition show_details_verbose (d : CliStakePoolDetails) : outcome string :=
  let* available := minus (reserve_stake_lamports d) (minimum_reserve_stake_balance d) in
  Ok (texts
    [ln ["Stake Accounts"]; ln ["--------------"];
     reserve_line d available;
     texts (map (fun a =>
       ln ["Vote Account: "; key_text (shown_vote_account a); tab; "Stake Account: "; key_text (shown_stake_account a); tab;
           "Active Balance: "; sol_text (validator_active_stake_lamports a); tab;
           "Transient Stake Account: "; key_text (validator_transient_stake_account a); tab;
           "Transient Balance: "; sol_text (validator_transient_stake_lamports a); tab;
           "Last Update Epoch: "; pretty (validator_last_update_epoch a);
           update_mark (entry_update_required a)]) (stake_accounts d));
     total_lines d]).

Definition show_pool (p : CliStakePool) : string :=
  texts
    [ln ["Stake Pool: "; key_text (cli_address p)];
     ln ["Validator List: "; key_text (cli_validator_list_storage_account p)];
     ln ["Pool Token Mint: "; key_text (cli_pool_mint p)];
     when_some (cli_preferred_deposit_validator_vote_address p)
       (fun s => ln ["Preferred Deposit Validator: "; key_text s]);
     when_some (cli_preferred_withdraw_validator_vote_address p)
       (fun s => ln ["Preferred Withdraw Validator: "; key_text s]);
     ln ["Epoch Fee: "; fee_text (cli_epoch_fee p); " of epoch rewards"];
     ln ["Stake Withdrawal Fee: "; fee_text (cli_stake_withdrawal_fee p); " of withdrawal amount"];
     ln ["SOL Withdrawal Fee: "; fee_text (cli_sol_withdrawal_fee p); " of withdrawal amount"];
     ln ["Stake Deposit Fee: "; fee_text (cli_stake_deposit_fee p); " of deposit amount"];
     ln ["SOL Deposit Fee: "; fee_text (cli_sol_deposit_fee p); " of deposit amount"];
     ln ["Stake Deposit Referral Fee: "; pretty (cli_stake_referral_fee p); "% of Stake Deposit Fee"];
     ln ["SOL Deposit Referral Fee: "; pretty (cli_sol_referral_fee p); "% of SOL Deposit Fee"];
     when_some (cli_max_validator_stake p) (fun max_stake => ln ["Max Validator Stake: "; sol_text max_stake])].

Definition show_pool_verbose (p : CliStakePool) : outcome string :=
  let* shown := match details p with None => Ok "" | Some d => show_details_verbose d end in
  Ok (texts
    [ln ["Stake Pool Info"]; ln ["==============="];
     ln ["Stake Pool: "; key_text (cli_address p)];
     ln ["Validator List: "; key_text (cli_validator_list_storage_account p)];
     ln ["Manager: "; key_text (cli_manager p)];
     ln ["Staker: "; key_text (cli_staker p)];
     ln ["Depositor: "; key_text (cli_stake_deposit_authority p)];
     ln ["SOL Deposit Authority: "; default "None" (option_map key_text (cli_sol_deposit_authority p))];
     ln ["SOL Withdraw Authority: "; default "None" (option_map key_text (cli_sol_withdraw_authority p))];
     ln ["Withdraw Authority: "; key_text (cli_pool_withdraw_authority p)];
     ln ["Pool Token Mint: "; key_text (cli_pool_mint p)];
     ln ["Fee Account: "; key_text (cli_manager_fee_account p)];
     when_some (cli_preferred_deposit_validator_vote_address p)
       (fun s => ln ["Preferred Deposit Validator: "; key_text s]);
     when_some (cli_preferred_withdraw_validator_vote_address p)
       (fun s => ln ["Preferred Withdraw Validator: "; key_text s]);
     ln ["Epoch Fee: "; fee_text (cli_epoch_fee p); " of epoch rewards"];
     when_some (cli_next_epoch_fee p) (fun f => ln ["Next Epoch Fee: "; fee_text f; " of epoch rewards"]);
     ln ["Stake Withdrawal Fee: "; fee_text (cli_stake_withdrawal_fee p); " of withdrawal amount"];
     when_some (cli_next_stake_withdrawal_fee p)
       (fun f => ln ["Next Stake Withdrawal Fee: "; fee_text f; " of withdrawal amount"]);
     ln ["SOL Withdrawal Fee: "; fee_text (cli_sol_withdrawal_fee p); " of withdrawal amount"];
     when_some (cli_next_sol_withdrawal_fee p)
       (fun f => ln ["Next SOL Withdrawal Fee: "; fee_text f; " of withdrawal amount"]);
     ln ["Stake Deposit Fee: "; fee_text (cli_stake_deposit_fee p); " of deposit amount"];
     ln ["SOL Deposit Fee: "; fee_text (cli_sol_deposit_fee p); " of deposit amount"];
     ln ["Stake Deposit Referral Fee: "; pretty (cli_stake_referral_fee p); "% of Stake Deposit Fee"];
     ln ["SOL Deposit Referral Fee: "; pretty (cli_sol_referral_fee p); "% of SOL Deposit Fee"];
     when_some (cli_max_validator_stake p) (fun max_stake => ln ["Max Validator Stake: "; sol_text max_stake]);
     newline;
     shown]).
End Show.
