(* ===== verification/Commands.v ===== *)
(** * The commands (clients/cli/src/main.rs 311-2249)
    Each command reads the pool through the RPC client, builds instructions with
    Builders and sends them in transactions signed with the keys of its configuration.
    The arguments are those the command line was parsed to. *)
From S2P Require Import Prelude Error Fees State Borsh Layout Runtime Checks Admin Instruction Builders Client Plan Output.
From stdpp Require Import list.
Open Scope Z_scope.
Open Scope sp_scope.

Section Commands.
Context `{RT : Runtime} `{SV : Sysvars} `{SDK : Sdk} `{RPC : !RpcClient}.

(** ** Updating the pool *)
Fixpoint send_each_no_wait (config : Config) (l : list Instruction) : C unit :=
  match l with
  | [] => cret tt
  | instruction :: l =>
      try! transaction := checked_transaction_with_signers config [instruction] [fee_payer config] in
      run! send_transaction_no_wait config transaction in
      send_each_no_wait config l
  end.

Definition command_update (config : Config) (stake_pool_address : Pubkey) (force no_merge stale_only : bool)
    : C unit :=
  if no_update config then cret tt else
  try! stake_pool := get_stake_pool stake_pool_address in
  try! epoch := ask get_epoch in
  if (last_update_epoch stake_pool =? epoch) && negb force then cret tt else
  try! validator_list := get_validator_list (State.validator_list stake_pool) in
  try! (update_list_instructions, final_instructions) :=
    clift (if stale_only
           then update_stale_stake_pool (stake_pool_program_id config) stake_pool validator_list
                  stake_pool_address no_merge epoch
           else update_stake_pool (stake_pool_program_id config) stake_pool validator_list
                  stake_pool_address no_merge) ProgramFailed in
  run! (match last update_list_instructions with
        | None => cret tt
        | Some last_instruction =>
            run! send_each_no_wait config (removelast update_list_instructions) in
            try! transaction :=
              checked_transaction_with_signers config [last_instruction] [fee_payer config] in
            send_transaction config transaction
        end) in
  try! transaction := checked_transaction_with_signers config final_instructions [fee_payer config] in
  send_transaction config transaction.

Definition update_first (config : Config) (stake_pool_address : Pubkey) : C unit :=
  if negb (no_update config) then command_update config stake_pool_address false false false else cret tt.

(** The end of most commands. *)
Definition sign_and_send (config : Config) (instructions : list Instruction) (signers : list Pubkey)
    (additional_fee : Z) : C unit :=
  try! transaction := checked_transaction_with_signers_and_additional_fee config instructions
    (unique_signers signers) additional_fee in
  send_transaction config transaction.

(** ** Creating a pool *)
Definition any_byte (data : list Z) : bool := existsb (fun x => negb (x =? 0)) data.

Definition setup_reserve_stake_account (config : Config) (reserve_keypair : Pubkey) (reserve_stake_balance : Z)
    (withdraw_authority : Pubkey) : C unit :=
  let initialize :=
    stake_initialize reserve_keypair (mkAuthorized withdraw_authority withdraw_authority) Lockup_default in
  let create :=
    try! transaction := checked_transaction_with_signers config
      [system_create_account (fee_payer config) reserve_keypair reserve_stake_balance STAKE_STATE_LEN stake_program_id;
       initialize] [fee_payer config; reserve_keypair] in
    send_transaction config transaction in
  try! reserve_account_info := attempt (fun n => get_account n reserve_keypair) in
  match reserve_account_info with
  | Some account =>
      if key_eqb (acc_owner account) stake_program_id then
        if any_byte (acc_data account) then cret tt
        else
          try! transaction := checked_transaction_with_signers config [initialize] [fee_payer config] in
          send_transaction config transaction
      else create
  | None => create
  end.

(** Returns the token program of the mint. *)
Definition setup_mint_account (config : Config) (mint_keypair : Pubkey) (mint_account_balance : Z)
    (withdraw_authority : Pubkey) (default_decimals : Z) : C Pubkey :=
  let create :=
    try! initialize_mint := cget
      (token_initialize_mint spl_token_id mint_keypair withdraw_authority None default_decimals) ProgramFailed in
    try! transaction := checked_transaction_with_signers config
      [system_create_account (fee_payer config) mint_keypair mint_account_balance mint_len spl_token_id;
       initialize_mint] [fee_payer config; mint_keypair] in
    run! send_transaction config transaction in
    cret spl_token_id in
  try! mint_account_info := attempt (fun n => get_account n mint_keypair) in
  match mint_account_info with
  | Some account =>
      if is_ok (check_spl_token_program_account (acc_owner account)) then
        run! (if any_byte (acc_data account) then
                match unpack_mint (acc_data account) with
                | Ok mint => fail_when (bool_decide (mint_authority mint <> Some withdraw_authority)) IncorrectMintAuthority
                | Err _ => cfail InvalidMint
                | Panic => cpanic
                end
              else
                try! initialize_mint := cget
                  (token_initialize_mint (acc_owner account) mint_keypair withdraw_authority None default_decimals)
                  ProgramFailed in
                try! transaction := checked_transaction_with_signers config [initialize_mint] [fee_payer config] in
                send_transaction config transaction) in
        cret (acc_owner account)
      else create
  | None => create
  end.

Definition setup_pool_fee_account (config : Config) (mint_pubkey token_program_id : Pubkey)
    (total_rent_free_balances : Z) : C unit :=
  let create :=
    try! (_, instructions, _) := add_associated_token_account config mint_pubkey token_program_id
      (config_manager config) [] total_rent_free_balances in
    try! transaction := checked_transaction_with_signers config instructions [fee_payer config] in
    send_transaction config transaction in
  let pool_fee_account := get_associated_token_address (config_manager config) mint_pubkey token_program_id in
  try! pool_fee_account_info := attempt (fun n => get_account n pool_fee_account) in
  match pool_fee_account_info with
  | Some account =>
      if is_ok (check_spl_token_program_account (acc_owner account)) then cret tt else create
  | None => create
  end.

(** Whether an account that may exist is initialized ([None]: the command stops), exists
    and is left alone, or has to be created. *)
Definition account_plan (program_id : Pubkey) (info : option Account) : option bool :=
  match info with
  | Some account =>
      if key_eqb (acc_owner account) program_id
      then if any_byte (acc_data account) then None else Some false
      else Some false
  | None => Some true
  end.

Definition setup_and_initialize_validator_list_with_stake_pool (config : Config)
    (stake_pool_keypair validator_list_keypair reserve_keypair mint_keypair token_program_id
     pool_fee_account : Pubkey) (deposit_authority : option Pubkey) (epoch_fee withdrawal_fee deposit_fee : Fee)
    (referral_fee max_validators : Z) (withdraw_authority : Pubkey)
    (validator_list_balance validator_list_size : Z) : C unit :=
  let program_id := stake_pool_program_id config in
  try! stake_pool_account_info := attempt (fun n => get_account n stake_pool_keypair) in
  try! validator_list_account_info := attempt (fun n => get_account n validator_list_keypair) in
  try! stake_pool_account_lamports :=
    ask (fun n => get_minimum_balance_for_rent_exemption n stake_pool_packed_len) in
  match account_plan program_id validator_list_account_info with
  | None => cret tt
  | Some new_list =>
      match account_plan program_id stake_pool_account_info with
      | None => cret tt
      | Some new_pool =>
          let instructions :=
            (if new_list
             then [system_create_account (fee_payer config) validator_list_keypair validator_list_balance
                     validator_list_size program_id] else []) ++
            (if new_pool
             then [system_create_account (fee_payer config) stake_pool_keypair stake_pool_account_lamports
                     stake_pool_packed_len program_id] else []) ++
            [initialize program_id stake_pool_keypair (config_manager config) (config_staker config)
               withdraw_authority validator_list_keypair reserve_keypair mint_keypair pool_fee_account
               token_program_id deposit_authority epoch_fee withdrawal_fee deposit_fee referral_fee
               max_validators] in
          let signers :=
            [fee_payer config; config_manager config] ++
            (if new_list then [validator_list_keypair] else []) ++ [stake_pool_keypair] ++
            (match deposit_authority with Some deposit_auth => [deposit_auth] | None => [] end) in
          sign_and_send config instructions signers 0
      end
  end.

(** [unwrap_or_else(Keypair::new)]. *)
Definition or_new_keypair (o : option Pubkey) : C Pubkey := match o with Some k => cret k | None => Keypair_new end.

Definition command_create_pool (config : Config) (deposit_authority : option Pubkey)
    (epoch_fee withdrawal_fee deposit_fee : Fee) (referral_fee max_validators : Z)
    (stake_pool_keypair validator_list_keypair mint_keypair reserve_keypair : option Pubkey)
    (unsafe_fees : bool) : C unit :=
  run! cwhen (negb unsafe_fees) (check_stake_pool_fees epoch_fee withdrawal_fee deposit_fee) in
  try! reserve_keypair := or_new_keypair reserve_keypair in
  try! mint_keypair := or_new_keypair mint_keypair in
  try! stake_pool_keypair := or_new_keypair stake_pool_keypair in
  try! validator_list_keypair := or_new_keypair validator_list_keypair in
  try! stake_rent := ask (fun n => get_minimum_balance_for_rent_exemption n STAKE_STATE_LEN) in
  try! reserve_stake_balance := arith 64 (stake_rent + MINIMUM_RESERVE_LAMPORTS) in
  try! mint_account_balance := ask (fun n => get_minimum_balance_for_rent_exemption n mint_len) in
  try! pool_fee_account_balance := ask (fun n => get_minimum_balance_for_rent_exemption n token_account_len) in
  try! stake_pool_account_lamports :=
    ask (fun n => get_minimum_balance_for_rent_exemption n stake_pool_packed_len) in
  let validator_list_size := Z.of_nat (length (enc validator_list_codec (ValidatorList_new max_validators))) in
  try! validator_list_balance := ask (fun n => get_minimum_balance_for_rent_exemption n validator_list_size) in
  try! total := arith 64 (reserve_stake_balance + mint_account_balance) in
  try! total := arith 64 (total + pool_fee_account_balance) in
  try! total := arith 64 (total + stake_pool_account_lamports) in
  try! total_rent_free_balances := arith 64 (total + validator_list_balance) in
  let withdraw_authority :=
    fst (find_withdraw_authority_program_address (stake_pool_program_id config) stake_pool_keypair) in
  run! setup_reserve_stake_account config reserve_keypair reserve_stake_balance withdraw_authority in
  try! token_program_id :=
    setup_mint_account config mint_keypair mint_account_balance withdraw_authority native_mint_decimals in
  run! setup_pool_fee_account config mint_keypair token_program_id total_rent_free_balances in
  let pool_fee_account := get_associated_token_address (config_manager config) mint_keypair token_program_id in
  setup_and_initialize_validator_list_with_stake_pool config stake_pool_keypair validator_list_keypair
    reserve_keypair mint_keypair token_program_id pool_fee_account deposit_authority epoch_fee withdrawal_fee
    deposit_fee referral_fee max_validators withdraw_authority validator_list_balance validator_list_size.

(** ** Metadata *)
Definition create_token_metadata (config : Config) (stake_pool_address : Pubkey) (name symbol uri : list Z)
    : C unit :=
  try! stake_pool := get_stake_pool stake_pool_address in
  sign_and_send config
    [Builders.create_token_metadata (stake_pool_program_id config) stake_pool_address (manager stake_pool)
       (pool_mint stake_pool) (fee_payer config) name symbol uri]
    [fee_payer config; config_manager config] 0.

Definition update_token_metadata (config : Config) (stake_pool_address : Pubkey) (name symbol uri : list Z)
    : C unit :=
  try! stake_pool := get_stake_pool stake_pool_address in
  sign_and_send config
    [Builders.update_token_metadata (stake_pool_program_id config) stake_pool_address (manager stake_pool)
       (pool_mint stake_pool) name symbol uri]
    [fee_payer config; config_manager config] 0.

(** ** Validators *)
(** The loop that looks for a free account; [fuel] bounds its rounds. *)
Fixpoint find_free_account (fuel : nat) (config : Config) (stake_pool : StakePool)
    (stake_pool_address vote_account : Pubkey) (i : Z) : C (Pubkey * option Z) :=
  match fuel with
  | O => fun s => (OutOfFuel, s)
  | S fuel =>
      let seed := NonZeroU32_new i in
      let address :=
        fst (find_stake_program_address (stake_pool_program_id config) vote_account stake_pool_address seed) in
      try! maybe_account := ask (fun n => get_account_with_commitment n (reserve_stake stake_pool)) in
      match maybe_account with
      | Some _ => cret (address, seed)
      | None =>
          try! i := arith 32 (i + 1) in
          find_free_account fuel config stake_pool stake_pool_address vote_account i
      end
  end.

Definition command_vsa_add (fuel : nat) (config : Config) (stake_pool_address vote_account : Pubkey) : C unit :=
  try! stake_pool := get_stake_pool stake_pool_address in
  try! validator_list := get_validator_list (State.validator_list stake_pool) in
  if ValidatorList_contains validator_list vote_account then cret tt else
  run! update_first config stake_pool_address in
  try! (_, validator_seed) := find_free_account fuel config stake_pool stake_pool_address vote_account 0 in
  sign_and_send config
    [add_validator_to_pool_with_vote (stake_pool_program_id config) stake_pool stake_pool_address vote_account
       validator_seed]
    [fee_payer config; config_staker config] 0.

(** The entry of a vote account, read after the update. *)
Definition read_entry (config : Config) (stake_pool_address vote_account : Pubkey)
    : C (StakePool * ValidatorStakeInfo) :=
  run! update_first config stake_pool_address in
  try! stake_pool := get_stake_pool stake_pool_address in
  try! validator_list := get_validator_list (State.validator_list stake_pool) in
  try! validator_stake_info := cget (ValidatorList_find validator_list vote_account)
    (VoteAccountNotFound vote_account) in
  cret (stake_pool, validator_stake_info).

Definition command_vsa_remove (config : Config) (stake_pool_address vote_account : Pubkey) : C unit :=
  try! (stake_pool, validator_stake_info) := read_entry config stake_pool_address vote_account in
  let validator_seed := NonZeroU32_new (validator_seed_suffix validator_stake_info) in
  sign_and_send config
    [remove_validator_from_pool_with_vote (stake_pool_program_id config) stake_pool stake_pool_address
       vote_account validator_seed (transient_seed_suffix validator_stake_info)]
    [fee_payer config; config_staker config] 0.

Definition command_increase_validator_stake (config : Config) (stake_pool_address vote_account : Pubkey)
    (amount : F64) : C unit :=
  let lamports := sol_to_lamports amount in
  try! (stake_pool, validator_stake_info) := read_entry config stake_pool_address vote_account in
  let validator_seed := NonZeroU32_new (validator_seed_suffix validator_stake_info) in
  sign_and_send config
    [increase_validator_stake_with_vote (stake_pool_program_id config) stake_pool stake_pool_address
       vote_account lamports validator_seed (transient_seed_suffix validator_stake_info)]
    [fee_payer config; config_staker config] 0.

Definition command_decrease_validator_stake (config : Config) (stake_pool_address vote_account : Pubkey)
    (amount : F64) : C unit :=
  let lamports := sol_to_lamports amount in
  try! (stake_pool, validator_stake_info) := read_entry config stake_pool_address vote_account in
  let validator_seed := NonZeroU32_new (validator_seed_suffix validator_stake_info) in
  sign_and_send config
    [decrease_validator_stake_with_vote (stake_pool_program_id config) stake_pool stake_pool_address
       vote_account lamports validator_seed (transient_seed_suffix validator_stake_info)]
    [fee_payer config; config_staker config] 0.

Definition command_set_preferred_validator (config : Config) (stake_pool_address : Pubkey)
    (preferred_type : PreferredValidatorType) (vote_address : option Pubkey) : C unit :=
  try! stake_pool := get_stake_pool stake_pool_address in
  sign_and_send config
    [set_preferred_validator (stake_pool_program_id config) stake_pool_address (config_staker config)
       (State.validator_list stake_pool) preferred_type vote_address]
    [fee_payer config; config_staker config] 0.

(** ** Deposits *)
(** The token account to receive: the one given, or the associated one. As in the source,
    the argument of [unwrap_or] is evaluated in both cases. *)
Definition token_receiver (config : Config) (stake_pool : StakePool) (given : option Pubkey)
    (instructions : list Instruction) : C (Pubkey * list Instruction * Z) :=
  try! (associated, instructions, rent_free_balances) :=
    add_associated_token_account config (pool_mint stake_pool) (token_program_id stake_pool)
      (token_owner config) instructions 0 in
  cret (default associated given, instructions, rent_free_balances).

Definition delegated_vote (stake_state : StakeStateV2) : C Pubkey :=
  match stake_state with
  | StakeStake _ stake => cret (voter_pubkey stake)
  | _ => cfail WrongStakeState
  end.

(** The pool's stake account for the validator a stake account is delegated to. *)
Definition validator_account_for (config : Config) (stake_pool_address : Pubkey)
    (validator_list : ValidatorList) (vote_account : Pubkey) : C Pubkey :=
  try! validator_stake_info := cget (ValidatorList_find validator_list vote_account)
    (VoteAccountNotFound vote_account) in
  let validator_seed := NonZeroU32_new (validator_seed_suffix validator_stake_info) in
  let validator_stake_account :=
    fst (find_stake_program_address (stake_pool_program_id config) vote_account stake_pool_address
           validator_seed) in
  run! get_stake_state validator_stake_account in
  cret validator_stake_account.

Definition check_deposit_authority (config : Config) (stake_pool : StakePool) : C unit :=
  match funding_authority config with
  | Some stake_deposit_authority =>
      fail_when (negb (key_eqb stake_deposit_authority (State.stake_deposit_authority stake_pool)))
        (InvalidDepositAuthority (State.stake_deposit_authority stake_pool) stake_deposit_authority)
  | None => cret tt
  end.

Definition deposit_instructions (config : Config) (stake_pool : StakePool) (stake_pool_address stake
    withdraw_authority validator_stake_account pool_token_receiver_account referrer_token_account : Pubkey)
    : list Instruction :=
  let program_id := stake_pool_program_id config in
  let pool_withdraw_authority := fst (find_withdraw_authority_program_address program_id stake_pool_address) in
  match funding_authority config with
  | Some stake_deposit_authority =>
      deposit_stake_with_authority program_id stake_pool_address (State.validator_list stake_pool)
        stake_deposit_authority pool_withdraw_authority stake withdraw_authority validator_stake_account
        (reserve_stake stake_pool) pool_token_receiver_account (manager_fee_account stake_pool)
        referrer_token_account (pool_mint stake_pool) (token_program_id stake_pool)
  | None =>
      deposit_stake program_id stake_pool_address (State.validator_list stake_pool) pool_withdraw_authority
        stake withdraw_authority validator_stake_account (reserve_stake stake_pool)
        pool_token_receiver_account (manager_fee_account stake_pool) referrer_token_account
        (pool_mint stake_pool) (token_program_id stake_pool)
  end.

Definition funding_signer (config : Config) : list Pubkey :=
  match funding_authority config with Some authority => [authority] | None => [] end.

Definition command_deposit_stake (config : Config) (stake_pool_address stake withdraw_authority : Pubkey)
    (pool_token_receiver_account referrer_token_account : option Pubkey) : C unit :=
  run! update_first config stake_pool_address in
  try! stake_pool := get_stake_pool stake_pool_address in
  try! stake_state := get_stake_state stake in
  try! vote_account := delegated_vote stake_state in
  try! validator_list := get_validator_list (State.validator_list stake_pool) in
  try! validator_stake_account :=
    validator_account_for config stake_pool_address validator_list vote_account in
  try! (receiver, instructions, total_rent_free_balances) :=
    token_receiver config stake_pool pool_token_receiver_account [] in
  let referrer := default receiver referrer_token_account in
  run! check_deposit_authority config stake_pool in
  sign_and_send config
    (instructions ++ deposit_instructions config stake_pool stake_pool_address stake withdraw_authority
       validator_stake_account receiver referrer)
    ([fee_payer config; withdraw_authority] ++ funding_signer config) total_rent_free_balances.

Fixpoint deposit_each (config : Config) (stake_pool : StakePool) (stake_pool_address withdraw_authority : Pubkey)
    (validator_list : ValidatorList) (receiver referrer : Pubkey) (signers : list Pubkey)
    (stake_addresses : list Pubkey) : C unit :=
  match stake_addresses with
  | [] => cret tt
  | stake_address :: stake_addresses =>
      try! stake_state := get_stake_state stake_address in
      try! vote_account := delegated_vote stake_state in
      try! validator_stake_account :=
        validator_account_for config stake_pool_address validator_list vote_account in
      try! transaction := checked_transaction_with_signers config
        (deposit_instructions config stake_pool stake_pool_address stake_address withdraw_authority
           validator_stake_account receiver referrer) signers in
      run! send_transaction config transaction in
      deposit_each config stake_pool stake_pool_address withdraw_authority validator_list receiver referrer
        signers stake_addresses
  end.

Definition command_deposit_all_stake (config : Config) (stake_pool_address stake_authority
    withdraw_authority : Pubkey) (pool_token_receiver_account referrer_token_account : option Pubkey) : C unit :=
  run! update_first config stake_pool_address in
  try! stake_addresses := get_all_stake stake_authority in
  try! stake_pool := get_stake_pool stake_pool_address in
  try! (receiver, create_token_account_instructions, total_rent_free_balances) :=
    token_receiver config stake_pool pool_token_receiver_account [] in
  run! cwhen (negb (Nat.eqb (length create_token_account_instructions) 0))
    (try! transaction := checked_transaction_with_signers_and_additional_fee config
       create_token_account_instructions [fee_payer config] total_rent_free_balances in
     send_transaction config transaction) in
  let referrer := default receiver referrer_token_account in
  try! validator_list := get_validator_list (State.validator_list stake_pool) in
  run! check_deposit_authority config stake_pool in
  let signers := unique_signers ([fee_payer config; withdraw_authority] ++ funding_signer config) in
  deposit_each config stake_pool stake_pool_address withdraw_authority validator_list receiver referrer
    signers stake_addresses.

(** The pool's SOL authority, when the command was given one to sign with. *)
Definition check_sol_funding (config : Config) (expected : option Pubkey) (missing : CliError)
    (wrong : Pubkey -> Pubkey -> CliError) : C unit :=
  match funding_authority config with
  | Some authority =>
      try! expected := cget expected missing in
      fail_when (negb (key_eqb authority expected)) (wrong expected authority)
  | None => cret tt
  end.

Definition sol_deposit_instruction (config : Config) (stake_pool : StakePool)
    (stake_pool_address user_sol_transfer receiver referrer : Pubkey) (amount : Z) : Instruction :=
  let program_id := stake_pool_program_id config in
  let pool_withdraw_authority := fst (find_withdraw_authority_program_address program_id stake_pool_address) in
  match funding_authority config with
  | Some deposit_authority =>
      deposit_sol_with_authority program_id stake_pool_address deposit_authority pool_withdraw_authority
        (reserve_stake stake_pool) user_sol_transfer receiver (manager_fee_account stake_pool) referrer
        (pool_mint stake_pool) (token_program_id stake_pool) amount
  | None =>
      deposit_sol program_id stake_pool_address pool_withdraw_authority (reserve_stake stake_pool)
        user_sol_transfer receiver (manager_fee_account stake_pool) referrer (pool_mint stake_pool)
        (token_program_id stake_pool) amount
  end.

Definition command_deposit_sol (config : Config) (stake_pool_address : Pubkey) (from : option Pubkey)
    (pool_token_receiver_account referrer_token_account : option Pubkey) (amount : F64) : C unit :=
  run! update_first config stake_pool_address in
  let amount := sol_to_lamports amount in
  let from_pubkey := default (fee_payer config) from in
  try! from_balance := ask (fun n => get_balance n from_pubkey) in
  run! fail_when (from_balance <? amount) (NotEnoughSol amount from_balance) in
  try! stake_pool := get_stake_pool stake_pool_address in
  try! user_sol_transfer := Keypair_new in
  let signers := [fee_payer config; user_sol_transfer] ++ match from with Some k => [k] | None => [] end in
  try! (receiver, instructions, total_rent_free_balances) :=
    token_receiver config stake_pool pool_token_receiver_account
      [system_transfer from_pubkey user_sol_transfer amount] in
  let referrer := default receiver referrer_token_account in
  run! check_sol_funding config (sol_deposit_authority stake_pool) NoDepositAuthority InvalidDepositAuthority in
  sign_and_send config
    (instructions ++
     [sol_deposit_instruction config stake_pool stake_pool_address user_sol_transfer receiver referrer amount])
    (signers ++ funding_signer config) total_rent_free_balances.

(** ** Withdrawals *)
(** The receiver of the stake, if the parameter names a delegated stake account. *)
Definition receiver_delegation (stake_receiver_param : option Pubkey) : C (option Delegation) :=
  match stake_receiver_param with
  | None => cret None
  | Some stake_receiver_pubkey =>
      try! stake_account := attempt (fun n => get_account n stake_receiver_pubkey) in
      cret (match stake_account with
            | Some stake_account =>
                match deserialize_stake_state (acc_data stake_account) with
                | Some (StakeStake _ delegation) =>
                    if key_eqb (acc_owner stake_account) stake_program_id then Some delegation else None
                | _ => None
                end
            | None => None
            end)
  end.

(** Withdrawing everything from the account of one validator. *)
Definition withdraw_from_validator (config : Config) (stake_pool : StakePool)
    (stake_pool_address vote_account : Pubkey) (pool_amount stake_pool_minimum_delegation
     stake_account_rent_exemption : Z) : C (list WithdrawAccount) :=
  try! validator_list := get_validator_list (State.validator_list stake_pool) in
  try! validator_stake_info := cget (ValidatorList_find validator_list vote_account)
    (VoteAccountNotFound vote_account) in
  let validator_seed := NonZeroU32_new (validator_seed_suffix validator_stake_info) in
  let stake_account_address :=
    fst (find_stake_program_address (stake_pool_program_id config) vote_account stake_pool_address
           validator_seed) in
  try! stake_account := ask (fun n => get_account n stake_account_address) in
  try! available_for_withdrawal := cunwrap (calc_lamports_withdraw_amount stake_pool
    (saturating_sub (saturating_sub (acc_lamports stake_account) stake_pool_minimum_delegation)
       stake_account_rent_exemption)) in
  run! fail_when (available_for_withdrawal <? pool_amount)
    (NotEnoughLamports stake_account_address pool_amount available_for_withdrawal) in
  cret [mkWithdrawAccount stake_account_address (Some vote_account) pool_amount].

Definition choose_withdraw_accounts (config : Config) (stake_pool : StakePool) (stake_pool_address : Pubkey)
    (use_reserve : bool) (vote_account_address : option Pubkey) (delegation : option Delegation)
    (pool_token_account : Pubkey) (pool_amount stake_pool_minimum_delegation
     stake_account_rent_exemption : Z) : C (list WithdrawAccount) :=
  if use_reserve then cret [mkWithdrawAccount (reserve_stake stake_pool) None pool_amount]
  else
    match delegation, vote_account_address with
    | Some delegation, _ =>
        let vote_account := voter_pubkey delegation in
        run! (match vote_account_address with
              | Some given => fail_when (negb (key_eqb given vote_account)) (VoteMismatch given vote_account)
              | None => cret tt
              end) in
        withdraw_from_validator config stake_pool stake_pool_address vote_account pool_amount
          stake_pool_minimum_delegation stake_account_rent_exemption
    | None, Some vote_account =>
        withdraw_from_validator config stake_pool stake_pool_address vote_account pool_amount
          stake_pool_minimum_delegation stake_account_rent_exemption
    | None, None =>
        prepare_withdraw_accounts config stake_pool pool_amount stake_pool_address
          (key_eqb (manager_fee_account stake_pool) pool_token_account)
    end.

(** The account that receives the stake of one withdrawal: a new one unless the
    parameter names an account that is not delegated. *)
Definition receive_stake (config : Config) (stake_receiver_param : option Pubkey) (delegation : option Delegation)
    (rent : Z) (instructions : list Instruction) (total_rent_free_balances : Z)
    (new_stake_keypairs : list Pubkey) : C (Pubkey * list Instruction * Z * list Pubkey) :=
  match stake_receiver_param, delegation with
  | Some stake_receiver, None =>
      cret (stake_receiver, instructions, total_rent_free_balances, new_stake_keypairs)
  | _, _ =>
      try! (stake_pubkey, instructions) := new_stake_account (fee_payer config) instructions rent in
      try! total_rent_free_balances := arith 64 (total_rent_free_balances + rent) in
      cret (stake_pubkey, instructions, total_rent_free_balances, new_stake_keypairs ++ [stake_pubkey])
  end.

(** The loop over the accounts to withdraw from. *)
Fixpoint withdraw_each (config : Config) (stake_pool : StakePool) (stake_pool_address user_transfer_authority
    pool_token_account : Pubkey) (stake_receiver_param : option Pubkey) (delegation : option Delegation)
    (rent : Z) (withdraw_accounts : list WithdrawAccount) (instructions : list Instruction)
    (total_rent_free_balances : Z) (new_stake_keypairs : list Pubkey)
    : C (list Instruction * Z * list Pubkey) :=
  match withdraw_accounts with
  | [] => cret (instructions, total_rent_free_balances, new_stake_keypairs)
  | withdraw_account :: withdraw_accounts =>
      run! cunwrap (calc_lamports_withdraw_amount stake_pool (pool_amount withdraw_account)) in
      try! (stake_receiver, instructions, total_rent_free_balances, new_stake_keypairs) :=
        receive_stake config stake_receiver_param delegation rent instructions total_rent_free_balances
          new_stake_keypairs in
      let program_id := stake_pool_program_id config in
      let pool_withdraw_authority := fst (find_withdraw_authority_program_address program_id stake_pool_address) in
      let instructions :=
        instructions ++
        [withdraw_stake program_id stake_pool_address (State.validator_list stake_pool) pool_withdraw_authority
           (stake_address withdraw_account) stake_receiver (config_staker config) user_transfer_authority
           pool_token_account (manager_fee_account stake_pool) (pool_mint stake_pool)
           (token_program_id stake_pool) (pool_amount withdraw_account)] in
      withdraw_each config stake_pool stake_pool_address user_transfer_authority pool_token_account
        stake_receiver_param delegation rent withdraw_accounts instructions total_rent_free_balances
        new_stake_keypairs
  end.

(** The pool, the token account to withdraw from and the tokens asked for, once the
    account is known to hold them. *)
Definition tokens_to_withdraw (config : Config) (stake_pool : StakePool) (pool_token_account : option Pubkey)
    (pool_amount : F64) : C (Pubkey * Z * Z) :=
  try! decimals := get_token_mint (pool_mint stake_pool) in
  let pool_amount := ui_amount_to_amount pool_amount decimals in
  let pool_token_account :=
    default (get_associated_token_address (token_owner config) (pool_mint stake_pool)
               (token_program_id stake_pool)) pool_token_account in
  try! token_account := get_token_account pool_token_account (pool_mint stake_pool) in
  cret (pool_token_account, pool_amount, ta_amount token_account).

Definition merge_instructions (config : Config) (stake_receiver_param : option Pubkey)
    (delegation : option Delegation) (new_stake_keypairs : list Pubkey) : list Instruction :=
  match stake_receiver_param, delegation with
  | Some stake_receiver, Some _ =>
      concat (map (fun new_stake => stake_merge stake_receiver new_stake (fee_payer config)) new_stake_keypairs)
  | _, _ => []
  end.

Definition command_withdraw_stake (config : Config) (stake_pool_address : Pubkey) (use_reserve : bool)
    (vote_account_address stake_receiver_param pool_token_account : option Pubkey) (pool_amount : F64) : C unit :=
  run! update_first config stake_pool_address in
  try! stake_pool := get_stake_pool stake_pool_address in
  try! (pool_token_account, pool_amount, held) :=
    tokens_to_withdraw config stake_pool pool_token_account pool_amount in
  try! stake_account_rent_exemption := ask (fun n => get_minimum_balance_for_rent_exemption n STAKE_STATE_LEN) in
  run! fail_when (held <? pool_amount) (NotEnoughTokens pool_amount held) in
  try! delegation := receiver_delegation stake_receiver_param in
  try! stake_minimum_delegation := ask get_stake_minimum_delegation in
  let stake_pool_minimum_delegation := minimum_delegation stake_minimum_delegation in
  try! withdraw_accounts :=
    choose_withdraw_accounts config stake_pool stake_pool_address use_reserve vote_account_address delegation
      pool_token_account pool_amount stake_pool_minimum_delegation stake_account_rent_exemption in
  try! user_transfer_authority := Keypair_new in
  try! approve := cget (token_approve (token_program_id stake_pool) pool_token_account user_transfer_authority
    (token_owner config) pool_amount) ProgramFailed in
  try! (instructions, total_rent_free_balances, new_stake_keypairs) :=
    withdraw_each config stake_pool stake_pool_address user_transfer_authority pool_token_account
      stake_receiver_param delegation stake_account_rent_exemption withdraw_accounts [approve] 0 [] in
  sign_and_send config
    (instructions ++ merge_instructions config stake_receiver_param delegation new_stake_keypairs)
    ([fee_payer config; token_owner config; user_transfer_authority] ++ new_stake_keypairs)
    total_rent_free_balances.

Definition sol_withdraw_instruction (config : Config) (stake_pool : StakePool)
    (stake_pool_address user_transfer_authority pool_token_account sol_receiver : Pubkey) (pool_amount : Z)
    : Instruction :=
  let program_id := stake_pool_program_id config in
  let pool_withdraw_authority := fst (find_withdraw_authority_program_address program_id stake_pool_address) in
  match funding_authority config with
  | Some withdraw_authority =>
      withdraw_sol_with_authority program_id stake_pool_address withdraw_authority pool_withdraw_authority
        user_transfer_authority pool_token_account (reserve_stake stake_pool) sol_receiver
        (manager_fee_account stake_pool) (pool_mint stake_pool) (token_program_id stake_pool) pool_amount
  | None =>
      withdraw_sol program_id stake_pool_address pool_withdraw_authority user_transfer_authority
        pool_token_account (reserve_stake stake_pool) sol_receiver (manager_fee_account stake_pool)
        (pool_mint stake_pool) (token_program_id stake_pool) pool_amount
  end.

Definition command_withdraw_sol (config : Config) (stake_pool_address : Pubkey)
    (pool_token_account : option Pubkey) (sol_receiver : Pubkey) (pool_amount : F64) : C unit :=
  run! update_first config stake_pool_address in
  try! stake_pool := get_stake_pool stake_pool_address in
  try! (pool_token_account, pool_amount, held) :=
    tokens_to_withdraw config stake_pool pool_token_account pool_amount in
  run! fail_when (held <? pool_amount) (NotEnoughTokens pool_amount held) in
  try! user_transfer_authority := Keypair_new in
  try! approve := cget (token_approve (token_program_id stake_pool) pool_token_account user_transfer_authority
    (token_owner config) pool_amount) ProgramFailed in
  run! check_sol_funding config (sol_withdraw_authority stake_pool) NoWithdrawAuthority
         InvalidWithdrawAuthority in
  sign_and_send config
    [approve;
     sol_withdraw_instruction config stake_pool stake_pool_address user_transfer_authority pool_token_account
       sol_receiver pool_amount]
    ([fee_payer config; token_owner config; user_transfer_authority] ++ funding_signer config) 0.

(** ** Settings *)
Definition command_set_manager (config : Config) (stake_pool_address : Pubkey)
    (new_manager new_fee_receiver : option Pubkey) : C unit :=
  run! update_first config stake_pool_address in
  try! stake_pool := get_stake_pool stake_pool_address in
  let new_manager_pubkey := default (manager stake_pool) new_manager in
  try! new_fee_receiver :=
    (match new_fee_receiver with
     | None => cret (manager_fee_account stake_pool)
     | Some value =>
         try! token_account := get_token_account value (pool_mint stake_pool) in
         run! fail_when (negb (key_eqb (ta_mint token_account) (pool_mint stake_pool))) DifferentMint in
         cret value
     end) in
  sign_and_send config
    [Builders.set_manager (stake_pool_program_id config) stake_pool_address (config_manager config)
       new_manager_pubkey new_fee_receiver]
    ((match new_manager with Some value => [value] | None => [] end) ++
     [fee_payer config; config_manager config]) 0.

Definition command_set_staker (config : Config) (stake_pool_address new_staker : Pubkey) : C unit :=
  run! update_first config stake_pool_address in
  sign_and_send config
    [Builders.set_staker (stake_pool_program_id config) stake_pool_address (config_manager config) new_staker]
    [fee_payer config; config_manager config] 0.

Definition command_set_funding_authority (config : Config) (stake_pool_address : Pubkey)
    (new_authority : option Pubkey) (funding_type : FundingType) : C unit :=
  run! update_first config stake_pool_address in
  sign_and_send config
    [set_funding_authority (stake_pool_program_id config) stake_pool_address (config_manager config)
       new_authority funding_type]
    [fee_payer config; config_manager config] 0.

Definition command_set_fee (config : Config) (stake_pool_address : Pubkey) (new_fee : FeeType) : C unit :=
  run! update_first config stake_pool_address in
  sign_and_send config
    [set_fee (stake_pool_program_id config) stake_pool_address (config_manager config) new_fee]
    [fee_payer config; config_manager config] 0.

Definition command_set_max_validator_stake (config : Config) (stake_pool_address : Pubkey)
    (max_stake : option Z) : C unit :=
  run! update_first config stake_pool_address in
  sign_and_send config
    [Builders.set_max_validator_stake (stake_pool_program_id config) stake_pool_address (config_manager config)
       max_stake]
    [fee_payer config; config_manager config] 0.

(** ** Listing *)
(** A panic of a conversion. *)
Definition shown {A} (o : outcome A) : C A := match o with Ok a => cret a | _ => cpanic end.

Fixpoint cli_pools (l : list (Pubkey * StakePool * ValidatorList * Pubkey)) : C (list CliStakePool) :=
  match l with
  | [] => cret []
  | (address, stake_pool, validator_list, pool_withdraw_authority) :: l =>
      try! pool := shown (cli_pool_from address stake_pool validator_list pool_withdraw_authority) in
      try! rest := cli_pools l in
      cret (pool :: rest)
  end.

(** The listings return what they print. *)
Definition command_list_all_pools (config : Config) : C CliStakePools :=
  try! all_pools := get_stake_pools (stake_pool_program_id config) in
  try! cli_stake_pool_vec := cli_pools all_pools in
  cret (mkCliPools cli_stake_pool_vec).

Definition stake_account_info (config : Config) (stake_pool_address : Pubkey) (epoch : Z)
    (validator : ValidatorStakeInfo) : C CliStakePoolStakeAccountInfo :=
  let program_id := stake_pool_program_id config in
  let validator_seed := NonZeroU32_new (validator_seed_suffix validator) in
  let stake_account_address :=
    fst (find_stake_program_address program_id (vote_account_address validator) stake_pool_address validator_seed) in
  let transient_stake_account_address :=
    fst (find_transient_stake_program_address program_id (vote_account_address validator) stake_pool_address
           (transient_seed_suffix validator)) in
  let update_required := negb (vsi_last_update_epoch validator =? epoch) in
  try! lamports := (match stake_lamports validator with Ok n => cret n | _ => cpanic end) in
  cret (mkStakeAccountInfo (vote_account_address validator) stake_account_address (active_stake_lamports validator)
          (vsi_last_update_epoch validator) lamports transient_stake_account_address
          (transient_stake_lamports validator) update_required).

Fixpoint stake_account_infos (config : Config) (stake_pool_address : Pubkey) (epoch : Z)
    (l : list ValidatorStakeInfo) : C (list CliStakePoolStakeAccountInfo) :=
  match l with
  | [] => cret []
  | validator :: l =>
      try! info := stake_account_info config stake_pool_address epoch validator in
      try! infos := stake_account_infos config stake_pool_address epoch l in
      cret (info :: infos)
  end.

Definition command_list (config : Config) (stake_pool_address : Pubkey) : C CliStakePool :=
  try! stake_pool := get_stake_pool stake_pool_address in
  try! validator_list := get_validator_list (State.validator_list stake_pool) in
  try! decimals := get_token_mint (pool_mint stake_pool) in
  try! epoch := ask get_epoch in
  let pool_withdraw_authority :=
    fst (find_withdraw_authority_program_address (stake_pool_program_id config) stake_pool_address) in
  try! reserve_account := ask (fun n => get_account n (reserve_stake stake_pool)) in
  try! rent := ask (fun n => get_minimum_balance_for_rent_exemption n STAKE_STATE_LEN) in
  try! minimum_reserve := arith 64 (rent + MINIMUM_RESERVE_LAMPORTS) in
  try! infos := stake_account_infos config stake_pool_address epoch (validators validator_list) in
  let total_pool_tokens := amount_to_ui_amount (pool_token_supply stake_pool) decimals in
  try! cli_stake_pool :=
    shown (cli_pool_from stake_pool_address stake_pool validator_list pool_withdraw_authority) in
  cret (set_details
    (mkPoolDetails (reserve_stake stake_pool) (acc_lamports reserve_account) minimum_reserve infos
       (total_lamports stake_pool) total_pool_tokens (Z.of_nat (length (validators validator_list)) mod 2 ^ 32)
       (max_validators (header validator_list)) (negb (last_update_epoch stake_pool =? epoch))) cli_stake_pool).

(** ** The subcommands of [main], with their parsed arguments *)
Inductive Command : Type :=
| CmdCreatePool (deposit_authority : option Pubkey) (epoch_fee : Fee) (withdrawal_fee : option Z * option Z)
    (deposit_fee : option Z * option Z) (referral_fee : option Z) (max_validators : Z)
    (pool_keypair validator_list_keypair mint_keypair reserve_keypair : option Pubkey) (unsafe_fees : bool)
| CmdCreateTokenMetadata (pool : Pubkey) (name symbol uri : list Z)
| CmdUpdateTokenMetadata (pool : Pubkey) (name symbol uri : list Z)
| CmdAddValidator (pool vote_account : Pubkey)
| CmdRemoveValidator (pool vote_account : Pubkey)
| CmdIncreaseValidatorStake (pool vote_account : Pubkey) (amount : F64)
| CmdDecreaseValidatorStake (pool vote_account : Pubkey) (amount : F64)
| CmdSetPreferredValidator (pool : Pubkey) (preferred_type : PreferredValidatorType) (vote_account : option Pubkey)
| CmdDepositStake (pool stake_account withdraw_authority : Pubkey) (token_receiver referrer : option Pubkey)
| CmdDepositSol (pool : Pubkey) (from token_receiver referrer : option Pubkey) (amount : F64)
| CmdUpdate (pool : Pubkey) (force no_merge stale_only : bool)
| CmdWithdrawStake (pool : Pubkey) (use_reserve : bool) (vote_account stake_receiver pool_account : option Pubkey)
    (amount : F64)
| CmdWithdrawSol (pool : Pubkey) (pool_account : option Pubkey) (sol_receiver : Pubkey) (amount : F64)
| CmdSetManager (pool : Pubkey) (new_manager new_fee_receiver : option Pubkey)
| CmdSetStaker (pool new_staker : Pubkey)
| CmdSetFundingAuthority (pool : Pubkey) (new_authority : option Pubkey) (funding_type : FundingType)
| CmdSetFee (pool : Pubkey) (make : Fee -> FeeType) (fee_denominator fee_numerator : Z)
| CmdSetReferralFee (pool : Pubkey) (make : Z -> FeeType) (fee : Z)
| CmdSetMaxValidatorStake (pool : Pubkey) (max_stake : option F64)
| CmdList (pool : Pubkey)
| CmdListAll
| CmdDepositAllStake (pool stake_authority withdraw_authority : Pubkey) (token_receiver referrer : option Pubkey).

Definition fee_or_zero (numerator_denominator : option Z * option Z) : Fee :=
  mkFee (default 0 (snd numerator_denominator)) (default 0 (fst numerator_denominator)).

(** [fuel] bounds the search of [command_vsa_add], the only unbounded loop. *)
Definition run_command (fuel : nat) (config : Config) (c : Command) : C unit :=
  match c with
  | CmdCreatePool deposit_authority epoch_fee withdrawal_fee deposit_fee referral_fee max_validators
      pool_keypair validator_list_keypair mint_keypair reserve_keypair unsafe_fees =>
      command_create_pool config deposit_authority epoch_fee (fee_or_zero withdrawal_fee)
        (fee_or_zero deposit_fee) (default 0 referral_fee) max_validators pool_keypair validator_list_keypair
        mint_keypair reserve_keypair unsafe_fees
  | CmdCreateTokenMetadata pool name symbol uri => create_token_metadata config pool name symbol uri
  | CmdUpdateTokenMetadata pool name symbol uri => update_token_metadata config pool name symbol uri
  | CmdAddValidator pool vote_account => command_vsa_add fuel config pool vote_account
  | CmdRemoveValidator pool vote_account => command_vsa_remove config pool vote_account
  | CmdIncreaseValidatorStake pool vote_account amount =>
      command_increase_validator_stake config pool vote_account amount
  | CmdDecreaseValidatorStake pool vote_account amount =>
      command_decrease_validator_stake config pool vote_account amount
  | CmdSetPreferredValidator pool preferred_type vote_account =>
      command_set_preferred_validator config pool preferred_type vote_account
  | CmdDepositStake pool stake_account withdraw_authority token_receiver referrer =>
      command_deposit_stake config pool stake_account withdraw_authority token_receiver referrer
  | CmdDepositSol pool from token_receiver referrer amount =>
      command_deposit_sol config pool from token_receiver referrer amount
  | CmdUpdate pool force no_merge stale_only => command_update config pool force no_merge stale_only
  | CmdWithdrawStake pool use_reserve vote_account stake_receiver pool_account amount =>
      command_withdraw_stake config pool use_reserve vote_account stake_receiver pool_account amount
  | CmdWithdrawSol pool pool_account sol_receiver amount =>
      command_withdraw_sol config pool pool_account sol_receiver amount
  | CmdSetManager pool new_manager new_fee_receiver => command_set_manager config pool new_manager new_fee_receiver
  | CmdSetStaker pool new_staker => command_set_staker config pool new_staker
  | CmdSetFundingAuthority pool new_authority funding_type =>
      command_set_funding_authority config pool new_authority funding_type
  | CmdSetFee pool make fee_denominator fee_numerator =>
      command_set_fee config pool (make (mkFee fee_denominator fee_numerator))
  | CmdSetReferralFee pool make fee =>
      if fee <=? 100 then command_set_fee config pool (make fee) else cpanic
  | CmdSetMaxValidatorStake pool max_stake =>
      command_set_max_validator_stake config pool (option_map sol_to_lamports max_stake)
  | CmdList pool => run! command_list config pool in cret tt
  | CmdListAll => run! command_list_all_pools config in cret tt
  | CmdDepositAllStake pool stake_authority withdraw_authority token_receiver referrer =>
      command_deposit_all_stake config pool stake_authority withdraw_authority token_receiver referrer
  end.
End Commands.
