(* ===== verification/Traced.v ===== *)
(** * What the commands hand over
    Every event of every command: which instructions of the program it may hold, who
    pays, when the client waits, and that a dry run sends nothing. [Yields] is the logic
    of the client monad: what was handed over satisfies [event_ok] however the command
    ends. *)
From S2P Require Import Prelude Error Fees State Borsh Layout Runtime Checks Concrete Admin Instruction Builders Built Client ConcreteClient Plan Commands.
From stdpp Require Import list.
Open Scope Z_scope.
Open Scope sp_scope.

Create HintDb traced discriminated.

Section Traced.
Context `{RT : Runtime} `{SV : Sysvars} `{SDK : Sdk} `{RPC : !RpcClient}.

(** The instruction of the program a subcommand stands for, with its arguments. *)
Definition purpose (c : Command) (i : StakePoolInstruction) : Prop :=
  match c, i with
  | CmdCreatePool _ epoch_fee withdrawal_fee deposit_fee referral_fee max_validators _ _ _ _ _, Initialize a b c d n =>
      a = epoch_fee /\ b = fee_or_zero withdrawal_fee /\ c = fee_or_zero deposit_fee /\
      d = default 0 referral_fee /\ n = max_validators
  | CmdCreateTokenMetadata _ name symbol uri, CreateTokenMetadata name' symbol' uri' =>
      name' = name /\ symbol' = symbol /\ uri' = uri
  | CmdUpdateTokenMetadata _ name symbol uri, UpdateTokenMetadata name' symbol' uri' =>
      name' = name /\ symbol' = symbol /\ uri' = uri
  | CmdAddValidator _ _, AddValidatorToPool _ => True
  | CmdRemoveValidator _ _, RemoveValidatorFromPool => True
  | CmdIncreaseValidatorStake _ _ amount, IncreaseValidatorStake n _ => n = sol_to_lamports amount
  | CmdDecreaseValidatorStake _ _ amount, DecreaseValidatorStakeWithReserve n _ => n = sol_to_lamports amount
  | CmdSetPreferredValidator _ type vote, SetPreferredValidator type' vote' => type' = type /\ vote' = vote
  | (CmdDepositStake _ _ _ _ _ | CmdDepositAllStake _ _ _ _ _), DepositStake => True
  | CmdDepositSol _ _ _ _ amount, DepositSol n => n = sol_to_lamports amount
  | CmdWithdrawStake _ _ _ _ _ _, WithdrawStake _ => True
  | CmdWithdrawSol _ _ _ amount, WithdrawSol n => exists decimals, n = ui_amount_to_amount amount decimals
  | CmdSetManager _ _ _, SetManager => True
  | CmdSetStaker _ _, SetStaker => True
  | CmdSetFundingAuthority _ _ type, SetFundingAuthority type' => type' = type
  | CmdSetFee _ make d n, SetFee fee => fee = make (mkFee d n)
  | CmdSetReferralFee _ make n, SetFee fee => fee = make n /\ n <= 100
  | CmdSetMaxValidatorStake _ amount, SetMaxValidatorStake n => n = option_map sol_to_lamports amount
  | _, _ => False
  end.

Variable config : Config.
(** The instructions of the program the command is for. *)
Variable act : StakePoolInstruction -> Prop.

(** Instructions of other programs, made by their own builders. *)
Inductive foreign : Instruction -> Prop :=
| foreign_create a b n m o : foreign (system_create_account a b n m o)
| foreign_transfer a b n : foreign (system_transfer a b n)
| foreign_stake_initialize k a l : foreign (stake_initialize k a l)
| foreign_merge a b c i : In i (stake_merge a b c) -> foreign i
| foreign_authorize a b c k : foreign (authorize a b c k)
| foreign_mint a b c d n i : token_initialize_mint a b c d n = Some i -> foreign i
| foreign_approve a b c d n i : token_approve a b c d n = Some i -> foreign i
| foreign_associated a b c d : foreign (create_associated_token_account a b c d).

(** An instruction of [UpdateValidatorListBalance] for the configured program. *)
Definition list_update (i : Instruction) : Prop :=
  exists k authority list_address reserve vl len start no_merge,
    update_validator_list_balance_chunk (stake_pool_program_id config) k authority list_address reserve vl len
      start no_merge = Ok i.

(** What a command may send: what it is for, the update of the pool, and instructions of
    other programs. *)
Inductive may_send : Instruction -> Prop :=
| may_act i ix : data ix = to_vec i -> program ix = stake_pool_program_id config -> act i -> may_send ix
| may_refresh ix : list_update ix -> may_send ix
| may_finish p k authority ix :
    In ix (final_instructions (stake_pool_program_id config) p k authority) -> may_send ix
| may_foreign ix : foreign ix -> may_send ix.

(** A transaction of [instructions], with at most a price and a limit of compute units
    after them, paid by the fee payer, that the signers could sign. *)
Definition transaction_of (l : list Instruction) (t : Transaction) : Prop :=
  payer (message t) = fee_payer config /\
  can_sign (signers t) (payer (message t)) (instructions (message t)) = true /\
  exists budget, instructions (message t) = l ++ budget /\ (length budget <= 2)%nat.

Definition event_ok (e : Event) : Prop :=
  match e with
  | Simulated t => dry_run config = true /\ exists l, Forall may_send l /\ transaction_of l t
  | Sent t => dry_run config = false /\ exists i, list_update i /\ transaction_of [i] t
  | SentAndConfirmed t => dry_run config = false /\ exists l, Forall may_send l /\ transaction_of l t
  end.

Definition Yields {A} (Q : A -> Prop) (m : C A) : Prop :=
  forall s r s', m s = (r, s') ->
    (exists evs, events s' = events s ++ evs /\ Forall event_ok evs) /\ (forall a, r = Done a -> Q a).
Abbreviation Traced := (Yields (fun _ => True)).

Lemma yields_weaken {A} (P Q : A -> Prop) m : Yields P m -> (forall a, P a -> Q a) -> Yields Q m.
Proof. intros H HQ s r s' E. destruct (H s r s' E) as [He Hr]. split; [exact He|]. auto. Qed.
Lemma yields_traced {A} (P : A -> Prop) m : Yields P m -> Traced m.
Proof. intros H. by eapply yields_weaken. Qed.

(** A step that hands nothing over. *)
Lemma quiet_yields {A} (Q : A -> Prop) (m : C A) :
  (forall s, events (snd (m s)) = events s) -> (forall s a, fst (m s) = Done a -> Q a) -> Yields Q m.
Proof.
  intros He HQ s r s' E. specialize (He s). specialize (HQ s). rewrite E in He, HQ. cbn in He, HQ.
  split; [|exact HQ]. exists []. by rewrite app_nil_r.
Qed.

Lemma yields_bind {A B} (P : A -> Prop) (Q : B -> Prop) (m : C A) (k : A -> C B) :
  Yields P m -> (forall a, P a -> Yields Q (k a)) -> Yields Q (cbind m k).
Proof.
  intros Hm Hk s r s' E. unfold cbind in E. destruct (m s) as [o s1] eqn:Em.
  destruct (Hm _ _ _ Em) as [(e1 & E1 & O1) HP].
  destruct o as [a|e| |]; try (injection E as <- <-; split; [by exists e1 | done]).
  destruct (Hk a (HP a eq_refl) _ _ _ E) as [(e2 & E2 & O2) HQ]. split; [|exact HQ].
  exists (e1 ++ e2). rewrite E2, E1, app_assoc. by split; [|apply Forall_app].
Qed.

Lemma yields_ret {A} (Q : A -> Prop) a : Q a -> Yields Q (cret a).
Proof. intros H. apply quiet_yields; [done|]. by intros s b [= <-]. Qed.
Lemma traced_ret {A} (a : A) : Traced (cret a).
Proof. by apply yields_ret. Qed.
Lemma yields_fail {A} (Q : A -> Prop) e : Yields Q (cfail e).
Proof. by apply quiet_yields. Qed.
Lemma yields_panic {A} (Q : A -> Prop) : Yields Q cpanic.
Proof. by apply quiet_yields. Qed.
Lemma traced_attempt {A} (f : nat -> option A) : Traced (attempt f).
Proof. by apply quiet_yields. Qed.
Lemma traced_keypair : Traced Keypair_new.
Proof. by apply quiet_yields. Qed.
Lemma traced_get {A} (o : option A) e : Traced (cget o e).
Proof. destruct o; [apply traced_ret | apply yields_fail]. Qed.
Lemma yields_get {A} (o : option A) e : Yields (fun a => o = Some a) (cget o e).
Proof. destruct o; [by apply yields_ret | apply yields_fail]. Qed.
Lemma yields_lift {A} (o : outcome A) e : Yields (fun a => o = Ok a) (clift o e).
Proof. destruct o; [by apply yields_ret | apply yields_fail | apply yields_panic]. Qed.
Lemma traced_unwrap {A} (o : option A) : Traced (cunwrap o).
Proof. destruct o; [apply traced_ret | apply yields_panic]. Qed.
Lemma traced_fail_when b e : Traced (fail_when b e).
Proof. destruct b; [apply yields_fail | apply traced_ret]. Qed.
Lemma traced_arith w v : Traced (arith w v).
Proof. unfold arith. destruct (fit w v); [apply traced_ret|]. destruct overflow_checks; [apply yields_panic | apply traced_ret]. Qed.
Lemma traced_ask {A} (f : nat -> option A) : Traced (ask f).
Proof. eapply yields_bind; [apply traced_attempt|]. intros o _. apply traced_get. Qed.
Lemma traced_ok {A} (m : C A) : Traced m -> Traced (cok m).
Proof.
  intros H s r s' E. unfold cok in E. destruct (m s) as [o s1] eqn:Em. destruct (H _ _ _ Em) as [He _].
  by destruct o; injection E as <- <-.
Qed.

#[local] Hint Resolve I traced_ret yields_ret yields_fail yields_panic traced_attempt traced_keypair traced_unwrap
  traced_fail_when traced_arith traced_ask traced_ok yields_lift yields_get : traced.

Lemma sol_deposit_allowed p k u t r n : act (DepositSol n) ->
  may_send (sol_deposit_instruction config p k u t r n).
Proof.
  intros Hact. unfold sol_deposit_instruction.
  destruct (funding_authority config); (eapply may_act; [reflexivity | reflexivity | exact Hact]).
Qed.
Lemma sol_withdraw_allowed p k u t r n : act (WithdrawSol n) ->
  may_send (sol_withdraw_instruction config p k u t r n).
Proof.
  intros Hact. unfold sol_withdraw_instruction.
  destruct (funding_authority config); (eapply may_act; [reflexivity | reflexivity | exact Hact]).
Qed.
(** What is sent is allowed: [acts] for the instruction the command is for. *)
Ltac acts :=
  intros;
  first [ solve [eauto]
        | match goal with H : forall i, _ -> act i |- act _ => apply H; cbn; repeat split; first [done | lia | eassumption] end ].
Ltac allowed :=
  repeat match goal with
  | |- Forall _ [] => constructor
  | |- Forall _ (_ :: _) => constructor
  | |- Forall _ (_ ++ _) => apply Forall_app_2
  | H : Forall ?P ?l |- Forall ?P ?l => exact H
  | |- may_send (sol_deposit_instruction _ _ _ _ _ _ _) => apply sol_deposit_allowed; acts
  | |- may_send (sol_withdraw_instruction _ _ _ _ _ _ _) => apply sol_withdraw_allowed; acts
  | |- may_send _ => solve [eapply may_act; [reflexivity | reflexivity | acts] |
      apply may_foreign; first [eapply foreign_mint; eassumption | eapply foreign_approve; eassumption | constructor] | apply may_refresh; assumption]
  | |- Forall may_send (match ?x with _ => _ end) => destruct x
  | |- Forall may_send _ => solve [eauto 2 with traced nocore]
  end.
(** Walks a command: binds, cases, and the lemmas of the functions called. *)
Ltac leaf := first [ solve [eauto 3 with traced nocore] | simple eapply yields_traced; solve [eauto 3 with traced nocore] ].
Ltac trace_step :=
  match goal with
  | |- Yields _ (cbind _ _) =>
      first [ simple eapply yields_bind; [leaf | intros ? ?; cbv beta in *]
            | simple apply (yields_bind (fun _ => True)); [ | intros ? _] ]
  | |- Yields _ (match ?x with _ => _ end) => destruct x eqn:?; subst; cbn [fst snd] in *
  | |- Yields _ _ => leaf
  end.
Ltac trace := repeat trace_step.

(** ** Reading *)
Lemma traced_account_data k : Traced (get_account_data k).
Proof. unfold get_account_data. trace. Qed.
#[local] Hint Resolve traced_account_data : traced.
Lemma traced_stake_pool k : Traced (get_stake_pool k).
Proof. unfold get_stake_pool. trace. Qed.
Lemma traced_validator_list k : Traced (get_validator_list k).
Proof. unfold get_validator_list. trace. Qed.
Lemma traced_token_account k mint : Traced (get_token_account k mint).
Proof. unfold get_token_account. trace. Qed.
Lemma traced_token_mint k : Traced (get_token_mint k).
Proof. unfold get_token_mint. trace. Qed.
Lemma traced_stake_state k : Traced (get_stake_state k).
Proof. unfold get_stake_state. trace. Qed.
Lemma traced_all_stake k : Traced (get_all_stake k).
Proof. unfold get_all_stake. trace. Qed.
#[local] Hint Resolve traced_stake_pool traced_validator_list traced_token_account traced_token_mint
  traced_stake_state traced_all_stake : traced.
Lemma traced_read_pools id found : Traced (read_pools id found).
Proof. induction found as [|[address account] found IH]; cbn [read_pools]; trace. Qed.
#[local] Hint Resolve traced_read_pools : traced.

(** ** Transactions *)
Lemma length_set_last_data l d : length (set_last_data l d) = length l.
Proof.
  unfold set_last_data. destruct (last l) eqn:E; [|done].
  destruct l as [|x l] using rev_ind; [done|]. rewrite removelast_last, !length_app. done.
Qed.
Lemma set_last_data_snoc l i d : set_last_data (l ++ [i]) d = l ++ [mkInstruction (program i) (accounts i) d].
Proof. unfold set_last_data. by rewrite last_snoc, removelast_last. Qed.

Lemma yields_simulated l k h :
  Yields (fun l' => exists i, l' = l ++ [i]) (add_compute_unit_limit_from_simulation l k h).
Proof. unfold add_compute_unit_limit_from_simulation. trace. rewrite set_last_data_snoc. apply yields_ret. eauto. Qed.

Lemma yields_limit l h :
  Yields (fun l' => exists b, l' = l ++ b /\ (length b <= 1)%nat) (add_compute_unit_limit config l h).
Proof.
  unfold add_compute_unit_limit. destruct (compute_unit_limit config).
  - apply yields_ret. exists []. rewrite app_nil_r. split; [done | simpl; lia].
  - apply yields_ret. eexists [_]. split; [done | simpl; lia].
  - eapply yields_weaken; [apply yields_simulated|]. intros l' [i ->]. exists [i]. split; [done | simpl; lia].
Qed.

Lemma price_after l : exists b, add_compute_unit_price config l = l ++ b /\ (length b <= 1)%nat.
Proof.
  unfold add_compute_unit_price. destruct compute_unit_price; [by eexists [_]; split; [|simpl; lia]|].
  exists []. rewrite app_nil_r. split; [done | simpl; lia].
Qed.

Lemma yields_transaction_fee l ks fee :
  Yields (transaction_of l) (checked_transaction_with_signers_and_additional_fee config l ks fee).
Proof.
  unfold checked_transaction_with_signers_and_additional_fee, get_latest_blockhash, check_fee_payer_balance.
  eapply yields_bind; [leaf|]. intros h _. eapply yields_bind; [apply yields_limit|]. intros l' (b & -> & Hb).
  destruct (price_after l) as (b' & -> & Hb'). trace. unfold Transaction_new. trace.
  apply yields_ret. split; [done|]. split; [done|]. cbn [instructions message]. exists (b' ++ b).
  rewrite length_app, app_assoc. split; [done|lia].
Qed.
Lemma yields_transaction l ks : Yields (transaction_of l) (checked_transaction_with_signers config l ks).
Proof. apply yields_transaction_fee. Qed.
#[local] Hint Resolve yields_transaction_fee yields_transaction : traced.

Lemma traced_hand_over e t : event_ok e -> Traced (hand_over e t).
Proof.
  intros He s r s' E. split; [|done]. exists [e]. unfold hand_over in E.
  destruct (accepts (requests s) t); injection E as <- <-; (split; [done | by constructor]).
Qed.
Lemma traced_send l t : Forall may_send l -> transaction_of l t -> Traced (send_transaction config t).
Proof. intros Hl H. unfold send_transaction. destruct (dry_run config) eqn:E; apply traced_hand_over; cbn; eauto. Qed.
Lemma traced_send_no_wait i t :
  transaction_of [i] t -> list_update i -> Traced (send_transaction_no_wait config t).
Proof.
  intros H Hi. unfold send_transaction_no_wait. destruct (dry_run config) eqn:E; apply traced_hand_over; cbn; [|eauto].
  split; [done|]. exists [i]. split; [|done]. allowed.
Qed.
#[local] Hint Resolve traced_send_no_wait : traced.

Lemma traced_sign_and_send l ks fee : Forall may_send l -> Traced (sign_and_send config l ks fee).
Proof. intros H. unfold sign_and_send. trace. by apply (traced_send l). Qed.
#[local] Hint Extern 1 (Yields _ (sign_and_send _ _ _ _)) =>
  simple apply traced_sign_and_send; solve [allowed] : traced.
#[local] Hint Extern 2 (Yields _ (send_transaction _ _)) =>
  match goal with H : transaction_of ?l ?t |- _ => simple apply (traced_send l t); [solve [allowed] | exact H] end : traced.

(** ** The instructions of an update *)
Lemma collect_Forall {A B} (P : B -> Prop) (f : Z -> A -> outcome B) i l bs :
  (forall i x b, f i x = Ok b -> P b) -> collect_unwrapped f i l = Ok bs -> Forall P bs.
Proof.
  intros Hf. revert i bs. induction l as [|x l IH]; intros i bs H; cbn in H; [by injection H as <-|].
  destruct (f i x) eqn:E; [|done..]. apply obind_Ok in H as (bs' & Hbs & H). injection H as <-.
  constructor; eauto.
Qed.

Lemma update_lists p vl k no_merge ixs finals :
  update_stake_pool (stake_pool_program_id config) p vl k no_merge = Ok (ixs, finals) -> Forall list_update ixs.
Proof.
  unfold update_stake_pool. intros (l & Hl & [= <- <-])%obind_Ok.
  eapply collect_Forall; [|exact Hl]. intros i c b H. repeat eexists. exact H.
Qed.
Lemma stale_lists p vl k no_merge e ixs finals :
  update_stale_stake_pool (stake_pool_program_id config) p vl k no_merge e = Ok (ixs, finals) -> Forall list_update ixs.
Proof.
  unfold update_stale_stake_pool. intros (l & Hl & [= <- <-])%obind_Ok.
  eapply (collect_Forall (fun o => forall i, o = Some i -> list_update i)) in Hl.
  - apply Forall_forall. intros i Hi. apply list_elem_of_omap in Hi as (o & Ho & E). cbn in E. subst o.
    rewrite Forall_forall in Hl. by eapply Hl.
  - intros n c o H i ->. unfold update_stale_validator_list_balance_chunk in H.
    apply obind_Ok in H as (sub & _ & H). case_match; [done|]. apply obind_Ok in H as (j & Hj & [= ->]).
    repeat eexists. exact Hj.
Qed.

Lemma traced_each l : Forall list_update l -> Traced (send_each_no_wait config l).
Proof. induction 1 as [|i l Hi Hl IH]; cbn [send_each_no_wait]; trace. Qed.
#[local] Hint Resolve traced_each : traced.

Lemma finals_allowed p vl k no_merge e stale ixs finals :
  (if (stale : bool) then update_stale_stake_pool (stake_pool_program_id config) p vl k no_merge e
   else update_stake_pool (stake_pool_program_id config) p vl k no_merge) = Ok (ixs, finals) ->
  Forall list_update ixs /\ Forall may_send finals.
Proof.
  intros H. split; [destruct stale; [by eapply stale_lists | by eapply update_lists]|].
  apply Forall_forall. intros i Hi. apply list_elem_of_In in Hi.
  destruct stale; unfold update_stale_stake_pool, update_stake_pool in H;
    apply obind_Ok in H as (l & _ & [= _ <-]); by eapply may_finish.
Qed.

Lemma traced_update k force no_merge stale_only : Traced (command_update config k force no_merge stale_only).
Proof.
  unfold command_update. trace.
  all: match goal with H : (if _ then _ else _) = Ok _ |- _ => apply finals_allowed in H as [Hl Hf] end.
  all: trace.
  all: assert (Hr : Forall list_update (removelast l ++ [i]))
    by (destruct l as [|x l] using rev_ind; [done|]; rewrite last_snoc in *; rewrite removelast_last; by simplify_eq).
  all: apply Forall_app in Hr as [Hr Hi]; apply Forall_cons_1 in Hi as [Hi _].
  - by apply traced_each.
  - trace.
Qed.
#[local] Hint Resolve traced_update : traced.
Lemma traced_first k : Traced (update_first config k).
Proof. unfold update_first. trace. Qed.
#[local] Hint Resolve traced_first : traced.

(** ** The other commands *)
Lemma yields_associated mint prog owner l n : Forall may_send l ->
  Yields (fun r => Forall may_send (snd (fst r))) (add_associated_token_account config mint prog owner l n).
Proof. intros H. unfold add_associated_token_account. trace; apply yields_ret; cbn [fst snd]; allowed. Qed.
#[local] Hint Extern 1 (Yields _ (add_associated_token_account _ _ _ _ _ _)) =>
  simple apply yields_associated; solve [allowed] : traced.
Lemma traced_reserve k n a : Traced (setup_reserve_stake_account config k n a).
Proof. unfold setup_reserve_stake_account. cbv zeta. trace. Qed.
Lemma traced_mint k n a d : Traced (setup_mint_account config k n a d).
Proof. unfold setup_mint_account. cbv zeta. trace. Qed.
Lemma traced_fee_account m t n : Traced (setup_pool_fee_account config m t n).
Proof. unfold setup_pool_fee_account. cbv zeta. trace. Qed.
#[local] Hint Resolve traced_reserve traced_mint traced_fee_account : traced.
Lemma traced_setup a b c d e f g h i j k l m n o :
  act (Initialize h i j k l) ->
  Traced (setup_and_initialize_validator_list_with_stake_pool config a b c d e f g h i j k l m n o).
Proof. intros Hact. unfold setup_and_initialize_validator_list_with_stake_pool. trace. Qed.
#[local] Hint Resolve traced_setup : traced.
Lemma traced_create_pool a b c d e f g h i j k :
  act (Initialize b c d e f) -> Traced (command_create_pool config a b c d e f g h i j k).
Proof. intros Hact. unfold command_create_pool, cwhen, check_stake_pool_fees, or_new_keypair. trace. Qed.

Lemma traced_search fuel p k v i : Traced (find_free_account fuel config p k v i).
Proof. revert i. induction fuel as [|fuel IH]; intros i; cbn [find_free_account]; [by apply quiet_yields|]. trace. Qed.
#[local] Hint Resolve traced_search : traced.
Lemma traced_entry k v : Traced (read_entry config k v).
Proof. unfold read_entry. trace. Qed.
Lemma yields_receiver p o l : Forall may_send l ->
  Yields (fun r => Forall may_send (snd (fst r))) (token_receiver config p o l).
Proof. intros H. unfold token_receiver. trace; by apply yields_ret. Qed.
#[local] Hint Extern 1 (Yields _ (token_receiver _ _ _ _)) => simple apply yields_receiver; solve [allowed] : traced.
Lemma traced_vote st : Traced (delegated_vote st).
Proof. unfold delegated_vote. trace. Qed.
Lemma traced_account_for k vl v : Traced (validator_account_for config k vl v).
Proof. unfold validator_account_for. trace. Qed.
Lemma traced_authority p : Traced (check_deposit_authority config p).
Proof. unfold check_deposit_authority. trace. Qed.
Lemma traced_funding o e w : Traced (check_sol_funding config o e w).
Proof. unfold check_sol_funding. trace. Qed.
#[local] Hint Resolve traced_entry traced_vote traced_account_for traced_authority traced_funding : traced.
Lemma deposits_allowed p k st w v r f : act DepositStake ->
  Forall may_send (deposit_instructions config p k st w v r f).
Proof.
  intros Hact. unfold deposit_instructions, deposit_stake_with_authority, deposit_stake, deposit_stake_internal.
  destruct (funding_authority config); allowed.
Qed.
#[local] Hint Extern 1 (Forall may_send (deposit_instructions _ _ _ _ _ _ _ _)) =>
  simple apply deposits_allowed; acts : traced.
Lemma traced_deposits p k w vl r f ks l : act DepositStake -> Traced (deposit_each config p k w vl r f ks l).
Proof. intros Hact. induction l as [|x l IH]; cbn [deposit_each]; trace. Qed.

Lemma traced_tokens p inv skip n : Traced (tokens_for_withdrawal p inv skip n).
Proof. unfold tokens_for_withdrawal, cdiv. trace. Qed.
#[local] Hint Resolve traced_tokens : traced.
Lemma traced_from p inv skip n l r : Traced (withdraw_from p inv skip n l r).
Proof. revert r. induction l as [|[[a b] c] l IH]; intros r; cbn [withdraw_from]; trace. Qed.
#[local] Hint Resolve traced_from : traced.
Lemma traced_prepare p n k skip : Traced (prepare_withdraw_accounts config p n k skip).
Proof. unfold prepare_withdraw_accounts. trace. Qed.
#[local] Hint Resolve traced_prepare : traced.
Lemma traced_validator p k v n m r : Traced (withdraw_from_validator config p k v n m r).
Proof. unfold withdraw_from_validator. trace. Qed.
#[local] Hint Resolve traced_validator : traced.
Lemma traced_choose p k u v d t n m r : Traced (choose_withdraw_accounts config p k u v d t n m r).
Proof. unfold choose_withdraw_accounts. trace. Qed.
Lemma traced_delegation o : Traced (receiver_delegation o).
Proof. unfold receiver_delegation. trace. Qed.
Lemma yields_new_stake k l n : Forall may_send l ->
  Yields (fun r => Forall may_send (snd r)) (new_stake_account k l n).
Proof. intros H. unfold new_stake_account. trace; apply yields_ret; cbn [snd]; allowed. Qed.
#[local] Hint Extern 1 (Yields _ (new_stake_account _ _ _)) => simple apply yields_new_stake; solve [allowed] : traced.
#[local] Hint Resolve traced_choose traced_delegation : traced.
Lemma yields_receive o d r l n ks : Forall may_send l ->
  Yields (fun x => Forall may_send (snd (fst (fst x)))) (receive_stake config o d r l n ks).
Proof. intros H. unfold receive_stake. trace; by apply yields_ret. Qed.
#[local] Hint Extern 1 (Yields _ (receive_stake _ _ _ _ _ _ _)) => simple apply yields_receive; solve [allowed] : traced.
Lemma yields_withdrawals p k u t o d r ws l n ks : (forall n, act (WithdrawStake n)) -> Forall may_send l ->
  Yields (fun x => Forall may_send (fst (fst x))) (withdraw_each config p k u t o d r ws l n ks).
Proof. intros Hact. revert l n ks. induction ws as [|w ws IH]; intros l n ks H; cbn [withdraw_each]; [by apply yields_ret|]. trace. apply IH. allowed. Qed.
Lemma yields_to_withdraw p o n :
  Yields (fun r => exists d, snd (fst r) = ui_amount_to_amount n d) (tokens_to_withdraw config p o n).
Proof. unfold tokens_to_withdraw. trace. apply yields_ret. by eexists. Qed.
#[local] Hint Resolve yields_to_withdraw : traced.
Lemma merges_allowed o d ks : Forall may_send (merge_instructions config o d ks).
Proof.
  unfold merge_instructions. destruct o, d; try constructor. apply Forall_forall. intros i Hi.
  apply list_elem_of_In, in_concat in Hi as (l & Hl & Hi). apply in_map_iff in Hl as (k & <- & _).
  apply may_foreign. by eapply foreign_merge.
Qed.
#[local] Hint Resolve merges_allowed : traced.
#[local] Hint Extern 1 (Yields _ (withdraw_each _ _ _ _ _ _ _ _ _ _ _ _)) =>
  simple apply yields_withdrawals; [acts | solve [allowed]] : traced.
Lemma traced_shown {A} (o : outcome A) : Traced (shown o).
Proof. destruct o; cbn [shown]; trace. Qed.
#[local] Hint Resolve traced_shown : traced.
Lemma traced_cli_pools l : Traced (cli_pools l).
Proof. induction l as [|[[[a p] vl] w] l IH]; cbn [cli_pools]; trace. Qed.
Lemma traced_infos k e l : Traced (stake_account_infos config k e l).
Proof. induction l as [|v l IH]; cbn [stake_account_infos]; unfold stake_account_info; trace. Qed.
#[local] Hint Resolve traced_cli_pools traced_infos : traced.
#[local] Hint Extern 1 (Yields _ (command_create_pool _ _ _ _ _ _ _ _ _ _ _ _)) =>
  simple apply traced_create_pool; acts : traced.
#[local] Hint Extern 1 (Yields _ (deposit_each _ _ _ _ _ _ _ _ _)) => simple apply traced_deposits; acts : traced.

Lemma traced_command fuel c : (forall i, purpose c i -> act i) -> Traced (run_command fuel config c).
Proof.
  intros Hact. destruct c; cbn [run_command];
    unfold create_token_metadata, update_token_metadata, command_vsa_add, command_vsa_remove,
      command_increase_validator_stake, command_decrease_validator_stake, command_set_preferred_validator,
      command_deposit_stake, command_deposit_sol, command_withdraw_stake, command_withdraw_sol,
      command_set_manager, command_set_staker, command_set_funding_authority, command_set_fee,
      command_set_max_validator_stake, command_list, command_list_all_pools, get_stake_pools, command_deposit_all_stake, cwhen;
    trace.
Qed.

End Traced.

(** C20: a command does what it is named for. Whatever subcommand is run, with whatever
    answers from the chain, and however it ends: everything it hands over is a
    transaction paid by the fee payer that its signers could sign, and each instruction
    in it is the one the subcommand stands for, with the arguments given, or belongs
    to the update of the pool or to another program. With --dry-run all of them are
    simulated and none is sent; without it none is simulated, and only those that
    refresh entries of a validator list are sent without waiting. *)
Theorem commands_trace `{RT : Runtime} `{SV : Sysvars} `{SDK : Sdk} `{RPC : !RpcClient} fuel config c s r s' :
  run_command fuel config c s = (r, s') ->
  exists evs, events s' = events s ++ evs /\ Forall (event_ok config (purpose c)) evs.
Proof. intros H. by destruct (traced_command config (purpose c) fuel c (fun _ H => H) s r s' H). Qed.

(** "set-staker" at epoch 6 updates the concrete pool first. *)
Definition toy_command : Command := CmdSetStaker toy_pool_key 12345.
Definition toy_run : reply unit * CState := run_command (RPC := toy_rpc_at 6) (RT := toy) 0 toy_config toy_command toy_start.
Lemma toy_run_sends : length (events (snd toy_run)) = 3%nat.
Proof. vm_compute. reflexivity. Qed.

Lemma commands_trace_witness :
  Forall (event_ok (RT := toy) toy_config (purpose toy_command)) (events (snd toy_run)) /\ length (events (snd toy_run)) = 3%nat.
Proof.
  split; [|exact toy_run_sends].
  destruct (commands_trace (RPC := toy_rpc_at 6) (RT := toy) 0 toy_config toy_command toy_start (fst toy_run) (snd toy_run))
    as (evs & E & H); [exact (surjective_pairing toy_run)|].
  rewrite E. exact H.
Defined.
