(* ===== verification/Sends.v ===== *)
(** * Facts about single commands
    The transactions of an update, in order; the search for a free account; and what
    the withdrawal and deposit commands do that their comments do not say. *)
From S2P Require Import Prelude Error Fees State Borsh Layout Runtime Checks Concrete Admin Instruction Builders Built Client ConcreteClient Plan Commands Traced.
From stdpp Require Import list.
Open Scope Z_scope.
Open Scope sp_scope.

Create HintDb quiet discriminated.

Section Sends.
Context `{RT : Runtime} `{SV : Sysvars} `{SDK : Sdk} `{RPC : !RpcClient}.

(** ** Steps that hand nothing over *)
Definition Quiet {A} (m : C A) : Prop := forall s, events (snd (m s)) = events s.
Lemma quiet_bind {A B} (m : C A) (k : A -> C B) : Quiet m -> (forall a, Quiet (k a)) -> Quiet (cbind m k).
Proof.
  intros Hm Hk s. unfold cbind. specialize (Hm s). destruct (m s) as [[a|e| |] s1]; cbn in *; try done.
  rewrite Hk. exact Hm.
Qed.
Lemma quiet_done {A} (m : C A) s r s' : Quiet m -> m s = (r, s') -> events s' = events s.
Proof. intros H E. specialize (H s). by rewrite E in H. Qed.
Lemma quiet_ask {A} (f : nat -> option A) : Quiet (ask f).
Proof. apply quiet_bind; [done|]. by intros [a|]. Qed.
Lemma quiet_get {A} (o : option A) e : Quiet (cget o e).
Proof. by destruct o. Qed.
Lemma quiet_fail_when b e : Quiet (fail_when b e).
Proof. by destruct b. Qed.

Lemma quiet_unwrap {A} (o : option A) : Quiet (cunwrap o).
Proof. by destruct o. Qed.
Lemma quiet_lift {A} (o : outcome A) e : Quiet (clift o e).
Proof. by destruct o. Qed.
Lemma quiet_arith w v : Quiet (arith w v).
Proof. unfold arith. destruct (fit w v); [done|]. by destruct overflow_checks. Qed.
Lemma quiet_ret {A} (a : A) : Quiet (cret a).
Proof. done. Qed.
Lemma quiet_attempt {A} (f : nat -> option A) : Quiet (attempt f).
Proof. done. Qed.
#[local] Hint Resolve quiet_ask quiet_get quiet_fail_when quiet_unwrap quiet_lift quiet_arith quiet_ret quiet_attempt : quiet.
Ltac quiet :=
  repeat match goal with
  | |- Quiet (cbind _ _) => apply quiet_bind; [|intros ?]
  | |- Quiet (match ?x with _ => _ end) => destruct x
  | |- Quiet _ => solve [eauto with quiet]
  end.
Lemma quiet_data k : Quiet (get_account_data k).
Proof. unfold get_account_data. quiet. Qed.
#[local] Hint Resolve quiet_data : quiet.
Lemma quiet_pool k : Quiet (get_stake_pool k).
Proof. unfold get_stake_pool. quiet. Qed.
Lemma quiet_list k : Quiet (get_validator_list k).
Proof. unfold get_validator_list. quiet. Qed.
Lemma quiet_mint k : Quiet (get_token_mint k).
Proof. unfold get_token_mint. quiet. Qed.
Lemma quiet_token k m : Quiet (get_token_account k m).
Proof. unfold get_token_account. quiet. Qed.
#[local] Hint Resolve quiet_pool quiet_list quiet_mint quiet_token : quiet.
Lemma quiet_to_withdraw config p o n : Quiet (tokens_to_withdraw config p o n).
Proof. unfold tokens_to_withdraw. quiet. Qed.
Lemma quiet_delegation o : Quiet (receiver_delegation o).
Proof. unfold receiver_delegation. quiet. Qed.
Lemma quiet_validator config p k v n m r : Quiet (withdraw_from_validator config p k v n m r).
Proof. unfold withdraw_from_validator. quiet. Qed.
Lemma quiet_from p inv skip m cs n : Quiet (withdraw_from p inv skip m cs n).
Proof.
  revert n. induction cs as [|[[a l] v] cs IH]; intros n; cbn [withdraw_from];
    unfold tokens_for_withdrawal, cdiv; quiet.
Qed.
#[local] Hint Resolve quiet_to_withdraw quiet_delegation quiet_validator quiet_from : quiet.
Lemma quiet_prepare config p n k skip : Quiet (prepare_withdraw_accounts config p n k skip).
Proof. unfold prepare_withdraw_accounts. quiet. Qed.
#[local] Hint Resolve quiet_prepare : quiet.
Lemma quiet_choose config p k u v d t n m r : Quiet (choose_withdraw_accounts config p k u v d t n m r).
Proof. unfold choose_withdraw_accounts. quiet. Qed.

Lemma quiet_checked config l ks fee :
  Quiet (checked_transaction_with_signers_and_additional_fee config l ks fee).
Proof.
  unfold checked_transaction_with_signers_and_additional_fee, get_latest_blockhash, check_fee_payer_balance,
    add_compute_unit_limit, add_compute_unit_limit_from_simulation, Transaction_new. quiet. done.
Qed.

Lemma checked_done config l ks s t s' :
  checked_transaction_with_signers config l ks s = (Done t, s') ->
  transaction_of config l t /\ events s' = events s.
Proof.
  intros H. split.
  - destruct (yields_transaction config (fun _ => True) l ks s _ _ H) as [_ Hq]. by apply Hq.
  - by eapply quiet_done; [apply quiet_checked | exact H].
Qed.

(** ** The transactions of an update *)
Definition waited (config : Config) (t : Transaction) : Event :=
  if dry_run config then Simulated t else SentAndConfirmed t.
Definition unwaited (config : Config) (t : Transaction) : Event :=
  if dry_run config then Simulated t else Sent t.
Definition handed (config : Config) (ts : list Transaction) : list Event :=
  map (unwaited config) (removelast ts) ++ match last ts with Some t => [waited config t] | None => [] end.

Lemma hand_over_done e t s u s' : hand_over e t s = (Done u, s') -> events s' = events s ++ [e].
Proof. unfold hand_over. destruct (accepts _ _); [|done]. by intros [= _ <-]. Qed.
Lemma send_done config t s u s' : send_transaction config t s = (Done u, s') -> events s' = events s ++ [waited config t].
Proof. unfold send_transaction, waited. destruct (dry_run config); apply hand_over_done. Qed.
Lemma send_no_wait_done config t s u s' :
  send_transaction_no_wait config t s = (Done u, s') -> events s' = events s ++ [unwaited config t].
Proof. unfold send_transaction_no_wait, unwaited. destruct (dry_run config); apply hand_over_done. Qed.

Lemma send_one config l ks s u s' :
  (try! t := checked_transaction_with_signers config l ks in send_transaction config t) s = (Done u, s') ->
  exists t, transaction_of config l t /\ events s' = events s ++ [waited config t].
Proof.
  intros (t & s1 & Ht & H)%cbind_done. apply checked_done in Ht as [Ht E]. apply send_done in H.
  exists t. by rewrite H, E.
Qed.

Lemma send_each_done config l s u s' :
  send_each_no_wait config l s = (Done u, s') ->
  exists ts, Forall2 (transaction_of config) (map (fun i => [i]) l) ts /\
    events s' = events s ++ map (unwaited config) ts.
Proof.
  revert s. induction l as [|i l IH]; intros s H; cbn [send_each_no_wait] in H.
  { apply cret_done in H as [_ ->]. exists []. cbn. rewrite app_nil_r. by split; [constructor|]. }
  apply cbind_done in H as (t & s1 & Ht & H). apply checked_done in Ht as [Ht E1].
  apply cbind_done in H as (v & s2 & Hv & H). apply send_no_wait_done in Hv.
  apply IH in H as (ts & Hts & E2). exists (t :: ts). split; [by constructor|].
  rewrite E2, Hv, E1, <- app_assoc. done.
Qed.

Lemma send_updates_done config l s u s' :
  match last l with
  | None => cret tt
  | Some last_instruction =>
      run! send_each_no_wait config (removelast l) in
      try! transaction := checked_transaction_with_signers config [last_instruction] [fee_payer config] in
      send_transaction config transaction
  end s = (Done u, s') ->
  exists ts, Forall2 (transaction_of config) (map (fun i => [i]) l) ts /\ events s' = events s ++ handed config ts.
Proof.
  destruct l as [|i l _] using rev_ind.
  { cbn. intros [_ ->]%cret_done. exists []. cbn. rewrite app_nil_r. by split; [constructor|]. }
  rewrite last_snoc, removelast_last. intros (v & s1 & Hv & H)%cbind_done.
  apply send_each_done in Hv as (ts & Hts & E1). apply send_one in H as (t & Ht & E2).
  exists (ts ++ [t]). split.
  - rewrite map_app. apply Forall2_app; [exact Hts | by constructor].
  - unfold handed. by rewrite removelast_last, last_snoc, E2, E1, <- app_assoc.
Qed.

Lemma read_pool_done k p s s' :
  get_stake_pool k s = (Done p, s') ->
  (exists a, get_account (requests s) k = Some a /\ try_from_slice_unchecked stake_pool_codec (acc_data a) = Ok p) /\
  s' = mkCState (S (requests s)) (keypairs s) (events s).
Proof.
  unfold get_stake_pool. intros (b & s1 & (a & Ha & -> & ->)%account_data_done & H)%cbind_done.
  destruct (try_from_slice_unchecked stake_pool_codec (acc_data a)) eqn:E; [|done..].
  injection H as <- <-. split; [|done]. by exists a.
Qed.

(** C22: the transactions of an update. A successful "update" of a pool that was already
    updated this epoch hands over nothing unless forced. Otherwise it hands over one
    transaction for every instruction that refreshes a chunk of the list it read, in
    the order of the list, waits for the last of them, and only then hands over
    UpdateStakePoolBalance and CleanupRemovedValidatorEntries, together. *)
Theorem update_sends config k force no_merge stale_only s u s' :
  command_update config k force no_merge stale_only s = (Done u, s') -> no_update config = false ->
  exists pa p e,
    get_account (requests s) k = Some pa /\ try_from_slice_unchecked stake_pool_codec (acc_data pa) = Ok p /\
    get_epoch (1 + requests s) = Some e /\
    if (last_update_epoch p =? e) && negb force then events s' = events s else
    exists la vl ixs finals ts t,
      get_account (2 + requests s) (State.validator_list p) = Some la /\
      try_from_slice_unchecked validator_list_codec (acc_data la) = Ok vl /\
      (if stale_only then update_stale_stake_pool (stake_pool_program_id config) p vl k no_merge e
       else update_stake_pool (stake_pool_program_id config) p vl k no_merge) = Ok (ixs, finals) /\
      Forall2 (transaction_of config) (map (fun i => [i]) ixs) ts /\ transaction_of config finals t /\
      events s' = events s ++ handed config ts ++ [waited config t].
Proof.
  unfold command_update. intros H Hn. rewrite Hn in H.
  apply cbind_done in H as (p & s1 & ((pa & Hpa & Hp) & ->)%read_pool_done & H).
  apply cbind_done in H as (e & s2 & (He & ->)%ask_done & H). cbn [requests keypairs events] in *.
  exists pa, p, e. split; [exact Hpa|]. split; [exact Hp|]. split; [exact He|].
  destruct ((last_update_epoch p =? e) && negb force); [by apply cret_done in H as [_ ->]|].
  apply cbind_done in H as (vl & s3 & ((la & Hla & Hvl) & ->)%validator_list_done & H).
  cbn [requests keypairs events] in *.
  apply cbind_done in H as ([ixs finals] & s4 & Hix & H).
  destruct (if stale_only then _ else _) as [[ixs' finals']| |] eqn:E; [|done..]. injection Hix as <- <- <-.
  apply cbind_done in H as (v & s5 & (ts & Hts & E1)%send_updates_done & (t & Ht & E2)%send_one).
  cbn [events] in E1. exists la, vl, ixs', finals', ts, t. rewrite E2, E1, <- app_assoc.
  repeat (split; [first [eassumption | done]|]). done.
Qed.

(** ** The search of "add-validator" *)
Lemma search_endless fuel config p k vote i s :
  (forall n, (requests s <= n)%nat -> get_account_with_commitment n (reserve_stake p) = Some None) ->
  0 <= i -> i + Z.of_nat fuel < 2 ^ 32 ->
  exists s', find_free_account fuel config p k vote i s = (OutOfFuel, s').
Proof.
  revert i s. induction fuel as [|fuel IH]; intros i s Hn Hi Hf; cbn [find_free_account]; [by eexists|].
  erewrite cbind_run; [|by apply ask_done; split; [apply Hn|]]. cbv iota beta.
  erewrite cbind_run; [|by apply arith_fits; unfold in_range; lia].
  apply IH; [|lia..]. intros n Hs. apply Hn. cbn in Hs. lia.
Qed.

(** C38: the search for a free stake account asks for the reserve, not for the address it
    is about to return. Whenever the reserve exists it ends after one round with the
    address without a seed, whether or not there is an account at that address; if
    the reserve did not exist it would not end in 2^32 rounds. *)
Theorem search_reads_reserve fuel config p k vote s :
  (forall a, get_account_with_commitment (requests s) (reserve_stake p) = Some (Some a) ->
     find_free_account (S fuel) config p k vote 0 s =
       (Done (fst (find_stake_program_address (stake_pool_program_id config) vote k None), None),
        mkCState (S (requests s)) (keypairs s) (events s))) /\
  ((forall n, (requests s <= n)%nat -> get_account_with_commitment n (reserve_stake p) = Some None) ->
   Z.of_nat fuel < 2 ^ 32 ->
   exists s', find_free_account fuel config p k vote 0 s = (OutOfFuel, s')).
Proof.
  split.
  - intros a H. cbn [find_free_account]. erewrite cbind_run; [|by apply ask_done]. done.
  - intros Hn Hf. by apply search_endless.
Qed.

(** "deposit-stake" with a receiver given: the associated account of the token owner is
    still looked up, and created when it is not there. *)
Lemma given_receiver_creates config p given l s :
  get_account (requests s) (get_associated_token_address (token_owner config) (pool_mint p) (token_program_id p)) = None ->
  get_minimum_balance_for_rent_exemption (S (requests s)) token_account_len = Some 0 ->
  exists s', token_receiver config p (Some given) l s =
    (Done (given, l ++ [create_associated_token_account (fee_payer config) (token_owner config) (pool_mint p)
                          (token_program_id p)], 0), s').
Proof.
  intros Ha Hr. unfold token_receiver, add_associated_token_account, get_token_account, get_account_data, cok, ask,
    attempt, cbind. rewrite Ha. cbn. rewrite Hr. by eexists.
Qed.

(** "withdraw-stake" from one validator compares the tokens asked for with the number of
    lamports that as many tokens as there are lamports to spare would be worth. *)
Lemma validator_limit_units config p k vote n d rent s ws s' :
  withdraw_from_validator config p k vote n d rent s = (Done ws, s') ->
  exists account limit,
    calc_lamports_withdraw_amount p (saturating_sub (saturating_sub (acc_lamports account) d) rent) = Some limit /\
    n <= limit.
Proof.
  unfold withdraw_from_validator. intros H.
  apply cbind_done in H as (vl & s1 & _ & H). apply cbind_done in H as (info & s2 & _ & H).
  apply cbind_done in H as (account & s3 & _ & H). apply cbind_done in H as (limit & s4 & (Hl & ->)%cunwrap_done & H).
  apply cbind_done in H as (u & s5 & (Hn & ->)%fail_when_done & _). exists account, limit. split; [exact Hl | lia].
Qed.

(** ** The transaction of "withdraw-stake" *)
(** The receiver of all withdrawals, if the one named is not a delegated account. *)
Definition fixed_receiver (receiver : option Pubkey) (d : option Delegation) : option Pubkey :=
  match receiver, d with Some r, None => Some r | _, _ => None end.

(** One planned withdrawal into [receiver]: the receiver is created, unless it is the
    one named, and the planned tokens are withdrawn from the planned account. *)
Definition withdrawal (config : Config) (p : StakePool) (k authority tokens : Pubkey) (fixed : option Pubkey)
    (rent : Z) (w : WithdrawAccount) (receiver : Pubkey) : list Instruction :=
  match fixed with
  | Some _ => []
  | None => [system_create_account (fee_payer config) receiver rent STAKE_STATE_LEN stake_program_id]
  end ++
  [withdraw_stake (stake_pool_program_id config) k (State.validator_list p)
     (fst (find_withdraw_authority_program_address (stake_pool_program_id config) k)) (stake_address w) receiver
     (config_staker config) authority tokens (manager_fee_account p) (pool_mint p) (token_program_id p)
     (pool_amount w)].

(** The receivers of [n] withdrawals: all the one named, or as many new accounts. *)
Definition receivers_of (fixed : option Pubkey) (key_count n : nat) : list Pubkey :=
  match fixed with Some r => repeat r n | None => map new_keypair (seq key_count n) end.

Lemma receive_done config o d rent l n ks r l' n' ks' s s' :
  receive_stake config o d rent l n ks s = (Done (r, l', n', ks'), s') ->
  events s' = events s /\
  match fixed_receiver o d with
  | Some given => r = given /\ l' = l /\ ks' = ks /\ keypairs s' = keypairs s
  | None =>
      r = new_keypair (keypairs s) /\ keypairs s' = S (keypairs s) /\ ks' = ks ++ [r] /\
      l' = l ++ [system_create_account (fee_payer config) r rent STAKE_STATE_LEN stake_program_id]
  end.
Proof.
  intros H. assert (Hnew : (try! (k, l) := new_stake_account (fee_payer config) l rent in
    try! n := arith 64 (n + rent) in cret (k, l, n, ks ++ [k])) s = (Done (r, l', n', ks'), s') ->
    events s' = events s /\ r = new_keypair (keypairs s) /\ keypairs s' = S (keypairs s) /\ ks' = ks ++ [r] /\
    l' = l ++ [system_create_account (fee_payer config) r rent STAKE_STATE_LEN stake_program_id]).
  { intros H0. apply cbind_done in H0 as ([k0 l0] & s1 & Hk & H0). unfold new_stake_account in Hk.
    apply cbind_done in Hk as (k' & s2 & [= <- <-] & [[= <- <-] ->]%cret_done).
    apply cbind_done in H0 as (m & s3 & (-> & _)%arith_done & [[= <- <- <- <-] ->]%cret_done); [|lia]. done. }
  unfold receive_stake, fixed_receiver in *. destruct o as [given|]; [destruct d|]; [by apply Hnew| |by apply Hnew].
  by apply cret_done in H as [[= <- <- <- <-] ->].
Qed.

Lemma withdraw_each_done config p k authority tokens o d rent ws l n ks l' n' ks' s s' :
  withdraw_each config p k authority tokens o d rent ws l n ks s = (Done (l', n', ks'), s') ->
  let receivers := receivers_of (fixed_receiver o d) (keypairs s) (length ws) in
  l' = l ++ concat (zip_with (withdrawal config p k authority tokens (fixed_receiver o d) rent) ws receivers) /\
  ks' = ks ++ match fixed_receiver o d with Some _ => [] | None => receivers end /\ events s' = events s.
Proof.
  cbv zeta. revert l n ks s. induction ws as [|w ws IH]; intros l n ks s H; cbn [withdraw_each] in H.
  { apply cret_done in H as [[= <- <- <-] ->]. cbn. rewrite app_nil_r. split; [done|].
    split; [|done]. by destruct (fixed_receiver o d); cbn; rewrite app_nil_r. }
  apply cbind_done in H as (v & s1 & (_ & ->)%cunwrap_done & H).
  apply cbind_done in H as ([[[r l1] n1] ks1] & s2 & (He & Hr)%receive_done & H).
  apply IH in H as (-> & -> & Ee). rewrite Ee, He. cbn [length]. unfold withdrawal.
  destruct (fixed_receiver o d) as [given|]; destruct Hr as (-> & Hr).
  - destruct Hr as (-> & -> & ->). cbn [receivers_of repeat zip_with concat]. by rewrite <- !app_assoc.
  - destruct Hr as (Hk & -> & ->). rewrite Hk. cbn [receivers_of seq map zip_with concat].
    by rewrite <- !app_assoc.
Qed.

Lemma validator_total config p k v n m rent ws s s' :
  withdraw_from_validator config p k v n m rent s = (Done ws, s') -> total_amount ws = n.
Proof.
  unfold withdraw_from_validator. intros H. do 5 (apply cbind_done in H as (? & ? & _ & H)).
  apply cret_done in H as [<- _]. unfold total_amount. cbn. lia.
Qed.

Lemma choose_total `{!RpcTypes} config p k reserve vote d tokens n m rent ws s s' :
  choose_withdraw_accounts config p k reserve vote d tokens n m rent s = (Done ws, s') -> in_range 64 n ->
  total_amount ws = n.
Proof.
  unfold choose_withdraw_accounts. intros Hc Hn. destruct reserve.
  { apply cret_done in Hc as [<- _]. unfold total_amount. cbn. lia. }
  destruct d as [d|]; [|destruct vote].
  - apply cbind_done in Hc as (? & ? & _ & Hc). by eapply validator_total.
  - by eapply validator_total.
  - destruct (prepare_reads _ _ _ _ _ _ _ _ Hc I) as (mb & ac & tr & rs & inv & s1 & s2 & ws' & left & Hi & Hw & Hr).
    destruct Hi as (? & ? & ? & ? & ? & ? & ? & _ & Hrent & -> & _ & _ & _ & _ & _ & _ & _ & _ & ->).
    apply minimum_balance_types in Hrent. unfold in_range in Hrent.
    apply withdraw_from_takes in Hw as [_ Hw]; [|unfold saturating_add, minimum_delegation, MINIMUM_ACTIVE_STAKE; lia
      | cbn; apply Z.mod_pos_bound; lia | exact Hn].
    destruct (Z.ltb_spec 0 left); [done|]. injection Hr as ->. pose proof (takes_total _ _ _ _ _ Hw).
    assert (0 <= left) by (eapply takes_nonneg; [exact Hw|]; unfold in_range in Hn; lia). lia.
Qed.

Lemma to_withdraw_done config p tokens amount s account n held s' :
  tokens_to_withdraw config p tokens amount s = (Done (account, n, held), s') ->
  account = default (get_associated_token_address (token_owner config) (pool_mint p) (token_program_id p)) tokens /\
  s' = mkCState (2 + requests s) (keypairs s) (events s) /\
  exists ma decimals ta,
    get_account (requests s) (pool_mint p) = Some ma /\ token_mint_decimals (acc_data ma) = Some decimals /\
    n = ui_amount_to_amount amount decimals /\
    get_account (1 + requests s) account = Some ta /\
    unpack_token (acc_data ta) = Some (mkTokenAccount (pool_mint p) held).
Proof.
  unfold tokens_to_withdraw. intros H.
  apply cbind_done in H as (dec & s1 & ((ma & Hma & Hd) & ->)%token_mint_done & H).
  apply cbind_done in H as (tk & s2 & Ht & [[= <- <- <-] ->]%cret_done). unfold get_token_account in Ht.
  apply cbind_done in Ht as (b & s3 & (ta & Hta & -> & ->)%account_data_done & Ht).
  apply cbind_done in Ht as (tk' & s4 & Hu & Ht). cbn [requests keypairs events] in *.
  destruct (unpack_token (acc_data ta)) as [[mt am]|] eqn:E; [|done]. injection Hu as <- <-.
  apply cbind_done in Ht as (u & s5 & (Hm & ->)%fail_when_done & [<- ->]%cret_done).
  apply negb_false_iff, key_eqb_eq in Hm. cbn in Hm. subst mt.
  split; [done|]. split; [done|]. by exists ma, dec, ta.
Qed.

Lemma delegation_done receiver s d s' :
  receiver_delegation receiver s = (Done d, s') ->
  s' = mkCState (match receiver with Some _ => 1 | None => 0 end + requests s) (keypairs s) (events s).
Proof.
  destruct receiver; cbn [receiver_delegation]; intros H.
  - apply cbind_done in H as (a & s1 & Ha & [_ ->]%cret_done). by injection Ha as _ <-.
  - apply cret_done in H as [_ ->]. by destruct s.
Qed.

(** C18: "withdraw-stake" withdraws exactly what it approves. A successful run hands over,
    after the update, one transaction. It reads the pool, the decimals of the pool's mint
    and the token account (the one named or the owner's associated one), which holds the
    tokens asked for; it lets a fresh key spend exactly these; the accounts chosen to
    withdraw from give tokens that sum to them; and the transaction is the approval, one
    withdrawal by that key per account, each into the receiver named or into a new
    account, and, when the receiver named is delegated, the merges of the new accounts
    into it. *)
Theorem withdraw_stake_sends `{Hrpc : !RpcTypes} config k reserve vote receiver tokens amount s u s' :
  command_withdraw_stake config k reserve vote receiver tokens amount s = (Done u, s') ->
  (forall decimals, in_range 64 (ui_amount_to_amount amount decimals)) ->
  exists s1 pa p ma decimals ta held rent d md ws s2 approve t,
    update_first config k s = (Done tt, s1) /\
    get_account (requests s1) k = Some pa /\ try_from_slice_unchecked stake_pool_codec (acc_data pa) = Ok p /\
    get_account (1 + requests s1) (pool_mint p) = Some ma /\ token_mint_decimals (acc_data ma) = Some decimals /\
    let n := ui_amount_to_amount amount decimals in
    let account :=
      default (get_associated_token_address (token_owner config) (pool_mint p) (token_program_id p)) tokens in
    get_account (2 + requests s1) account = Some ta /\
    unpack_token (acc_data ta) = Some (mkTokenAccount (pool_mint p) held) /\ n <= held /\
    get_minimum_balance_for_rent_exemption (3 + requests s1) STAKE_STATE_LEN = Some rent /\
    fst (receiver_delegation receiver (mkCState (4 + requests s1) (keypairs s1) (events s1))) = Done d /\
    let asked := (match receiver with Some _ => 1 | None => 0 end + (4 + requests s1))%nat in
    get_stake_minimum_delegation asked = Some md /\
    choose_withdraw_accounts config p k reserve vote d account n (minimum_delegation md) rent
      (mkCState (S asked) (keypairs s1) (events s1)) = (Done ws, s2) /\
    total_amount ws = n /\
    let authority := new_keypair (keypairs s2) in
    let fixed := fixed_receiver receiver d in
    let receivers := receivers_of fixed (S (keypairs s2)) (length ws) in
    token_approve (token_program_id p) account authority (token_owner config) n = Some approve /\
    transaction_of config
      (approve :: concat (zip_with (withdrawal config p k authority account fixed rent) ws receivers) ++
       merge_instructions config receiver d (match fixed with Some _ => [] | None => receivers end)) t /\
    events s' = events s1 ++ [waited config t].
Proof.
  unfold command_withdraw_stake. intros H Hf.
  apply cbind_done in H as (v1 & s1 & H1 & H). destruct v1.
  apply cbind_done in H as (p & s2 & ((pa & Hpa & Hp) & ->)%read_pool_done & H).
  apply cbind_done in H as ([[account n] held] & s3 & (Hacc & -> & ma & dec & ta & Hma & Hdec & Hn & Hta & Hheld)%to_withdraw_done & H).
  apply cbind_done in H as (rent & s4 & (Hrent & ->)%ask_done & H).
  apply cbind_done in H as (v2 & s5 & (Hle & ->)%fail_when_done & H). apply Z.ltb_ge in Hle.
  apply cbind_done in H as (d & s6 & Hd & H). pose proof (delegation_done _ _ _ _ Hd) as ->.
  apply cbind_done in H as (md & s7 & (Hmd & ->)%ask_done & H). cbn [requests keypairs events] in *.
  apply cbind_done in H as (ws & s8 & Hws & H).
  apply cbind_done in H as (authority & s9 & [= <- <-] & H). apply cbind_done in H as (approve & s10 & H10 & H).
  apply cbind_done in H as ([[l total] ks] & s11 & (-> & -> & E11)%withdraw_each_done & H). unfold sign_and_send in H.
  apply cbind_done in H as (t & s12 & Ht & H). apply send_done in H.
  destruct (yields_transaction_fee config (fun _ => True) _ _ _ _ _ _ Ht) as [_ Hq]. specialize (Hq _ eq_refl).
  assert (Ha : token_approve (token_program_id p) account (new_keypair (keypairs s8)) (token_owner config) n =
    Some approve /\ s10 = mkCState (requests s8) (S (keypairs s8)) (events s8)).
  { destruct (token_approve _ _ _ _ _); [|done]. by injection H10 as -> <-. }
  destruct Ha as [Ha ->]. cbn [requests keypairs events] in *. subst n account.
  exists s1, pa, p, ma, dec, ta, held, rent, d, md, ws, s8, approve, t. cbv zeta.
  do 8 (split; [first [exact H1 | assumption]|]). split; [exact Hrent|]. split; [exact (f_equal fst Hd)|]. split; [exact Hmd|].
  split; [exact Hws|]. split; [eapply choose_total; [exact Hws | apply Hf]|]. split; [exact Ha|].
  split; [exact Hq|]. rewrite H. f_equal. rewrite (quiet_done _ _ _ _ (quiet_checked _ _ _ _) Ht), E11.
  by rewrite (quiet_done _ _ _ _ (quiet_choose _ _ _ _ _ _ _ _ _ _) Hws).
Qed.
End Sends.

(** ** At the concrete client *)
(** At epoch 6 the concrete pool is out of date. *)
Definition toy_update : reply unit * CState :=
  command_update (RPC := toy_rpc_at 6) (RT := toy) toy_config toy_pool_key false false true toy_start.
Lemma toy_update_ok : fst toy_update = Done tt /\ length (events (snd toy_update)) = 2%nat.
Proof. vm_compute. split; reflexivity. Qed.

Definition toy_pool_account : Account := mkAccount 1000 (pad 1000 (enc stake_pool_codec toy_pool)) toy_program.
Lemma toy_pool_read : get_account (RpcClient := toy_rpc_at 6) (requests toy_start) toy_pool_key = Some toy_pool_account.
Proof. vm_compute. reflexivity. Qed.
Lemma toy_pool_decoded : try_from_slice_unchecked stake_pool_codec (acc_data toy_pool_account) = Ok toy_pool.
Proof. vm_compute. reflexivity. Qed.

Lemma update_sends_witness :
  exists ts t, length ts = 1%nat /\
    events (snd toy_update) = handed toy_config ts ++ [waited toy_config t].
Proof.
  destruct (update_sends (RPC := toy_rpc_at 6) (RT := toy) toy_config toy_pool_key false false true toy_start tt
    (snd toy_update)) as (pa & p & e & Hpa & Hp & He & H).
  - rewrite <- (proj1 toy_update_ok). exact (surjective_pairing toy_update).
  - reflexivity.
  - assert (e = 6) as -> by (cbn in He; congruence). pose proof (proj2 toy_update_ok) as Hlen.
    assert (pa = toy_pool_account) as -> by (rewrite toy_pool_read in Hpa; congruence).
    assert (p = toy_pool) as -> by (rewrite toy_pool_decoded in Hp; congruence). cbn [last_update_epoch toy_pool negb] in H. destruct H as (la & vl & ixs & finals & ts & t & _ & _ & _ & _ & _ & H).
    exists ts, t. split; [|exact H]. rewrite H in Hlen. revert Hlen. cbn [events toy_start app].
    destruct ts as [|x ts _] using rev_ind; [done|]. unfold handed. rewrite removelast_last, last_snoc, !length_app, length_map.
    cbn. lia.
Defined.

(** The first round of the search at the concrete client. *)
Lemma search_reads_reserve_witness :
  find_free_account (RPC := toy_rpc_at 5) (RT := toy) 1 toy_config toy_pool toy_pool_key toy_vote 0 toy_start =
    (Done (toy_validator_stake, None), mkCState 1 0 []).
Proof.
  destruct (search_reads_reserve (RPC := toy_rpc_at 5) (RT := toy) 0 toy_config toy_pool toy_pool_key toy_vote toy_start)
    as [H _].
  exact (H (mkAccount 1000000200 (pack_stake (StakeInitialized toy_meta)) toy_stake_program) eq_refl).
Defined.

(** The user of the concrete pool withdraws 2_500_000_000 tokens at epoch 5. *)
Definition toy_withdraw : reply unit * CState :=
  command_withdraw_stake (RPC := toy_rpc_at 5) (RT := toy) toy_config toy_pool_key false None None
    (Some toy_user_tokens) 2500000000 toy_start.
Lemma toy_withdraw_ok : fst toy_withdraw = Done tt /\ length (events (snd toy_withdraw)) = 1%nat.
Proof. vm_compute. split; reflexivity. Qed.

Lemma withdraw_stake_sends_witness :
  length (events (snd toy_withdraw)) = 1%nat /\
  exists s1 p decimals ws t,
    update_first (RPC := toy_rpc_at 5) (RT := toy) toy_config toy_pool_key toy_start = (Done tt, s1) /\
    total_amount ws = ui_amount_to_amount (Sdk := toy_sdk) 2500000000 decimals /\
    events (snd toy_withdraw) = events s1 ++ [waited toy_config t] /\
    exists j, is_Some (token_approve (token_program_id p) toy_user_tokens (new_keypair j) toy_user
                         (ui_amount_to_amount (Sdk := toy_sdk) 2500000000 decimals)).
Proof.
  split; [exact (proj2 toy_withdraw_ok)|].
  destruct (withdraw_stake_sends (RPC := toy_rpc_at 5) (RT := toy) toy_config toy_pool_key false None None
    (Some toy_user_tokens) 2500000000 toy_start tt (snd toy_withdraw))
    as (s1 & pa & p & ma & decimals & ta & held & rent & d & md & ws & s2 & approve & t & Hu & _ & _ & _ & _ & _ & _ &
        _ & _ & _ & _ & _ & Hn & Ha & _ & He).
  - rewrite <- (proj1 toy_withdraw_ok). exact (surjective_pairing toy_withdraw).
  - intros d. unfold in_range. cbn. lia.
  - exists s1, p, decimals, ws, t. split; [exact Hu|]. split; [exact Hn|]. split; [exact He|].
    eexists. eexists. exact Ha.
Defined.
