(* ===== verification/Grammar.v ===== *)
(** * The command line grammar (clients/cli/src/main.rs, 122-156 and 2268-3184)
    The arguments [main] declares to clap, one definition per subcommand, built with
    the builder's methods in the source's order. What clap and its helper library do
    with them is a parameter: [ClapUtils]. *)
From S2P Require Import Prelude.
From stdpp Require Export strings.
From Stdlib Require Export Ascii String.
Open Scope string_scope.
Open Scope list_scope.
Open Scope Z_scope.
Open Scope sp_scope.

(** ** The builders of clap that are used *)
(** The validators, by the names the source passes; [IsParsableU64] is
    [is_parsable::<u64>]. *)
Inductive Validator : Type :=
| IsUrl | IsValidSigner | IsParsableU64 | IsParsableU32 | IsComputeUnitLimitOrSimulated | IsPubkey
| IsValidPercentage | IsKeypairOrAskKeyword | IsAmount | IsValidPubkey.
#[export] Instance Validator_eq_dec : EqDecision Validator.
Proof. solve_decision. Defined.

Record Arg := mkArg {
  arg_name : string;
  arg_short : option string;
  arg_long : option string;
  arg_index : option nat;
  arg_validator : option Validator;
  arg_value_name : option string;
  arg_takes_value : bool;
  arg_required : bool;
  arg_global : bool;
  arg_possible_values : list string;
  arg_requires : option string;
  arg_default : option string;
  arg_help : string
}.
Record ArgGroup := mkGroup {
  group_name : string; group_members : list string; group_required : bool; group_multiple : bool
}.
Record SubCommand := mkSubCommand {
  sub_name : string; sub_about : string; sub_args : list Arg; sub_groups : list ArgGroup
}.

Definition with_name (n : string) : Arg :=
  mkArg n None None None None None false false false [] None None EmptyString.
Definition short (x : string) (a : Arg) : Arg :=
  mkArg (arg_name a) (Some x) (arg_long a) (arg_index a) (arg_validator a) (arg_value_name a) (arg_takes_value a)
    (arg_required a) (arg_global a) (arg_possible_values a) (arg_requires a) (arg_default a) (arg_help a).
Definition long (x : string) (a : Arg) : Arg :=
  mkArg (arg_name a) (arg_short a) (Some x) (arg_index a) (arg_validator a) (arg_value_name a) (arg_takes_value a)
    (arg_required a) (arg_global a) (arg_possible_values a) (arg_requires a) (arg_default a) (arg_help a).
Definition index (x : nat) (a : Arg) : Arg :=
  mkArg (arg_name a) (arg_short a) (arg_long a) (Some x) (arg_validator a) (arg_value_name a) (arg_takes_value a)
    (arg_required a) (arg_global a) (arg_possible_values a) (arg_requires a) (arg_default a) (arg_help a).
Definition validator (x : Validator) (a : Arg) : Arg :=
  mkArg (arg_name a) (arg_short a) (arg_long a) (arg_index a) (Some x) (arg_value_name a) (arg_takes_value a)
    (arg_required a) (arg_global a) (arg_possible_values a) (arg_requires a) (arg_default a) (arg_help a).
Definition value_name (x : string) (a : Arg) : Arg :=
  mkArg (arg_name a) (arg_short a) (arg_long a) (arg_index a) (arg_validator a) (Some x) (arg_takes_value a)
    (arg_required a) (arg_global a) (arg_possible_values a) (arg_requires a) (arg_default a) (arg_help a).
Definition takes_value (x : bool) (a : Arg) : Arg :=
  mkArg (arg_name a) (arg_short a) (arg_long a) (arg_index a) (arg_validator a) (arg_value_name a) x
    (arg_required a) (arg_global a) (arg_possible_values a) (arg_requires a) (arg_default a) (arg_help a).
Definition required (x : bool) (a : Arg) : Arg :=
  mkArg (arg_name a) (arg_short a) (arg_long a) (arg_index a) (arg_validator a) (arg_value_name a)
    (arg_takes_value a) x (arg_global a) (arg_possible_values a) (arg_requires a) (arg_default a) (arg_help a).
Definition global (x : bool) (a : Arg) : Arg :=
  mkArg (arg_name a) (arg_short a) (arg_long a) (arg_index a) (arg_validator a) (arg_value_name a)
    (arg_takes_value a) (arg_required a) x (arg_possible_values a) (arg_requires a) (arg_default a) (arg_help a).
Definition possible_values (x : list string) (a : Arg) : Arg :=
  mkArg (arg_name a) (arg_short a) (arg_long a) (arg_index a) (arg_validator a) (arg_value_name a)
    (arg_takes_value a) (arg_required a) (arg_global a) x (arg_requires a) (arg_default a) (arg_help a).
Definition requires (x : string) (a : Arg) : Arg :=
  mkArg (arg_name a) (arg_short a) (arg_long a) (arg_index a) (arg_validator a) (arg_value_name a)
    (arg_takes_value a) (arg_required a) (arg_global a) (arg_possible_values a) (Some x) (arg_default a) (arg_help a).
Definition default_value (x : option string) (a : Arg) : Arg :=
  mkArg (arg_name a) (arg_short a) (arg_long a) (arg_index a) (arg_validator a) (arg_value_name a)
    (arg_takes_value a) (arg_required a) (arg_global a) (arg_possible_values a) (arg_requires a) x (arg_help a).
Definition help (x : string) (a : Arg) : Arg :=
  mkArg (arg_name a) (arg_short a) (arg_long a) (arg_index a) (arg_validator a) (arg_value_name a)
    (arg_takes_value a) (arg_required a) (arg_global a) (arg_possible_values a) (arg_requires a) (arg_default a) x.

Definition group_named (n : string) : ArgGroup := mkGroup n [] false false.
Definition member (x : string) (g : ArgGroup) : ArgGroup :=
  mkGroup (group_name g) (group_members g ++ [x]) (group_required g) (group_multiple g).
Definition all_required (x : bool) (g : ArgGroup) : ArgGroup :=
  mkGroup (group_name g) (group_members g) x (group_multiple g).
Definition multiple (x : bool) (g : ArgGroup) : ArgGroup :=
  mkGroup (group_name g) (group_members g) (group_required g) x.

Definition subcommand (n : string) : SubCommand := mkSubCommand n EmptyString [] [].
Definition about (x : string) (s : SubCommand) : SubCommand :=
  mkSubCommand (sub_name s) x (sub_args s) (sub_groups s).
Definition arg (x : Arg) (s : SubCommand) : SubCommand :=
  mkSubCommand (sub_name s) (sub_about s) (sub_args s ++ [x]) (sub_groups s).
Definition group (x : ArgGroup) (s : SubCommand) : SubCommand :=
  mkSubCommand (sub_name s) (sub_about s) (sub_args s) (sub_groups s ++ [x]).

Declare Scope clap_scope.
Delimit Scope clap_scope with clap.
Notation "a '|>' f" := (f a) (at level 50, left associativity, only parsing) : clap_scope.
Open Scope clap_scope.

(** ** Numbers in text *)
(** [str::parse] for unsigned integers of [w] bits: decimal digits, at least one, after
    an optional plus sign, without overflow on the way. *)
Definition digit_of (c : ascii) : option Z :=
  let n := Z.of_N (N_of_ascii c) in if (48 <=? n) && (n <=? 57) then Some (n - 48) else None.
Fixpoint parse_digits (w acc : Z) (s : string) : option Z :=
  match s with
  | EmptyString => Some acc
  | String c s =>
      let? d := digit_of c in
      let? shifted := checked_mul w acc 10 in
      let? acc := checked_add w shifted d in
      parse_digits w acc s
  end.
Definition parse_uint (w : Z) (s : string) : option Z :=
  let digits := match s with
                | String c s' => if bool_decide (c = "+"%char) then s' else s
                | EmptyString => s
                end in
  match digits with EmptyString => None | _ => parse_digits w 0 digits end.

(** ** The library behind the arguments *)
(** solana-clap-utils, solana-cli-config and the float parser: which texts a validator
    accepts, what key a text stands for ([keypair_of_text] reads a keypair file or asks,
    [signer_from_path] takes a path, the name of the argument and whether a bare address
    will do), the configuration files. *)
Record CliConfig := mkCliConfig { cli_json_rpc_url : string; cli_keypair_path : string }.
Class ClapUtils (key amount : Type) := {
  library_accepts : Validator -> string -> bool;
  pubkey_of_text : string -> option key;
  keypair_of_text : string -> option key;
  signer_from_path : string -> string -> bool -> option key;
  f64_of_text : string -> option amount;
  compute_unit_price_arg : Arg;
  default_config_file : option string;
  load_cli_config : string -> option CliConfig;
  default_cli_config : CliConfig
}.

Record ArgConstant := mkArgConstant { constant_name : string; constant_long : string; constant_help : string }.
Definition COMPUTE_UNIT_LIMIT_ARG : ArgConstant := mkArgConstant "compute_unit_limit" "--with-compute-unit-limit"
  "Set compute unit limit for transaction, in compute units; also accepts keyword DEFAULT to use the default compute unit limit, which is 200k per top-level instruction, with a maximum of 1.4 million. If nothing is set, transactions are simulated prior to sending, and the compute units consumed are set as the limit. This may may fail if accounts are modified by another transaction between simulation and execution.".

Definition is_compute_unit_limit_or_simulated (s : string) : bool :=
  bool_decide (is_Some (parse_uint 32 s)) || bool_decide (s = "DEFAULT").

Section Grammar.
Context {key amount : Type} {CU : ClapUtils key amount}.

(** ** Arguments of every command *)
Definition global_args : list Arg :=
  [ with_name "config_file" |> short "C" |> long "config" |> value_name "PATH" |> takes_value true
      |> global true |> help "Configuration file to use" |> default_value default_config_file;
    with_name "verbose" |> long "verbose" |> short "v" |> takes_value false |> global true
        |> help "Show additional information";
    with_name "output_format" |> long "output" |> value_name "FORMAT" |> global true |> takes_value true
        |> possible_values ["json"; "json-compact"] |> help "Return information in specified output format";
    with_name "dry_run" |> long "dry-run" |> takes_value false |> global true
        |> help "Simulate transaction instead of executing";
    with_name "no_update" |> long "no-update" |> takes_value false |> global true
        |> help "Do not automatically update the stake pool if needed";
    with_name "json_rpc_url" |> long "url" |> value_name "URL" |> takes_value true |> validator IsUrl
        |> global true |> help "JSON RPC URL for the cluster.  Default from the configuration file.";
    with_name "staker" |> long "staker" |> value_name "KEYPAIR" |> validator IsValidSigner |> takes_value true
        |> global true |> help "Stake pool staker. [default: cli config keypair]";
    with_name "manager" |> long "manager" |> value_name "KEYPAIR" |> validator IsValidSigner
        |> takes_value true |> global true |> help "Stake pool manager. [default: cli config keypair]";
    with_name "funding_authority" |> long "funding-authority" |> value_name "KEYPAIR"
        |> validator IsValidSigner |> takes_value true |> global true
        |> help "Stake pool funding authority for deposits or withdrawals. [default: cli config keypair]";
    with_name "token_owner" |> long "token-owner" |> value_name "KEYPAIR" |> validator IsValidSigner
        |> takes_value true |> global true |> help "Owner of pool token account [default: cli config keypair]";
    with_name "fee_payer" |> long "fee-payer" |> value_name "KEYPAIR" |> validator IsValidSigner
        |> takes_value true |> global true |> help "Transaction fee payer account [default: cli config keypair]";
    compute_unit_price_arg |> validator IsParsableU64 |> global true;
    with_name (constant_name COMPUTE_UNIT_LIMIT_ARG) |> long (constant_long COMPUTE_UNIT_LIMIT_ARG)
        |> takes_value true |> value_name "COMPUTE-UNIT-LIMIT" |> help (constant_help COMPUTE_UNIT_LIMIT_ARG)
        |> validator IsComputeUnitLimitOrSimulated |> global true;
    with_name "program_id" |> long "program-id" |> validator IsPubkey |> value_name "PROGRAM-ID"
        |> takes_value true
        |> help "Stake pool program id. [default: spl_stake_pool::id() or spl_stake_pool::devnet::id(), depending on target network]"
        |> global true ].

(** ** The subcommands *)
Definition sub_create_pool : SubCommand :=
  subcommand "create-pool" |> about "Create a new stake pool"
    |> arg (with_name "epoch_fee_numerator" |> long "epoch-fee-numerator" |> short "n" |> validator IsParsableU64
          |> value_name "NUMERATOR" |> takes_value true |> required true
          |> help "Epoch fee numerator, fee amount is numerator divided by denominator.")
    |> arg (with_name "epoch_fee_denominator" |> long "epoch-fee-denominator" |> short "d"
          |> validator IsParsableU64 |> value_name "DENOMINATOR" |> takes_value true |> required true
          |> help "Epoch fee denominator, fee amount is numerator divided by denominator.")
    |> arg (with_name "withdrawal_fee_numerator" |> long "withdrawal-fee-numerator" |> validator IsParsableU64
          |> value_name "NUMERATOR" |> takes_value true |> requires "withdrawal_fee_denominator"
          |> help "Withdrawal fee numerator, fee amount is numerator divided by denominator [default: 0]")
    |> arg (with_name "withdrawal_fee_denominator" |> long "withdrawal-fee-denominator" |> validator IsParsableU64
          |> value_name "DENOMINATOR" |> takes_value true |> requires "withdrawal_fee_numerator"
          |> help "Withdrawal fee denominator, fee amount is numerator divided by denominator [default: 0]")
    |> arg (with_name "deposit_fee_numerator" |> long "deposit-fee-numerator" |> validator IsParsableU64
          |> value_name "NUMERATOR" |> takes_value true |> requires "deposit_fee_denominator"
          |> help "Deposit fee numerator, fee amount is numerator divided by denominator [default: 0]")
    |> arg (with_name "deposit_fee_denominator" |> long "deposit-fee-denominator" |> validator IsParsableU64
          |> value_name "DENOMINATOR" |> takes_value true |> requires "deposit_fee_numerator"
          |> help "Deposit fee denominator, fee amount is numerator divided by denominator [default: 0]")
    |> arg (with_name "referral_fee" |> long "referral-fee" |> validator IsValidPercentage
          |> value_name "FEE_PERCENTAGE" |> takes_value true |> help "Referral fee percentage, maximum 100")
    |> arg (with_name "max_validators" |> long "max-validators" |> short "m" |> validator IsParsableU32
          |> value_name "NUMBER" |> takes_value true |> required true
          |> help "Max number of validators included in the stake pool")
    |> arg (with_name "deposit_authority" |> long "deposit-authority" |> short "a" |> validator IsValidSigner
          |> value_name "DEPOSIT_AUTHORITY_KEYPAIR" |> takes_value true
          |> help "Deposit authority required to sign all deposits into the stake pool")
    |> arg (with_name "pool_keypair" |> long "pool-keypair" |> short "p" |> validator IsKeypairOrAskKeyword
          |> value_name "PATH" |> takes_value true |> help "Stake pool keypair [default: new keypair]")
    |> arg (with_name "validator_list_keypair" |> long "validator-list-keypair" |> validator IsKeypairOrAskKeyword
          |> value_name "PATH" |> takes_value true |> help "Validator list keypair [default: new keypair]")
    |> arg (with_name "mint_keypair" |> long "mint-keypair" |> validator IsKeypairOrAskKeyword |> value_name "PATH"
          |> takes_value true |> help "Stake pool mint keypair [default: new keypair]")
    |> arg (with_name "reserve_keypair" |> long "reserve-keypair" |> validator IsKeypairOrAskKeyword
          |> value_name "PATH" |> takes_value true |> help "Stake pool reserve keypair [default: new keypair]")
    |> arg (with_name "unsafe_fees" |> long "unsafe-fees" |> takes_value false
          |> help "Bypass fee checks, allowing pool to be created with unsafe fees").

Definition sub_create_token_metadata : SubCommand :=
  subcommand "create-token-metadata" |> about "Creates stake pool token metadata"
    |> arg (with_name "pool" |> index 1 |> validator IsPubkey |> value_name "POOL_ADDRESS" |> takes_value true
          |> required true |> help "Stake pool address")
    |> arg (with_name "name" |> index 2 |> value_name "TOKEN_NAME" |> takes_value true |> required true
          |> help "Name of the token")
    |> arg (with_name "symbol" |> index 3 |> value_name "TOKEN_SYMBOL" |> takes_value true |> required true
          |> help "Symbol of the token")
    |> arg (with_name "uri" |> index 4 |> value_name "TOKEN_URI" |> takes_value true |> required true
          |> help "URI of the token metadata json").

Definition sub_update_token_metadata : SubCommand :=
  subcommand "update-token-metadata" |> about "Updates stake pool token metadata"
    |> arg (with_name "pool" |> index 1 |> validator IsPubkey |> value_name "POOL_ADDRESS" |> takes_value true
          |> required true |> help "Stake pool address")
    |> arg (with_name "name" |> index 2 |> value_name "TOKEN_NAME" |> takes_value true |> required true
          |> help "Name of the token")
    |> arg (with_name "symbol" |> index 3 |> value_name "TOKEN_SYMBOL" |> takes_value true |> required true
          |> help "Symbol of the token")
    |> arg (with_name "uri" |> index 4 |> value_name "TOKEN_URI" |> takes_value true |> required true
          |> help "URI of the token metadata json").

Definition sub_add_validator : SubCommand :=
  subcommand "add-validator"
    |> about "Add validator account to the stake pool. Must be signed by the pool staker."
    |> arg (with_name "pool" |> index 1 |> validator IsPubkey |> value_name "POOL_ADDRESS" |> takes_value true
          |> required true |> help "Stake pool address")
    |> arg (with_name "vote_account" |> index 2 |> validator IsPubkey |> value_name "VOTE_ACCOUNT_ADDRESS"
          |> takes_value true |> required true
          |> help "The validator vote account that the stake is delegated to").

Definition sub_remove_validator : SubCommand :=
  subcommand "remove-validator"
    |> about "Remove validator account from the stake pool. Must be signed by the pool staker."
    |> arg (with_name "pool" |> index 1 |> validator IsPubkey |> value_name "POOL_ADDRESS" |> takes_value true
          |> required true |> help "Stake pool address")
    |> arg (with_name "vote_account" |> index 2 |> validator IsPubkey |> value_name "VOTE_ACCOUNT_ADDRESS"
          |> takes_value true |> required true |> help "Vote account for the validator to remove from the pool").

Definition sub_increase_validator_stake : SubCommand :=
  subcommand "increase-validator-stake"
    |> about "Increase stake to a validator, drawing from the stake pool reserve. Must be signed by the pool staker."
    |> arg (with_name "pool" |> index 1 |> validator IsPubkey |> value_name "POOL_ADDRESS" |> takes_value true
          |> required true |> help "Stake pool address")
    |> arg (with_name "vote_account" |> index 2 |> validator IsPubkey |> value_name "VOTE_ACCOUNT_ADDRESS"
          |> takes_value true |> required true |> help "Vote account for the validator to increase stake to")
    |> arg (with_name "amount" |> index 3 |> validator IsAmount |> value_name "AMOUNT" |> takes_value true
          |> help "Amount in SOL to add to the validator stake account. Must be at least the rent-exempt amount for a stake plus 1 SOL for merging.").

Definition sub_decrease_validator_stake : SubCommand :=
  subcommand "decrease-validator-stake"
    |> about "Decrease stake to a validator, splitting from the active stake. Must be signed by the pool staker."
    |> arg (with_name "pool" |> index 1 |> validator IsPubkey |> value_name "POOL_ADDRESS" |> takes_value true
          |> required true |> help "Stake pool address")
    |> arg (with_name "vote_account" |> index 2 |> validator IsPubkey |> value_name "VOTE_ACCOUNT_ADDRESS"
          |> takes_value true |> required true |> help "Vote account for the validator to decrease stake from")
    |> arg (with_name "amount" |> index 3 |> validator IsAmount |> value_name "AMOUNT" |> takes_value true
          |> help "Amount in SOL to remove from the validator stake account. Must be at least the rent-exempt amount for a stake.").

Definition sub_set_preferred_validator : SubCommand :=
  subcommand "set-preferred-validator"
    |> about "Set the preferred validator for deposits or withdrawals. Must be signed by the pool staker."
    |> arg (with_name "pool" |> index 1 |> validator IsPubkey |> value_name "POOL_ADDRESS" |> takes_value true
          |> required true |> help "Stake pool address")
    |> arg (with_name "preferred_type" |> index 2 |> value_name "OPERATION"
          |> possible_values ["deposit"; "withdraw"] |> takes_value true |> required true
          |> help "Operation for which to restrict the validator")
    |> arg (with_name "vote_account" |> long "vote-account" |> validator IsPubkey
          |> value_name "VOTE_ACCOUNT_ADDRESS" |> takes_value true
          |> help "Vote account for the validator that users must deposit into.")
    |> arg (with_name "unset" |> long "unset" |> takes_value false |> help "Unset the preferred validator.")
    |> group (group_named "validator" |> member "vote_account" |> member "unset" |> all_required true).

Definition sub_deposit_stake : SubCommand :=
  subcommand "deposit-stake"
    |> about "Deposit active stake account into the stake pool in exchange for pool tokens"
    |> arg (with_name "pool" |> index 1 |> validator IsPubkey |> value_name "POOL_ADDRESS" |> takes_value true
          |> required true |> help "Stake pool address")
    |> arg (with_name "stake_account" |> index 2 |> validator IsPubkey |> value_name "STAKE_ACCOUNT_ADDRESS"
          |> takes_value true |> required true |> help "Stake address to join the pool")
    |> arg (with_name "withdraw_authority" |> long "withdraw-authority" |> validator IsValidSigner
          |> value_name "KEYPAIR" |> takes_value true
          |> help "Withdraw authority for the stake account to be deposited. [default: cli config keypair]")
    |> arg (with_name "token_receiver" |> long "token-receiver" |> validator IsPubkey |> value_name "ADDRESS"
          |> takes_value true
          |> help "Account to receive the minted pool tokens. Defaults to the token-owner's associated pool token account. Creates the account if it does not exist.")
    |> arg (with_name "referrer" |> validator IsPubkey |> value_name "ADDRESS" |> takes_value true
          |> help "Pool token account to receive the referral fees for deposits. Defaults to the token receiver.").

Definition sub_deposit_all_stake : SubCommand :=
  subcommand "deposit-all-stake"
    |> about "Deposit all active stake accounts into the stake pool in exchange for pool tokens"
    |> arg (with_name "pool" |> index 1 |> validator IsPubkey |> value_name "POOL_ADDRESS" |> takes_value true
          |> required true |> help "Stake pool address")
    |> arg (with_name "stake_authority" |> index 2 |> validator IsPubkey |> value_name "ADDRESS" |> takes_value true
          |> required true |> help "Stake authority address to search for stake accounts")
    |> arg (with_name "withdraw_authority" |> long "withdraw-authority" |> validator IsValidSigner
          |> value_name "KEYPAIR" |> takes_value true
          |> help "Withdraw authority for the stake account to be deposited. [default: cli config keypair]")
    |> arg (with_name "token_receiver" |> long "token-receiver" |> validator IsPubkey |> value_name "ADDRESS"
          |> takes_value true
          |> help "Account to receive the minted pool tokens. Defaults to the token-owner's associated pool token account. Creates the account if it does not exist.")
    |> arg (with_name "referrer" |> validator IsPubkey |> value_name "ADDRESS" |> takes_value true
          |> help "Pool token account to receive the referral fees for deposits. Defaults to the token receiver.").

Definition sub_deposit_sol : SubCommand :=
  subcommand "deposit-sol" |> about "Deposit SOL into the stake pool in exchange for pool tokens"
    |> arg (with_name "pool" |> index 1 |> validator IsPubkey |> value_name "POOL_ADDRESS" |> takes_value true
          |> required true |> help "Stake pool address")
    |> arg (with_name "amount" |> index 2 |> validator IsAmount |> value_name "AMOUNT" |> takes_value true
          |> help "Amount in SOL to deposit into the stake pool reserve account.")
    |> arg (with_name "from" |> long "from" |> validator IsValidSigner |> value_name "KEYPAIR" |> takes_value true
          |> help "Source account of funds. [default: cli config keypair]")
    |> arg (with_name "token_receiver" |> long "token-receiver" |> validator IsPubkey
          |> value_name "POOL_TOKEN_RECEIVER_ADDRESS" |> takes_value true
          |> help "Account to receive the minted pool tokens. Defaults to the token-owner's associated pool token account. Creates the account if it does not exist.")
    |> arg (with_name "referrer" |> long "referrer" |> validator IsPubkey |> value_name "REFERRER_TOKEN_ADDRESS"
          |> takes_value true
          |> help "Account to receive the referral fees for deposits. Defaults to the token receiver.").

Definition sub_list : SubCommand :=
  subcommand "list" |> about "List stake accounts managed by this pool"
    |> arg (with_name "pool" |> index 1 |> validator IsPubkey |> value_name "POOL_ADDRESS" |> takes_value true
          |> required true |> help "Stake pool address.").

Definition sub_update : SubCommand :=
  subcommand "update"
    |> about "Updates all balances in the pool after validator stake accounts receive rewards."
    |> arg (with_name "pool" |> index 1 |> validator IsPubkey |> value_name "POOL_ADDRESS" |> takes_value true
          |> required true |> help "Stake pool address.")
    |> arg (with_name "force" |> long "force" |> takes_value false
          |> help "Update balances, even if it has already been performed this epoch.")
    |> arg (with_name "no_merge" |> long "no-merge" |> takes_value false
          |> help "Do not automatically merge transient stakes. Useful if the stake pool is in an expected state, but the balances still need to be updated.")
    |> arg (with_name "stale_only" |> long "stale-only" |> takes_value false
          |> help "If set, only updates validator list balances that have not been updated for this epoch. Otherwise, updates all validator balances on the validator list.").

Definition sub_withdraw_stake : SubCommand :=
  subcommand "withdraw-stake" |> about "Withdraw active stake from the stake pool in exchange for pool tokens"
    |> arg (with_name "pool" |> index 1 |> validator IsPubkey |> value_name "POOL_ADDRESS" |> takes_value true
          |> required true |> help "Stake pool address.")
    |> arg (with_name "amount" |> index 2 |> validator IsAmount |> value_name "AMOUNT" |> takes_value true
          |> required true |> help "Amount of pool tokens to withdraw for activated stake.")
    |> arg (with_name "pool_account" |> long "pool-account" |> validator IsPubkey |> value_name "ADDRESS"
          |> takes_value true
          |> help "Pool token account to withdraw tokens from. Defaults to the token-owner's associated token account.")
    |> arg (with_name "stake_receiver" |> long "stake-receiver" |> validator IsPubkey
          |> value_name "STAKE_ACCOUNT_ADDRESS" |> takes_value true |> requires "withdraw_from"
          |> help "Stake account from which to receive a stake from the stake pool. Defaults to a new stake account.")
    |> arg (with_name "vote_account" |> long "vote-account" |> validator IsPubkey
          |> value_name "VOTE_ACCOUNT_ADDRESS" |> takes_value true
          |> help "Validator to withdraw from. Defaults to the largest validator stakes in the pool.")
    |> arg (with_name "use_reserve" |> long "use-reserve" |> takes_value false
          |> help "Withdraw from the stake pool's reserve. Only possible if all validator stakes are at the minimum possible amount.")
    |> group (group_named "withdraw_from" |> member "use_reserve" |> member "vote_account").

Definition sub_withdraw_sol : SubCommand :=
  subcommand "withdraw-sol" |> about "Withdraw SOL from the stake pool's reserve in exchange for pool tokens"
    |> arg (with_name "pool" |> index 1 |> validator IsPubkey |> value_name "POOL_ADDRESS" |> takes_value true
          |> required true |> help "Stake pool address.")
    |> arg (with_name "sol_receiver" |> index 2 |> validator IsValidPubkey
          |> value_name "SYSTEM_ACCOUNT_ADDRESS_OR_KEYPAIR" |> takes_value true |> required true
          |> help "System account to receive SOL from the stake pool. Defaults to the payer.")
    |> arg (with_name "amount" |> index 3 |> validator IsAmount |> value_name "AMOUNT" |> takes_value true
          |> required true |> help "Amount of pool tokens to withdraw for SOL.")
    |> arg (with_name "pool_account" |> long "pool-account" |> validator IsPubkey |> value_name "ADDRESS"
          |> takes_value true
          |> help "Pool token account to withdraw tokens from. Defaults to the token-owner's associated token account.").

Definition sub_set_manager : SubCommand :=
  subcommand "set-manager"
    |> about "Change manager or fee receiver account for the stake pool. Must be signed by the current manager."
    |> arg (with_name "pool" |> index 1 |> validator IsPubkey |> value_name "POOL_ADDRESS" |> takes_value true
          |> required true |> help "Stake pool address.")
    |> arg (with_name "new_manager" |> long "new-manager" |> validator IsValidSigner |> value_name "KEYPAIR"
          |> takes_value true |> help "Keypair for the new stake pool manager.")
    |> arg (with_name "new_fee_receiver" |> long "new-fee-receiver" |> validator IsPubkey |> value_name "ADDRESS"
          |> takes_value true |> help "Public key for the new account to set as the stake pool fee receiver.")
    |> group (group_named "new_accounts" |> member "new_manager" |> member "new_fee_receiver" |> all_required true
          |> multiple true).

Definition sub_set_staker : SubCommand :=
  subcommand "set-staker"
    |> about "Change staker account for the stake pool. Must be signed by the manager or current staker."
    |> arg (with_name "pool" |> index 1 |> validator IsPubkey |> value_name "POOL_ADDRESS" |> takes_value true
          |> required true |> help "Stake pool address.")
    |> arg (with_name "new_staker" |> index 2 |> validator IsPubkey |> value_name "ADDRESS" |> takes_value true
          |> help "Public key for the new stake pool staker.").

Definition sub_set_funding_authority : SubCommand :=
  subcommand "set-funding-authority"
    |> about "Change one of the funding authorities for the stake pool. Must be signed by the manager."
    |> arg (with_name "pool" |> index 1 |> validator IsPubkey |> value_name "POOL_ADDRESS" |> takes_value true
          |> required true |> help "Stake pool address.")
    |> arg (with_name "funding_type" |> index 2 |> value_name "FUNDING_TYPE"
          |> possible_values ["stake-deposit"; "sol-deposit"; "sol-withdraw"] |> takes_value true
          |> required true |> help "Funding type to be updated.")
    |> arg (with_name "new_authority" |> index 3 |> validator IsPubkey |> value_name "AUTHORITY_ADDRESS"
          |> takes_value true |> help "Public key for the new stake pool funding authority.")
    |> arg (with_name "unset" |> long "unset" |> takes_value false
          |> help "Unset the stake deposit authority. The program will use a program derived address.")
    |> group (group_named "validator" |> member "new_authority" |> member "unset" |> all_required true).

Definition sub_set_fee : SubCommand :=
  subcommand "set-fee"
    |> about "Change the [epoch/withdraw/stake deposit/sol deposit] fee assessed by the stake pool. Must be signed by the manager."
    |> arg (with_name "pool" |> index 1 |> validator IsPubkey |> value_name "POOL_ADDRESS" |> takes_value true
          |> required true |> help "Stake pool address.")
    |> arg (with_name "fee_type" |> index 2 |> value_name "FEE_TYPE"
          |> possible_values ["epoch"; "stake-deposit"; "sol-deposit"; "stake-withdrawal"; "sol-withdrawal"]
          |> takes_value true |> required true |> help "Fee type to be updated.")
    |> arg (with_name "fee_numerator" |> index 3 |> validator IsParsableU64 |> value_name "NUMERATOR"
          |> takes_value true |> required true
          |> help "Fee numerator, fee amount is numerator divided by denominator.")
    |> arg (with_name "fee_denominator" |> index 4 |> validator IsParsableU64 |> value_name "DENOMINATOR"
          |> takes_value true |> required true
          |> help "Fee denominator, fee amount is numerator divided by denominator.").

Definition sub_set_referral_fee : SubCommand :=
  subcommand "set-referral-fee"
    |> about "Change the referral fee assessed by the stake pool for stake deposits. Must be signed by the manager."
    |> arg (with_name "pool" |> index 1 |> validator IsPubkey |> value_name "POOL_ADDRESS" |> takes_value true
          |> required true |> help "Stake pool address.")
    |> arg (with_name "fee_type" |> index 2 |> value_name "FEE_TYPE" |> possible_values ["stake"; "sol"]
          |> takes_value true |> required true |> help "Fee type to be updated.")
    |> arg (with_name "fee" |> index 3 |> validator IsValidPercentage |> value_name "FEE_PERCENTAGE"
          |> takes_value true |> required true |> help "Fee percentage, maximum 100").

Definition sub_set_max_validator_stake : SubCommand :=
  subcommand "set-max-validator-stake"
    |> about "Set the maximum stake per validator. Must be signed by the manager."
    |> arg (with_name "pool" |> index 1 |> validator IsPubkey |> value_name "POOL_ADDRESS" |> takes_value true
          |> required true |> help "Stake pool address.")
    |> arg (with_name "max_stake" |> index 2 |> value_name "MAX_STAKE" |> takes_value true |> required true
          |> help "Maximum stake per validator in SOL, or 'none' to remove the limit").

Definition sub_list_all : SubCommand :=
  subcommand "list-all" |> about "List information about all stake pools".

Definition subcommands : list SubCommand :=
  [sub_create_pool; sub_create_token_metadata; sub_update_token_metadata; sub_add_validator;
   sub_remove_validator; sub_increase_validator_stake; sub_decrease_validator_stake;
   sub_set_preferred_validator; sub_deposit_stake; sub_deposit_all_stake; sub_deposit_sol; sub_list;
   sub_update; sub_withdraw_stake; sub_withdraw_sol; sub_set_manager; sub_set_staker;
   sub_set_funding_authority; sub_set_fee; sub_set_referral_fee; sub_set_max_validator_stake; sub_list_all].
End Grammar.
