(* ===== verification/Arguments.v ===== *)
(** * Reading the arguments (clients/cli/src/main.rs, 89-156, 178-196 and 3186-3611)
    What [main] makes of the matches clap returns: the configuration of the client and
    the command of each subcommand with its arguments. *)
From S2P Require Import Prelude Error Fees State Borsh Runtime Checks Concrete Admin Instruction Builders Client ConcreteClient Plan Commands Grammar.
From stdpp Require Import list gmap strings pretty.
Open Scope string_scope.
Open Scope list_scope.
Open Scope Z_scope.
Open Scope sp_scope.

(** ** Matches *)
(** The arguments found, each with its value if it takes one. *)
Abbreviation Matches := (gmap string (option string)).
Definition value_of (m : Matches) (name : string) : option string := mjoin (m !! name).
Definition is_present (m : Matches) (name : string) : bool := bool_decide (is_Some (m !! name)).

(** What reading an argument comes to: a value, an exit with a message, a panic. *)
Inductive parsed (A : Type) : Type :=
| Given (a : A)
| Exits
| Aborts.
Arguments Given {A}.
Arguments Exits {A}.
Arguments Aborts {A}.

Definition pbind {A B} (p : parsed A) (k : A -> parsed B) : parsed B :=
  match p with Given a => k a | Exits => Exits | Aborts => Aborts end.
Notation "'arg!' x := p 'in' k" := (pbind p (fun x => k))
  (at level 10, x name, p at level 100, k at level 200) : sp_scope.
Definition punwrap {A} (o : option A) : parsed A := match o with Some a => Given a | None => Aborts end.
Definition or_exit {A} (o : option A) : parsed A := match o with Some a => Given a | None => Exits end.

(** [value_t!] and [value_t_or_exit!]. *)
Definition value_t {A} (parse : string -> option A) (m : Matches) (name : string) : option A :=
  value_of m name ≫= parse.
Definition value_t_or_exit {A} (parse : string -> option A) (m : Matches) (name : string) : parsed A :=
  or_exit (value_t parse m name).

(** The bytes of a string. *)
Definition bytes_of (s : string) : list Z := map (fun c => Z.of_N (N_of_ascii c)) (list_ascii_of_string s).

(** The texts of an enumeration, [None] where the source has [unreachable!]. *)
Definition one_of {A} (choices : list (string * A)) (s : string) : option A :=
  snd <$> List.find (fun c => String.eqb (fst c) s) choices.

(** [str::contains]. *)
Fixpoint contains (needle s : string) : bool :=
  String.prefix needle s || match s with EmptyString => false | String _ s => contains needle s end.

(** lib.rs [id] and [devnet::id], in base 58 there. *)
Definition spl_stake_pool_id : Pubkey :=
  82983081667677531458195936240854522793657249704870499098593991142366034446599.
Definition devnet_id : Pubkey :=
  110619881064027394795371898021887135578914187858801835546841176030233776696323.

Definition default_stake_pool_id (json_rpc_url : string) : Pubkey :=
  if contains "devnet" json_rpc_url then devnet_id else spl_stake_pool_id.

Definition parse_compute_unit_limit (s : string) : option ComputeUnitLimit :=
  match parse_uint 32 s with
  | Some compute_unit_limit => Some (StaticLimit compute_unit_limit)
  | None => if bool_decide (s = "DEFAULT") then Some DefaultLimit else None
  end.

Inductive OutputFormat : Type := Display | Json | JsonCompact | DisplayVerbose.

(** The rest of the source's [Config]: the address its [RpcClient] is made of and how
    to print. *)
Record Settings := mkSettings {
  rpc_url : string; verbose : bool; output_format : OutputFormat; client_config : Config
}.

Section Arguments.
Context `{SDK : Sdk} {CU : ClapUtils Pubkey F64}.

Definition pubkey_of (m : Matches) (name : string) : option Pubkey := value_of m name ≫= pubkey_of_text.
Definition keypair_of (m : Matches) (name : string) : option Pubkey := value_of m name ≫= keypair_of_text.

Definition get_signer (m : Matches) (keypair_name keypair_path : string) (allow_null_signer : bool)
    : parsed Pubkey :=
  or_exit (signer_from_path (default keypair_path (value_of m keypair_name)) keypair_name allow_null_signer).

(** ** The configuration *)
Definition read_cli_config (m : Matches) : CliConfig :=
  match value_of m "config_file" with
  | Some config_file => default default_cli_config (load_cli_config config_file)
  | None => default_cli_config
  end.

Definition build_config (m : Matches) (cli_config : CliConfig) : parsed Settings :=
  let json_rpc_url := default (cli_json_rpc_url cli_config) (value_of m "json_rpc_url") in
  arg! staker := get_signer m "staker" (cli_keypair_path cli_config) false in
  arg! funding_authority :=
    (if is_present m "funding_authority"
     then arg! k := get_signer m "funding_authority" (cli_keypair_path cli_config) false in Given (Some k)
     else Given None) in
  arg! manager := get_signer m "manager" (cli_keypair_path cli_config) false in
  arg! token_owner := get_signer m "token_owner" (cli_keypair_path cli_config) false in
  arg! fee_payer := get_signer m "fee_payer" (cli_keypair_path cli_config) false in
  let verbose := is_present m "verbose" in
  let stake_pool_program_id := default (default_stake_pool_id json_rpc_url) (pubkey_of m "program_id") in
  arg! output_format :=
    match value_of m "output_format" with
    | Some value => punwrap (one_of [("json", Json); ("json-compact", JsonCompact)] value)
    | None => Given (if verbose then DisplayVerbose else Display)
    end in
  let dry_run := is_present m "dry_run" in
  let no_update := is_present m "no_update" in
  let compute_unit_price := value_t (parse_uint 64) m (arg_name compute_unit_price_arg) in
  arg! compute_unit_limit :=
    match value_of m (constant_name COMPUTE_UNIT_LIMIT_ARG) with
    | Some x => punwrap (parse_compute_unit_limit x)
    | None => Given (if bool_decide (is_Some compute_unit_price) then SimulatedLimit else DefaultLimit)
    end in
  Given (mkSettings json_rpc_url verbose output_format
    (mkConfig stake_pool_program_id manager staker funding_authority token_owner fee_payer dry_run no_update
       compute_unit_price compute_unit_limit)).

(** ** The subcommands *)
(** [default_keypair] is the keypair path of the configuration file. *)
Variable default_keypair : string.

Definition arm_create_pool (m : Matches) : parsed Command :=
  let deposit_authority := keypair_of m "deposit_authority" in
  arg! e_numerator := value_t_or_exit (parse_uint 64) m "epoch_fee_numerator" in
  arg! e_denominator := value_t_or_exit (parse_uint 64) m "epoch_fee_denominator" in
  let w_numerator := value_t (parse_uint 64) m "withdrawal_fee_numerator" in
  let w_denominator := value_t (parse_uint 64) m "withdrawal_fee_denominator" in
  let d_numerator := value_t (parse_uint 64) m "deposit_fee_numerator" in
  let d_denominator := value_t (parse_uint 64) m "deposit_fee_denominator" in
  let referral_fee := value_t (parse_uint 8) m "referral_fee" in
  arg! max_validators := value_t_or_exit (parse_uint 32) m "max_validators" in
  let pool_keypair := keypair_of m "pool_keypair" in
  let validator_list_keypair := keypair_of m "validator_list_keypair" in
  let mint_keypair := keypair_of m "mint_keypair" in
  let reserve_keypair := keypair_of m "reserve_keypair" in
  let unsafe_fees := is_present m "unsafe_fees" in
  Given (CmdCreatePool deposit_authority (mkFee e_denominator e_numerator) (w_numerator, w_denominator)
    (d_numerator, d_denominator) referral_fee max_validators pool_keypair validator_list_keypair mint_keypair
    reserve_keypair unsafe_fees).

Definition arm_create_token_metadata (m : Matches) : parsed Command :=
  arg! stake_pool_address := punwrap (pubkey_of m "pool") in
  arg! name := value_t_or_exit Some m "name" in
  arg! symbol := value_t_or_exit Some m "symbol" in
  arg! uri := value_t_or_exit Some m "uri" in
  Given (CmdCreateTokenMetadata stake_pool_address (bytes_of name) (bytes_of symbol) (bytes_of uri)).

Definition arm_update_token_metadata (m : Matches) : parsed Command :=
  arg! stake_pool_address := punwrap (pubkey_of m "pool") in
  arg! name := value_t_or_exit Some m "name" in
  arg! symbol := value_t_or_exit Some m "symbol" in
  arg! uri := value_t_or_exit Some m "uri" in
  Given (CmdUpdateTokenMetadata stake_pool_address (bytes_of name) (bytes_of symbol) (bytes_of uri)).

Definition arm_add_validator (m : Matches) : parsed Command :=
  arg! stake_pool_address := punwrap (pubkey_of m "pool") in
  arg! vote_account_address := punwrap (pubkey_of m "vote_account") in
  Given (CmdAddValidator stake_pool_address vote_account_address).

Definition arm_remove_validator (m : Matches) : parsed Command :=
  arg! stake_pool_address := punwrap (pubkey_of m "pool") in
  arg! vote_account := punwrap (pubkey_of m "vote_account") in
  Given (CmdRemoveValidator stake_pool_address vote_account).

Definition arm_increase_validator_stake (m : Matches) : parsed Command :=
  arg! stake_pool_address := punwrap (pubkey_of m "pool") in
  arg! vote_account := punwrap (pubkey_of m "vote_account") in
  arg! amount := value_t_or_exit f64_of_text m "amount" in
  Given (CmdIncreaseValidatorStake stake_pool_address vote_account amount).

Definition arm_decrease_validator_stake (m : Matches) : parsed Command :=
  arg! stake_pool_address := punwrap (pubkey_of m "pool") in
  arg! vote_account := punwrap (pubkey_of m "vote_account") in
  arg! amount := value_t_or_exit f64_of_text m "amount" in
  Given (CmdDecreaseValidatorStake stake_pool_address vote_account amount).

Definition arm_set_preferred_validator (m : Matches) : parsed Command :=
  arg! stake_pool_address := punwrap (pubkey_of m "pool") in
  arg! operation := punwrap (value_of m "preferred_type") in
  arg! preferred_type := punwrap (one_of [("deposit", PreferDeposit); ("withdraw", PreferWithdraw)] operation) in
  let vote_account := pubkey_of m "vote_account" in
  Given (CmdSetPreferredValidator stake_pool_address preferred_type vote_account).

Definition arm_deposit_stake (m : Matches) : parsed Command :=
  arg! stake_pool_address := punwrap (pubkey_of m "pool") in
  arg! stake_account := punwrap (pubkey_of m "stake_account") in
  let token_receiver := pubkey_of m "token_receiver" in
  let referrer := pubkey_of m "referrer" in
  arg! withdraw_authority := get_signer m "withdraw_authority" default_keypair false in
  Given (CmdDepositStake stake_pool_address stake_account withdraw_authority token_receiver referrer).

Definition arm_deposit_sol (m : Matches) : parsed Command :=
  arg! stake_pool_address := punwrap (pubkey_of m "pool") in
  let token_receiver := pubkey_of m "token_receiver" in
  let referrer := pubkey_of m "referrer" in
  let from := keypair_of m "from" in
  arg! amount := value_t_or_exit f64_of_text m "amount" in
  Given (CmdDepositSol stake_pool_address from token_receiver referrer amount).

Definition arm_list (m : Matches) : parsed Command :=
  arg! stake_pool_address := punwrap (pubkey_of m "pool") in
  Given (CmdList stake_pool_address).

Definition arm_update (m : Matches) : parsed Command :=
  arg! stake_pool_address := punwrap (pubkey_of m "pool") in
  let no_merge := is_present m "no_merge" in
  let force := is_present m "force" in
  let stale_only := is_present m "stale_only" in
  Given (CmdUpdate stake_pool_address force no_merge stale_only).

Definition arm_withdraw_stake (m : Matches) : parsed Command :=
  arg! stake_pool_address := punwrap (pubkey_of m "pool") in
  let vote_account := pubkey_of m "vote_account" in
  let pool_account := pubkey_of m "pool_account" in
  arg! pool_amount := value_t_or_exit f64_of_text m "amount" in
  let stake_receiver := pubkey_of m "stake_receiver" in
  let use_reserve := is_present m "use_reserve" in
  Given (CmdWithdrawStake stake_pool_address use_reserve vote_account stake_receiver pool_account pool_amount).

Definition arm_withdraw_sol (m : Matches) : parsed Command :=
  arg! stake_pool_address := punwrap (pubkey_of m "pool") in
  let pool_account := pubkey_of m "pool_account" in
  arg! pool_amount := value_t_or_exit f64_of_text m "amount" in
  arg! sol_receiver := get_signer m "sol_receiver" default_keypair true in
  Given (CmdWithdrawSol stake_pool_address pool_account sol_receiver pool_amount).

Definition arm_set_manager (m : Matches) : parsed Command :=
  arg! stake_pool_address := punwrap (pubkey_of m "pool") in
  arg! new_manager :=
    (if bool_decide (is_Some (value_of m "new_manager"))
     then arg! path := punwrap (value_of m "new_manager") in
          arg! signer := get_signer m "new-manager" path true in
          Given (Some signer)
     else Given None) in
  let new_fee_receiver := pubkey_of m "new_fee_receiver" in
  Given (CmdSetManager stake_pool_address new_manager new_fee_receiver).

Definition arm_set_staker (m : Matches) : parsed Command :=
  arg! stake_pool_address := punwrap (pubkey_of m "pool") in
  arg! new_staker := punwrap (pubkey_of m "new_staker") in
  Given (CmdSetStaker stake_pool_address new_staker).

Definition arm_set_funding_authority (m : Matches) : parsed Command :=
  arg! stake_pool_address := punwrap (pubkey_of m "pool") in
  let new_authority := pubkey_of m "new_authority" in
  arg! text := punwrap (value_of m "funding_type") in
  arg! funding_type :=
    punwrap (one_of [("sol-deposit", FundSolDeposit); ("stake-deposit", FundStakeDeposit);
                     ("sol-withdraw", FundSolWithdraw)] text) in
  Given (CmdSetFundingAuthority stake_pool_address new_authority funding_type).

Definition fee_types : list (string * (Fee -> FeeType)) :=
  [("epoch", EpochFee); ("stake-deposit", StakeDeposit); ("sol-deposit", SolDeposit);
   ("stake-withdrawal", StakeWithdrawal); ("sol-withdrawal", SolWithdrawal)].
Definition arm_set_fee (m : Matches) : parsed Command :=
  arg! stake_pool_address := punwrap (pubkey_of m "pool") in
  arg! numerator := value_t_or_exit (parse_uint 64) m "fee_numerator" in
  arg! denominator := value_t_or_exit (parse_uint 64) m "fee_denominator" in
  arg! text := punwrap (value_of m "fee_type") in
  arg! make := punwrap (one_of fee_types text) in
  Given (CmdSetFee stake_pool_address make denominator numerator).

(** The test that the fee is at most 100 is part of [run_command]. *)
Definition arm_set_referral_fee (m : Matches) : parsed Command :=
  arg! stake_pool_address := punwrap (pubkey_of m "pool") in
  arg! fee := value_t_or_exit (parse_uint 8) m "fee" in
  arg! text := punwrap (value_of m "fee_type") in
  arg! make := punwrap (one_of [("sol", SolReferral); ("stake", StakeReferral)] text) in
  Given (CmdSetReferralFee stake_pool_address make fee).

Definition arm_set_max_validator_stake (m : Matches) : parsed Command :=
  arg! stake_pool_address := punwrap (pubkey_of m "pool") in
  arg! text := punwrap (value_of m "max_stake") in
  arg! max_stake :=
    (if bool_decide (text = "none") then Given None
     else arg! amount := or_exit (f64_of_text text) in Given (Some amount)) in
  Given (CmdSetMaxValidatorStake stake_pool_address max_stake).

Definition arm_deposit_all_stake (m : Matches) : parsed Command :=
  arg! stake_pool_address := punwrap (pubkey_of m "pool") in
  arg! stake_authority := punwrap (pubkey_of m "stake_authority") in
  let token_receiver := pubkey_of m "token_receiver" in
  let referrer := pubkey_of m "referrer" in
  arg! withdraw_authority := get_signer m "withdraw_authority" default_keypair false in
  Given (CmdDepositAllStake stake_pool_address stake_authority withdraw_authority token_receiver referrer).

(** The match on [matches.subcommand()]; any other name is [unreachable!]. *)
Definition arms : list (string * (Matches -> parsed Command)) :=
  [("create-pool", arm_create_pool); ("create-token-metadata", arm_create_token_metadata);
   ("update-token-metadata", arm_update_token_metadata); ("add-validator", arm_add_validator);
   ("remove-validator", arm_remove_validator); ("increase-validator-stake", arm_increase_validator_stake);
   ("decrease-validator-stake", arm_decrease_validator_stake);
   ("set-preferred-validator", arm_set_preferred_validator); ("deposit-stake", arm_deposit_stake);
   ("deposit-sol", arm_deposit_sol); ("list", arm_list); ("update", arm_update);
   ("withdraw-stake", arm_withdraw_stake); ("withdraw-sol", arm_withdraw_sol); ("set-manager", arm_set_manager);
   ("set-staker", arm_set_staker); ("set-funding-authority", arm_set_funding_authority);
   ("set-fee", arm_set_fee); ("set-referral-fee", arm_set_referral_fee);
   ("set-max-validator-stake", arm_set_max_validator_stake); ("list-all", fun _ => Given CmdListAll);
   ("deposit-all-stake", arm_deposit_all_stake)].
Definition dispatch (subcommand : string) (m : Matches) : parsed Command :=
  arg! arm := punwrap (one_of arms subcommand) in arm m.
End Arguments.

(** ** The program *)
(** How a run ends: the reply of the command it ran, or before one. [m] are the matches
    of the arguments of every command, [sub] those of the subcommand. The client talks
    to the node [connect] finds at the address of the configuration. *)
Definition main `{RT : Runtime} `{SV : Sysvars} `{SDK : Sdk} {CU : ClapUtils Pubkey F64}
    (connect : string -> RpcClient) (fuel : nat) (m : Matches) (subcommand : string) (sub : Matches)
    (s : CState) : parsed (reply unit * CState) :=
  let cli_config := read_cli_config m in
  arg! settings := build_config m cli_config in
  arg! command := dispatch (cli_keypair_path cli_config) subcommand sub in
  Given (run_command (RPC := connect (rpc_url settings)) fuel (client_config settings) command s).
