(* ===== verification/Parsed.v ===== *)
(** * What the arguments can be parsed to
    [respects] is what clap promises of the matches it returns for a grammar, [ClapLaws]
    what the validators of its helper library promise of a text they let through. From
    them: [main] panics on no declared arguments but those of "set-staker", and the
    command it runs is the one its subcommand and arguments name, part by part
    ([expressed]), and [expressible]. *)
From S2P Require Import Prelude Error Fees State Borsh Runtime Checks Concrete Admin Instruction Builders Built Client ConcreteClient Plan Commands Grammar Arguments.
From stdpp Require Import list gmap strings pretty.
Open Scope string_scope.
Open Scope list_scope.
Open Scope Z_scope.
Open Scope sp_scope.

Create HintDb arguments discriminated.

(** ** What clap guarantees *)
Section Respects.
Context {key amount : Type} {CU : ClapUtils key amount}.

Definition accepts (v : Validator) (s : string) : bool :=
  match v with
  | IsComputeUnitLimitOrSimulated => is_compute_unit_limit_or_simulated s
  | _ => library_accepts v s
  end.

(** The value of a match: none for a flag, else one of the possible values that the
    validator accepts. *)
Definition value_ok (a : Arg) (v : option string) : bool :=
  match v with
  | None => negb (arg_takes_value a)
  | Some s =>
      arg_takes_value a &&
      (match arg_possible_values a with [] => true | l => existsb (String.eqb s) l end) &&
      (match arg_validator a with Some v => accepts v s | None => true end)
  end.

(** An argument, or a group through one of its members. *)
Definition provided (groups : list ArgGroup) (m : Matches) (name : string) : bool :=
  match List.find (fun g => String.eqb (group_name g) name) groups with
  | Some g => existsb (is_present m) (group_members g)
  | None => is_present m name
  end.

Definition arg_ok (groups : list ArgGroup) (m : Matches) (a : Arg) : bool :=
  match m !! arg_name a with
  | Some v => value_ok a v && match arg_requires a with Some r => provided groups m r | None => true end
  | None => negb (arg_required a) && bool_decide (arg_default a = None)
  end.

Definition group_ok (m : Matches) (g : ArgGroup) : bool :=
  let n := length (List.filter (is_present m) (group_members g)) in
  (negb (group_required g) || (1 <=? n)%nat) && (group_multiple g || (n <=? 1)%nat).

Definition respects (args : list Arg) (groups : list ArgGroup) (m : Matches) : bool :=
  forallb (arg_ok groups m) args && forallb (group_ok m) groups &&
  forallb (fun name => existsb (fun a => String.eqb (arg_name a) name) args) (map fst (map_to_list m)).

(** The matches of a subcommand hold the arguments of every command too. What clap keeps
    under the names of groups is left out, since the source reads none of it. *)
Definition sub_respects (s : SubCommand) (m : Matches) : bool :=
  respects (sub_args s ++ global_args) (sub_groups s) m.

Definition arg_named (args : list Arg) (name : string) : option Arg :=
  List.find (fun a => String.eqb (arg_name a) name) args.

Definition declares (args : list Arg) (name : string) (P : Arg -> bool) : bool :=
  match arg_named args name with Some a => P a | None => false end.
Lemma declares_named args name P : declares args name P = true -> exists a, arg_named args name = Some a /\ P a = true.
Proof. unfold declares. destruct (arg_named args name); [eauto | done]. Qed.

Lemma arg_named_In args name a : arg_named args name = Some a -> In a args /\ arg_name a = name.
Proof. intros [H E]%find_some. by apply String.eqb_eq in E. Qed.

Lemma respects_arg args groups m name a :
  respects args groups m = true -> arg_named args name = Some a -> arg_ok groups m a = true /\ arg_name a = name.
Proof.
  intros [[H _]%andb_true_iff _]%andb_true_iff [Hin E]%arg_named_In.
  rewrite forallb_forall in H. split; [by apply H | exact E].
Qed.

Lemma respects_group args groups m g : respects args groups m = true -> In g groups -> group_ok m g = true.
Proof. intros [[_ H]%andb_true_iff _]%andb_true_iff Hin. rewrite forallb_forall in H. by apply H. Qed.

Lemma value_of_lookup (m : Matches) name s : value_of m name = Some s <-> m !! name = Some (Some s).
Proof. unfold value_of. destruct (m !! name) as [[x|]|]; cbn; naive_solver. Qed.

Lemma respects_value args groups m name a s :
  respects args groups m = true -> arg_named args name = Some a -> value_of m name = Some s ->
  value_ok a (Some s) = true.
Proof.
  intros H Ha Hs%value_of_lookup. destruct (respects_arg _ _ _ _ _ H Ha) as [Hok <-].
  unfold arg_ok in Hok. rewrite Hs in Hok. by apply andb_true_iff in Hok as [? _].
Qed.

Lemma respects_required args groups m name a :
  respects args groups m = true -> arg_named args name = Some a -> arg_required a = true ->
  arg_takes_value a = true -> exists s, value_of m name = Some s /\ value_ok a (Some s) = true.
Proof.
  intros H Ha Hr Ht. destruct (respects_arg _ _ _ _ _ H Ha) as [Hok <-]. unfold arg_ok in Hok.
  destruct (m !! arg_name a) as [[s|]|] eqn:E.
  - apply andb_true_iff in Hok as [? _]. exists s. split; [by apply value_of_lookup | done].
  - cbn in Hok. by rewrite Ht in Hok.
  - by rewrite Hr in Hok.
Qed.

Lemma respects_requires args groups m name r :
  respects args groups m = true -> declares args name (fun a => bool_decide (arg_requires a = Some r)) = true ->
  is_present m name = true -> provided groups m r = true.
Proof.
  intros H (a & Ha & Hr%bool_decide_eq_true)%declares_named [v Hv]%bool_decide_eq_true.
  destruct (respects_arg _ _ _ _ _ H Ha) as [Hok <-]. unfold arg_ok in Hok. rewrite Hv, Hr in Hok.
  by apply andb_true_iff in Hok as [_ ?].
Qed.

Definition validated_by (v : Validator) (a : Arg) : bool := bool_decide (arg_validator a = Some v).
Definition one_among (l : list string) (a : Arg) : bool := bool_decide (arg_possible_values a = l).

(** The same by position, past an argument whose name is the library's. *)
Lemma respects_nth args groups m i name (P : Arg -> bool) s :
  respects args groups m = true ->
  match nth_error args i with Some a => String.eqb (arg_name a) name && P a | None => false end = true ->
  value_of m name = Some s -> exists a, P a = true /\ value_ok a (Some s) = true.
Proof.
  intros [[H _]%andb_true_iff _]%andb_true_iff Hi Hs%value_of_lookup. rewrite forallb_forall in H.
  destruct (nth_error args i) as [a|] eqn:Ha; [|done]. apply nth_error_In, H in Ha.
  apply andb_true_iff in Hi as [<-%String.eqb_eq Hp]. exists a. split; [exact Hp|].
  unfold arg_ok in Ha. rewrite Hs in Ha. by apply andb_true_iff in Ha as [? _].
Qed.

Lemma value_ok_validator a v s : arg_validator a = Some v -> value_ok a (Some s) = true -> accepts v s = true.
Proof. intros E H. cbn in H. rewrite E in H. by apply andb_true_iff in H as [_ ?]. Qed.

Lemma value_ok_possible a s : arg_possible_values a <> [] -> value_ok a (Some s) = true -> In s (arg_possible_values a).
Proof.
  intros Hne H. cbn in H. apply andb_true_iff in H as [[_ H]%andb_true_iff _].
  destruct (arg_possible_values a) as [|x l]; [done|]. apply (existsb_exists (String.eqb s) (x :: l)) in H as (y & Hin & E).
  by apply String.eqb_eq in E as ->.
Qed.
End Respects.

(** ** What the validators of the library promise *)
Class ClapLaws {key amount : Type} (CU : ClapUtils key amount) : Prop := {
  parsable_u64 s : library_accepts IsParsableU64 s = true -> is_Some (parse_uint 64 s);
  parsable_u32 s : library_accepts IsParsableU32 s = true -> is_Some (parse_uint 32 s);
  valid_percentage s :
    library_accepts IsValidPercentage s = true -> exists n, parse_uint 8 s = Some n /\ n <= 100;
  valid_pubkey s : library_accepts IsPubkey s = true -> is_Some (pubkey_of_text s);
  valid_amount s : library_accepts IsAmount s = true -> is_Some (f64_of_text s)
}.

Lemma parse_digits_range w acc s n : 0 <= w -> in_range w acc -> parse_digits w acc s = Some n -> in_range w n.
Proof.
  intros Hw. revert acc. induction s as [|c s IH]; intros acc Ha H; cbn in H; [by injection H as <-|].
  destruct (digit_of c) as [d|]; [|done]. destruct (checked_mul w acc 10) as [x|]; [|done].
  destruct (checked_add w x d) as [y|] eqn:E; [|done]. apply (IH y); [|exact H].
  by apply checked_add_Some in E as [-> ?].
Qed.
Lemma parse_uint_range w s n : 0 <= w -> parse_uint w s = Some n -> in_range w n.
Proof.
  intros Hw H. unfold parse_uint in H. destruct (match s with EmptyString => _ | _ => _ end) eqn:E; [done|].
  apply parse_digits_range in H; [exact H | exact Hw |]. split; [lia|]. apply Z.pow_pos_nonneg; lia.
Qed.

(** ** Numbers written are read back *)
Lemma digit_of_pretty x : (x < 10)%N -> digit_of (pretty_N_char x) = Some (Z.of_N x).
Proof.
  intros H. assert (Hx : (x = 0 \/ x = 1 \/ x = 2 \/ x = 3 \/ x = 4 \/ x = 5 \/ x = 6 \/ x = 7 \/ x = 8 \/ x = 9)%N) by lia.
  repeat (destruct Hx as [-> | Hx]; [reflexivity|]). by subst.
Qed.

(** Reading the digits of [x] and then [s] is reading [s] after [x]. *)
Lemma parse_digits_pretty w x s :
  in_range w (Z.of_N x) -> parse_digits w 0 (pretty_N_go x s) = parse_digits w (Z.of_N x) s.
Proof.
  revert s. induction (N.lt_wf_0 x) as [x _ IH]; intros s Hx.
  destruct (decide (x = 0)%N) as [->|Hne]; [done|]. rewrite pretty_N_go_step by lia.
  assert (Hlt : (x / 10 < x)%N) by (apply N.div_lt; lia).
  assert (Hdiv : Z.of_N x = Z.of_N (x / 10) * 10 + Z.of_N (x mod 10))
    by (pose proof (N.div_mod x 10 ltac:(done)); lia).
  assert (Hmod : (x mod 10 < 10)%N) by (by apply N.mod_lt). unfold in_range in Hx.
  rewrite IH by (try done; unfold in_range; lia). cbn [parse_digits]. rewrite digit_of_pretty by done.
  revert Hdiv. generalize (x mod 10)%N, (x / 10)%N. intros r q Hdiv.
  assert (Hq : checked_mul w (Z.of_N q) 10 = Some (Z.of_N q * 10)) by (apply fit_in_range; unfold in_range; lia).
  assert (Hr : checked_add w (Z.of_N q * 10) (Z.of_N r) = Some (Z.of_N x))
    by (rewrite Hdiv; apply fit_in_range; unfold in_range; lia).
  by rewrite Hq, Hr.
Qed.

(** Digits are never taken for a sign. *)
Lemma parse_uint_digits w s n : parse_digits w 0 s = Some n -> s <> "" -> parse_uint w s = Some n.
Proof.
  intros H Hne. unfold parse_uint. destruct s as [|c s]; [done|].
  case_bool_decide as Hc; [|exact H]. subst c. discriminate H.
Qed.

Lemma parse_pretty w n : in_range w n -> parse_uint w (pretty n) = Some n.
Proof.
  intros Hn. destruct n as [|p|p]; [| |by destruct Hn].
  - apply parse_uint_digits; [|done]. change (pretty 0) with "0". cbn [parse_digits].
    change (digit_of "0") with (Some 0). cbv beta iota. unfold checked_mul, checked_add.
    rewrite (fit_in_range w (0 * 10) Hn). by rewrite (fit_in_range w (0 * 10 + 0) Hn).
  - assert (H : parse_digits w 0 (pretty (Z.pos p)) = Some (Z.pos p)).
    { unfold pretty, pretty_Z, pretty, pretty_positive, pretty, pretty_N. rewrite decide_False by done.
      by rewrite parse_digits_pretty. }
    apply parse_uint_digits; [exact H|]. intros E. rewrite E in H. injection H as H. lia.
Qed.

(** ** The commands the command line can express *)
Section Expressible.
Context `{SDK : Sdk}.

Definition range_if (w : Z) (o : option Z) : Prop := forall n, o = Some n -> in_range w n.
(** Both parts of an optional fee or neither. *)
Definition whole (fee : option Z * option Z) : Prop :=
  (is_Some (fst fee) <-> is_Some (snd fee)) /\ range_if 64 (fst fee) /\ range_if 64 (snd fee).

Definition expressible (c : Command) : Prop :=
  match c with
  | CmdCreatePool _ epoch_fee withdrawal_fee deposit_fee referral_fee max_validators _ _ _ _ _ =>
      in_range 64 (numerator epoch_fee) /\ in_range 64 (denominator epoch_fee) /\ whole withdrawal_fee /\
      whole deposit_fee /\ (forall n, referral_fee = Some n -> 0 <= n <= 100) /\ in_range 32 max_validators
  | CmdWithdrawStake _ use_reserve vote_account stake_receiver _ _ =>
      (use_reserve = true -> vote_account = None) /\
      (is_Some stake_receiver -> use_reserve = true \/ is_Some vote_account)
  | CmdSetManager _ new_manager new_fee_receiver => is_Some new_manager \/ is_Some new_fee_receiver
  | CmdSetFee _ make d n => In make (map snd fee_types) /\ in_range 64 d /\ in_range 64 n
  | CmdSetReferralFee _ make n => In make [SolReferral; StakeReferral] /\ 0 <= n <= 100
  | _ => True
  end.
End Expressible.

(** ** The command each subcommand stands for *)
Section Expressed.
Context `{SDK : Sdk} {CU : ClapUtils Pubkey F64}.
(** The keypair path of the configuration file, and the matches of the subcommand. *)
Variables (default_keypair : string) (m : Matches).

(** The text of the argument [name] means [x]. *)
Definition says {A} (parse : string -> option A) (name : string) (x : A) : Prop :=
  exists text, value_of m name = Some text /\ parse text = Some x.
Definition may_say {A} (parse : string -> option A) (name : string) (o : option A) : Prop :=
  match o with Some x => says parse name x | None => forall x, ~ says parse name x end.
(** [k] signs for the argument [name], or for the path [fallback] without it. *)
Definition signs (name fallback : string) (allow_null_signer : bool) (k : Pubkey) : Prop :=
  signer_from_path (default fallback (value_of m name)) name allow_null_signer = Some k.
Definition says_key := says pubkey_of_text.
Definition may_say_key := may_say pubkey_of_text.
Definition says_text := says (fun text => Some (bytes_of text)).

(** [expressed sub c]: the subcommand [sub] is that of [c], and each part of [c] is
    what the argument of that part's name says. *)
Definition expressed (sub : string) (c : Command) : Prop :=
  match c with
  | CmdCreatePool deposit_authority epoch_fee withdrawal_fee deposit_fee referral_fee max_validators
      pool_keypair validator_list_keypair mint_keypair reserve_keypair unsafe_fees =>
      sub = "create-pool" /\ may_say keypair_of_text "deposit_authority" deposit_authority /\
      says (parse_uint 64) "epoch_fee_numerator" (numerator epoch_fee) /\
      says (parse_uint 64) "epoch_fee_denominator" (denominator epoch_fee) /\
      may_say (parse_uint 64) "withdrawal_fee_numerator" (fst withdrawal_fee) /\
      may_say (parse_uint 64) "withdrawal_fee_denominator" (snd withdrawal_fee) /\
      may_say (parse_uint 64) "deposit_fee_numerator" (fst deposit_fee) /\
      may_say (parse_uint 64) "deposit_fee_denominator" (snd deposit_fee) /\
      may_say (parse_uint 8) "referral_fee" referral_fee /\ says (parse_uint 32) "max_validators" max_validators /\
      may_say keypair_of_text "pool_keypair" pool_keypair /\
      may_say keypair_of_text "validator_list_keypair" validator_list_keypair /\
      may_say keypair_of_text "mint_keypair" mint_keypair /\
      may_say keypair_of_text "reserve_keypair" reserve_keypair /\ unsafe_fees = is_present m "unsafe_fees"
  | CmdCreateTokenMetadata pool name symbol uri => sub = "create-token-metadata" /\
      says_key "pool" pool /\ says_text "name" name /\ says_text "symbol" symbol /\ says_text "uri" uri
  | CmdUpdateTokenMetadata pool name symbol uri => sub = "update-token-metadata" /\
      says_key "pool" pool /\ says_text "name" name /\ says_text "symbol" symbol /\ says_text "uri" uri
  | CmdAddValidator pool vote_account =>
      sub = "add-validator" /\ says_key "pool" pool /\ says_key "vote_account" vote_account
  | CmdRemoveValidator pool vote_account =>
      sub = "remove-validator" /\ says_key "pool" pool /\ says_key "vote_account" vote_account
  | CmdIncreaseValidatorStake pool vote_account amount => sub = "increase-validator-stake" /\
      says_key "pool" pool /\ says_key "vote_account" vote_account /\ says f64_of_text "amount" amount
  | CmdDecreaseValidatorStake pool vote_account amount => sub = "decrease-validator-stake" /\
      says_key "pool" pool /\ says_key "vote_account" vote_account /\ says f64_of_text "amount" amount
  | CmdSetPreferredValidator pool preferred_type vote_account =>
      sub = "set-preferred-validator" /\ says_key "pool" pool /\
      says (one_of [("deposit", PreferDeposit); ("withdraw", PreferWithdraw)]) "preferred_type" preferred_type /\
      may_say_key "vote_account" vote_account
  | CmdDepositStake pool stake_account withdraw_authority token_receiver referrer =>
      sub = "deposit-stake" /\ says_key "pool" pool /\ says_key "stake_account" stake_account /\
      signs "withdraw_authority" default_keypair false withdraw_authority /\
      may_say_key "token_receiver" token_receiver /\ may_say_key "referrer" referrer
  | CmdDepositSol pool from token_receiver referrer amount =>
      sub = "deposit-sol" /\ says_key "pool" pool /\ may_say keypair_of_text "from" from /\
      may_say_key "token_receiver" token_receiver /\ may_say_key "referrer" referrer /\
      says f64_of_text "amount" amount
  | CmdUpdate pool force no_merge stale_only => sub = "update" /\ says_key "pool" pool /\
      force = is_present m "force" /\ no_merge = is_present m "no_merge" /\
      stale_only = is_present m "stale_only"
  | CmdWithdrawStake pool use_reserve vote_account stake_receiver pool_account amount =>
      sub = "withdraw-stake" /\ says_key "pool" pool /\ use_reserve = is_present m "use_reserve" /\
      may_say_key "vote_account" vote_account /\ may_say_key "stake_receiver" stake_receiver /\
      may_say_key "pool_account" pool_account /\ says f64_of_text "amount" amount
  | CmdWithdrawSol pool pool_account sol_receiver amount => sub = "withdraw-sol" /\ says_key "pool" pool /\
      may_say_key "pool_account" pool_account /\ signs "sol_receiver" default_keypair true sol_receiver /\
      says f64_of_text "amount" amount
  | CmdSetManager pool new_manager new_fee_receiver => sub = "set-manager" /\ says_key "pool" pool /\
      match new_manager with
      | Some k => exists path, value_of m "new_manager" = Some path /\ signs "new-manager" path true k
      | None => value_of m "new_manager" = None
      end /\ may_say_key "new_fee_receiver" new_fee_receiver
  | CmdSetStaker pool new_staker =>
      sub = "set-staker" /\ says_key "pool" pool /\ says_key "new_staker" new_staker
  | CmdSetFundingAuthority pool new_authority funding_type =>
      sub = "set-funding-authority" /\ says_key "pool" pool /\ may_say_key "new_authority" new_authority /\
      says (one_of [("sol-deposit", FundSolDeposit); ("stake-deposit", FundStakeDeposit);
                    ("sol-withdraw", FundSolWithdraw)]) "funding_type" funding_type
  | CmdSetFee pool make fee_denominator fee_numerator => sub = "set-fee" /\ says_key "pool" pool /\
      says (parse_uint 64) "fee_numerator" fee_numerator /\
      says (parse_uint 64) "fee_denominator" fee_denominator /\
      says (one_of [("epoch", EpochFee); ("stake-deposit", StakeDeposit); ("sol-deposit", SolDeposit);
                    ("stake-withdrawal", StakeWithdrawal); ("sol-withdrawal", SolWithdrawal)]) "fee_type" make
  | CmdSetReferralFee pool make fee => sub = "set-referral-fee" /\ says_key "pool" pool /\
      says (one_of [("sol", SolReferral); ("stake", StakeReferral)]) "fee_type" make /\
      says (parse_uint 8) "fee" fee
  | CmdSetMaxValidatorStake pool max_stake => sub = "set-max-validator-stake" /\ says_key "pool" pool /\
      match max_stake with
      | Some amount => says f64_of_text "max_stake" amount /\ value_of m "max_stake" <> Some "none"
      | None => value_of m "max_stake" = Some "none"
      end
  | CmdList pool => sub = "list" /\ says_key "pool" pool
  | CmdListAll => sub = "list-all"
  | CmdDepositAllStake pool stake_authority withdraw_authority token_receiver referrer =>
      sub = "deposit-all-stake" /\ says_key "pool" pool /\ says_key "stake_authority" stake_authority /\
      signs "withdraw_authority" default_keypair false withdraw_authority /\
      may_say_key "token_receiver" token_receiver /\ may_say_key "referrer" referrer
  end.

Lemma pbind_Given {A B} (p : parsed A) (k : A -> parsed B) b :
  pbind p k = Given b -> exists a, p = Given a /\ k a = Given b.
Proof. destruct p; [eauto | done..]. Qed.
Lemma punwrap_Given {A} (o : option A) a : punwrap o = Given a -> o = Some a.
Proof. destruct o; [by intros [= ->] | done]. Qed.
Lemma or_exit_Given {A} (o : option A) a : or_exit o = Given a -> o = Some a.
Proof. destruct o; [by intros [= ->] | done]. Qed.

Lemma says_bind {A} (parse : string -> option A) name x : value_of m name ≫= parse = Some x -> says parse name x.
Proof. intros H. apply bind_Some in H as (s & Hs & Hx). by exists s. Qed.
Lemma says_unwrap {A} (parse : string -> option A) name s x :
  value_of m name = Some s -> parse s = Some x -> says parse name x.
Proof. by exists s. Qed.
Lemma may_say_bind {A} (parse : string -> option A) name : may_say parse name (value_of m name ≫= parse).
Proof.
  destruct (value_of m name ≫= parse) as [x|] eqn:E; cbn; [by apply says_bind|].
  intros x (s & Hs & Hx). rewrite Hs in E. cbn in E. congruence.
Qed.
Lemma says_bytes name s : value_t Some m name = Some s -> says_text name (bytes_of s).
Proof. unfold value_t. intros H. apply bind_Some in H as (? & Hs & [= ->]). by exists s. Qed.

#[local] Hint Resolve says_bind says_unwrap may_say_bind says_bytes : arguments.
#[local] Hint Unfold value_t pubkey_of keypair_of says_key may_say_key signs : arguments.

(** One read of an argument after another. *)
Ltac parts H :=
  repeat (let E := fresh "E" in apply pbind_Given in H as (? & E & H);
          first [apply punwrap_Given in E | apply or_exit_Given in E | idtac]);
  injection H as <-; cbn [expressed numerator denominator fst snd];
  repeat (match goal with |- _ /\ _ => split end).
Ltac open_arm H :=
  unfold arm_create_pool, arm_create_token_metadata, arm_update_token_metadata, arm_add_validator,
    arm_remove_validator, arm_increase_validator_stake, arm_decrease_validator_stake, arm_set_preferred_validator,
    arm_deposit_stake, arm_deposit_sol, arm_list, arm_update, arm_withdraw_stake, arm_withdraw_sol, arm_set_staker,
    arm_set_funding_authority, arm_set_fee, arm_set_referral_fee, arm_deposit_all_stake, value_t_or_exit,
    get_signer in H;
  cbv beta zeta in H.
Ltac said := first [reflexivity | assumption | by eauto with arguments
  | apply says_bytes; assumption | apply may_say_bind | apply says_bind; assumption | eapply says_unwrap; eassumption].

Lemma set_manager_expressed c : arm_set_manager m = Given c -> expressed "set-manager" c.
Proof.
  unfold arm_set_manager. intros H. apply pbind_Given in H as (pool & E%punwrap_Given & H).
  apply pbind_Given in H as (o & Eo & H). injection H as <-. split; [done|]. split; [said|]. split; [|said].
  case_bool_decide as Hn; [|injection Eo as <-; by apply eq_None_not_Some].
  apply pbind_Given in Eo as (path & Hp%punwrap_Given & Eo). apply pbind_Given in Eo as (k & Hk%or_exit_Given & Eo).
  injection Eo as <-. by exists path.
Qed.
Lemma set_max_validator_stake_expressed c :
  arm_set_max_validator_stake m = Given c -> expressed "set-max-validator-stake" c.
Proof.
  unfold arm_set_max_validator_stake. intros H. apply pbind_Given in H as (pool & E%punwrap_Given & H).
  apply pbind_Given in H as (s & Es%punwrap_Given & H). apply pbind_Given in H as (o & Eo & H). injection H as <-.
  split; [done|]. split; [said|]. case_bool_decide as Hn; [injection Eo as <-; by subst|].
  apply pbind_Given in Eo as (x & Hx%or_exit_Given & Eo). injection Eo as <-. split; [said|]. rewrite Es. congruence.
Qed.

(** What [main] dispatches to is what the arguments say. *)
Lemma dispatch_expressed sub c : dispatch default_keypair sub m = Given c -> expressed sub c.
Proof.
  unfold dispatch. intros H. apply pbind_Given in H as (arm & Ha%punwrap_Given & H).
  unfold one_of in Ha. destruct (List.find _ _) as [[name arm']|] eqn:Ef; [|done]. injection Ha as <-.
  apply find_some in Ef as [Hin <-%String.eqb_eq]. cbn [fst snd] in *. unfold arms in Hin. cbn [In] in Hin.
  repeat (destruct Hin as [[= <- <-] | Hin];
    [first [by apply set_manager_expressed | by apply set_max_validator_stake_expressed
           | open_arm H; parts H; said]|]). done.
Qed.
End Expressed.

Section Sound.
Context `{SDK : Sdk} {CU : ClapUtils Pubkey F64} {CL : ClapLaws CU}.
Variable default_keypair : string.

(** No signer can be read for the argument [name], or for the path without it. *)
Definition no_signer (m : Matches) (name fallback : string) (allow_null_signer : bool) : Prop :=
  signer_from_path (default fallback (value_of m name)) name allow_null_signer = None.
(** The signers that subcommands read. *)
Definition signers : list (string * (string * bool)) :=
  [("deposit-stake", ("withdraw_authority", false)); ("deposit-all-stake", ("withdraw_authority", false));
   ("withdraw-sol", ("sol_receiver", true))].

(** Why a run may end before its command: a signer that cannot be read, an amount left
    out where it may be, a maximum that is no number. *)
Definition exit_reason (name : string) (m : Matches) : Prop :=
  (exists arg allow, In (name, (arg, allow)) signers /\ no_signer m arg default_keypair allow) \/
  (name = "set-manager" /\ exists path, value_of m "new_manager" = Some path /\ no_signer m "new-manager" path true) \/
  (In name ["increase-validator-stake"; "decrease-validator-stake"; "deposit-sol"] /\ m !! "amount" = None) \/
  (name = "set-max-validator-stake" /\ exists s, value_of m "max_stake" = Some s /\ f64_of_text s = None).

(** [Reads sub m p]: reading gives an expressible command or has a reason to stop. *)
Definition Reads (name : string) (m : Matches) (p : parsed Command) : Prop :=
  match p with Given c => expressible c | Exits => exit_reason name m | Aborts => False end.

Section Arms.
Variables (args : list Arg) (groups : list ArgGroup) (m : Matches) (sub : string).
Hypothesis Hm : respects args groups m = true.

(** [needs v name]: the required argument [name] has a value that validator [v] accepts. *)
Definition needs (v : Validator) (name : string) : bool :=
  declares args name (fun a => arg_required a && arg_takes_value a && validated_by v a).
Definition may_have (v : Validator) (name : string) : bool :=
  declares args name (fun a => arg_takes_value a && validated_by v a).

Lemma needs_value v name : needs v name = true -> exists s, value_of m name = Some s /\ accepts v s = true.
Proof.
  intros (a & Ha & [[Hr Ht]%andb_true_iff Hv]%andb_true_iff)%declares_named. apply bool_decide_eq_true in Hv.
  destruct (respects_required _ _ _ _ _ Hm Ha Hr Ht) as (s & Hs & Hok). eauto using value_ok_validator.
Qed.

Lemma may_have_value v name :
  may_have v name = true ->
  m !! name = None \/ exists s, m !! name = Some (Some s) /\ accepts v s = true.
Proof.
  intros (a & Ha & [Ht Hv]%andb_true_iff)%declares_named. apply bool_decide_eq_true in Hv.
  destruct (respects_arg _ _ _ _ _ Hm Ha) as [Hok <-]. unfold arg_ok in Hok.
  destruct (m !! arg_name a) as [[s|]|]; [right| |by left].
  - apply andb_true_iff in Hok as [Hok _]. exists s. split; [done | by eapply value_ok_validator].
  - cbn in Hok. by rewrite Ht in Hok.
Qed.

Lemma required_key name : needs IsPubkey name = true -> exists k, pubkey_of m name = Some k.
Proof. intros (s & Hs & [k Hk]%valid_pubkey)%needs_value. exists k. unfold pubkey_of. by rewrite Hs. Qed.

(** A key given is read: its argument is present exactly when there is a key. *)
Lemma optional_key name : may_have IsPubkey name = true -> is_present m name = bool_decide (is_Some (pubkey_of m name)).
Proof.
  unfold is_present, pubkey_of, value_of. intros [-> | (s & -> & [k Hk]%valid_pubkey)]%may_have_value; [done|].
  cbn. by rewrite Hk.
Qed.

Lemma required_number v w name :
  (forall s, accepts v s = true -> is_Some (parse_uint w s)) -> 0 <= w -> needs v name = true ->
  exists n, value_t_or_exit (parse_uint w) m name = Given n /\ in_range w n.
Proof.
  intros Hp Hw (s & Hs & [n Hn]%Hp)%needs_value. exists n. unfold value_t_or_exit, value_t. rewrite Hs. cbn.
  rewrite Hn. split; [done | by eapply parse_uint_range].
Qed.

Lemma required_u64 name :
  needs IsParsableU64 name = true -> exists n, value_t_or_exit (parse_uint 64) m name = Given n /\ in_range 64 n.
Proof. apply required_number; [exact parsable_u64 | lia]. Qed.

Lemma optional_u64 name :
  may_have IsParsableU64 name = true ->
  is_present m name = bool_decide (is_Some (value_t (parse_uint 64) m name)) /\
  range_if 64 (value_t (parse_uint 64) m name).
Proof.
  unfold is_present, range_if, value_t, value_of.
  intros [-> | (s & -> & [n Hn]%parsable_u64)]%may_have_value; [done|]. cbn. rewrite Hn.
  split; [done|]. intros ? [= <-]. eapply parse_uint_range; [|exact Hn]. lia.
Qed.

Lemma required_amount name : needs IsAmount name = true -> exists n, value_t_or_exit f64_of_text m name = Given n.
Proof.
  intros (s & Hs & [n Hn]%valid_amount)%needs_value. exists n. unfold value_t_or_exit, value_t.
  rewrite Hs. cbn. by rewrite Hn.
Qed.

Lemma optional_amount name :
  may_have IsAmount name = true ->
  (exists n, value_t_or_exit f64_of_text m name = Given n) \/
  value_t_or_exit f64_of_text m name = Exits /\ m !! name = None.
Proof.
  unfold value_t_or_exit, value_t, value_of.
  intros [E | (s & -> & [n Hn]%valid_amount)]%may_have_value; [right | left].
  - by rewrite E.
  - exists n. cbn. by rewrite Hn.
Qed.

Lemma required_text name :
  declares args name (fun a => arg_required a && arg_takes_value a) = true ->
  exists s, value_of m name = Some s /\ value_t_or_exit Some m name = Given s.
Proof.
  intros (a & Ha & [Hr Ht]%andb_true_iff)%declares_named.
  destruct (respects_required _ _ _ _ _ Hm Ha Hr Ht) as (s & Hs & _). exists s.
  split; [exact Hs|]. unfold value_t_or_exit, value_t. by rewrite Hs.
Qed.

(** A required argument with possible values is one of them: every text has its
    meaning in [choices]. *)
Lemma required_choice {A} (choices : list (string * A)) name :
  declares args name (fun a => arg_required a && arg_takes_value a && bool_decide (arg_possible_values a <> []) &&
    forallb (fun s => bool_decide (is_Some (one_of choices s))) (arg_possible_values a)) = true ->
  exists s a, value_of m name = Some s /\ one_of choices s = Some a /\ In a (map snd choices).
Proof.
  intros (a & Ha & [[[Hr Ht]%andb_true_iff Hp]%andb_true_iff Hall]%andb_true_iff)%declares_named.
  apply bool_decide_eq_true in Hp. rewrite forallb_forall in Hall.
  destruct (respects_required _ _ _ _ _ Hm Ha Hr Ht) as (s & Hs & Hok).
  apply (value_ok_possible _ _ Hp), Hall, bool_decide_eq_true in Hok as [x Hx]. exists s, x.
  split; [exact Hs|]. split; [exact Hx|]. unfold one_of in Hx. destruct (List.find _ _) as [c|] eqn:E; [|done].
  apply find_some in E as [Hin _]. injection Hx as <-. by apply in_map.
Qed.

Lemma reads_signer name allow (k : Pubkey -> parsed Command) :
  In (sub, (name, allow)) signers -> (forall signer, Reads sub m (k signer)) ->
  Reads sub m (arg! signer := get_signer m name default_keypair allow in k signer).
Proof.
  intros Hin H. unfold get_signer. destruct (signer_from_path _ _ _) eqn:E; [apply H|]. left. exists name, allow. done.
Qed.
End Arms.

(** One step of reading a required argument. *)
Ltac declared := vm_compute; reflexivity.
Ltac key H name := let E := fresh "E" in
  destruct (required_key _ _ _ H name ltac:(declared)) as [? E]; rewrite E; cbn [punwrap pbind].
Ltac text H name := let E := fresh "E" in
  destruct (required_text _ _ _ H name ltac:(declared)) as (? & ? & E); rewrite E; cbn [pbind].
Ltac uint64 H name := let E := fresh "E" in
  destruct (required_u64 _ _ _ H name ltac:(declared)) as (? & E & ?); rewrite E; cbn [pbind].
Ltac amount H name := let E := fresh "E" in
  destruct (required_amount _ _ _ H name ltac:(declared)) as [? E]; rewrite E; cbn [pbind].
Ltac choice H choices name := let E := fresh "E" in let E' := fresh "E" in
  destruct (required_choice _ _ _ H choices name ltac:(declared)) as (? & ? & E & E' & ?); rewrite E;
  cbn [punwrap pbind]; rewrite E'; cbn [punwrap pbind].
Ltac arm H := unfold sub_respects in H.

Lemma reads_create_token_metadata m :
  sub_respects sub_create_token_metadata m = true ->
  Reads "create-token-metadata" m (arm_create_token_metadata m).
Proof. intros H. arm H. unfold arm_create_token_metadata. key H "pool". text H "name". text H "symbol". text H "uri". exact I. Qed.
Lemma reads_update_token_metadata m :
  sub_respects sub_update_token_metadata m = true ->
  Reads "update-token-metadata" m (arm_update_token_metadata m).
Proof. intros H. arm H. unfold arm_update_token_metadata. key H "pool". text H "name". text H "symbol". text H "uri". exact I. Qed.

Lemma reads_add_validator m :
  sub_respects sub_add_validator m = true -> Reads "add-validator" m (arm_add_validator m).
Proof. intros H. arm H. unfold arm_add_validator. key H "pool". key H "vote_account". exact I. Qed.
Lemma reads_remove_validator m :
  sub_respects sub_remove_validator m = true -> Reads "remove-validator" m (arm_remove_validator m).
Proof. intros H. arm H. unfold arm_remove_validator. key H "pool". key H "vote_account". exact I. Qed.

(** Where the amount may be left out, the run exits. *)
Lemma reads_amount args groups m sub (k : F64 -> parsed Command) :
  respects args groups m = true -> may_have args IsAmount "amount" = true ->
  In sub ["increase-validator-stake"; "decrease-validator-stake"; "deposit-sol"] ->
  (forall n, Reads sub m (k n)) -> Reads sub m (arg! n := value_t_or_exit f64_of_text m "amount" in k n).
Proof.
  intros H Ha Hsub Hk. destruct (optional_amount _ _ _ H _ Ha) as [[n ->] | [-> Hn]]; [apply Hk|].
  right. right. left. auto.
Qed.
Lemma reads_increase_validator_stake m :
  sub_respects sub_increase_validator_stake m = true ->
  Reads "increase-validator-stake" m (arm_increase_validator_stake m).
Proof.
  intros H. arm H. unfold arm_increase_validator_stake. key H "pool". key H "vote_account".
  apply (reads_amount _ _ _ _ _ H); [declared | simpl; tauto | intros; exact I].
Qed.
Lemma reads_decrease_validator_stake m :
  sub_respects sub_decrease_validator_stake m = true ->
  Reads "decrease-validator-stake" m (arm_decrease_validator_stake m).
Proof.
  intros H. arm H. unfold arm_decrease_validator_stake. key H "pool". key H "vote_account".
  apply (reads_amount _ _ _ _ _ H); [declared | simpl; tauto | intros; exact I].
Qed.
Lemma reads_deposit_sol m : sub_respects sub_deposit_sol m = true -> Reads "deposit-sol" m (arm_deposit_sol m).
Proof.
  intros H. arm H. unfold arm_deposit_sol. key H "pool".
  apply (reads_amount _ _ _ _ _ H); [declared | simpl; tauto | intros; exact I].
Qed.

Lemma reads_set_preferred_validator m :
  sub_respects sub_set_preferred_validator m = true ->
  Reads "set-preferred-validator" m (arm_set_preferred_validator m).
Proof.
  intros H. arm H. unfold arm_set_preferred_validator. key H "pool".
  choice H [("deposit", PreferDeposit); ("withdraw", PreferWithdraw)] "preferred_type". exact I.
Qed.
Lemma reads_deposit_stake m :
  sub_respects sub_deposit_stake m = true -> Reads "deposit-stake" m (arm_deposit_stake default_keypair m).
Proof.
  intros H. arm H. unfold arm_deposit_stake. key H "pool". key H "stake_account".
  apply reads_signer; [simpl; tauto|]. intros. exact I.
Qed.
Lemma reads_deposit_all_stake m :
  sub_respects sub_deposit_all_stake m = true ->
  Reads "deposit-all-stake" m (arm_deposit_all_stake default_keypair m).
Proof.
  intros H. arm H. unfold arm_deposit_all_stake. key H "pool". key H "stake_authority".
  apply reads_signer; [simpl; tauto|]. intros. exact I.
Qed.
Lemma reads_list m : sub_respects sub_list m = true -> Reads "list" m (arm_list m).
Proof. intros H. arm H. unfold arm_list. key H "pool". exact I. Qed.
Lemma reads_update m : sub_respects sub_update m = true -> Reads "update" m (arm_update m).
Proof. intros H. arm H. unfold arm_update. key H "pool". exact I. Qed.
Lemma reads_withdraw_sol m :
  sub_respects sub_withdraw_sol m = true -> Reads "withdraw-sol" m (arm_withdraw_sol default_keypair m).
Proof.
  intros H. arm H. unfold arm_withdraw_sol. key H "pool". amount H "amount". apply reads_signer; [simpl; tauto|]. intros. exact I.
Qed.

Lemma is_present_value (m : Matches) name s : value_of m name = Some s -> is_present m name = true.
Proof. intros Hs%value_of_lookup. unfold is_present. by rewrite Hs. Qed.

Lemma reads_withdraw_stake m :
  sub_respects sub_withdraw_stake m = true -> Reads "withdraw-stake" m (arm_withdraw_stake m).
Proof.
  intros H. arm H. unfold arm_withdraw_stake. key H "pool". amount H "amount".
  pose proof (optional_key _ _ _ H "vote_account" ltac:(declared)) as Hvote.
  assert (Hg := respects_group _ _ _ _ H (or_introl eq_refl)). cbn in Hg. rewrite Hvote in Hg.
  split.
  - intros Hr. rewrite Hr in Hg. destruct (pubkey_of m "vote_account"); [done | reflexivity].
  - unfold pubkey_of at 1. intros [k Hk]. destruct (value_of m "stake_receiver") as [s|] eqn:Hs; [|done].
    pose proof (respects_requires _ _ _ "stake_receiver" "withdraw_from" H ltac:(declared) (is_present_value _ _ _ Hs)) as Hp.
    unfold provided in Hp. cbn in Hp. rewrite Hvote in Hp.
    destruct (is_present m "use_reserve"); [by left|]. right. destruct (pubkey_of m "vote_account"); [eauto | done].
Qed.

Lemma reads_set_manager m : sub_respects sub_set_manager m = true -> Reads "set-manager" m (arm_set_manager m).
Proof.
  intros H. arm H. unfold arm_set_manager. key H "pool".
  pose proof (optional_key _ _ _ H "new_fee_receiver" ltac:(declared)) as Hfee.
  assert (Hg := respects_group _ _ _ _ H (or_introl eq_refl)). unfold group_ok in Hg. cbn in Hg. rewrite Hfee in Hg.
  destruct (value_of m "new_manager") as [s|] eqn:Hs.
  - cbn [punwrap pbind]. unfold get_signer. destruct (signer_from_path _ _ _) eqn:Es; cbn; [left; eauto|].
    right. left. eauto.
  - cbn. right. destruct (pubkey_of m "new_fee_receiver"); [eauto|].
    destruct (may_have_value _ _ _ H IsValidSigner "new_manager" ltac:(declared)) as [En | (s & En & _)].
    + unfold is_present in Hg. by rewrite En in Hg.
    + apply value_of_lookup in En. congruence.
Qed.

(** Nothing requires the new staker; the source unwraps it. *)
Lemma reads_set_staker m :
  sub_respects sub_set_staker m = true ->
  match arm_set_staker m with
  | Aborts => m !! "new_staker" = None
  | p => Reads "set-staker" m p
  end.
Proof.
  intros H. arm H. unfold arm_set_staker. key H "pool". unfold pubkey_of, value_of.
  destruct (may_have_value _ _ _ H IsPubkey "new_staker" ltac:(declared)) as [E0 | (s & E0 & [k Hk]%valid_pubkey)];
    rewrite E0; cbn; [done|]. by rewrite Hk.
Qed.

Lemma reads_set_funding_authority m :
  sub_respects sub_set_funding_authority m = true ->
  Reads "set-funding-authority" m (arm_set_funding_authority m).
Proof.
  intros H. arm H. unfold arm_set_funding_authority. key H "pool".
  choice H [("sol-deposit", FundSolDeposit); ("stake-deposit", FundStakeDeposit); ("sol-withdraw", FundSolWithdraw)]
    "funding_type". exact I.
Qed.
Lemma reads_set_fee m : sub_respects sub_set_fee m = true -> Reads "set-fee" m (arm_set_fee m).
Proof.
  intros H. arm H. unfold arm_set_fee. key H "pool". uint64 H "fee_numerator". uint64 H "fee_denominator".
  choice H fee_types "fee_type". repeat split; done || apply H0 || apply H1.
Qed.
Lemma reads_set_referral_fee m :
  sub_respects sub_set_referral_fee m = true -> Reads "set-referral-fee" m (arm_set_referral_fee m).
Proof.
  intros H. arm H. unfold arm_set_referral_fee. key H "pool".
  destruct (needs_value _ _ _ H IsValidPercentage "fee" ltac:(declared)) as (s & Hs & (n & Hn & Hle)%valid_percentage).
  unfold value_t_or_exit, value_t. rewrite Hs. cbn [mbind option_bind]. rewrite Hn. cbn [or_exit pbind].
  choice H [("sol", SolReferral); ("stake", StakeReferral)] "fee_type".
  apply parse_uint_range in Hn as [? _]; [|lia]. repeat split; done.
Qed.
Lemma reads_set_max_validator_stake m :
  sub_respects sub_set_max_validator_stake m = true ->
  Reads "set-max-validator-stake" m (arm_set_max_validator_stake m).
Proof.
  intros H. arm H. unfold arm_set_max_validator_stake. key H "pool".
  destruct (required_text _ _ _ H "max_stake" ltac:(declared)) as (s & Hs & _). rewrite Hs. cbn [punwrap pbind].
  destruct (bool_decide _); [exact I|]. destruct (f64_of_text s) eqn:Ef; [exact I|]. right. right. right. eauto.
Qed.

Lemma whole_fee args groups m a b :
  respects args groups m = true -> may_have args IsParsableU64 a = true -> may_have args IsParsableU64 b = true ->
  declares args a (fun x => bool_decide (arg_requires x = Some b)) = true ->
  declares args b (fun x => bool_decide (arg_requires x = Some a)) = true ->
  forallb (fun g => negb (String.eqb (group_name g) a) && negb (String.eqb (group_name g) b)) groups = true ->
  whole (value_t (parse_uint 64) m a, value_t (parse_uint 64) m b).
Proof.
  intros H Ha Hb Rab Rba Hg. destruct (optional_u64 _ _ _ H a Ha) as [Pa Ia].
  destruct (optional_u64 _ _ _ H b Hb) as [Pb Ib]. split; [|done]. cbn [fst snd].
  assert (Hno : forall r, r = a \/ r = b -> provided groups m r = is_present m r).
  { intros r Hr. unfold provided. destruct (List.find _ _) as [g|] eqn:E; [|done].
    apply find_some in E as [Hin <-%String.eqb_eq]. rewrite forallb_forall in Hg. specialize (Hg g Hin).
    destruct Hr as [<- | <-]; rewrite String.eqb_refl in Hg; cbn in Hg; rewrite ?andb_false_r in Hg; done. }
  split; intros Hs.
  - rewrite bool_decide_true in Pa by exact Hs. pose proof (respects_requires _ _ _ _ _ H Rab Pa) as Hp.
    rewrite Hno, Pb in Hp by auto. by apply bool_decide_eq_true in Hp.
  - rewrite bool_decide_true in Pb by exact Hs. pose proof (respects_requires _ _ _ _ _ H Rba Pb) as Hp.
    rewrite Hno, Pa in Hp by auto. by apply bool_decide_eq_true in Hp.
Qed.

Lemma reads_create_pool m : sub_respects sub_create_pool m = true -> Reads "create-pool" m (arm_create_pool m).
Proof.
  intros H. arm H. unfold arm_create_pool. uint64 H "epoch_fee_numerator". uint64 H "epoch_fee_denominator".
  destruct (required_number _ _ _ H IsParsableU32 32 "max_validators" parsable_u32 ltac:(lia) ltac:(declared))
    as (n & Hn & Rn).
  rewrite Hn. cbn [pbind Reads expressible numerator denominator]. do 2 (split; [done|]).
  split; [apply (whole_fee _ _ _ "withdrawal_fee_numerator" "withdrawal_fee_denominator" H); declared|].
  split; [apply (whole_fee _ _ _ "deposit_fee_numerator" "deposit_fee_denominator" H); declared|].
  split; [|done].
  unfold value_t, value_of. intros pct Hp.
  destruct (may_have_value _ _ _ H IsValidPercentage "referral_fee" ltac:(declared))
    as [En | (s & En & (k & Hk & Hle)%valid_percentage)]; rewrite En in Hp; [done|].
  cbn in Hp. rewrite Hk in Hp. injection Hp as <-. apply parse_uint_range in Hk as [? _]; lia.
Qed.

#[local] Hint Resolve reads_create_pool reads_create_token_metadata reads_update_token_metadata reads_add_validator
  reads_remove_validator reads_increase_validator_stake reads_decrease_validator_stake
  reads_set_preferred_validator reads_deposit_stake reads_deposit_all_stake reads_deposit_sol reads_list
  reads_update reads_withdraw_stake reads_withdraw_sol reads_set_manager reads_set_funding_authority reads_set_fee
  reads_set_referral_fee reads_set_max_validator_stake : arguments.

Lemma dispatch_reads (s : SubCommand) (m : Matches) :
  In s subcommands -> sub_respects s m = true ->
  match dispatch default_keypair (sub_name s) m with
  | Given c => expressible c
  | Exits => exit_reason (sub_name s) m
  | Aborts => sub_name s = "set-staker" /\ m !! "new_staker" = None
  end.
Proof.
  intros Hin H.
  assert (Hr : forall p, Reads (sub_name s) m p -> match p with
    | Given c => expressible c | Exits => exit_reason (sub_name s) m
    | Aborts => sub_name s = "set-staker" /\ m !! "new_staker" = None end) by (intros []; done).
  cbn [In subcommands] in Hin.
  repeat (destruct Hin as [<- | Hin]; [try (apply Hr; cbn; solve [auto with arguments | exact I])|]); [|done].
  pose proof (reads_set_staker m H) as Hs. cbn. by destruct (arm_set_staker m).
Qed.

(** ** The configuration *)
(** The key an argument of every command names, or the one of the configuration file. *)
Definition signs_as (m : Matches) (cli_config : CliConfig) (name : string) (k : Pubkey) : Prop :=
  signer_from_path (default (cli_keypair_path cli_config) (value_of m name)) name false = Some k.

(** Every setting, by the argument it comes from. *)
Definition configured (m : Matches) (cli_config : CliConfig) (st : Settings) : Prop :=
  let c := client_config st in
  rpc_url st = default (cli_json_rpc_url cli_config) (value_of m "json_rpc_url") /\
  verbose st = is_present m "verbose" /\
  match value_of m "output_format" with
  | Some text => one_of [("json", Json); ("json-compact", JsonCompact)] text = Some (output_format st)
  | None => output_format st = if is_present m "verbose" then DisplayVerbose else Display
  end /\
  stake_pool_program_id c =
    (match value_of m "program_id" ≫= pubkey_of_text with
     | Some id => id
     | None => if contains "devnet" (rpc_url st) then devnet_id else spl_stake_pool_id
     end) /\
  signs_as m cli_config "staker" (config_staker c) /\ signs_as m cli_config "manager" (config_manager c) /\
  signs_as m cli_config "token_owner" (token_owner c) /\ signs_as m cli_config "fee_payer" (fee_payer c) /\
  match funding_authority c with
  | Some k => is_present m "funding_authority" = true /\ signs_as m cli_config "funding_authority" k
  | None => is_present m "funding_authority" = false
  end /\
  dry_run c = is_present m "dry_run" /\ no_update c = is_present m "no_update" /\
  may_say m (parse_uint 64) (arg_name compute_unit_price_arg) (compute_unit_price c) /\
  range_if 64 (compute_unit_price c) /\
  match value_of m "compute_unit_limit" with
  | Some text => if String.eqb text "DEFAULT" then compute_unit_limit c = DefaultLimit
                 else exists n, parse_uint 32 text = Some n /\ in_range 32 n /\ compute_unit_limit c = StaticLimit n
  | None => compute_unit_limit c = match compute_unit_price c with Some _ => SimulatedLimit | None => DefaultLimit end
  end.

(** The arguments of every command that the configuration unwraps. *)
Lemma output_format_read m s :
  respects global_args [] m = true -> value_of m "output_format" = Some s ->
  exists f, one_of [("json", Json); ("json-compact", JsonCompact)] s = Some f.
Proof.
  intros H Hs.
  destruct (respects_nth _ _ _ 2 "output_format" (one_among ["json"; "json-compact"]) _ H
    ltac:(declared) Hs) as (a & Ha%bool_decide_eq_true & Hok).
  apply value_ok_possible in Hok; rewrite Ha in *; [|done]. destruct Hok as [<- | [<- | []]]; eexists; reflexivity.
Qed.

(** The validator lets through what the parser reads. *)
Lemma limit_accepted s :
  is_compute_unit_limit_or_simulated s = true ->
  exists l, parse_compute_unit_limit s = Some l /\
    if String.eqb s "DEFAULT" then l = DefaultLimit
    else exists n, parse_uint 32 s = Some n /\ in_range 32 n /\ l = StaticLimit n.
Proof.
  unfold is_compute_unit_limit_or_simulated, parse_compute_unit_limit. intros H.
  destruct (String.eqb_spec s "DEFAULT") as [->|Hne]; [by exists DefaultLimit|].
  destruct (parse_uint 32 s) as [n|] eqn:E.
  - exists (StaticLimit n). split; [done|]. exists n. split; [done|]. split; [|done].
    eapply parse_uint_range; [|exact E]. lia.
  - cbn in H. by apply bool_decide_eq_true in H.
Qed.

Lemma limit_read m s :
  respects global_args [] m = true -> value_of m "compute_unit_limit" = Some s ->
  is_compute_unit_limit_or_simulated s = true.
Proof.
  intros H Hs.
  destruct (respects_nth _ _ _ 12 "compute_unit_limit" (validated_by IsComputeUnitLimitOrSimulated) _ H
    ltac:(declared) Hs) as (a & Ha%bool_decide_eq_true & Hok).
  exact (value_ok_validator _ _ _ Ha Hok).
Qed.

(** The two settings read after the signers. *)
Lemma format_read m :
  respects global_args [] m = true ->
  exists f, match value_of m "output_format" with
    | Some value => punwrap (one_of [("json", Json); ("json-compact", JsonCompact)] value)
    | None => Given (if is_present m "verbose" then DisplayVerbose else Display)
    end = Given f /\
    match value_of m "output_format" with
    | Some text => one_of [("json", Json); ("json-compact", JsonCompact)] text = Some f
    | None => f = if is_present m "verbose" then DisplayVerbose else Display
    end.
Proof.
  intros H. destruct (value_of m "output_format") as [s|] eqn:E; [|eauto].
  destruct (output_format_read m s H E) as [f ->]. by exists f.
Qed.
Lemma limit_read_done m (price : option Z) :
  respects global_args [] m = true ->
  exists l, match value_of m (constant_name COMPUTE_UNIT_LIMIT_ARG) with
    | Some x => punwrap (parse_compute_unit_limit x)
    | None => Given (if bool_decide (is_Some price) then SimulatedLimit else DefaultLimit)
    end = Given l /\
    match value_of m "compute_unit_limit" with
    | Some text => if String.eqb text "DEFAULT" then l = DefaultLimit
                   else exists n, parse_uint 32 text = Some n /\ in_range 32 n /\ l = StaticLimit n
    | None => l = match price with Some _ => SimulatedLimit | None => DefaultLimit end
    end.
Proof.
  intros H. cbn [constant_name COMPUTE_UNIT_LIMIT_ARG]. destruct (value_of m "compute_unit_limit") as [s|] eqn:E.
  - destruct (limit_accepted s (limit_read m s H E)) as (l & -> & Hl). by exists l.
  - by destruct price; eexists.
Qed.

Lemma value_t_range w m name : 0 <= w -> range_if w (value_t (parse_uint w) m name).
Proof.
  intros Hw n Hn. unfold value_t in Hn. destruct (value_of m name) as [s|]; [|done].
  by eapply parse_uint_range; [|exact Hn].
Qed.

(** A signer of the configuration that cannot be read. *)
Definition unsigned (m : Matches) (cli_config : CliConfig) : Prop :=
  exists name, In name ["staker"; "funding_authority"; "manager"; "token_owner"; "fee_payer"] /\
    no_signer m name (cli_keypair_path cli_config) false.

(** Each signer is read, or the run exits for want of it. *)
Lemma signer_read m cli_config name :
  In name ["staker"; "funding_authority"; "manager"; "token_owner"; "fee_payer"] ->
  (exists k, get_signer m name (cli_keypair_path cli_config) false = Given k /\ signs_as m cli_config name k) \/
  get_signer m name (cli_keypair_path cli_config) false = Exits /\ unsigned m cli_config.
Proof.
  intros Hin. unfold get_signer, signs_as. destruct (signer_from_path _ _ _) eqn:E; [by left; eexists|].
  right. split; [done|]. by exists name.
Qed.

Ltac signer m cli_config name :=
  let E := fresh "E" in
  destruct (signer_read m cli_config name ltac:(simpl; tauto)) as [(? & E & ?) | [E ?]]; rewrite E; cbn [pbind];
  [|assumption].

Lemma config_reads m cli_config :
  respects global_args [] m = true ->
  match build_config m cli_config with
  | Given st => configured m cli_config st
  | Exits => unsigned m cli_config
  | Aborts => False
  end.
Proof.
  intros H. unfold build_config. destruct (format_read m H) as (f & -> & Hf).
  destruct (limit_read_done m (value_t (parse_uint 64) m (arg_name compute_unit_price_arg)) H) as (l & -> & Hl).
  signer m cli_config "staker".
  assert (Hfund : (exists o,
    (if is_present m "funding_authority"
     then arg! k := get_signer m "funding_authority" (cli_keypair_path cli_config) false in Given (Some k)
     else Given None) = Given o /\
    match o with
    | Some k => is_present m "funding_authority" = true /\ signs_as m cli_config "funding_authority" k
    | None => is_present m "funding_authority" = false
    end) \/
    (if is_present m "funding_authority"
     then arg! k := get_signer m "funding_authority" (cli_keypair_path cli_config) false in Given (Some k)
     else Given None) = Exits /\ unsigned m cli_config).
  { destruct (is_present m "funding_authority"); [|by left; eexists].
    destruct (signer_read m cli_config "funding_authority" ltac:(simpl; tauto)) as [(k & -> & ?) | [-> ?]];
      [left; by exists (Some k) | by right]. }
  destruct Hfund as [(o & -> & Ho) | [-> ?]]; cbn [pbind]; [|assumption].
  signer m cli_config "manager". signer m cli_config "token_owner". signer m cli_config "fee_payer".
  do 2 (split; [done|]). split; [exact Hf|]. split; [reflexivity|].
  do 4 (split; [assumption|]). split; [exact Ho|]. do 2 (split; [done|]).
  split; [apply may_say_bind|]. split; [by apply value_t_range | exact Hl].
Qed.
End Sound.

(** C21: what a run of the program reads. From matches of the declared grammar the
    arguments of every command give the configuration: each signer is the one its
    argument names or the configured one, the address, program, output format,
    compute-unit price and limit are those of their arguments or the defaults. The
    subcommand and its arguments give the command: [expressed] says, for each
    subcommand, which command that is and which argument each of its parts is read
    from, and what is read satisfies [expressible]. The run is that of this command. Or the
    program exits because a signer or a number cannot be read or an amount was left out.
    The only panic before the command is that of "set-staker" without a new staker,
    which the grammar allows. *)
Theorem main_reads `{RT : Runtime} `{SV : Sysvars} `{SDK : Sdk} {CU : ClapUtils Pubkey F64} {CL : ClapLaws CU}
    (connect : string -> RpcClient) (fuel : nat) (m : Matches) (sub : SubCommand) (sm : Matches) (s : CState) :
  respects global_args [] m = true -> In sub subcommands -> sub_respects sub sm = true ->
  let keypair_path := cli_keypair_path (read_cli_config m) in
  match main connect fuel m (sub_name sub) sm s with
  | Given run => exists settings command,
      configured m (read_cli_config m) settings /\
      expressed keypair_path sm (sub_name sub) command /\ expressible command /\
      run = run_command (RPC := connect (rpc_url settings)) fuel (client_config settings) command s
  | Exits => unsigned m (read_cli_config m) \/ exit_reason keypair_path (sub_name sub) sm
  | Aborts => sub_name sub = "set-staker" /\ sm !! "new_staker" = None
  end.
Proof.
  intros Hm Hin Hs. cbv zeta. unfold main. pose proof (config_reads m (read_cli_config m) Hm) as Hc.
  destruct (build_config _ _) as [settings| |]; cbn [pbind]; [| by left | done].
  pose proof (dispatch_reads (cli_keypair_path (read_cli_config m)) sub sm Hin Hs) as Hd.
  pose proof (dispatch_expressed (cli_keypair_path (read_cli_config m)) sm (sub_name sub)) as He.
  destruct (dispatch _ _ _) as [command| |]; cbn [pbind]; [|by right | exact Hd].
  exists settings, command. split; [exact Hc|]. split; [by apply He|]. by split.
Qed.

(** ** At the concrete client *)
(** Keys and amounts are decimal numbers; every signer is the user's. *)
Definition toy_accepts (v : Validator) (s : string) : bool :=
  match v with
  | IsUrl => true
  | IsValidPercentage => match parse_uint 8 s with Some n => n <=? 100 | None => false end
  | IsParsableU32 => bool_decide (is_Some (parse_uint 32 s))
  | IsParsableU64 | IsAmount => bool_decide (is_Some (parse_uint 64 s))
  | _ => bool_decide (is_Some (parse_uint 256 s))
  end.
#[export] Instance toy_clap : ClapUtils Pubkey (F64 (Sdk := toy_sdk)) := {|
  library_accepts := toy_accepts;
  pubkey_of_text := parse_uint 256;
  keypair_of_text := parse_uint 256;
  signer_from_path path _ _ := parse_uint 256 path;
  f64_of_text := parse_uint 64;
  compute_unit_price_arg := takes_value true (long "with-compute-unit-price" (with_name "compute_unit_price"));
  default_config_file := None;
  load_cli_config _ := None;
  default_cli_config := mkCliConfig "http://localhost:8899" (pretty toy_user)
|}.
#[export] Instance toy_clap_laws : ClapLaws toy_clap.
Proof.
  split; intros s H; cbn in H; try by apply bool_decide_eq_true in H.
  destruct (parse_uint 8 s) as [n|]; [|done]. exists n. split; [done | by apply Z.leb_le].
Qed.

Definition toy_matches : Matches := {[ "program_id" := Some (pretty toy_program) ]}.
Definition toy_deposit : Matches :=
  <["pool" := Some (pretty toy_pool_key)]> {[ "amount" := Some "1000000000" ]}.
(** The run of "deposit-sol" for the user of the concrete pool. *)
Definition toy_main : parsed (reply unit * CState) :=
  main (RT := toy) (CU := toy_clap) (fun _ => toy_rpc_at 5) 0 toy_matches "deposit-sol" toy_deposit toy_start.
Lemma toy_main_done :
  match toy_main with Given (Done tt, s) => length (events s) = 1%nat | _ => False end.
Proof. vm_compute. reflexivity. Qed.

(** "set-staker" without the new staker. *)
Lemma toy_set_staker :
  sub_respects (CU := toy_clap) sub_set_staker {[ "pool" := Some "4" ]} = true /\
  match dispatch (CU := toy_clap) "" "set-staker" {[ "pool" := Some "4" ]} with Aborts => True | _ => False end.
Proof. split; vm_compute; [reflexivity | exact I]. Qed.

Lemma main_reads_witness :
  match toy_main with Given (Done tt, s) => length (events s) = 1%nat | _ => False end /\
  exists settings command,
    configured (CU := toy_clap) toy_matches default_cli_config settings /\
    expressed (CU := toy_clap) (pretty toy_user) toy_deposit "deposit-sol" command /\ expressible command /\
    toy_main = Given (run_command (RPC := toy_rpc_at 5) (RT := toy) 0 (client_config settings) command toy_start).
Proof.
  split; [exact toy_main_done|]. pose proof toy_main_done as Hd.
  assert (H := main_reads (RT := toy) (CU := toy_clap) (fun _ => toy_rpc_at 5) 0 toy_matches sub_deposit_sol toy_deposit
    toy_start ltac:(vm_compute; reflexivity) ltac:(do 10 right; left; reflexivity) ltac:(vm_compute; reflexivity)).
  cbv zeta in H. change (main _ _ _ _ _ _) with toy_main in H. destruct toy_main as [r| |]; [|done..].
  destruct H as (settings & command & Hc & Hx & He & ->). by exists settings, command.
Defined.
